(* ===== verification/_CoqProject ===== *)
-Q . S2P
Prelude.v
RpcServer.v
DataStructure.v
Codec.v
Json.v
JsonProps.v
Samples.v
Server.v
ServerInvariant.v
ServerRequests.v
ServerProperties.v
Mailbox.v
DbInterface.v
DbTables.v
InMemoryDb.v
Redb.v
OpfsDb.v
OpfsRefinement.v
DbWorker.v
Lru.v
TxProcessing.v
Node.v
NodeLogic.v
MainService.v
NodeRun.v
NodeSamples.v
Interface.v
Session.v
MainServiceSafety.v
MainServiceProps.v
UpdateLoop.v
InterfaceProps.v
Nonces.v
Watchers.v
StorageProps.v
Startup.v
P2p.v
Logging.v
P2pProps.v
World.v
Transfer.v
ClientMetrics.v
RelayMetrics.v
MetricsHttp.v
RelayPages.v
BackendPages.v
Launcher.v
Prisma.v
SqliteDb.v
SqliteLogic.v
SqliteProps.v
SqliteHistory.v
NativeCodec.v
NativeTypes.v
NativeTx.v
NativeNode.v
NativeP2p.v
NativeRpc.v
NativeService.v
NativeRuns.v
NativeProps.v
NativeSamples.v
NativeWorld.v
NativeStart.v
