(* ===== verification/Prelude.v ===== *)
(** * Vane: a verification of the backend, of its nodes and of the relay's records

    Vane protects a transfer of cryptocurrency from a wrong address: the sender
    announces the transfer, the receiver proves with a signature that the address is
    its own, the sender signs, and only then does the sender's node submit it.  The
    program has a backend, which stores announced transfers and relays them between
    the parties, and a node, compiled to WebAssembly, that runs in each user's
    browser; a libp2p relay keeps records of its own.  An earlier node, a native program
    that talks to its peers directly and keeps a SQLite database, is still in the
    repository.  This library models them and proves what they promise, and where they
    do not.

    ** The parts and their files

    Paths are below [src/].

    - [DataStructure.v] ([primitives/src/data_structure.rs]): transactions and their
      states, chains, tokens, events, commands, records, the time-to-live wrapper.
      [Codec.v]: what the code relies on of SCALE, [serde_json] and [hex], as classes
      ([Codec], [TxJson], [Hex]) with round-trip laws, and a concrete codec.
      [Json.v], [JsonProps.v]: the [serde] serialisers and deserialisers of a transaction
      over JSON documents, the derived ones and those written by hand; over the text of a
      document ([JsonText]) they are an instance of [TxJson] with its laws.
    - Backend ([node/vane-backend/src/server.rs]).  [Server.v]: the state
      ([VaneSwarmServer]: requests with their expiry, index lists of senders and
      receivers, peers, gauges, events sent) and its handlers.  [ServerInvariant.v]: the
      invariant that every sequence of calls keeps.  [ServerRequests.v],
      [ServerProperties.v]: what each handler does on each branch.
      [Mailbox.v]: an ideal mailbox, the specification of the whole backend, and that the
      backend refines it.
      [ClientMetrics.v]: the record of the clients' exports.  [MetricsHttp.v]: the
      metrics pages of the backend and of the relay.  [BackendPages.v]: the routes of the
      backend's pages, and the two servers it runs ([RpcServer.v]: what it relies on of
      [jsonrpsee]).
    - Relay ([node/relay/src]).  [RelayMetrics.v]: what it counts and lists of the events
      of its swarm, and its own copy of the clients' record.  [RelayPages.v]: its registry
      and text page, its routes, its identity and its start.
    - Launcher ([app/src/main.rs]).  [Launcher.v]: the command line, the key of a relay, and
      the start of a relay or of the backend.
    - Database ([db-wasm/src/lib.rs]).  [DbInterface.v]: the interface the node uses
      ([DbWorkerInterface]), an abstract database that specifies it ([AbsDb]) and what it
      is to implement it ([DbRefines]).  [DbTables.v], [InMemoryDb.v]: the worker over
      hash maps.  [Redb.v], [OpfsDb.v], [OpfsRefinement.v]: the worker over [redb] and
      the origin-private file system, these two as classes with their laws and an
      instance.  [DbWorker.v]: the choice between the workers; every sequence of calls
      gives the same answers on the two of them.
    - Node ([node/wasm/src]).  [Lru.v]: the [lru] crate as a class, with a list cache as
      an instance.  [TxProcessing.v] ([tx_processing.rs], [cryptography.rs]): signatures,
      the multi-id, submission; cryptography ([Crypto]) and the functions imported from
      JavaScript ([Host]) are classes.  [Node.v]: the state the parts share: database,
      cache, channels, the integrity table, the host's calls, and the borrow flags of the
      [RefCell]s.  [MainService.v] ([lib.rs]): start-up, the handlers of messages from the
      network and of updates from the user, the update loop.  [Interface.v] and
      [Watchers.v] ([interface.rs]): the operations the user's page calls, and its
      subscriptions.  [Session.v]: the calls of the page ([PublicInterfaceWorkerJs]) and
      the background tasks of a node, in any order.  [Startup.v]: the entry point
      ([start_vane_web3]), and what the tasks it starts can do.  [Logging.v]
      ([logging.rs]): what is forwarded to the page's console, and at which level.  [P2p.v] ([p2p.rs]): the
      connection, commands to requests, events to messages, and the swarm handler's loop.
      [NodeLogic.v]: a program logic ([keeps]) for what a handler preserves, used for the
      cache ([MainServiceSafety.v]), the nonces ([Nonces.v]) and the queue of updates
      ([UpdateLoop.v]).
    - SQLite database ([db/src/lib.rs]).  [Prisma.v]: the schema, what the code relies on
      of the generated client ([PrismaClient], [PrismaLaws]; any call may fail,
      [PrismaReliable] says that none does) and a client in memory.  [SqliteDb.v]: the
      operations of [LocalDbWorker].  [SqliteLogic.v]: rules for the queries.
      [SqliteProps.v]: the tables' invariant and the address book they implement;
      [SqliteHistory.v]: recorded transactions, lookups, the nonce.
    - Native node ([node/native/src]).  [NativeCodec.v] and [NativeP2p.v] ([p2p.rs]): the
      framing of messages, the swarm's events and the commands to it.  [NativeTx.v]
      ([tx_processing.rs], [cryptography.rs]): signatures, creation and submission over
      alloy ([Alloy]).  [NativeRpc.v] ([rpc.rs]): what the user calls.  [NativeService.v]
      ([lib.rs]): start-up, the handlers of messages and updates, the tasks.
      [NativeTypes.v]: the data it shares with its database, in the shape these two crates
      use; [NativeNode.v]: its state.  [NativeRuns.v], [NativeProps.v]: what holds on all
      runs, and of each handler; [NativeSamples.v]: a concrete node.  [NativeWorld.v]: two
      nodes and the network between them.  [NativeStart.v]: the JSON-RPC server, the
      essential tasks, and what ends them.
    - [World.v]: the backend and any number of nodes together, as a step relation in which
      anyone may call the backend with anything; [World.act] executes it.  [Transfer.v]: a
      transfer in it, from the page of the sender to its chain.
    - [NodeRun.v] has the tactic [exec], which runs a handler on a symbolic node;
      [Samples.v] and [NodeSamples.v] concrete transactions, nodes and hosts.

    A request travels so: [Interface.initiate_transaction] queues it, the update loop
    ([MainService.handle_tx_update]) turns it into a command, [P2p.run_turn] into a call
    of [Server.handle_sender_request], whose event is filtered by [Server.should_send],
    becomes a message in [P2p.handle_backend_event], and is handled by
    [MainService.handle_swarm_message] on the receiver's node.

    ** How the code is modelled

    A fallible computation has an [outcome]: a value, an error ([Err]), a panic
    ([Panic], with its kind), or [Parked], a future that stays pending.  Code with
    state is in the monad [M S A := S → outcome A * S]: an error or a panic keeps the
    changes made before it.  A panic of the backend unwinds one task.  A panic of the
    node aborts the WebAssembly call without unwinding, so the guards it holds are never
    released: [Node.with_mut] and [Node.with_ref] keep the borrow then, and also while a
    future is pending.  A bounded channel refuses ([chan_try_send]) or parks
    ([chan_send]) when it is full; that another task may then make room is not followed,
    since each theorem has the room it needs as a hypothesis ([has_room]) or states what
    happens without it.  Integers are [N] or [Z] with the overflow of their width written
    out: [BuildProfile] selects the checked or the wrapping arithmetic of a build, and a
    theorem holds for both unless it names one.  The backend reads its clock several
    times in a handler: a handler takes a function from the index of the reading to the
    time.  The order in which a hash map or set is visited is an argument where it matters (in
  the pages, a [MetricsHttp.HashOrder]).
    Concurrent activities of a node are sequences of steps
    ([MainService.service_step]); each step runs to completion, or parks.  What other tasks
    do while a step waits for the host or for the database is not followed; the wait
    of [fetch_pending_tx_updates], two seconds by design, is.
    The loops of the code over collections are structural.  A loop over a channel is given
    a number of turns; one turn more than there are updates queued is enough for the
    update loop ([UpdateLoop.update_loop_comes_to_rest]), and more change nothing.  A lock
    of the relay is a [Mutex] with its poisoning; of the backend's pages, plain state.

    ** The theorems

    - Safety of submissions: on every run of every browser node, a transaction reaches its
      chain only after both signatures and its multi-id have been verified
      ([MainServiceSafety], [TxProcessing.receiver_validation_evm],
      [TxProcessing.multi_id_binds], [InterfaceProps.confirmations_are_of_the_recorded]).
      A run is a sequence of page calls and of steps of the tasks ([Session.session_run]).
      The same in every reachable state of the whole system, where a node is moreover only
      given messages that concern its user ([World.world_is_safe]).  Nothing but such
      transactions is submitted, and those can be: whatever went before, a transfer
      between two users whose nodes have joined can be completed
      ([Transfer.transfer_completes]); a concrete one is executed ([World.transfer]).
    - Invariants: the backend's tables ([ServerInvariant.backend_invariant]), the node's
      cache ([MainServiceSafety.cache_bounded_and_keyed]), the clients' record
      ([ClientMetrics.failures_collapse]).  The nonces a node issues over a session never
      repeat until their counter is exhausted ([Nonces.nonces_are_fresh], over any database
      that is a [Nonces.NonceStore]).  The SQLite tables stay linked whichever queries
      fail ([SqliteProps.database_integrity]); what holds on all runs of the native node
      ([NativeRuns.native_runs_invariant]).
    - Encodings: a message between native nodes is read back as it was written, whatever
      follows it ([NativeCodec.messages_round_trip]); a transaction is read back
      from its JSON as it was written, but for a fee that its text does not give back
      ([JsonProps.tx_json_round_trip]); the forms accepted for a
      state and for a request identifier.
    - Equivalence: the counters of the relay and of the clients' record, kept
      incrementally, are direct functions of the whole history
      ([MetricsHttp.relay_pages_show_history], [ClientMetrics.totals_of_the_history]); the
      relay's code for the record agrees with the backend's
      ([RelayMetrics.relay_store_agrees]); pages only read, reports apart
      ([RelayPages.only_reports_are_recorded], [BackendPages.pages_record_the_reports]);
      what the page's console shows is a filter of what was logged, at the level of the
      first start ([Logging.first_start_decides_the_logs]).
      Termination: [UpdateLoop].
    - Refinement: on every sequence of calls the backend accepts and refuses what an ideal
      mailbox does, in which nothing is swept ([Mailbox.backend_is_a_mailbox]).  The database
      workers implement one specification ([DbWorker.database_workers_agree]), atomically ([OpfsRefinement]); the storage of a
      node survives an export and a start ([StorageProps]).  The SQLite tables of saved peers
      implement a finite map from addresses to accounts
      ([SqliteProps.address_book_refined], [SqliteProps.address_book_read]), and the
      transactions recorded there are read back with their totals
      ([SqliteHistory.recorded_transactions_read_back]).
    - Function of each handler, errors included: [ServerProperties], [MainServiceProps],
      [InterfaceProps], and across the network [P2pProps]; for the native node
      [NativeProps]: a request is dialled and sent, shown to the receiver and answered once
      on the substream it came on, and the same between two nodes, through the bytes on a
      network that routes by peer, connection and substream ([NativeWorld.native_transfer]).
      Starting: [Startup], [RelayPages], [BackendPages], [NativeStart], and [Launcher], a relay runs under the key of its file.
    - Behaviour that surprises, stated as it is: double borrows that panic, the update
      loop that ends with the first error, index lists that expire before their requests,
      a watcher that dies on resubscription, the p2p loop that blocks without a watcher,
      the swarm handler that spins after a lost connection
      ([P2pProps.lost_connection_spins]), a node for oneself whose commands nobody takes
      ([Startup.self_node_commands_accumulate]), a large amount that ends the relay's record
      ([MetricsHttp.large_amount_poisons_the_relay]); on the native node a sender's check
      that is only logged ([NativeProps.sender_check_not_enforced]), a submission that
      leaves the signature out ([NativeProps.submission_is_not_the_signed_transaction]),
      a message that ends the whole node ([NativeStart.malformed_request_ends_the_node]),
      and a saved peer that its second account hides ([SqliteHistory.lookup_needs_sole_account]).

    ** What is not modelled

    The transports (HTTP, WebSocket, JSON-RPC framing) and the parsing of the command line;
    the conversion of JavaScript values and of posted bodies, the format of OpenMetrics
    and the [log] crate are parameters.  The libp2p relay behaviour is a third party's.
    What is logged is modelled where it is all a part does ([Logging.v]); elsewhere calls
    of the logging macros are left out.  [integration-test/src/lib.rs] is commented out
    from its first line to its last, and [node/test_client] is a manual test: it dials a
    relay and logs what libp2p reports.  Some declarations are used by nothing: the label
    structs of the relay's metrics, the simulations of [tx_processing.rs] that only return
    [Ok].

    The native node and its SQLite database are excluded from the cargo workspace and
    written against an earlier [data_structure.rs]: fields such as [tx_state.network] and
    the type [PeerRecord] are no longer declared anywhere.  They are modelled over types
    read off their own literals, matches and conversions ([NativeTypes.v]; the records of
    [SqliteDb.v]); encodings and parsers of the earlier types are operations of the class
    [Earlier], which assumes of them only that a transaction decodes to what was encoded.
    Left out there: the waits for a dial, and a substream that fails while it is written;
    the [moka] cache may drop entries at any operation, so its expiry is covered. *)

From stdpp Require Export base gmap strings list numbers.
From Stdlib Require Export Strings.Byte.

Declare Scope vane_scope.
Delimit Scope vane_scope with vane.
Open Scope vane_scope.

(** ** Bytes and strings

A Rust [String] is a sequence of UTF-8 bytes; a Rocq [string] is a sequence
of bytes, so [String::as_bytes] is the standard conversion. *)

Abbreviation bytes := (list Byte.byte).

#[export] Instance byte_eq_decision : EqDecision Byte.byte := Byte.byte_eq_dec.

#[export] Instance byte_countable : Countable Byte.byte :=
  inj_countable Byte.to_N Byte.of_N Byte.of_to_N.

Definition as_bytes (s : string) : bytes := String.list_byte_of_string s.

Lemma as_bytes_app (s t : string) :
  as_bytes (s +:+ t) = as_bytes s ++ as_bytes t.
Proof.
  unfold as_bytes, String.list_byte_of_string.
  induction s as [|c s IH]; [reflexivity|].
  simpl. f_equal. exact IH.
Qed.

#[export] Instance as_bytes_inj : Inj (=) (=) as_bytes.
Proof.
  intros s t H. unfold as_bytes in H.
  rewrite <- (String.string_of_list_byte_of_string s).
  rewrite <- (String.string_of_list_byte_of_string t).
  by rewrite H.
Qed.

(** ** Machine integers

Unsigned integers of width [w] are [N]; [i64] is [Z].  Whether [a + b]
panics or wraps on overflow depends on the build profile (debug or
release), so the operators take it from an instance of [BuildProfile]. *)

Class BuildProfile := overflow_checks : bool.

(** The profiles of [cargo build --release] and [cargo build]. *)
Definition release_profile : BuildProfile := false.
Definition debug_profile : BuildProfile := true.

Definition umax (w : N) : N := (2 ^ w - 1)%N.
Definition wrap (w n : N) : N := (n mod 2 ^ w)%N.
Definition fits (w n : N) : Prop := (n < 2 ^ w)%N.
#[export] Instance fits_dec w n : Decision (fits w n) := N.lt_dec n (2 ^ w)%N.

Definition saturating_add (w a b : N) : N := N.min (a + b) (umax w).
Definition saturating_sub (a b : N) : N := (a - b)%N.

Definition i64_wrap (z : Z) : Z := ((z + 2 ^ 63) mod 2 ^ 64 - 2 ^ 63)%Z.
Definition i64_fits (z : Z) : Prop := (- 2 ^ 63 <= z < 2 ^ 63)%Z.
(** [n as i64] for an unsigned [n]: the low 64 bits, read as two's complement. *)
Definition as_i64 (n : N) : Z := i64_wrap (Z.of_N n).
(** [z as u128] for a signed [z]: sign extension to 128 bits. *)
Definition i64_as_u128 (z : Z) : N := Z.to_N (z mod 2 ^ 128)%Z.

Lemma i64_wrap_fits z : i64_fits (i64_wrap z).
Proof.
  unfold i64_fits, i64_wrap.
  pose proof (Z.mod_pos_bound (z + 2 ^ 63) (2 ^ 64) ltac:(lia)). lia.
Qed.

Lemma i64_wrap_small z : i64_fits z → i64_wrap z = z.
Proof.
  unfold i64_fits, i64_wrap. intros H.
  rewrite Z.mod_small by lia. lia.
Qed.

Lemma as_i64_small n : (n < 2 ^ 63)%N → as_i64 n = Z.of_N n.
Proof. intros H. apply i64_wrap_small. unfold i64_fits. lia. Qed.

Lemma i64_as_u128_nonneg z : (0 <= z < 2 ^ 128)%Z → i64_as_u128 z = Z.to_N z.
Proof. intros H. unfold i64_as_u128. by rewrite Z.mod_small. Qed.

Lemma saturating_add_bound w a b : fits w (saturating_add w a b).
Proof.
  unfold fits, saturating_add, umax.
  assert (0 < 2 ^ w)%N by (apply N.neq_0_lt_0, N.pow_nonzero; lia). lia.
Qed.

Lemma saturating_add_ge w a b : fits w a → (a <= saturating_add w a b)%N.
Proof. unfold fits, saturating_add, umax. lia. Qed.

(** ** Outcomes

[Ok] and [Err] are Rust's [Result] (the error is the [anyhow] message),
[Panic] is an unwinding panic, [Parked] is a future that stays pending at a
bounded channel's [send].  *)

Inductive panic :=
  | BorrowError                      (* RefCell: already mutably borrowed *)
  | BorrowMutError                   (* RefCell: already borrowed *)
  | ArithmeticOverflow
  | ExpectFailed (msg : string)      (* unwrap / expect *)
  | NotImplemented (msg : string).   (* todo! / unimplemented! *)

Inductive outcome (A : Type) :=
  | Ok (a : A)
  | Err (msg : string)
  | Panic (why : panic)
  | Parked.
Arguments Ok {A} a.
Arguments Err {A} msg.
Arguments Panic {A} why.
Arguments Parked {A}.

#[export] Instance panic_eq_decision : EqDecision panic.
Proof. solve_decision. Defined.
#[export] Instance outcome_eq_decision `{EqDecision A} : EqDecision (outcome A).
Proof. solve_decision. Defined.

#[export] Instance outcome_ret : MRet outcome := λ A a, Ok a.
#[export] Instance outcome_bind : MBind outcome := λ A B f o,
  match o with
  | Ok a => f a
  | Err e => Err e
  | Panic p => Panic p
  | Parked => Parked
  end.

Definition is_ok {A} (o : outcome A) : bool :=
  match o with Ok _ => true | _ => false end.

Definition panics {A} (o : outcome A) : bool :=
  match o with Panic _ => true | _ => false end.

(** [opt.ok_or(e)] *)
Definition ok_or {A} (o : option A) (e : string) : outcome A :=
  match o with Some a => Ok a | None => Err e end.

Lemma ok_or_Ok {A} (o : option A) e a : ok_or o e = Ok a ↔ o = Some a.
Proof. destruct o; simpl; naive_solver. Qed.

(** [opt.expect(e)] *)
Definition expect {A} (o : option A) (e : string) : outcome A :=
  match o with Some a => Ok a | None => Panic (ExpectFailed e) end.

(** [a + b] at width [w], under the profile. *)
Definition add_u `{BuildProfile} (w a b : N) : outcome N :=
  if (a + b <? 2 ^ w)%N then Ok (a + b)%N
  else if overflow_checks then Panic ArithmeticOverflow
  else Ok (wrap w (a + b)).

(** [a + b] on [i64], under the profile. *)
Definition add_i64 `{BuildProfile} (a b : Z) : outcome Z :=
  if bool_decide (- 2 ^ 63 <= a + b < 2 ^ 63)%Z then Ok (a + b)%Z
  else if overflow_checks then Panic ArithmeticOverflow
  else Ok (i64_wrap (a + b)).

Lemma add_u_small `{BuildProfile} w a b :
  fits w (a + b) → add_u w a b = Ok (a + b)%N.
Proof.
  unfold fits, add_u. intros Hlt.
  by replace (a + b <? 2 ^ w)%N with true by (symmetry; apply N.ltb_lt; done).
Qed.

Lemma add_u_release w a b :
  add_u (H := release_profile) w a b = Ok (wrap w (a + b)).
Proof.
  unfold add_u, wrap. destruct (N.ltb_spec (a + b) (2 ^ w)) as [Hlt|Hge].
  - by rewrite N.mod_small.
  - reflexivity.
Qed.

(** The result of a checked or wrapping addition fits its width. *)
Lemma add_u_fits `{BuildProfile} w a b n : add_u w a b = Ok n → fits w n.
Proof.
  unfold add_u, fits. destruct (N.ltb_spec (a + b) (2 ^ w)); [by intros [= <-]|].
  destruct overflow_checks; [done|]. intros [= <-]. apply N.mod_lt, N.pow_nonzero. lia.
Qed.

Lemma add_i64_small `{BuildProfile} a b :
  i64_fits (a + b) → add_i64 a b = Ok (a + b)%Z.
Proof. unfold i64_fits, add_i64. intros Hb. by rewrite bool_decide_eq_true_2. Qed.

Lemma add_i64_release a b :
  add_i64 (H := release_profile) a b = Ok (i64_wrap (a + b)).
Proof.
  unfold add_i64. case_bool_decide as Hb; [|reflexivity].
  by rewrite i64_wrap_small.
Qed.

(** ** The state and outcome monad

A handler is a function of the component's state.  The state is kept on
every outcome: what a handler did before an early return stays done. *)

Definition M (S A : Type) : Type := S → outcome A * S.

#[export] Instance M_ret S : MRet (M S) := λ A a s, (Ok a, s).
#[export] Instance M_bind S : MBind (M S) := λ A B f m s,
  match m s with
  | (Ok a, s') => f a s'
  | (Err e, s') => (Err e, s')
  | (Panic p, s') => (Panic p, s')
  | (Parked, s') => (Parked, s')
  end.

Section monad.
Context {S : Type}.

Definition lift {A} (o : outcome A) : M S A := λ s, (o, s).
Definition gets {A} (f : S → A) : M S A := λ s, (Ok (f s), s).
Definition modify (f : S → S) : M S unit := λ s, (Ok (), f s).
Definition skip : M S unit := mret ().
Definition fail {A} (e : string) : M S A := lift (Err e).
Definition crash {A} (p : panic) : M S A := lift (Panic p).

Fixpoint for_each {A} (f : A → M S unit) (l : list A) : M S unit :=
  match l with
  | [] => mret ()
  | x :: l => f x ;; for_each f l
  end.

(** What was executed, [m.1] being the outcome and [m.2] the state left. *)
Lemma run_ret {A} (a : A) s : (mret a : M S A) s = (Ok a, s).
Proof. reflexivity. Qed.
Lemma run_skip s : skip s = (Ok (), s).
Proof. reflexivity. Qed.
Lemma run_bind_skip {B} (f : unit → M S B) s : (skip ≫= f) s = f () s.
Proof. reflexivity. Qed.
Lemma run_gets {A} (f : S → A) s : gets f s = (Ok (f s), s).
Proof. reflexivity. Qed.
Lemma run_modify (f : S → S) s : modify f s = (Ok (), f s).
Proof. reflexivity. Qed.
Lemma run_lift {A} (o : outcome A) s : lift o s = (o, s).
Proof. reflexivity. Qed.
Lemma run_fail {A} e s : (fail e : M S A) s = (Err e, s).
Proof. reflexivity. Qed.
Lemma run_crash {A} p s : (crash p : M S A) s = (Panic p, s).
Proof. reflexivity. Qed.

Lemma run_bind {A B} (m : M S A) (f : A → M S B) s :
  (m ≫= f) s = match m s with
               | (Ok a, s') => f a s'
               | (Err e, s') => (Err e, s')
               | (Panic p, s') => (Panic p, s')
               | (Parked, s') => (Parked, s')
               end.
Proof. reflexivity. Qed.
Lemma run_bind_ok {A B} (m : M S A) (f : A → M S B) s s' a :
  m s = (Ok a, s') → (m ≫= f) s = f a s'.
Proof. unfold mbind, M_bind. by intros ->. Qed.
Lemma run_bind_err {A B} (m : M S A) (f : A → M S B) s s' e :
  m s = (Err e, s') → (m ≫= f) s = (Err e, s').
Proof. unfold mbind, M_bind. by intros ->. Qed.
Lemma run_bind_panic {A B} (m : M S A) (f : A → M S B) s s' p :
  m s = (Panic p, s') → (m ≫= f) s = (Panic p, s').
Proof. unfold mbind, M_bind. by intros ->. Qed.
Lemma run_bind_parked {A B} (m : M S A) (f : A → M S B) s s' :
  m s = (Parked, s') → (m ≫= f) s = (Parked, s').
Proof. unfold mbind, M_bind. by intros ->. Qed.

Lemma run_bind_ret {A B} (a : A) (f : A → M S B) s :
  ((mret a : M S A) ≫= f) s = f a s.
Proof. reflexivity. Qed.
Lemma run_bind_gets {A B} (g : S → A) (f : A → M S B) s :
  (gets g ≫= f) s = f (g s) s.
Proof. reflexivity. Qed.
Lemma run_bind_modify {B} g (f : unit → M S B) s :
  (modify g ≫= f) s = f () (g s).
Proof. reflexivity. Qed.
Lemma run_bind_lift_ok {A B} (a : A) (f : A → M S B) s :
  (lift (Ok a) ≫= f) s = f a s.
Proof. reflexivity. Qed.
Lemma run_bind_fail {A B} e (f : A → M S B) s :
  (fail e ≫= f) s = (Err e, s).
Proof. reflexivity. Qed.
Lemma run_bind_crash {A B} p (f : A → M S B) s :
  (crash p ≫= f) s = (Panic p, s).
Proof. reflexivity. Qed.
Lemma run_bind_bind {A B C} (m : M S A) (f : A → M S B) (g : B → M S C) s :
  ((m ≫= f) ≫= g) s = (m ≫= λ a, f a ≫= g) s.
Proof. unfold mbind, M_bind. destruct (m s) as [[] ?]; reflexivity. Qed.

(** ** Invariants

[preserves I m]: whatever the outcome, [m] leaves [I] true. *)

Definition preserves (I : S → Prop) {A} (m : M S A) : Prop :=
  ∀ s, I s → I (m s).2.

Lemma preserves_ret I {A} (a : A) : preserves I (mret a).
Proof. by intros s. Qed.
Lemma preserves_skip I : preserves I skip.
Proof. by intros s. Qed.
Lemma preserves_lift I {A} (o : outcome A) : preserves I (lift o).
Proof. by intros s. Qed.
Lemma preserves_gets I {A} (f : S → A) : preserves I (gets f).
Proof. by intros s. Qed.
Lemma preserves_fail I {A} e : preserves I (fail e : M S A).
Proof. by intros s. Qed.
Lemma preserves_crash I {A} p : preserves I (crash p : M S A).
Proof. by intros s. Qed.
Lemma preserves_modify (I : S → Prop) f :
  (∀ s, I s → I (f s)) → preserves I (modify f).
Proof. intros Hf s Hs. apply Hf, Hs. Qed.
Lemma preserves_bind I {A B} (m : M S A) (f : A → M S B) :
  preserves I m → (∀ a, preserves I (f a)) → preserves I (m ≫= f).
Proof.
  intros Hm Hf s Hs. specialize (Hm s Hs).
  unfold mbind, M_bind. destruct (m s) as [[] s']; simpl in *; auto.
  by apply Hf.
Qed.
Lemma preserves_lift_bind I {A B} (o : outcome A) (f : A → M S B) :
  (∀ a, o = Ok a → preserves I (f a)) → preserves I (lift o ≫= f).
Proof. intros Hf s Hs. destruct o as [a| | |]; try done. by apply (Hf a). Qed.
Lemma preserves_for_each I {A} (f : A → M S unit) l :
  (∀ x, preserves I (f x)) → preserves I (for_each f l).
Proof.
  intros Hf. induction l as [|x l IH]; simpl.
  - apply preserves_ret.
  - apply preserves_bind; auto.
Qed.
Lemma preserves_mapM I {A B} (f : A → M S B) l :
  (∀ x, preserves I (f x)) → preserves I (mapM f l).
Proof.
  intros Hf. induction l as [|x l IH]; simpl; [apply preserves_ret|].
  apply preserves_bind; [done|]. intros y. apply preserves_bind; [done|]. intros ys.
  apply preserves_ret.
Qed.

(** ** Triples

[hoare P m Q E]: from [P], a normal return satisfies [Q] and every other
outcome (error, panic, parked) leaves [E]. *)

Definition hoare {A} (P : S → Prop) (m : M S A) (Q : A → S → Prop) (E : S → Prop) : Prop :=
  ∀ s, P s → match m s with
             | (Ok a, s') => Q a s'
             | (_, s') => E s'
             end.

Lemma hoare_preserves (I : S → Prop) {A} (m : M S A) :
  hoare I m (λ _, I) I → preserves I m.
Proof. intros Hm s Hs. specialize (Hm s Hs). by destruct (m s) as [[] ?]. Qed.
Lemma preserves_hoare (I : S → Prop) {A} (m : M S A) :
  preserves I m → hoare I m (λ _, I) I.
Proof. intros Hm s Hs. specialize (Hm s Hs). by destruct (m s) as [[] ?]. Qed.
Lemma hoare_bind {A B} P (m : M S A) R (f : A → M S B) Q E :
  hoare P m R E → (∀ a, hoare (R a) (f a) Q E) → hoare P (m ≫= f) Q E.
Proof.
  intros Hm Hf s Hs. specialize (Hm s Hs).
  unfold mbind, M_bind. destruct (m s) as [[] s']; simpl in *; auto.
  by apply Hf.
Qed.
Lemma hoare_weaken {A} (P P' : S → Prop) (m : M S A) Q Q' (E : S → Prop) :
  hoare P' m Q' E → (∀ s, P s → P' s) → (∀ a s, Q' a s → Q a s) → hoare P m Q E.
Proof.
  intros Hm HP HQ s Hs. specialize (Hm s (HP s Hs)).
  destruct (m s) as [[] s']; auto.
Qed.
Lemma hoare_modify (P : S → Prop) f (Q : unit → S → Prop) E :
  (∀ s, P s → Q () (f s)) → hoare P (modify f) Q E.
Proof. intros Hf s Hs. apply Hf, Hs. Qed.
Lemma hoare_gets {A} (P : S → Prop) (f : S → A) E :
  hoare P (gets f) (λ a s, a = f s ∧ P s) E.
Proof. by intros s Hs. Qed.
Lemma hoare_lift {A} (P : S → Prop) (o : outcome A) :
  hoare P (lift o) (λ a s, o = Ok a ∧ P s) P.
Proof. intros s Hs. by destruct o. Qed.
Lemma hoare_ret {A} (P : S → Prop) (a : A) (Q : A → S → Prop) E :
  (∀ s, P s → Q a s) → hoare P (mret a) Q E.
Proof. intros HQ s Hs. apply HQ, Hs. Qed.
Lemma hoare_total {A} (P : S → Prop) (m : M S A) (Q : A → S → Prop) s :
  hoare P m Q (λ _, False) → P s → ∃ a s', m s = (Ok a, s') ∧ Q a s'.
Proof. intros Hm Hs. specialize (Hm s Hs). destruct (m s) as [[] s']; naive_solver. Qed.
(** Chain a total triple in front of a run still to be described. *)
Lemma hoare_then {A B} (P : S → Prop) (m : M S A) (R : A → S → Prop) (f : A → M S B)
    o (Z : S → Prop) s :
  hoare P m R (λ _, False) → P s →
  (∀ a s', R a s' → ∃ s'', f a s' = (o, s'') ∧ Z s'') →
  ∃ s'', (m ≫= f) s = (o, s'') ∧ Z s''.
Proof.
  intros Hm Hs Hf. destruct (hoare_total _ _ _ _ Hm Hs) as (a & s' & Hrun & HR).
  destruct (Hf a s' HR) as (s'' & ? & ?). exists s''. by rewrite (run_bind_ok _ _ _ _ _ Hrun).
Qed.
Lemma hoare_fail {A} (P : S → Prop) e (Q : A → S → Prop) :
  hoare P (fail e) Q P.
Proof. by intros s Hs. Qed.
End monad.

Arguments preserves {S} I {A} m.
Arguments hoare {S A} P m Q E.

(** [run]: the equations that execute a monadic definition. *)
Create Rewrite HintDb run.
#[export] Hint Rewrite @run_bind_ret @run_bind_gets @run_bind_modify
  @run_bind_lift_ok @run_bind_fail @run_bind_crash @run_bind_bind @run_bind_skip @run_skip @run_ret @run_gets
  @run_modify @run_lift @run_fail @run_crash : run.

(** [preserve]: the rules that decompose an invariant proof. *)
Create HintDb preserve discriminated.
#[export] Hint Resolve preserves_ret preserves_skip preserves_lift preserves_gets preserves_fail
  preserves_crash preserves_for_each : preserve.

(** Execute the first computation of a sequence. *)
Ltac run_first := erewrite run_bind_ok; [|reflexivity].

Ltac run := autorewrite with run; simpl.

(** Decompose a [preserves] goal along binds, conditionals and matches. *)
Ltac preserve_step :=
  first
    [ solve [eauto 2 with preserve]
    | match goal with
      | |- preserves _ (mbind _ _) => apply preserves_bind; [|intros ?]
      | |- preserves _ (match ?x with _ => _ end) => destruct x
      | |- preserves _ (if ?x then _ else _) => destruct x
      end ].
Ltac preserve := repeat preserve_step.

(** ** Refinement

[refines R m m']: started in related states, [m] and [m'] have the same
outcome, and unless that is a panic they end in related states. *)

Definition refines {S T A} (R : S → T → Prop) (m : M S A) (m' : M T A) : Prop :=
  ∀ s t, R s t →
    (m s).1 = (m' t).1 ∧ (panics (m s).1 = false → R (m s).2 (m' t).2).

Section refines.
Context {S T : Type} (R : S → T → Prop).

Lemma refines_lift {A} (o : outcome A) : refines R (lift o) (lift o).
Proof. by intros s t HR. Qed.
Lemma refines_ret {A} (a : A) : refines R (mret a) (mret a).
Proof. by intros s t HR. Qed.
Lemma refines_bind {A B} (m : M S A) (m' : M T A) (f : A → M S B) (f' : A → M T B) :
  refines R m m' → (∀ a, refines R (f a) (f' a)) → refines R (m ≫= f) (m' ≫= f').
Proof.
  intros Hm Hf s t HR. destruct (Hm s t HR) as [Ho Hs].
  unfold mbind, M_bind. destruct (m s) as [o s'], (m' t) as [o' t']. simpl in *. subst o'.
  destruct o; simpl in *; auto. by apply Hf, Hs.
Qed.
Lemma refines_modify f f' :
  (∀ s t, R s t → R (f s) (f' t)) → refines R (modify f) (modify f').
Proof. intros Hf s t HR. split; [done|]. intros _. by apply Hf. Qed.
Lemma refines_gets {A} (f : S → A) (f' : T → A) :
  (∀ s t, R s t → f s = f' t) → refines R (gets f) (gets f').
Proof. intros Hf s t HR. simpl. by rewrite (Hf s t HR). Qed.
(** A step that reads the state and does not change it. *)
Lemma refines_read {A} (m : M S A) (m' : M T A) :
  (∀ s t, R s t → (m s).2 = s ∧ (m' t).2 = t ∧ (m s).1 = (m' t).1) → refines R m m'.
Proof. intros Hm s t HR. destruct (Hm s t HR) as (-> & -> & ->). auto. Qed.
Lemma refines_if {A} (b : bool) (m n : M S A) (m' n' : M T A) :
  refines R m m' → refines R n n' →
  refines R (if b then m else n) (if b then m' else n').
Proof. by destruct b. Qed.
End refines.

Lemma refines_trans {S T U A} (R : S → T → Prop) (Q : T → U → Prop)
    (m : M S A) (m' : M T A) (m'' : M U A) :
  refines R m m' → refines Q m' m'' →
  refines (λ s u, ∃ t, R s t ∧ Q t u) m m''.
Proof.
  intros Hm Hm' s u (t & HR & HQ).
  destruct (Hm s t HR) as [Ho Hs], (Hm' t u HQ) as [Ho' Ht]. split; [congruence|].
  intros Hp. exists (m' t).2. split; [auto|]. apply Ht. congruence.
Qed.

Create HintDb refine discriminated.
#[export] Hint Resolve refines_lift refines_ret refines_bind refines_if : refine.

(** ** Lists shared by the components *)

(** [v.contains(&x)] *)
Definition contains {A} `{EqDecision A} (x : A) (l : list A) : bool :=
  bool_decide (x ∈ l).

(** [it.position(p)] *)
Fixpoint position {A} (p : A → bool) (l : list A) : option nat :=
  match l with
  | [] => None
  | x :: l => if p x then Some 0 else S <$> position p l
  end.

Lemma contains_spec {A} `{EqDecision A} (x : A) l : contains x l = true ↔ x ∈ l.
Proof. apply bool_decide_eq_true. Qed.

Lemma position_lookup {A} (p : A → bool) l i :
  position p l = Some i → ∃ x, l !! i = Some x ∧ p x = true.
Proof.
  revert i. induction l as [|y l IH]; intros i; simpl; [done|].
  destruct (p y) eqn:Hy.
  - intros [= <-]. eauto.
  - destruct (position p l) as [j|]; simpl; [|done].
    intros [= <-]. simpl. by apply IH.
Qed.

Lemma position_None {A} (p : A → bool) l :
  position p l = None ↔ ∀ x, x ∈ l → p x = false.
Proof.
  induction l as [|y l IH]; simpl.
  - split; [intros _ x Hx; by apply not_elem_of_nil in Hx|done].
  - destruct (p y) eqn:Hy.
    + split; [done|]. intros H. rewrite (H y) in Hy; [done|]. by left.
    + rewrite fmap_None, IH. split.
      * intros H x [->|Hx]%elem_of_cons; auto.
      * intros H x Hx. apply H. by right.
Qed.
