(* ===== verification/RpcServer.v ===== *)
(** What the backend and the native node rely on of [jsonrpsee]: building a JSON-RPC server
    on an address, starting it, and waiting until it stops. *)

From S2P Require Import Prelude.

Class RpcServerLib := {
  RpcServer : Type;
  (** [ServerBuilder::new().build(url)]: the address may be taken *)
  rpc_build : string → outcome RpcServer;
  rpc_local_addr : RpcServer → outcome string;
  (** [server.start(handler)] *)
  rpc_start : RpcServer → outcome unit;
  (** [handle.stopped()]: [Parked] as long as the server is up *)
  rpc_stopped : RpcServer → outcome unit
}.

(** A server on every address that is free, which stays up. *)
Definition sample_rpc_server (free : string → bool) : RpcServerLib := {|
  RpcServer := string;
  rpc_build url := if free url then Ok url else Err "Address already in use";
  rpc_local_addr url := Ok url; rpc_start _ := Ok (); rpc_stopped _ := Parked |}.
