(* ===== verification/DataStructure.v ===== *)
(** Data structures shared by every part of the program
    ([primitives/src/data_structure.rs]): the transaction state machine and
    its transitions, tokens and chains, backend events, network commands and
    swarm messages, the TTL wrapper of the cache and the database records.

    Derived [PartialEq]s are [EqDecision] instances.  An [f32] is its IEEE bit
    pattern: the code only ever stores [0.0] in it.  Types of libraries that
    messages carry ([PeerId], [Multiaddr], channel ends) are parameters. *)

From S2P Require Import Prelude.

Definition ETH_SIG_MSG_PREFIX : string :=
  String (Ascii.ascii_of_nat 25)
    ("Ethereum Signed Message:" +:+ String (Ascii.ascii_of_nat 10) "").

Record DHTResponse := {
  dht_success : bool;
  dht_value : option string;
  dht_error : option string;
  dht_random : N
}.

Inductive ConnectionState :=
  | Connected (at_ : N)
  | Disconnected (at_ : N).

(** [Default for ConnectionState], [now] being the clock in seconds. *)
Definition ConnectionState_default (now : N) : ConnectionState := Disconnected now.

Record NodeConnectionStatus := {
  relay_connected : bool;
  ncs_peer_id : string;
  relay_address : string;
  connection_uptime_seconds : option N;
  last_connection_change : option N
}.

(** ** Transaction status *)

Inductive TxStatus :=
  | Genesis
  | RecvAddrConfirmed
  | RecvAddrConfirmationPassed
  | NetConfirmed
  | SenderConfirmed
  | SenderConfirmationfailed
  | RecvAddrFailed
  | FailedToSubmitTxn (reason : string)
  | TxError (reason : string)
  | TxSubmissionPassed (hash : bytes)
  | ReceiverNotRegistered
  | Reverted (reason : string).

#[export] Instance TxStatus_eq_decision : EqDecision TxStatus.
Proof. solve_decision. Defined.

Definition TxStatus_default : TxStatus := Genesis.

(** [From<TxStatus> for String]: only one status is supported. *)
Definition TxStatus_into_string (status : TxStatus) : outcome string :=
  match status with
  | RecvAddrFailed => Ok "Receiver address failed"
  | _ => Panic (NotImplemented "not used")
  end.

Definition is_reverted (status : TxStatus) : bool :=
  match status with Reverted _ => true | _ => false end.

Definition is_submission_passed (status : TxStatus) : bool :=
  match status with TxSubmissionPassed _ => true | _ => false end.

Definition is_failed_to_submit (status : TxStatus) : bool :=
  match status with FailedToSubmitTxn _ => true | _ => false end.

(** ** Tokens and chains *)

Inductive EthereumToken :=
  | EthereumToken_ETH
  | EthereumToken_ERC20 (name address : string) (decimals : N).
Inductive BnbToken :=
  | BnbToken_BNB
  | BnbToken_BEP20 (name address : string) (decimals : N).
Inductive PolkadotToken :=
  | PolkadotToken_DOT
  | PolkadotToken_Asset (name id : string).
Inductive SolanaToken :=
  | SolanaToken_SOL
  | SolanaToken_SPL (name address : string) (decimals : N).
Inductive TronToken :=
  | TronToken_TRX
  | TronToken_TRC20 (name address : string) (decimals : N).
Inductive OptimismToken :=
  | OptimismToken_ETH
  | OptimismToken_ERC20 (name address : string) (decimals : N).
Inductive ArbitrumToken :=
  | ArbitrumToken_ETH
  | ArbitrumToken_ERC20 (name address : string) (decimals : N).
Inductive PolygonToken :=
  | PolygonToken_POL
  | PolygonToken_ERC20 (name address : string) (decimals : N).
Inductive BaseToken :=
  | BaseToken_ETH
  | BaseToken_ERC20 (name address : string) (decimals : N).
Inductive BitcoinToken :=
  | BitcoinToken_BTC.

Inductive Token :=
  | Token_Ethereum (t : EthereumToken)
  | Token_Bnb (t : BnbToken)
  | Token_Polkadot (t : PolkadotToken)
  | Token_Solana (t : SolanaToken)
  | Token_Tron (t : TronToken)
  | Token_Optimism (t : OptimismToken)
  | Token_Arbitrum (t : ArbitrumToken)
  | Token_Polygon (t : PolygonToken)
  | Token_Base (t : BaseToken)
  | Token_Bitcoin (t : BitcoinToken).

#[export] Instance EthereumToken_eq_decision : EqDecision EthereumToken.
Proof. solve_decision. Defined.
#[export] Instance BnbToken_eq_decision : EqDecision BnbToken.
Proof. solve_decision. Defined.
#[export] Instance PolkadotToken_eq_decision : EqDecision PolkadotToken.
Proof. solve_decision. Defined.
#[export] Instance SolanaToken_eq_decision : EqDecision SolanaToken.
Proof. solve_decision. Defined.
#[export] Instance TronToken_eq_decision : EqDecision TronToken.
Proof. solve_decision. Defined.
#[export] Instance OptimismToken_eq_decision : EqDecision OptimismToken.
Proof. solve_decision. Defined.
#[export] Instance ArbitrumToken_eq_decision : EqDecision ArbitrumToken.
Proof. solve_decision. Defined.
#[export] Instance PolygonToken_eq_decision : EqDecision PolygonToken.
Proof. solve_decision. Defined.
#[export] Instance BaseToken_eq_decision : EqDecision BaseToken.
Proof. solve_decision. Defined.
#[export] Instance BitcoinToken_eq_decision : EqDecision BitcoinToken.
Proof. solve_decision. Defined.
#[export] Instance Token_eq_decision : EqDecision Token.
Proof. solve_decision. Defined.

Definition Token_default : Token := Token_Ethereum EthereumToken_ETH.

(** [format!("{chain}:{name} ({address})")] *)
Definition token_label (chain name address : string) : string :=
  chain +:+ ":" +:+ name +:+ " (" +:+ address +:+ ")".

(** [From<Token> for String] *)
Definition Token_into_string (value : Token) : string :=
  match value with
  | Token_Ethereum EthereumToken_ETH => "Ethereum:ETH"
  | Token_Ethereum (EthereumToken_ERC20 name address _) => token_label "Ethereum" name address
  | Token_Bnb BnbToken_BNB => "BNB:BNB"
  | Token_Bnb (BnbToken_BEP20 name address _) => token_label "BNB" name address
  | Token_Polkadot PolkadotToken_DOT => "Polkadot:DOT"
  | Token_Polkadot (PolkadotToken_Asset name id) => token_label "Polkadot" name id
  | Token_Solana SolanaToken_SOL => "Solana:SOL"
  | Token_Solana (SolanaToken_SPL name address _) => token_label "Solana" name address
  | Token_Tron TronToken_TRX => "TRON:TRX"
  | Token_Tron (TronToken_TRC20 name address _) => token_label "TRON" name address
  | Token_Optimism OptimismToken_ETH => "Optimism:ETH"
  | Token_Optimism (OptimismToken_ERC20 name address _) => token_label "Optimism" name address
  | Token_Arbitrum ArbitrumToken_ETH => "Arbitrum:ETH"
  | Token_Arbitrum (ArbitrumToken_ERC20 name address _) => token_label "Arbitrum" name address
  | Token_Polygon PolygonToken_POL => "Polygon:POL"
  | Token_Polygon (PolygonToken_ERC20 name address _) => token_label "Polygon" name address
  | Token_Base BaseToken_ETH => "Base:ETH"
  | Token_Base (BaseToken_ERC20 name address _) => token_label "Base" name address
  | Token_Bitcoin BitcoinToken_BTC => "Bitcoin:BTC"
  end.

Inductive ChainSupported :=
  | Polkadot | Ethereum | Bnb | Solana | Tron
  | Optimism | Arbitrum | Polygon | Base | Bitcoin.

#[export] Instance ChainSupported_eq_decision : EqDecision ChainSupported.
Proof. solve_decision. Defined.

Definition ChainSupported_default : ChainSupported := Ethereum.

(** [From<Token> for ChainSupported] *)
Definition Token_into_chain (value : Token) : ChainSupported :=
  match value with
  | Token_Ethereum _ => Ethereum
  | Token_Bnb _ => Bnb
  | Token_Polkadot _ => Polkadot
  | Token_Solana _ => Solana
  | Token_Tron _ => Tron
  | Token_Optimism _ => Optimism
  | Token_Arbitrum _ => Arbitrum
  | Token_Polygon _ => Polygon
  | Token_Base _ => Base
  | Token_Bitcoin _ => Bitcoin
  end.

(** [From<ChainSupported> for String], also [Display]. *)
Definition ChainSupported_into_string (value : ChainSupported) : string :=
  match value with
  | Polkadot => "Polkadot"
  | Ethereum => "Ethereum"
  | Bnb => "Bnb"
  | Solana => "Solana"
  | Tron => "Tron"
  | Optimism => "Optimism"
  | Arbitrum => "Arbitrum"
  | Polygon => "Polygon"
  | Base => "Base"
  | Bitcoin => "Bitcoin"
  end.

(** [From<&str> for ChainSupported] *)
Definition ChainSupported_from_str (value : string) : ChainSupported :=
  if decide (value = "Polkadot") then Polkadot
  else if decide (value = "Ethereum") then Ethereum
  else if decide (value = "Bnb") then Bnb
  else if decide (value = "Solana") then Solana
  else if decide (value = "Tron") then Tron
  else if decide (value = "Optimism") then Optimism
  else if decide (value = "Arbitrum") then Arbitrum
  else if decide (value = "Polygon") then Polygon
  else if decide (value = "Base") then Base
  else if decide (value = "Bitcoin") then Bitcoin
  else Ethereum.

(** ** The transaction state machine *)

Record UnsignedEip1559 := {
  eip_to : string;
  eip_value : N;
  eip_chain_id : N;
  eip_nonce : N;
  eip_gas : N;
  eip_max_fee_per_gas : N;
  eip_max_priority_fee_per_gas : N;
  eip_data : option string;
  eip_access_list : option (list unit);
  eip_tx_type : string
}.

Record UnsignedBnbLegacy := {
  bnb_to : string;
  bnb_value : N;
  bnb_chain_id : N;
  bnb_nonce : N;
  bnb_gas : N;
  bnb_gas_price : N;
  bnb_data : option string;
  bnb_tx_type : string
}.

Inductive ChainTransactionType :=
  | CallEthereum (eth_unsigned_tx_fields : UnsignedEip1559) (call_payload : bytes * bytes)
  | CallSolana (call_payload : bytes) (latest_block_height : N)
  | CallBnb (call_payload : bytes * bytes) (bnb_legacy_tx_fields : UnsignedBnbLegacy).

#[export] Instance UnsignedEip1559_eq_decision : EqDecision UnsignedEip1559.
Proof. solve_decision. Defined.
#[export] Instance UnsignedBnbLegacy_eq_decision : EqDecision UnsignedBnbLegacy.
Proof. solve_decision. Defined.
#[export] Instance ChainTransactionType_eq_decision : EqDecision ChainTransactionType.
Proof. solve_decision. Defined.

Record TxStateMachine := {
  sender_address : string;
  sender_public_key : option string;
  receiver_address : string;
  receiver_public_key : option string;
  multi_id : bytes;
  recv_signature : option bytes;
  token : Token;
  status : TxStatus;
  code_word : string;
  amount : N;
  fees_amount : N;
  signed_call_payload : option bytes;
  call_payload : option ChainTransactionType;
  inbound_req_id : option N;
  outbound_req_id : option N;
  tx_nonce : N;
  tx_version : N;
  sender_address_network : ChainSupported;
  receiver_address_network : ChainSupported
}.

#[export] Instance TxStateMachine_eq_decision : EqDecision TxStateMachine.
Proof. solve_decision. Defined.

(** *** The widths of the types

    What the Rust types of the fields guarantee of every value. *)

Definition token_fits (t : Token) : Prop :=
  match t with
  | Token_Ethereum (EthereumToken_ERC20 _ _ d) | Token_Bnb (BnbToken_BEP20 _ _ d)
  | Token_Solana (SolanaToken_SPL _ _ d) | Token_Tron (TronToken_TRC20 _ _ d)
  | Token_Optimism (OptimismToken_ERC20 _ _ d) | Token_Arbitrum (ArbitrumToken_ERC20 _ _ d)
  | Token_Polygon (PolygonToken_ERC20 _ _ d) | Token_Base (BaseToken_ERC20 _ _ d) => fits 8 d
  | _ => True
  end.
Definition eip1559_fits (t : UnsignedEip1559) : Prop :=
  fits 128 (eip_value t) ∧ fits 64 (eip_chain_id t) ∧ fits 64 (eip_nonce t) ∧
  fits 64 (eip_gas t) ∧ fits 64 (eip_max_fee_per_gas t) ∧
  fits 64 (eip_max_priority_fee_per_gas t).
Definition bnb_legacy_fits (t : UnsignedBnbLegacy) : Prop :=
  fits 128 (bnb_value t) ∧ fits 64 (bnb_chain_id t) ∧ fits 64 (bnb_nonce t) ∧
  fits 64 (bnb_gas t) ∧ fits 64 (bnb_gas_price t).
Definition call_fits (t : ChainTransactionType) : Prop :=
  match t with
  | CallEthereum fields _ => eip1559_fits fields
  | CallSolana _ latest_block_height => fits 64 latest_block_height
  | CallBnb _ fields => bnb_legacy_fits fields
  end.
Record tx_fits (tx : TxStateMachine) : Prop := {
  fits_multi_id : length (multi_id tx) = 32%nat;
  fits_token : token_fits (token tx);
  fits_amount : fits 128 (amount tx);
  fits_fees : fits 32 (fees_amount tx);
  fits_call : from_option call_fits True (call_payload tx);
  fits_inbound : from_option (fits 64) True (inbound_req_id tx);
  fits_outbound : from_option (fits 64) True (outbound_req_id tx);
  fits_nonce : fits 32 (tx_nonce tx);
  fits_version : fits 32 (tx_version tx)
}.

Definition set_status (st : TxStatus) (tx : TxStateMachine) : TxStateMachine := {|
  sender_address := sender_address tx;
  sender_public_key := sender_public_key tx;
  receiver_address := receiver_address tx;
  receiver_public_key := receiver_public_key tx;
  multi_id := multi_id tx;
  recv_signature := recv_signature tx;
  token := token tx;
  status := st;
  code_word := code_word tx;
  amount := amount tx;
  fees_amount := fees_amount tx;
  signed_call_payload := signed_call_payload tx;
  call_payload := call_payload tx;
  inbound_req_id := inbound_req_id tx;
  outbound_req_id := outbound_req_id tx;
  tx_nonce := tx_nonce tx;
  tx_version := tx_version tx;
  sender_address_network := sender_address_network tx;
  receiver_address_network := receiver_address_network tx
|}.

Definition set_counters (nonce version : N) (tx : TxStateMachine) : TxStateMachine := {|
  sender_address := sender_address tx;
  sender_public_key := sender_public_key tx;
  receiver_address := receiver_address tx;
  receiver_public_key := receiver_public_key tx;
  multi_id := multi_id tx;
  recv_signature := recv_signature tx;
  token := token tx;
  status := status tx;
  code_word := code_word tx;
  amount := amount tx;
  fees_amount := fees_amount tx;
  signed_call_payload := signed_call_payload tx;
  call_payload := call_payload tx;
  inbound_req_id := inbound_req_id tx;
  outbound_req_id := outbound_req_id tx;
  tx_nonce := nonce;
  tx_version := version;
  sender_address_network := sender_address_network tx;
  receiver_address_network := receiver_address_network tx
|}.

Definition set_public_keys (sender receiver : option string)
    (tx : TxStateMachine) : TxStateMachine := {|
  sender_address := sender_address tx;
  sender_public_key := sender;
  receiver_address := receiver_address tx;
  receiver_public_key := receiver;
  multi_id := multi_id tx;
  recv_signature := recv_signature tx;
  token := token tx;
  status := status tx;
  code_word := code_word tx;
  amount := amount tx;
  fees_amount := fees_amount tx;
  signed_call_payload := signed_call_payload tx;
  call_payload := call_payload tx;
  inbound_req_id := inbound_req_id tx;
  outbound_req_id := outbound_req_id tx;
  tx_nonce := tx_nonce tx;
  tx_version := tx_version tx;
  sender_address_network := sender_address_network tx;
  receiver_address_network := receiver_address_network tx
|}.

Definition set_call_payload (payload : option ChainTransactionType)
    (tx : TxStateMachine) : TxStateMachine := {|
  sender_address := sender_address tx;
  sender_public_key := sender_public_key tx;
  receiver_address := receiver_address tx;
  receiver_public_key := receiver_public_key tx;
  multi_id := multi_id tx;
  recv_signature := recv_signature tx;
  token := token tx;
  status := status tx;
  code_word := code_word tx;
  amount := amount tx;
  fees_amount := fees_amount tx;
  signed_call_payload := signed_call_payload tx;
  call_payload := payload;
  inbound_req_id := inbound_req_id tx;
  outbound_req_id := outbound_req_id tx;
  tx_nonce := tx_nonce tx;
  tx_version := tx_version tx;
  sender_address_network := sender_address_network tx;
  receiver_address_network := receiver_address_network tx
|}.

(** [impl TxStateMachine]: the transitions. *)

Definition increment_version (tx : TxStateMachine) : TxStateMachine :=
  set_counters (tx_nonce tx) (saturating_add 32 (tx_version tx) 1) tx.
Definition recv_confirmation_passed (tx : TxStateMachine) : TxStateMachine :=
  set_status RecvAddrConfirmationPassed tx.
Definition recv_confirmation_failed (tx : TxStateMachine) : outcome TxStateMachine :=
  reason ← TxStatus_into_string RecvAddrFailed;
  mret (set_status (Reverted reason) tx).
Definition recv_confirmed (tx : TxStateMachine) : TxStateMachine :=
  set_status RecvAddrConfirmed tx.
Definition sender_confirmation (tx : TxStateMachine) : TxStateMachine :=
  set_status SenderConfirmed tx.
Definition sender_confirmation_failed (tx : TxStateMachine) : TxStateMachine :=
  set_status SenderConfirmationfailed tx.
Definition tx_submission_failed (reason : string) (tx : TxStateMachine) : TxStateMachine :=
  set_status (FailedToSubmitTxn reason) tx.
Definition tx_submission_passed (tx_hash : bytes) (tx : TxStateMachine) : TxStateMachine :=
  set_status (TxSubmissionPassed tx_hash) tx.
Definition net_confirmed (tx : TxStateMachine) : TxStateMachine :=
  set_status NetConfirmed tx.
Definition recv_not_registered (tx : TxStateMachine) : TxStateMachine :=
  set_status ReceiverNotRegistered tx.
Definition increment_nonce `{BuildProfile} (tx : TxStateMachine) : outcome TxStateMachine :=
  nonce ← add_u 32 (tx_nonce tx) 1;
  mret (set_counters nonce (tx_version tx) tx).
Definition set_sender_public_key (public_key : string) (tx : TxStateMachine) : TxStateMachine :=
  set_public_keys (Some public_key) (receiver_public_key tx) tx.
Definition set_receiver_public_key (public_key : string) (tx : TxStateMachine) : TxStateMachine :=
  set_public_keys (sender_public_key tx) (Some public_key) tx.

(** ** TTL wrapper *)

Record TtlWrapper (T : Type) := { ttl_value : T; ttl : N }.
Arguments Build_TtlWrapper {T} _ _.
Arguments ttl_value {T} _.
Arguments ttl {T} _.

Definition TtlWrapper_new {T} (value : T) (ttl : N) : TtlWrapper T :=
  Build_TtlWrapper value ttl.
Definition TtlWrapper_is_expired `{BuildProfile} {T} (w : TtlWrapper T)
    (now time_to_live : N) : outcome bool :=
  deadline ← add_u 32 (ttl w) time_to_live;
  mret (deadline <? now)%N.
Definition update_value {T} (value : T) (w : TtlWrapper T) : TtlWrapper T :=
  Build_TtlWrapper value (ttl w).
Definition get_value {T} (w : TtlWrapper T) : T := ttl_value w.

(** ** Commands and messages *)

Class P2pTypes := {
  PeerId : Type;
  Multiaddr : Type;
  InboundRequestId : Type;
  OutboundRequestId : Type;
  ResponseChannel : Type;
  DialSender : Type;       (* oneshot::Sender<Result<(), anyhow::Error>> *)
  DhtPeerSender : Type     (* oneshot::Sender<Result<u32, Error>> *)
}.

Section messages.
Context `{P2pTypes}.

Record WasmDhtResponse := { wdr_peer_id : option PeerId }.
Record WasmDhtRequest := { wdr_key : string }.

Inductive NetworkCommand :=
  | SendRequest (request : bytes) (peer_id : PeerId) (target_multi_addr : Multiaddr)
  | SendResponse (response : bytes) (channel : ResponseChannel)
  | WasmSendRequest (request : TxStateMachine)
  | WasmSendResponse (response : TxStateMachine + string)
  | Dial (target_multi_addr : Multiaddr) (target_peer_id : PeerId)
      (oneshot_sender : DialSender)
  | GetDhtPeer (target_acc_id : string) (response_sender : DhtPeerSender)
  | AddDhtAccount (account_id value : string)
  | FetchPendingTransactions (account_id : string)
  | RevertTransaction (account_id : string) (data : TxStateMachine)
  | ConfirmTransaction (account_id : string) (data : TxStateMachine)
  | TxSubmissionUpdate (account_id : string) (data : TxStateMachine)
  | Close (account_id : string) (data : TxStateMachine).

Inductive SwarmMessage :=
  | SwarmRequest (data : bytes) (inbound_id : InboundRequestId)
  | SwarmResponse (data : bytes) (outbound_id : OutboundRequestId)
  | WasmRequest (data : TxStateMachine)
  | WasmResponse (data : TxStateMachine)
  | SwarmPendingTransactionsFetched (address : string) (transactions : list TxStateMachine).
End messages.

(** ** Database records *)

Record DbTxStateMachine := {
  db_tx_hash : bytes;
  db_amount : N;
  db_token : Token;
  db_sender : string;
  db_receiver : string;
  db_sender_network : ChainSupported;
  db_receiver_network : ChainSupported;
  db_success : bool
}.

Record UserAccount := {
  multi_addr : string;
  accounts : list (string * ChainSupported)
}.

Record Ports := { rpc : N; p_2_p_port : N }.

Record AccountInfo := { account : string; network : ChainSupported }.

Record UserMetrics := {
  user_account : UserAccount;
  total_success_txns : list DbTxStateMachine;
  total_failed_txns : list DbTxStateMachine;
  saved_target_peers : list string * string
}.

Record NodeError := {
  ne_timestamp : N;
  ne_error_type : string;
  ne_message : string;
  ne_details : option string
}.

Record SavedPeerInfo := {
  spi_peer_id : string;
  spi_multi_addr : string;
  spi_account_ids : list string
}.

Record StorageExport := {
  se_user_account : option UserAccount;
  se_nonce : N;
  success_transactions : list DbTxStateMachine;
  failed_transactions : list DbTxStateMachine
}.

#[export] Instance DbTxStateMachine_eq_decision : EqDecision DbTxStateMachine.
Proof. solve_decision. Defined.
#[export] Instance UserAccount_eq_decision : EqDecision UserAccount.
Proof. solve_decision. Defined.
#[export] Instance SavedPeerInfo_eq_decision : EqDecision SavedPeerInfo.
Proof. solve_decision. Defined.

(** ** Backend events *)

Inductive BackendEvent :=
  | SenderRequestReceived (address : string) (data : bytes)
  | SenderRequestHandled (address : string) (data : bytes)
  | EvSenderConfirmed (address : string) (data : bytes)
  | SenderReverted (address : string) (data : bytes)
  | ReceiverResponseReceived (address : string) (data : bytes)
  | ReceiverResponseHandled (address : string) (data : bytes)
  | PeerDisconnected (account_id : string)
  | DataExpired (multi_id : string) (data : bytes)
  | PendingTransactionsFetched (address : string) (transactions : list TxStateMachine)
  | TxSubmitted (address : string) (data : bytes).

#[export] Instance BackendEvent_eq_decision : EqDecision BackendEvent.
Proof. solve_decision. Defined.

Definition get_address (ev : BackendEvent) : string :=
  match ev with
  | SenderRequestReceived address _ => address
  | SenderRequestHandled address _ => address
  | EvSenderConfirmed address _ => address
  | SenderReverted address _ => address
  | ReceiverResponseReceived address _ => address
  | ReceiverResponseHandled address _ => address
  | PeerDisconnected account_id => account_id
  | DataExpired multi_id _ => multi_id
  | PendingTransactionsFetched address _ => address
  | TxSubmitted address _ => address
  end.

Definition get_data (ev : BackendEvent) : outcome bytes :=
  match ev with
  | SenderRequestReceived _ data => Ok data
  | SenderRequestHandled _ data => Ok data
  | EvSenderConfirmed _ data => Ok data
  | SenderReverted _ data => Ok data
  | ReceiverResponseReceived _ data => Ok data
  | ReceiverResponseHandled _ data => Ok data
  | DataExpired _ data => Ok data
  | TxSubmitted _ data => Ok data
  | _ => Panic (NotImplemented "not implemented")
  end.

Inductive SystemNotification :=
  | PeerAdded (address account_id : string) (network : ChainSupported)
  | PeerRemoved (address : string)
  | RequestQueued (address : string)
  | RequestProcessed (address : string).
