(* ===== verification/Codec.v ===== *)
(** Interfaces to the two serialisation libraries: [parity-scale-codec]
    ([Encode]/[Decode], used by the database and the integrity hash) and
    [serde_json] on [TxStateMachine] (used between the node and the backend).

    Both are parameters of the model.  What the program relies on is the
    documented round trip; [serde_json] also rejects empty input.  The second
    half of the file has concrete instances that satisfy the laws, for
    evaluating the model on concrete inputs. *)

From S2P Require Import Prelude DataStructure.

(** [Encode] and [Decode] at a type. *)
Class Codec (A : Type) := {
  scale_encode : A → bytes;
  scale_decode : bytes → option A
}.

#[export] Hint Mode Codec ! : typeclass_instances.

Class CodecLaws (A : Type) `{Codec A} : Prop := {
  scale_decode_encode (x : A) : scale_decode (scale_encode x) = Some x
}.

Lemma scale_encode_inj `{CodecLaws A} (x y : A) :
  scale_encode x = scale_encode y → x = y.
Proof.
  intros Hxy. pose proof (scale_decode_encode x) as Hx.
  rewrite Hxy, scale_decode_encode in Hx. congruence.
Qed.

(** [serde_json::from_slice::<TxStateMachine>] and [serde_json::to_vec].  [Json.v] has the
    instance the program uses, over the text of a document. *)
Class TxJson := {
  from_slice : bytes → option TxStateMachine;
  to_vec : TxStateMachine → option bytes
}.

Class TxJsonLaws `{TxJson} : Prop := {
  from_slice_to_vec tx data :
    tx_fits tx → fees_amount tx = 0%N → to_vec tx = Some data → from_slice data = Some tx;
  from_slice_empty : from_slice [] = None
}.

(** ** Concrete instances *)

(** A prefix code over numbers: [undump] undoes [dump] in front of any rest. *)
Class Stream (A : Type) := {
  dump : A → list N;
  undump : list N → option (A * list N);
  undump_dump x rest : undump (dump x ++ rest) = Some (x, rest)
}.

#[export] Hint Mode Stream ! : typeclass_instances.

#[export] Instance stream_N : Stream N.
Proof.
  refine {| dump n := [n];
            undump l := match l with n :: l => Some (n, l) | [] => None end |}.
  done.
Defined.

#[export] Instance stream_unit : Stream unit.
Proof. refine {| dump _ := []; undump l := Some ((), l) |}. by intros []. Defined.

#[export] Instance stream_prod {A B} `{Stream A} `{Stream B} : Stream (A * B).
Proof.
  refine {| dump x := dump x.1 ++ dump x.2;
            undump l := '(a, l) ← undump l; '(b, l) ← undump l; Some ((a, b), l) |}.
  intros [a b] rest. simpl. rewrite <-app_assoc, undump_dump. simpl.
  by rewrite undump_dump.
Defined.

#[export] Instance stream_sum {A B} `{Stream A} `{Stream B} : Stream (A + B).
Proof.
  refine {| dump x := match x with inl a => 0%N :: dump a | inr b => 1%N :: dump b end;
            undump l := match l with
                        | 0%N :: l => '(a, l) ← undump l; Some (inl a, l)
                        | 1%N :: l => '(b, l) ← undump l; Some (inr b, l)
                        | _ => None
                        end |}.
  intros [a|b] rest; simpl; by rewrite undump_dump.
Defined.

(** A stream for [B] from one for [A] and a partial inverse. *)
Definition stream_inj {A B} `{Stream A} (f : B → A) (g : A → option B)
    (gf : ∀ x, g (f x) = Some x) : Stream B.
Proof.
  refine {| dump x := dump (f x);
            undump l := '(a, l) ← undump l; b ← g a; Some (b, l) |}.
  intros x rest. simpl. rewrite undump_dump. simpl. by rewrite gf.
Defined.

#[export] Instance stream_byte : Stream Byte.byte :=
  stream_inj Byte.to_N Byte.of_N Byte.of_to_N.

Fixpoint dump_all {A} `{Stream A} (xs : list A) : list N :=
  match xs with
  | [] => []
  | x :: xs => dump x ++ dump_all xs
  end.

Fixpoint undump_n {A} `{Stream A} (n : nat) (l : list N) : option (list A * list N) :=
  match n with
  | O => Some ([], l)
  | S n => '(a, l) ← undump l; '(xs, l) ← undump_n n l; Some (a :: xs, l)
  end.

Lemma undump_n_dump {A} `{Stream A} (xs : list A) rest :
  undump_n (length xs) (dump_all xs ++ rest) = Some (xs, rest).
Proof.
  induction xs as [|x xs IH]; simpl; [done|].
  rewrite <-app_assoc, undump_dump. simpl. by rewrite IH.
Qed.

#[export] Instance stream_list {A} `{Stream A} : Stream (list A).
Proof.
  refine {| dump xs := N.of_nat (length xs) :: dump_all xs;
            undump l := match l with
                        | n :: l => undump_n (N.to_nat n) l
                        | [] => None
                        end |}.
  intros xs rest. simpl. rewrite Nat2N.id. apply undump_n_dump.
Defined.

#[export] Instance stream_option `{Stream A} : Stream (option A).
Proof.
  apply (stream_inj
    (λ o, match o with None => inl () | Some a => inr a end)
    (λ s, Some match s with inl _ => None | inr a => Some a end)).
  by intros [].
Defined.

#[export] Instance stream_bool : Stream bool.
Proof.
  apply (stream_inj (λ b : bool, if b then inl () else inr ())
    (λ s : unit + unit, Some match s with inl _ => true | inr _ => false end)).
  by intros [].
Defined.

#[export] Instance stream_Z : Stream Z.
Proof.
  apply (stream_inj
    (λ z, (bool_decide (z < 0)%Z, Z.to_N (Z.abs z)))
    (λ '(neg, n), Some (if neg : bool then - Z.of_N n else Z.of_N n)%Z)).
  intros z. f_equal. case_bool_decide; lia.
Defined.

#[export] Instance stream_string : Stream string.
Proof.
  apply (stream_inj as_bytes (λ bs, Some (String.string_of_list_byte bs))).
  intros s. f_equal. apply String.string_of_list_byte_of_string.
Defined.

(** Numbers as bytes: binary digits, then a separator. *)
Fixpoint positive_to_bytes (p : positive) : bytes :=
  match p with
  | xH => [Byte.x02]
  | xO p => Byte.x00 :: positive_to_bytes p
  | xI p => Byte.x01 :: positive_to_bytes p
  end.

(** [acc] turns the digits read so far into a number. *)
Fixpoint numbers_of_bytes (bs : bytes) (acc : positive → positive) : option (list N) :=
  match bs with
  | [] => Some []
  | Byte.x00 :: bs => numbers_of_bytes bs (λ p, acc (xO p))
  | Byte.x01 :: bs => numbers_of_bytes bs (λ p, acc (xI p))
  | Byte.x02 :: bs =>
      rest ← numbers_of_bytes bs (λ p, p);
      Some (Pos.pred_N (acc xH) :: rest)
  | _ => None
  end.

Fixpoint bytes_of_numbers (l : list N) : bytes :=
  match l with
  | [] => []
  | n :: l => positive_to_bytes (N.succ_pos n) ++ bytes_of_numbers l
  end.

Lemma numbers_of_positive p bs acc :
  numbers_of_bytes (positive_to_bytes p ++ bs) acc =
  rest ← numbers_of_bytes bs (λ p, p); Some (Pos.pred_N (acc p) :: rest).
Proof.
  revert acc. induction p as [p IH|p IH|]; intros acc; simpl; [..|reflexivity].
  - by rewrite IH.
  - by rewrite IH.
Qed.

Lemma numbers_of_bytes_of_numbers l :
  numbers_of_bytes (bytes_of_numbers l) (λ p, p) = Some l.
Proof.
  induction l as [|n l IH]; [reflexivity|]. simpl.
  rewrite numbers_of_positive, IH. simpl. do 2 f_equal. apply N.pos_pred_succ.
Qed.

#[export] Instance stream_codec `{Stream A} : Codec A | 100 := {|
  scale_encode x := bytes_of_numbers (dump x);
  scale_decode bs := numbers_of_bytes bs (λ p, p) ≫= λ l, fst <$> undump l
|}.

#[export] Instance stream_codec_laws `{Stream A} : CodecLaws A | 100.
Proof.
  constructor. intros x. simpl. rewrite numbers_of_bytes_of_numbers. simpl.
  pose proof (undump_dump x []) as Hx. rewrite app_nil_r in Hx. by rewrite Hx.
Qed.

Definition chain_code (c : ChainSupported) : N :=
  match c with
  | Polkadot => 0 | Ethereum => 1 | Bnb => 2 | Solana => 3 | Tron => 4
  | Optimism => 5 | Arbitrum => 6 | Polygon => 7 | Base => 8 | Bitcoin => 9
  end%N.
Definition chain_of_code (n : N) : option ChainSupported :=
  match n with
  | 0 => Some Polkadot | 1 => Some Ethereum | 2 => Some Bnb | 3 => Some Solana
  | 4 => Some Tron | 5 => Some Optimism | 6 => Some Arbitrum | 7 => Some Polygon
  | 8 => Some Base | 9 => Some Bitcoin | _ => None
  end%N.
#[export] Instance ChainSupported_stream : Stream ChainSupported.
Proof. apply (stream_inj chain_code chain_of_code). by intros []. Defined.

(** A token is a tag with the fields of the widest variant. *)
Definition token_code (t : Token) : N * (string * string * N) :=
  match t with
  | Token_Ethereum EthereumToken_ETH => (0, ("", "", 0))
  | Token_Ethereum (EthereumToken_ERC20 n a d) => (1, (n, a, d))
  | Token_Bnb BnbToken_BNB => (2, ("", "", 0))
  | Token_Bnb (BnbToken_BEP20 n a d) => (3, (n, a, d))
  | Token_Polkadot PolkadotToken_DOT => (4, ("", "", 0))
  | Token_Polkadot (PolkadotToken_Asset n i) => (5, (n, i, 0))
  | Token_Solana SolanaToken_SOL => (6, ("", "", 0))
  | Token_Solana (SolanaToken_SPL n a d) => (7, (n, a, d))
  | Token_Tron TronToken_TRX => (8, ("", "", 0))
  | Token_Tron (TronToken_TRC20 n a d) => (9, (n, a, d))
  | Token_Optimism OptimismToken_ETH => (10, ("", "", 0))
  | Token_Optimism (OptimismToken_ERC20 n a d) => (11, (n, a, d))
  | Token_Arbitrum ArbitrumToken_ETH => (12, ("", "", 0))
  | Token_Arbitrum (ArbitrumToken_ERC20 n a d) => (13, (n, a, d))
  | Token_Polygon PolygonToken_POL => (14, ("", "", 0))
  | Token_Polygon (PolygonToken_ERC20 n a d) => (15, (n, a, d))
  | Token_Base BaseToken_ETH => (16, ("", "", 0))
  | Token_Base (BaseToken_ERC20 n a d) => (17, (n, a, d))
  | Token_Bitcoin BitcoinToken_BTC => (18, ("", "", 0))
  end%N.

Definition token_of_code (c : N * (string * string * N)) : option Token :=
  let '(tag, (n, a, d)) := c in
  match tag with
  | 0 => Some (Token_Ethereum EthereumToken_ETH)
  | 1 => Some (Token_Ethereum (EthereumToken_ERC20 n a d))
  | 2 => Some (Token_Bnb BnbToken_BNB)
  | 3 => Some (Token_Bnb (BnbToken_BEP20 n a d))
  | 4 => Some (Token_Polkadot PolkadotToken_DOT)
  | 5 => Some (Token_Polkadot (PolkadotToken_Asset n a))
  | 6 => Some (Token_Solana SolanaToken_SOL)
  | 7 => Some (Token_Solana (SolanaToken_SPL n a d))
  | 8 => Some (Token_Tron TronToken_TRX)
  | 9 => Some (Token_Tron (TronToken_TRC20 n a d))
  | 10 => Some (Token_Optimism OptimismToken_ETH)
  | 11 => Some (Token_Optimism (OptimismToken_ERC20 n a d))
  | 12 => Some (Token_Arbitrum ArbitrumToken_ETH)
  | 13 => Some (Token_Arbitrum (ArbitrumToken_ERC20 n a d))
  | 14 => Some (Token_Polygon PolygonToken_POL)
  | 15 => Some (Token_Polygon (PolygonToken_ERC20 n a d))
  | 16 => Some (Token_Base BaseToken_ETH)
  | 17 => Some (Token_Base (BaseToken_ERC20 n a d))
  | 18 => Some (Token_Bitcoin BitcoinToken_BTC)
  | _ => None
  end%N.
#[export] Instance Token_stream : Stream Token.
Proof. apply (stream_inj token_code token_of_code). by intros [[]|[]|[]|[]|[]|[]|[]|[]|[]|[]]. Defined.

Definition status_code (s : TxStatus) : N * (string + bytes) :=
  match s with
  | Genesis => (0, inl "")
  | RecvAddrConfirmed => (1, inl "")
  | RecvAddrConfirmationPassed => (2, inl "")
  | NetConfirmed => (3, inl "")
  | SenderConfirmed => (4, inl "")
  | SenderConfirmationfailed => (5, inl "")
  | RecvAddrFailed => (6, inl "")
  | FailedToSubmitTxn r => (7, inl r)
  | TxError r => (8, inl r)
  | TxSubmissionPassed h => (9, inr h)
  | ReceiverNotRegistered => (10, inl "")
  | Reverted r => (11, inl r)
  end%N.
Definition status_of_code (c : N * (string + bytes)) : option TxStatus :=
  match c with
  | (0, _) => Some Genesis
  | (1, _) => Some RecvAddrConfirmed
  | (2, _) => Some RecvAddrConfirmationPassed
  | (3, _) => Some NetConfirmed
  | (4, _) => Some SenderConfirmed
  | (5, _) => Some SenderConfirmationfailed
  | (6, _) => Some RecvAddrFailed
  | (7, inl r) => Some (FailedToSubmitTxn r)
  | (8, inl r) => Some (TxError r)
  | (9, inr h) => Some (TxSubmissionPassed h)
  | (10, _) => Some ReceiverNotRegistered
  | (11, inl r) => Some (Reverted r)
  | _ => None
  end%N.
#[export] Instance TxStatus_stream : Stream TxStatus.
Proof. apply (stream_inj status_code status_of_code). by intros []. Defined.

(** The records, as tuples of their fields. *)
Definition stream_inj' `{Stream A} {B} (f : B → A) (g : A → B)
    (gf : ∀ x, g (f x) = x) : Stream B :=
  stream_inj f (λ a, Some (g a)) (λ x, f_equal Some (gf x)).

#[export] Instance DbTxStateMachine_stream : Stream DbTxStateMachine.
Proof.
  apply (stream_inj'
    (λ t, (db_tx_hash t, db_amount t, db_token t, db_sender t, db_receiver t,
           db_sender_network t, db_receiver_network t, db_success t))
    (λ '(h, a, tk, s, r, sn, rn, ok), Build_DbTxStateMachine h a tk s r sn rn ok)).
  by intros [].
Defined.
#[export] Instance UserAccount_stream : Stream UserAccount.
Proof.
  apply (stream_inj' (λ u, (multi_addr u, accounts u)) (λ '(m, a), Build_UserAccount m a)).
  by intros [].
Defined.
#[export] Instance SavedPeerInfo_stream : Stream SavedPeerInfo.
Proof.
  apply (stream_inj' (λ p, (spi_peer_id p, spi_multi_addr p, spi_account_ids p))
    (λ '(i, m, a), Build_SavedPeerInfo i m a)).
  by intros [].
Defined.
#[export] Instance UnsignedEip1559_stream : Stream UnsignedEip1559.
Proof.
  apply (stream_inj'
    (λ t, (eip_to t, eip_value t, eip_chain_id t, eip_nonce t, eip_gas t,
      eip_max_fee_per_gas t, eip_max_priority_fee_per_gas t, eip_data t, eip_access_list t,
      eip_tx_type t))
    (λ '(a, b, c, d, e, f, g, h, i, j), Build_UnsignedEip1559 a b c d e f g h i j)).
  by intros [].
Defined.
#[export] Instance UnsignedBnbLegacy_stream : Stream UnsignedBnbLegacy.
Proof.
  apply (stream_inj'
    (λ t, (bnb_to t, bnb_value t, bnb_chain_id t, bnb_nonce t, bnb_gas t,
      bnb_gas_price t, bnb_data t, bnb_tx_type t))
    (λ '(a, b, c, d, e, f, g, h), Build_UnsignedBnbLegacy a b c d e f g h)).
  by intros [].
Defined.
#[export] Instance ChainTransactionType_stream : Stream ChainTransactionType.
Proof.
  apply (stream_inj'
    (λ t, match t with
          | CallEthereum e c => inl (e, c)
          | CallSolana c h => inr (inl (c, h))
          | CallBnb c b => inr (inr (c, b))
          end)
    (λ c, match c with
          | inl (e, c) => CallEthereum e c
          | inr (inl (c, h)) => CallSolana c h
          | inr (inr (c, b)) => CallBnb c b
          end)).
  by intros [].
Defined.
#[export] Instance TxStateMachine_stream : Stream TxStateMachine.
Proof.
  apply (stream_inj'
    (λ t, ((sender_address t, sender_public_key t, receiver_address t, receiver_public_key t,
            multi_id t, recv_signature t, token t, status t, code_word t, amount t),
           (fees_amount t, signed_call_payload t, call_payload t, inbound_req_id t,
            outbound_req_id t, tx_nonce t, tx_version t, sender_address_network t,
            receiver_address_network t)))
    (λ '((a, b, c, d, e, f, g, h, i, j), (k, l, m, n, o, p, q, r, s)),
       Build_TxStateMachine a b c d e f g h i j k l m n o p q r s)).
  by intros [].
Defined.

(** Concrete JSON bytes: a brace, then the enumeration's bits. *)
Definition sample_json : TxJson := {|
  from_slice bs := match bs with
                   | Byte.x7b :: bs => scale_decode bs
                   | _ => None
                   end;
  to_vec tx := Some (Byte.x7b :: scale_encode tx)
|}.

Lemma sample_json_laws : @TxJsonLaws sample_json.
Proof.
  constructor; [|reflexivity].
  intros tx data _ _ Hdata. injection Hdata as <-.
  exact (scale_decode_encode tx).
Qed.

(** [hex::encode]: distinct byte strings have distinct hexadecimal forms. *)
Class Hex := hex_encode : bytes → string.
Class HexLaws `{Hex} : Prop := hex_encode_inj :: Inj (=) (=) hex_encode.

Definition sample_hex : Hex := String.string_of_list_byte.

Lemma sample_hex_laws : @HexLaws sample_hex.
Proof.
  intros x y Hxy. apply (f_equal String.list_byte_of_string) in Hxy.
  unfold hex_encode, sample_hex in Hxy.
  by rewrite !String.list_byte_of_string_of_list_byte in Hxy.
Qed.
