(* ===== verification/Json.v ===== *)
(** JSON: how a transaction is written and read between the node and the backend
    ([primitives/src/data_structure.rs]).

    A [json] is a document, with the members of an object in the order they are
    written.  The derived serialisers and deserialisers follow the [serde] attributes
    of each type; the deserialisers of [TxStatus] and of the two request identifiers
    are written by hand and translated as they are.  Printing and parsing the text of
    a document, and the rendering of an [f32], are [serde_json]'s and a parameter. *)

From Stdlib Require Import Ascii.
From stdpp Require Import pretty.
From S2P Require Import Prelude DataStructure Codec.

(** ** Documents *)

Inductive json :=
  | JNull
  | JBool (b : bool)
  | JNumber (z : Z)
  | JFloat (bits : N)
  | JString (s : string)
  | JArray (l : list json)
  | JObject (m : list (string * json)).

(** [Value::as_str], [Value::as_array] *)
Definition as_str (j : json) : option string :=
  match j with JString s => Some s | _ => None end.
Definition as_array (j : json) : option (list json) :=
  match j with JArray l => Some l | _ => None end.
(** [Value::as_u64]: a larger integer is held as a float. *)
Definition as_u64 (j : json) : option N :=
  match j with
  | JNumber z => if decide (0 ≤ z < 2 ^ 64)%Z then Some (Z.to_N z) else None
  | _ => None
  end.

(** A [Map] keeps the last member of a name. *)
Definition map_get (k : string) (m : list (string * json)) : option json :=
  foldl (λ found kv, if String.eqb k kv.1 then Some kv.2 else found) None m.
(** [map.len() == 1] *)
Definition only_key (m : list (string * json)) : option string :=
  match m with
  | [] => None
  | (k, _) :: m => if forallb (λ kv, String.eqb k kv.1) m then Some k else None
  end.
(** [Value::get] *)
Definition value_get (k : string) (j : json) : option json :=
  match j with JObject m => map_get k m | _ => None end.

(** ** Derived deserialisation *)

(** The members of a struct with the fields [names]: an object, or an array of the
    fields in order. *)
Definition struct_fields (names : list string) (j : json) : option (list (string * json)) :=
  match j with
  | JObject m => Some m
  | JArray l => if decide (length l = length names) then Some (zip names l) else None
  | _ => None
  end.

(** A field; a name that occurs twice is an error. *)
Definition field (k : string) (m : list (string * json)) : option (option json) :=
  match List.filter (λ kv, String.eqb k kv.1) m with
  | [] => Some None
  | [kv] => Some (Some kv.2)
  | _ => None
  end.
Definition required {A} (d : json → option A) (k : string) (m : list (string * json)) : option A :=
  found ← field k m; j ← found; d j.
(** A field of type [Option]: absent is [None]. *)
Definition optional {A} (d : json → option (option A)) (k : string) (m : list (string * json)) :
    option (option A) :=
  found ← field k m; match found with Some j => d j | None => Some None end.

(** An externally tagged enum: the variant's name and its content. *)
Definition variant (j : json) : option (string * option json) :=
  match j with
  | JString s => Some (s, None)
  | JObject [(k, v)] => Some (k, Some v)
  | _ => None
  end.
(** A variant without content. *)
Definition unit_variant (content : option json) : option unit :=
  match content with None | Some JNull => Some () | _ => None end.

Definition de_string : json → option string := as_str.
Definition de_unit (j : json) : option unit := match j with JNull => Some () | _ => None end.
Definition se_u (n : N) : json := JNumber (Z.of_N n).
Definition de_u (w : N) (j : json) : option N :=
  match j with
  | JNumber z => if decide (0 ≤ z < 2 ^ Z.of_N w)%Z then Some (Z.to_N z) else None
  | _ => None
  end.
Definition se_list {A} (s : A → json) (l : list A) : json := JArray (map s l).
Definition de_list {A} (d : json → option A) (j : json) : option (list A) :=
  l ← as_array j; mapM d l.
Definition se_option {A} (s : A → json) (o : option A) : json :=
  match o with Some x => s x | None => JNull end.
Definition de_option {A} (d : json → option A) (j : json) : option (option A) :=
  match j with JNull => Some None | _ => x ← d j; Some (Some x) end.
Definition se_byte (b : Byte.byte) : json := se_u (Byte.to_N b).
Definition de_byte (j : json) : option Byte.byte := n ← de_u 8 j; Byte.of_N n.
Definition se_bytes : bytes → json := se_list se_byte.
Definition de_bytes : json → option bytes := de_list de_byte.
(** [u8; 32] *)
Definition de_bytes32 (j : json) : option bytes :=
  l ← de_bytes j; if decide (length l = 32%nat) then Some l else None.
Definition se_pair (p : bytes * bytes) : json := JArray [se_bytes p.1; se_bytes p.2].
Definition de_pair (j : json) : option (bytes * bytes) :=
  match j with
  | JArray [a; b] => a ← de_bytes a; b ← de_bytes b; Some (a, b)
  | _ => None
  end.

(** ** Numbers in strings *)

Definition digit_of (radix : N) (c : ascii) : option N :=
  let n := N_of_ascii c in
  let d := if (48 <=? n)%N && (n <=? 57)%N then Some (n - 48)%N
           else if (97 <=? n)%N && (n <=? 122)%N then Some (n - 87)%N
           else if (65 <=? n)%N && (n <=? 90)%N then Some (n - 55)%N
           else None in
  d ← d; if (d <? radix)%N then Some d else None.

Fixpoint digits (radix acc : N) (s : string) : option N :=
  match s with
  | EmptyString => Some acc
  | String c s => d ← digit_of radix c; digits radix (acc * radix + d)%N s
  end.

Fixpoint strip_prefix (p s : string) : option string :=
  match p, s with
  | EmptyString, s => Some s
  | String a p, String b s => if Ascii.eqb a b then strip_prefix p s else None
  | String _ _, EmptyString => None
  end.

(** [u64::from_str_radix]; [s.parse::<u64>()] for ten.  An overflow on the way is an
    overflow of the result. *)
Definition u64_from_str_radix (radix : N) (s : string) : option N :=
  let s := default s (strip_prefix "+" s) in
  match s with
  | EmptyString => None
  | _ => n ← digits radix 0 s; if decide (fits 64 n) then Some n else None
  end.

Definition serialize_u64_as_string (value : option N) : json :=
  match value with Some v => JString (pretty v) | None => JNull end.

Definition deserialize_u64_flexible (value : json) : option (option N) :=
  match value with
  | JNumber _ | JFloat _ => num ← as_u64 value; Some (Some num)
  | JString s =>
      match strip_prefix "0x" s with
      | Some stripped => n ← u64_from_str_radix 16 stripped; Some (Some n)
      | None => n ← u64_from_str_radix 10 s; Some (Some n)
      end
  | JNull => Some None
  | _ => None
  end.

(** ** The state of a transaction *)

(** [b.as_u64().map(|n| n as u8)] *)
Definition lenient_byte (b : json) : option Byte.byte := n ← as_u64 b; Byte.of_N (wrap 8 n).

Definition reason_or (d : string) (val : option json) : string :=
  match val with Some (JString s) => s | _ => d end.
Definition submitted_hash (val : option json) : option bytes :=
  (λ arr, omap lenient_byte (arr : list json)) <$> ((val ≫= value_get "hash") ≫= as_array).

Definition from_tag (tag : string) (val : option json) : option TxStatus :=
  if String.eqb tag "Genesis" then Some Genesis
  else if String.eqb tag "RecvAddrConfirmed" then Some RecvAddrConfirmed
  else if String.eqb tag "RecvAddrConfirmationPassed" then Some RecvAddrConfirmationPassed
  else if String.eqb tag "NetConfirmed" then Some NetConfirmed
  else if String.eqb tag "SenderConfirmed" then Some SenderConfirmed
  else if String.eqb tag "SenderConfirmationfailed" then Some SenderConfirmationfailed
  else if String.eqb tag "RecvAddrFailed" then Some RecvAddrFailed
  else if String.eqb tag "ReceiverNotRegistered" then Some ReceiverNotRegistered
  else if String.eqb tag "FailedToSubmitTxn" then Some (FailedToSubmitTxn (reason_or "Submission failed" val))
  else if String.eqb tag "TxSubmissionPassed" then Some (TxSubmissionPassed (default [] (submitted_hash val)))
  else if String.eqb tag "TxError" then Some (TxError (reason_or "Transaction error" val))
  else if String.eqb tag "Reverted" then Some (Reverted (reason_or "Intended receiver not met" val))
  else None.

Definition TxStatus_deserialize (value : json) : option TxStatus :=
  match value with
  | JString s => from_tag s None
  | JObject map =>
      match map_get "type" map ≫= as_str with
      | Some t => from_tag t (map_get "data" map)
      | None => k ← only_key map; from_tag k (map_get k map)
      end
  | JArray arr =>
      match arr with
      | [] => None
      | first :: rest => tag ← as_str first; from_tag tag (head rest)
      end
  | _ => None
  end.

(** The variant's name, and its content. *)
Definition status_tag (st : TxStatus) : string :=
  match st with
  | Genesis => "Genesis"
  | RecvAddrConfirmed => "RecvAddrConfirmed"
  | RecvAddrConfirmationPassed => "RecvAddrConfirmationPassed"
  | NetConfirmed => "NetConfirmed"
  | SenderConfirmed => "SenderConfirmed"
  | SenderConfirmationfailed => "SenderConfirmationfailed"
  | RecvAddrFailed => "RecvAddrFailed"
  | FailedToSubmitTxn _ => "FailedToSubmitTxn"
  | TxError _ => "TxError"
  | TxSubmissionPassed _ => "TxSubmissionPassed"
  | ReceiverNotRegistered => "ReceiverNotRegistered"
  | Reverted _ => "Reverted"
  end.
Definition status_data (st : TxStatus) : option json :=
  match st with
  | FailedToSubmitTxn reason | TxError reason | Reverted reason => Some (JString reason)
  | TxSubmissionPassed hash => Some (JObject [("hash", se_bytes hash)])
  | _ => None
  end.
(** [#[serde(tag = "type", content = "data")]] *)
Definition TxStatus_serialize (st : TxStatus) : json :=
  JObject (("type", JString (status_tag st)) ::
           match status_data st with Some d => [("data", d)] | None => [] end).

(** ** Chains, tokens and unsigned transactions *)

Definition chains : list ChainSupported :=
  [Polkadot; Ethereum; Bnb; Solana; Tron; Optimism; Arbitrum; Polygon; Base; Bitcoin].
Definition ChainSupported_serialize (c : ChainSupported) : json :=
  JString (ChainSupported_into_string c).
Definition ChainSupported_deserialize (j : json) : option ChainSupported :=
  v ← variant j; unit_variant v.2;;
  List.find (λ c, String.eqb (ChainSupported_into_string c) v.1) chains.

(** The content of a contract token's variant. *)
Definition contract_serialize (name address : string) (decimals : N) : json :=
  JObject [("name", JString name); ("address", JString address); ("decimals", se_u decimals)].

(** The two kinds of token of an ecosystem. *)
Definition kind_deserialize {T} (native contract : string) (t : T) (mk : string → string → N → T)
    (j : json) : option T :=
  v ← variant j;
  if String.eqb v.1 native then unit_variant v.2;; Some t
  else if String.eqb v.1 contract then
    content ← v.2;
    m ← struct_fields ["name"; "address"; "decimals"] content;
    name ← required de_string "name" m;
    address ← required de_string "address" m;
    decimals ← required (de_u 8) "decimals" m;
    Some (mk name address decimals)
  else None.

Definition PolkadotToken_deserialize (j : json) : option PolkadotToken :=
  v ← variant j;
  if String.eqb v.1 "DOT" then unit_variant v.2;; Some PolkadotToken_DOT
  else if String.eqb v.1 "Asset" then
    content ← v.2;
    m ← struct_fields ["name"; "id"] content;
    name ← required de_string "name" m;
    id ← required de_string "id" m;
    Some (PolkadotToken_Asset name id)
  else None.
Definition BitcoinToken_deserialize (j : json) : option BitcoinToken :=
  v ← variant j;
  if String.eqb v.1 "BTC" then unit_variant v.2;; Some BitcoinToken_BTC else None.

(** The kind within the ecosystem. *)
Definition kind_serialize (t : Token) : json :=
  let contract tag n a d := JObject [(tag, contract_serialize n a d)] in
  match t with
  | Token_Ethereum EthereumToken_ETH | Token_Optimism OptimismToken_ETH
  | Token_Arbitrum ArbitrumToken_ETH | Token_Base BaseToken_ETH => JString "ETH"
  | Token_Ethereum (EthereumToken_ERC20 n a d) | Token_Optimism (OptimismToken_ERC20 n a d)
  | Token_Arbitrum (ArbitrumToken_ERC20 n a d) | Token_Polygon (PolygonToken_ERC20 n a d)
  | Token_Base (BaseToken_ERC20 n a d) => contract "ERC20" n a d
  | Token_Bnb BnbToken_BNB => JString "BNB"
  | Token_Bnb (BnbToken_BEP20 n a d) => contract "BEP20" n a d
  | Token_Polkadot PolkadotToken_DOT => JString "DOT"
  | Token_Polkadot (PolkadotToken_Asset name id) =>
      JObject [("Asset", JObject [("name", JString name); ("id", JString id)])]
  | Token_Solana SolanaToken_SOL => JString "SOL"
  | Token_Solana (SolanaToken_SPL n a d) => contract "SPL" n a d
  | Token_Tron TronToken_TRX => JString "TRX"
  | Token_Tron (TronToken_TRC20 n a d) => contract "TRC20" n a d
  | Token_Polygon PolygonToken_POL => JString "POL"
  | Token_Bitcoin BitcoinToken_BTC => JString "BTC"
  end.
Definition Token_serialize (t : Token) : json :=
  JObject [(ChainSupported_into_string (Token_into_chain t), kind_serialize t)].

Definition Token_deserialize (j : json) : option Token :=
  v ← variant j; kind ← v.2;
  if String.eqb v.1 "Ethereum" then
    Token_Ethereum <$> kind_deserialize "ETH" "ERC20" EthereumToken_ETH EthereumToken_ERC20 kind
  else if String.eqb v.1 "Bnb" then
    Token_Bnb <$> kind_deserialize "BNB" "BEP20" BnbToken_BNB BnbToken_BEP20 kind
  else if String.eqb v.1 "Polkadot" then Token_Polkadot <$> PolkadotToken_deserialize kind
  else if String.eqb v.1 "Solana" then
    Token_Solana <$> kind_deserialize "SOL" "SPL" SolanaToken_SOL SolanaToken_SPL kind
  else if String.eqb v.1 "Tron" then
    Token_Tron <$> kind_deserialize "TRX" "TRC20" TronToken_TRX TronToken_TRC20 kind
  else if String.eqb v.1 "Optimism" then
    Token_Optimism <$> kind_deserialize "ETH" "ERC20" OptimismToken_ETH OptimismToken_ERC20 kind
  else if String.eqb v.1 "Arbitrum" then
    Token_Arbitrum <$> kind_deserialize "ETH" "ERC20" ArbitrumToken_ETH ArbitrumToken_ERC20 kind
  else if String.eqb v.1 "Polygon" then
    Token_Polygon <$> kind_deserialize "POL" "ERC20" PolygonToken_POL PolygonToken_ERC20 kind
  else if String.eqb v.1 "Base" then
    Token_Base <$> kind_deserialize "ETH" "ERC20" BaseToken_ETH BaseToken_ERC20 kind
  else if String.eqb v.1 "Bitcoin" then Token_Bitcoin <$> BitcoinToken_deserialize kind
  else None.

Definition UnsignedEip1559_serialize (t : UnsignedEip1559) : json := JObject
  [("to", JString (eip_to t)); ("value", se_u (eip_value t)); ("chainId", se_u (eip_chain_id t));
   ("nonce", se_u (eip_nonce t)); ("gas", se_u (eip_gas t));
   ("maxFeePerGas", se_u (eip_max_fee_per_gas t));
   ("maxPriorityFeePerGas", se_u (eip_max_priority_fee_per_gas t));
   ("data", se_option JString (eip_data t));
   ("accessList", se_option (se_list (λ _ : unit, JNull)) (eip_access_list t));
   ("type", JString (eip_tx_type t))].
Definition UnsignedEip1559_deserialize (j : json) : option UnsignedEip1559 :=
  m ← struct_fields ["to"; "value"; "chainId"; "nonce"; "gas"; "maxFeePerGas";
                     "maxPriorityFeePerGas"; "data"; "accessList"; "type"] j;
  to ← required de_string "to" m;
  value ← required (de_u 128) "value" m;
  chain_id ← required (de_u 64) "chainId" m;
  nonce ← required (de_u 64) "nonce" m;
  gas ← required (de_u 64) "gas" m;
  max_fee ← required (de_u 64) "maxFeePerGas" m;
  max_priority_fee ← required (de_u 64) "maxPriorityFeePerGas" m;
  data ← optional (de_option de_string) "data" m;
  access_list ← optional (de_option (de_list de_unit)) "accessList" m;
  tx_type ← required de_string "type" m;
  Some (Build_UnsignedEip1559 to value chain_id nonce gas max_fee max_priority_fee data
          access_list tx_type).

Definition UnsignedBnbLegacy_serialize (t : UnsignedBnbLegacy) : json := JObject
  [("to", JString (bnb_to t)); ("value", se_u (bnb_value t)); ("chainId", se_u (bnb_chain_id t));
   ("nonce", se_u (bnb_nonce t)); ("gas", se_u (bnb_gas t)); ("gasPrice", se_u (bnb_gas_price t));
   ("data", se_option JString (bnb_data t)); ("type", JString (bnb_tx_type t))].
Definition UnsignedBnbLegacy_deserialize (j : json) : option UnsignedBnbLegacy :=
  m ← struct_fields ["to"; "value"; "chainId"; "nonce"; "gas"; "gasPrice"; "data"; "type"] j;
  to ← required de_string "to" m;
  value ← required (de_u 128) "value" m;
  chain_id ← required (de_u 64) "chainId" m;
  nonce ← required (de_u 64) "nonce" m;
  gas ← required (de_u 64) "gas" m;
  gas_price ← required (de_u 64) "gasPrice" m;
  data ← optional (de_option de_string) "data" m;
  tx_type ← required de_string "type" m;
  Some (Build_UnsignedBnbLegacy to value chain_id nonce gas gas_price data tx_type).

Definition ChainTransactionType_serialize (t : ChainTransactionType) : json :=
  match t with
  | CallEthereum fields call_payload => JObject [("ethereum", JObject
      [("ethUnsignedTxFields", UnsignedEip1559_serialize fields);
       ("callPayload", se_pair call_payload)])]
  | CallSolana call_payload latest_block_height => JObject [("solana", JObject
      [("callPayload", se_bytes call_payload); ("latestBlockHeight", se_u latest_block_height)])]
  | CallBnb call_payload fields => JObject [("bnb", JObject
      [("callPayload", se_pair call_payload);
       ("bnbLegacyTxFields", UnsignedBnbLegacy_serialize fields)])]
  end.
Definition ChainTransactionType_deserialize (j : json) : option ChainTransactionType :=
  v ← variant j; content ← v.2;
  if String.eqb v.1 "ethereum" then
    m ← struct_fields ["ethUnsignedTxFields"; "callPayload"] content;
    fields ← required UnsignedEip1559_deserialize "ethUnsignedTxFields" m;
    call_payload ← required de_pair "callPayload" m;
    Some (CallEthereum fields call_payload)
  else if String.eqb v.1 "solana" then
    m ← struct_fields ["callPayload"; "latestBlockHeight"] content;
    call_payload ← required de_bytes "callPayload" m;
    latest_block_height ← required (de_u 64) "latestBlockHeight" m;
    Some (CallSolana call_payload latest_block_height)
  else if String.eqb v.1 "bnb" then
    m ← struct_fields ["callPayload"; "bnbLegacyTxFields"] content;
    call_payload ← required de_pair "callPayload" m;
    fields ← required UnsignedBnbLegacy_deserialize "bnbLegacyTxFields" m;
    Some (CallBnb call_payload fields)
  else None.

(** ** Transactions and their text *)

(** [serde_json]'s printing and parsing of a document, and of an [f32] (by its bits). *)
Class JsonText := {
  print_json : json → bytes;
  parse_json : bytes → option json;
  f32_to_json : N → json;
  f32_of_json : json → option N
}.

(** What reading the text of a document makes of it.  [serde_json] does not promise to read
    a float back exactly: it becomes what its own text is read as. *)
Fixpoint reread `{JsonText} (j : json) : json :=
  match j with
  | JFloat bits => default JNull (parse_json (print_json (JFloat bits)))
  | JArray l => JArray (map reread l)
  | JObject m => JObject (map (λ '(k, j), (k, reread j)) m)
  | j => j
  end.
(** The [f32] that a written [f32] is read as, if it can be read. *)
Definition f32_reread `{JsonText} (bits : N) : option N := f32_of_json (reread (f32_to_json bits)).
(** Neither infinite nor a NaN: the exponent is not all ones. *)
Definition f32_finite (bits : N) : bool := negb (N.land (N.shiftr bits 23) 255 =? 255)%N.

(** The text of a document is read member by member; the empty text is no document; zero
    is read back; a finite [f32] is written as a number, which is read as some [f32]; one
    that is not finite is written as [null], which is no [f32]. *)
Class JsonTextLaws `{JsonText} : Prop := {
  parse_print_json j : parse_json (print_json j) = Some (reread j);
  parse_empty : parse_json [] = None;
  zero_reread : f32_reread 0 = Some 0%N;
  finite_reread bits : fits 32 bits → f32_finite bits = true → is_Some (f32_reread bits);
  f32_not_finite bits : f32_finite bits = false → f32_to_json bits = JNull;
  null_no_f32 : f32_of_json JNull = None
}.

Section transactions.
Context {TEXT : JsonText}.

Definition TxStateMachine_serialize (tx : TxStateMachine) : json := JObject
  [("senderAddress", JString (sender_address tx));
   ("senderPublicKey", se_option JString (sender_public_key tx));
   ("receiverAddress", JString (receiver_address tx));
   ("receiverPublicKey", se_option JString (receiver_public_key tx));
   ("multiId", se_bytes (multi_id tx));
   ("recvSignature", se_option se_bytes (recv_signature tx));
   ("token", Token_serialize (token tx));
   ("status", TxStatus_serialize (status tx));
   ("codeWord", JString (code_word tx));
   ("amount", se_u (amount tx));
   ("feesAmount", f32_to_json (fees_amount tx));
   ("signedCallPayload", se_option se_bytes (signed_call_payload tx));
   ("callPayload", se_option ChainTransactionType_serialize (call_payload tx));
   ("inboundReqId", serialize_u64_as_string (inbound_req_id tx));
   ("outboundReqId", serialize_u64_as_string (outbound_req_id tx));
   ("txNonce", se_u (tx_nonce tx));
   ("txVersion", se_u (tx_version tx));
   ("senderAddressNetwork", ChainSupported_serialize (sender_address_network tx));
   ("receiverAddressNetwork", ChainSupported_serialize (receiver_address_network tx))].

Definition tx_fields : list string :=
  ["senderAddress"; "senderPublicKey"; "receiverAddress"; "receiverPublicKey"; "multiId";
   "recvSignature"; "token"; "status"; "codeWord"; "amount"; "feesAmount"; "signedCallPayload";
   "callPayload"; "inboundReqId"; "outboundReqId"; "txNonce"; "txVersion";
   "senderAddressNetwork"; "receiverAddressNetwork"].

(** A field with a deserialiser of its own ([deserialize_with]) is required. *)
Definition TxStateMachine_deserialize (j : json) : option TxStateMachine :=
  m ← struct_fields tx_fields j;
  sender ← required de_string "senderAddress" m;
  sender_key ← optional (de_option de_string) "senderPublicKey" m;
  receiver ← required de_string "receiverAddress" m;
  receiver_key ← optional (de_option de_string) "receiverPublicKey" m;
  multi_id ← required de_bytes32 "multiId" m;
  recv_signature ← optional (de_option de_bytes) "recvSignature" m;
  token ← required Token_deserialize "token" m;
  status ← required TxStatus_deserialize "status" m;
  code_word ← required de_string "codeWord" m;
  amount ← required (de_u 128) "amount" m;
  fees_amount ← required f32_of_json "feesAmount" m;
  signed_call_payload ← optional (de_option de_bytes) "signedCallPayload" m;
  call_payload ← optional (de_option ChainTransactionType_deserialize) "callPayload" m;
  inbound_req_id ← required deserialize_u64_flexible "inboundReqId" m;
  outbound_req_id ← required deserialize_u64_flexible "outboundReqId" m;
  tx_nonce ← required (de_u 32) "txNonce" m;
  tx_version ← required (de_u 32) "txVersion" m;
  sender_network ← required ChainSupported_deserialize "senderAddressNetwork" m;
  receiver_network ← required ChainSupported_deserialize "receiverAddressNetwork" m;
  Some (Build_TxStateMachine sender sender_key receiver receiver_key multi_id recv_signature
    token status code_word amount fees_amount signed_call_payload call_payload inbound_req_id
    outbound_req_id tx_nonce tx_version sender_network receiver_network).

(** [serde_json::from_slice] and [serde_json::to_vec] at the type. *)
Definition serde_tx_json : TxJson := {|
  from_slice data := j ← parse_json data; TxStateMachine_deserialize j;
  to_vec tx := Some (print_json (TxStateMachine_serialize tx))
|}.
End transactions.
