(* ===== verification/JsonProps.v ===== *)
(** JSON round trips: every transaction a node or the backend can hold is read back as
    it was written, each hand-written deserialiser included, and how lenient these
    are. *)

From Stdlib Require Import Ascii.
From stdpp Require Import pretty.
From S2P Require Import Prelude DataStructure Codec Json.
Open Scope N_scope.
#[local] Arguments String.eqb : simpl nomatch.
#[local] Arguments de_u : simpl never.
#[local] Arguments se_u : simpl never.

Create HintDb json discriminated.

(** ** Numbers and sequences *)

Lemma de_u_se w n : fits w n → de_u w (se_u n) = Some n.
Proof.
  intros Hn. unfold de_u, se_u, fits in *. rewrite decide_True; [by rewrite N2Z.id|].
  split; [lia|]. change 2%Z with (Z.of_N 2). rewrite <-N2Z.inj_pow. lia.
Qed.

Lemma as_u64_se n : fits 64 n → as_u64 (se_u n) = Some n.
Proof. exact (de_u_se 64 n). Qed.

Lemma byte_fits (b : Byte.byte) : fits 8 (Byte.to_N b).
Proof. unfold fits. pose proof (Byte.to_N_bounded b). change (2 ^ 8)%N with 256%N. lia. Qed.

Lemma de_byte_se b : de_byte (se_byte b) = Some b.
Proof. unfold de_byte, se_byte. rewrite de_u_se by apply byte_fits. apply Byte.of_to_N. Qed.

Lemma lenient_byte_se b : lenient_byte (se_byte b) = Some b.
Proof.
  unfold lenient_byte, se_byte. pose proof (byte_fits b) as Hb.
  rewrite as_u64_se; [|unfold fits in *; etrans; [exact Hb|done]].
  simpl. unfold wrap. rewrite N.mod_small by exact Hb. apply Byte.of_to_N.
Qed.

Lemma de_list_se {A} (s : A → json) (d : json → option A) (l : list A) :
  (∀ x, d (s x) = Some x) → de_list d (se_list s l) = Some l.
Proof.
  intros Hds. unfold de_list, se_list. simpl. induction l as [|x l IH]; [done|].
  simpl. by rewrite Hds, IH.
Qed.

Lemma de_bytes_se l : de_bytes (se_bytes l) = Some l.
Proof. apply de_list_se, de_byte_se. Qed.

Lemma de_bytes32_se l : length l = 32%nat → de_bytes32 (se_bytes l) = Some l.
Proof. intros Hl. unfold de_bytes32. rewrite de_bytes_se. simpl. by rewrite decide_True. Qed.

Lemma de_pair_se p : de_pair (se_pair p) = Some p.
Proof. destruct p. unfold de_pair, se_pair. simpl. by rewrite !de_bytes_se. Qed.

Lemma de_option_se {A} (s : A → json) (d : json → option A) (o : option A) :
  (∀ x, o = Some x → s x ≠ JNull ∧ d (s x) = Some x) →
  de_option d (se_option s o) = Some o.
Proof.
  intros Hds. destruct o as [x|]; [|done]. destruct (Hds x eq_refl) as [Hn Hd].
  unfold de_option, se_option. destruct (s x); by rewrite ?Hd.
Qed.

(** ** Numbers in strings *)

Lemma digit_of_char n : n < 10 → digit_of 10 (pretty_N_char n) = Some n.
Proof.
  intros Hn.
  assert (n = 0 ∨ n = 1 ∨ n = 2 ∨ n = 3 ∨ n = 4 ∨ n = 5 ∨ n = 6 ∨ n = 7 ∨ n = 8 ∨ n = 9)
    as Hcases by lia.
  repeat destruct Hcases as [->|Hcases]; try done. by subst.
Qed.

Lemma digits_pretty_go n s : digits 10 0 (pretty_N_go n s) = digits 10 n s.
Proof.
  revert s. induction (N.lt_wf_0 n) as [n _ IH]; intros s.
  destruct (decide (n = 0)) as [->|Hn]; [done|].
  rewrite pretty_N_go_step by lia. rewrite IH by (apply N.div_lt; lia). simpl.
  rewrite digit_of_char by (apply N.mod_lt; lia). simpl. f_equal.
  rewrite N.mul_comm, <-N.div_mod; lia.
Qed.

Lemma digits_pretty n : digits 10 0 (pretty n) = Some n.
Proof.
  unfold pretty, pretty_N. destruct (decide (n = 0)) as [->|Hn]; [done|].
  by rewrite digits_pretty_go.
Qed.

(** A decimal has no prefix that the deserialiser strips. *)
Lemma digits_no_plus radix acc s n : digits radix acc s = Some n → strip_prefix "+" s = None.
Proof.
  destruct s as [|c s]; [done|]. intros Hd. cbn [strip_prefix].
  destruct (Ascii.eqb_spec "+" c) as [<-|]; [discriminate Hd|done].
Qed.

Lemma digits_no_hex acc s n : digits 10 acc s = Some n → strip_prefix "0x" s = None.
Proof.
  destruct s as [|c s]; [done|]. intros Hd. cbn [strip_prefix].
  destruct (Ascii.eqb_spec "0" c) as [<-|]; [|done].
  destruct s as [|c s]; [done|]. cbn [strip_prefix].
  destruct (Ascii.eqb_spec "x" c) as [<-|]; [discriminate Hd|done].
Qed.

Lemma from_str_radix_digits radix s n :
  s ≠ "" → digits radix 0 s = Some n →
  u64_from_str_radix radix s = if decide (fits 64 n) then Some n else None.
Proof.
  intros Hs Hd. unfold u64_from_str_radix. rewrite (digits_no_plus _ _ _ _ Hd). simpl.
  destruct s; [done|]. by rewrite Hd.
Qed.

Lemma flexible_decimal s n :
  s ≠ "" → digits 10 0 s = Some n →
  deserialize_u64_flexible (JString s) = if decide (fits 64 n) then Some (Some n) else None.
Proof.
  intros Hs Hd. unfold deserialize_u64_flexible. rewrite (digits_no_hex _ _ _ Hd).
  rewrite (from_str_radix_digits 10 _ n) by done. by destruct (decide (fits 64 n)).
Qed.

Lemma flexible_hex s n :
  s ≠ "" → digits 16 0 s = Some n →
  deserialize_u64_flexible (JString ("0x" +:+ s)) =
    if decide (fits 64 n) then Some (Some n) else None.
Proof.
  intros Hs Hd. unfold deserialize_u64_flexible. change (strip_prefix "0x" ("0x" +:+ s)) with (Some s).
  cbv beta iota. rewrite (from_str_radix_digits 16 _ n) by done. by destruct (decide (fits 64 n)).
Qed.

Lemma pretty_not_empty (n : N) : pretty n ≠ "".
Proof. intros Hn. pose proof (digits_pretty n) as Hd. destruct n; [done|]. rewrite Hn in Hd. done. Qed.

Lemma flexible_u64 o :
  from_option (fits 64) True o →
  deserialize_u64_flexible (serialize_u64_as_string o) = Some o.
Proof.
  destruct o as [n|]; [|done]. intros Hn. simpl serialize_u64_as_string.
  rewrite (flexible_decimal _ n) by (apply pretty_not_empty || apply digits_pretty).
  by rewrite decide_True.
Qed.

(** C38: a request identifier may be written as a number, or as a string of decimal digits,
    or of hexadecimal ones after 0x; each form is read as its value exactly when that
    fits 64 bits and is refused otherwise, and what is written (a decimal string, or
    null) is always read back. *)
Theorem request_id_forms (n : N) (s : string) (Hs : s ≠ "") :
  deserialize_u64_flexible (se_u n) = (if decide (fits 64 n) then Some (Some n) else None) ∧
  (digits 10 0 s = Some n →
     deserialize_u64_flexible (JString s) =
       if decide (fits 64 n) then Some (Some n) else None) ∧
  (digits 16 0 s = Some n →
     deserialize_u64_flexible (JString ("0x" +:+ s)) =
       if decide (fits 64 n) then Some (Some n) else None) ∧
  (fits 64 n → deserialize_u64_flexible (serialize_u64_as_string (Some n)) = Some (Some n)) ∧
  deserialize_u64_flexible (serialize_u64_as_string None) = Some None.
Proof.
  split_and!; [|by apply flexible_decimal|by apply flexible_hex|apply (flexible_u64 (Some n))|done].
  unfold deserialize_u64_flexible, se_u, as_u64, fits.
  destruct (decide _) as [Hz|Hz]; destruct (decide _) as [Hn|Hn]; simpl;
    [by rewrite N2Z.id|lia|lia|done].
Qed.

(** ** States *)

Lemma submitted_hash_se h :
  submitted_hash (Some (JObject [("hash", se_bytes h)])) = Some h.
Proof.
  change (submitted_hash (Some (JObject [("hash", se_bytes h)])))
    with (Some (omap lenient_byte (map se_byte h))).
  f_equal. induction h as [|b h IH]; [done|]. cbn [map omap list_omap].
  by rewrite lenient_byte_se, IH.
Qed.

Lemma from_tag_own st : from_tag (status_tag st) (status_data st) = Some st.
Proof.
  destruct st; try reflexivity.
  unfold status_tag, status_data, from_tag. by rewrite submitted_hash_se.
Qed.

(** the hand-written deserialiser of [TxStatus] reads back what is written, and each
    of the other spellings it accepts for the same state: the array of the name and the
    content, the object whose only member is the content under the name, and the bare
    name of a state without content. *)
Theorem status_spellings (st : TxStatus) :
  TxStatus_deserialize (TxStatus_serialize st) = Some st ∧
  TxStatus_deserialize (JArray (JString (status_tag st) :: option_list (status_data st)))
    = Some st ∧
  (∀ content, status_data st = Some content →
     TxStatus_deserialize (JObject [(status_tag st, content)]) = Some st) ∧
  (status_data st = None → TxStatus_deserialize (JString (status_tag st)) = Some st).
Proof.
  pose proof (from_tag_own st) as Hown. split_and!.
  - unfold TxStatus_serialize, TxStatus_deserialize.
    destruct (status_data st) eqn:Hd; exact Hown.
  - unfold TxStatus_deserialize. simpl as_str. destruct (status_data st); exact Hown.
  - intros content Hd. rewrite Hd in Hown. destruct st; try discriminate Hd; exact Hown.
  - intros Hd. rewrite Hd in Hown. exact Hown.
Qed.

(** A state is recognised by its name alone: a known name is accepted whatever its
    content is, an unknown one never; a content of the wrong shape is replaced by a
    default, and a number in a hash is reduced modulo 256 instead of refused. *)
Theorem status_content_ignored (tag : string) (val : option json) :
  (∀ st, is_Some (from_tag (status_tag st) val)) ∧
  (∀ st, from_tag tag val = Some st → status_tag st = tag) ∧
  (∀ l, from_tag "TxSubmissionPassed" (Some (JObject [("hash", JArray l)])) =
     Some (TxSubmissionPassed (omap lenient_byte l))) ∧
  (∀ n, fits 64 n → lenient_byte (se_u n) = Byte.of_N (n mod 256)) ∧
  (val ≫= value_get "hash" = None →
     from_tag "TxSubmissionPassed" val = Some (TxSubmissionPassed [])).
Proof.
  split_and!.
  - intros []; by eexists.
  - intros st. unfold from_tag.
    repeat match goal with
    | |- (if String.eqb ?s ?t then _ else _) = _ → _ =>
        destruct (String.eqb_spec s t) as [->|_]; [intros [= <-]; reflexivity|]
    end. done.
  - done.
  - intros n Hn. unfold lenient_byte. by rewrite as_u64_se.
  - intros Hv. change (from_tag "TxSubmissionPassed" val)
      with (Some (TxSubmissionPassed (default [] (submitted_hash val)))).
    unfold submitted_hash. by rewrite Hv.
Qed.

(** ** Chains, tokens and unsigned transactions *)

Lemma chain_round_trip c : ChainSupported_deserialize (ChainSupported_serialize c) = Some c.
Proof. by destruct c. Qed.

Lemma token_round_trip t : token_fits t → Token_deserialize (Token_serialize t) = Some t.
Proof.
  intros Hf. destruct t as [[]|[]|[]|[]|[]|[]|[]|[]|[]|[]]; try reflexivity;
    unfold Token_deserialize, kind_deserialize, Token_serialize, contract_serialize; simpl;
    unfold required; simpl; by rewrite de_u_se.
Qed.

#[local] Arguments de_option : simpl never.
#[local] Arguments se_option : simpl never.

Lemma opt_string_round_trip o : de_option de_string (se_option JString o) = Some o.
Proof. by apply de_option_se. Qed.
Lemma opt_bytes_round_trip o : de_option de_bytes (se_option se_bytes o) = Some o.
Proof. apply de_option_se. intros x _. split; [done|apply de_bytes_se]. Qed.
Lemma access_list_round_trip o :
  de_option (de_list de_unit) (se_option (se_list (λ _ : unit, JNull)) o) = Some o.
Proof. apply de_option_se. intros x _. split; [done|]. by apply de_list_se; intros []. Qed.

(** Reads a struct back field by field. *)
Ltac read_back :=
  repeat (unfold required, optional; simpl;
          first [rewrite de_u_se by done | rewrite opt_string_round_trip
                | rewrite opt_bytes_round_trip | rewrite access_list_round_trip
                | rewrite de_bytes_se | rewrite de_pair_se]).

Lemma eip1559_round_trip t :
  eip1559_fits t → UnsignedEip1559_deserialize (UnsignedEip1559_serialize t) = Some t.
Proof.
  intros (? & ? & ? & ? & ? & ?). unfold UnsignedEip1559_deserialize, UnsignedEip1559_serialize.
  read_back. by destruct t.
Qed.

Lemma bnb_legacy_round_trip t :
  bnb_legacy_fits t → UnsignedBnbLegacy_deserialize (UnsignedBnbLegacy_serialize t) = Some t.
Proof.
  intros (? & ? & ? & ? & ?). unfold UnsignedBnbLegacy_deserialize, UnsignedBnbLegacy_serialize.
  read_back. by destruct t.
Qed.

#[local] Arguments se_bytes : simpl never.
#[local] Arguments de_bytes : simpl never.
#[local] Arguments se_pair : simpl never.
#[local] Arguments de_pair : simpl never.

Lemma call_round_trip t :
  call_fits t → ChainTransactionType_deserialize (ChainTransactionType_serialize t) = Some t.
Proof.
  destruct t as [fields p|p h|p fields]; intros Hf;
    unfold ChainTransactionType_deserialize, ChainTransactionType_serialize, required; simpl.
  - by rewrite eip1559_round_trip by done; simpl; rewrite de_pair_se.
  - by rewrite de_bytes_se; simpl; rewrite de_u_se.
  - by rewrite de_pair_se; simpl; rewrite bnb_legacy_round_trip.
Qed.

Lemma opt_call_round_trip o :
  from_option call_fits True o →
  de_option ChainTransactionType_deserialize (se_option ChainTransactionType_serialize o) = Some o.
Proof.
  intros Hf. apply de_option_se. intros x ->. split; [by destruct x|by apply call_round_trip].
Qed.

(** ** Transactions *)

#[local] Arguments se_u : simpl never.
#[local] Arguments de_bytes32 : simpl never.
#[local] Arguments Token_serialize : simpl never.
#[local] Arguments Token_deserialize : simpl never.
#[local] Arguments TxStatus_serialize : simpl never.
#[local] Arguments TxStatus_deserialize : simpl never.
#[local] Arguments ChainSupported_serialize : simpl never.
#[local] Arguments ChainSupported_deserialize : simpl never.
#[local] Arguments serialize_u64_as_string : simpl never.
#[local] Arguments deserialize_u64_flexible : simpl never.

(** Induction on documents, for every member of an array or an object. *)
Section induction.
Context (P : json → Prop) (Hnull : P JNull) (Hbool : ∀ b, P (JBool b))
  (Hnum : ∀ z, P (JNumber z)) (Hfloat : ∀ bits, P (JFloat bits)) (Hstr : ∀ s, P (JString s))
  (Harr : ∀ l, Forall P l → P (JArray l)) (Hobj : ∀ m, Forall (λ kv, P kv.2) m → P (JObject m)).

Fixpoint json_tree_ind (j : json) : P j :=
  match j with
  | JNull => Hnull
  | JBool b => Hbool b
  | JNumber z => Hnum z
  | JFloat bits => Hfloat bits
  | JString s => Hstr s
  | JArray l => Harr l ((fix all l : Forall P l :=
      match l with
      | [] => @Forall_nil _ P
      | j :: l => @Forall_cons _ P j l (json_tree_ind j) (all l)
      end) l)
  | JObject m => Hobj m ((fix all m : Forall (λ kv, P kv.2) m :=
      match m with
      | [] => @Forall_nil _ (λ kv, P kv.2)
      | kv :: m => @Forall_cons _ (λ kv, P kv.2) kv m (json_tree_ind kv.2) (all m)
      end) m)
  end.
End induction.

Section transactions.
Context {TEXT : JsonText} {LAWS : JsonTextLaws}.

(** No float occurs in the document. *)
Fixpoint plain (j : json) : Prop :=
  match j with
  | JFloat _ => False
  | JArray l => (fix all l := match l with [] => True | j :: l => plain j ∧ all l end) l
  | JObject m => (fix all m := match m with [] => True | (_, j) :: m => plain j ∧ all m end) m
  | _ => True
  end.

Lemma plain_array j l : plain j → plain (JArray l) → plain (JArray (j :: l)).
Proof. by split. Qed.
Lemma plain_object k j m : plain j → plain (JObject m) → plain (JObject ((k, j) :: m)).
Proof. by split. Qed.
Lemma plain_list {A} (s : A → json) l : (∀ x, plain (s x)) → plain (se_list s l).
Proof. intros Hs. unfold se_list. induction l as [|x l IH]; [done|]. by apply plain_array. Qed.
Lemma plain_option {A} (s : A → json) o : (∀ x, plain (s x)) → plain (se_option s o).
Proof. intros Hs. by destruct o; [apply Hs|]. Qed.
Lemma plain_bytes l : plain (se_bytes l).
Proof. by apply plain_list. Qed.
#[local] Hint Resolve plain_array plain_object plain_list plain_option plain_bytes : json.
#[local] Hint Extern 1 (plain (JString _)) => exact I : json.
#[local] Hint Extern 1 (plain (se_u _)) => exact I : json.
#[local] Hint Extern 1 (plain JNull) => exact I : json.
#[local] Hint Extern 1 (plain (JObject [])) => exact I : json.
#[local] Hint Extern 1 (plain (JArray [])) => exact I : json.

Lemma plain_token t : plain (Token_serialize t).
Proof. by destruct t as [[]|[]|[]|[]|[]|[]|[]|[]|[]|[]]. Qed.
Lemma plain_status st : plain (TxStatus_serialize st).
Proof. unfold TxStatus_serialize. destruct st; cbn [status_data]; auto 10 with json. Qed.
Lemma plain_eip1559 t : plain (UnsignedEip1559_serialize t).
Proof. unfold UnsignedEip1559_serialize. auto 20 with json. Qed.
Lemma plain_bnb_legacy t : plain (UnsignedBnbLegacy_serialize t).
Proof. unfold UnsignedBnbLegacy_serialize. auto 20 with json. Qed.
Lemma plain_pair p : plain (se_pair p).
Proof. unfold se_pair. auto with json. Qed.
#[local] Hint Resolve plain_token plain_status plain_eip1559 plain_bnb_legacy plain_pair : json.
Lemma plain_call t : plain (ChainTransactionType_serialize t).
Proof. destruct t; cbn [ChainTransactionType_serialize]; auto 10 with json. Qed.
Lemma plain_id o : plain (serialize_u64_as_string o).
Proof. by destruct o. Qed.
Lemma plain_chain c : plain (ChainSupported_serialize c).
Proof. done. Qed.
#[local] Hint Resolve plain_call plain_id plain_chain : json.

Lemma plain_reread j : plain j → reread j = j.
Proof.
  induction j as [|b|z|bits|s|l IH|m IH] using json_tree_ind; intros Hj; try done;
    simpl; f_equal.
  - induction IH as [|x l Hx _ IH]; [done|]. destruct Hj as [Hj Hl]. simpl.
    by rewrite Hx, IH.
  - induction IH as [|[k v] m Hx _ IH]; [done|]. destruct Hj as [Hj Hm]. simpl in *.
    by rewrite Hx, IH.
Qed.

Definition set_fees (fees : N) (tx : TxStateMachine) : TxStateMachine :=
  Build_TxStateMachine (sender_address tx) (sender_public_key tx) (receiver_address tx)
    (receiver_public_key tx) (multi_id tx) (recv_signature tx) (token tx) (status tx)
    (code_word tx) (amount tx) fees (signed_call_payload tx) (call_payload tx)
    (inbound_req_id tx) (outbound_req_id tx) (tx_nonce tx) (tx_version tx)
    (sender_address_network tx) (receiver_address_network tx).

(** The members of an object, those without a float as they are. *)
Definition reread_members (m : list (string * json)) : list (string * json) :=
  map (λ '(k, j), (k, reread j)) m.
Lemma reread_member k j m :
  plain j → reread_members ((k, j) :: m) = (k, j) :: reread_members m.
Proof. intros Hj. simpl. by rewrite plain_reread. Qed.
Lemma reread_fees k f m :
  reread_members ((k, f32_to_json f) :: m) = (k, reread (f32_to_json f)) :: reread_members m.
Proof. done. Qed.

Lemma tx_document_round_trip tx :
  tx_fits tx →
  TxStateMachine_deserialize (reread (TxStateMachine_serialize tx)) =
    (λ fees, set_fees fees tx) <$> f32_reread (fees_amount tx).
Proof.
  intros [].
  assert (∀ m, reread (JObject m) = JObject (reread_members m)) as Hobject by done.
  unfold TxStateMachine_serialize. rewrite Hobject.
  repeat first [rewrite reread_fees | rewrite reread_member by auto 10 with json].
  unfold TxStateMachine_deserialize, required, optional. simpl. fold (f32_reread (fees_amount tx)).
  repeat (rewrite ?opt_string_round_trip, ?opt_bytes_round_trip, ?chain_round_trip;
          first [rewrite de_bytes32_se by done | rewrite token_round_trip by done
                | rewrite (proj1 (status_spellings _)) | rewrite de_u_se by done
                | rewrite opt_call_round_trip by done | rewrite flexible_u64 by done]; simpl).
  destruct (f32_reread _) as [fees|]; [|done]. simpl.
  repeat (rewrite ?opt_string_round_trip, ?opt_bytes_round_trip, ?chain_round_trip;
          first [rewrite de_u_se by done
                | rewrite opt_call_round_trip by done | rewrite flexible_u64 by done]; simpl).
  rewrite ?chain_round_trip. simpl. rewrite ?chain_round_trip. by simpl.
Qed.

(** The text of a transaction, read back. *)
Lemma serde_tx_reads tx data :
  tx_fits tx → @to_vec serde_tx_json tx = Some data →
  @from_slice serde_tx_json data =
    (λ fees, set_fees fees tx) <$> f32_reread (fees_amount tx).
Proof.
  intros Hfits [= <-]. simpl. rewrite parse_print_json. by apply tx_document_round_trip.
Qed.

(** The program's JSON satisfies what its users rely on. *)
Lemma serde_tx_json_laws : @TxJsonLaws serde_tx_json.
Proof.
  constructor.
  - intros tx data Hfits Hfees Hdata. rewrite (serde_tx_reads tx data Hfits Hdata), Hfees.
    rewrite zero_reread. simpl. rewrite <-Hfees. by destruct tx.
  - simpl. by rewrite parse_empty.
Qed.

(** C24: a transaction whose fields have the widths of their types is always written, and
    read back from its JSON as it was written, every field and every state included, except
    that its fee, when the host has set one, is the [f32] that the fee's own decimal text is
    read as: a transaction without a fee, or with a fee that its text gives back, is read
    back exactly.  A fee that is infinite or not a number is written as [null], and such a
    transaction cannot be read at all. *)
Theorem tx_json_round_trip tx (Hfits : tx_fits tx) :
  ∃ data, @to_vec serde_tx_json tx = Some data ∧
    (f32_finite (fees_amount tx) = true →
       ∃ fees, f32_reread (fees_amount tx) = Some fees ∧
         @from_slice serde_tx_json data = Some (set_fees fees tx)) ∧
    (fees_amount tx = 0 ∨ f32_reread (fees_amount tx) = Some (fees_amount tx) →
       @from_slice serde_tx_json data = Some tx) ∧
    (f32_finite (fees_amount tx) = false → @from_slice serde_tx_json data = None).
Proof.
  eexists. split; [reflexivity|]. rewrite (serde_tx_reads tx _ Hfits eq_refl). split_and!.
  - intros Hfin. destruct (finite_reread (fees_amount tx) (fits_fees _ Hfits) Hfin) as [fees Hf].
    exists fees. by rewrite Hf.
  - intros Hexact. assert (f32_reread (fees_amount tx) = Some (fees_amount tx)) as ->
      by (destruct Hexact as [->|]; [apply zero_reread|done]).
    by destruct tx.
  - intros Hinf. unfold f32_reread. rewrite f32_not_finite by done. simpl. by rewrite null_no_f32.
Qed.
End transactions.

(** ** A concrete text

    The code of a document as a tree of labels. *)

Abbreviation label := (bool + Z + (N + string))%type.

Fixpoint tree_of (j : json) : gen_tree label :=
  match j with
  | JNull => GenNode 0 []
  | JBool b => GenLeaf (inl (inl b))
  | JNumber z => GenLeaf (inl (inr z))
  | JFloat bits => GenLeaf (inr (inl bits))
  | JString s => GenLeaf (inr (inr s))
  | JArray l => GenNode 1 (map tree_of l)
  | JObject m => GenNode 2 (map (λ kv, GenNode 0 [GenLeaf (inr (inr kv.1)); tree_of kv.2]) m)
  end.
Fixpoint of_tree (t : gen_tree label) : json :=
  match t with
  | GenLeaf (inl (inl b)) => JBool b
  | GenLeaf (inl (inr z)) => JNumber z
  | GenLeaf (inr (inl bits)) => JFloat bits
  | GenLeaf (inr (inr s)) => JString s
  | GenNode 0 _ => JNull
  | GenNode 1 l => JArray (map of_tree l)
  | GenNode _ m => JObject (map (λ kv,
      match kv with GenNode _ [GenLeaf (inr (inr k)); v] => (k, of_tree v) | _ => ("", JNull) end) m)
  end.

Lemma of_tree_of j : of_tree (tree_of j) = j.
Proof.
  induction j as [|b|z|bits|s|l IH|m IH] using json_tree_ind; try done; simpl; f_equal.
  - induction IH as [|x l Hx _ IH]; [done|]. simpl. by rewrite Hx, IH.
  - induction IH as [|[k v] m Hx _ IH]; [done|]. simpl in *. by rewrite Hx, IH.
Qed.

Definition sample_text : JsonText := {|
  print_json j := Byte.x7b :: scale_encode (N.pos (encode (tree_of j)));
  parse_json data :=
    match data with
    | Byte.x7b :: data => n ← scale_decode data;
        match n with N.pos p => t ← decode p; Some (of_tree t) | 0 => None end
    | _ => None
    end;
  f32_to_json bits := if f32_finite bits then JFloat bits else JNull;
  f32_of_json j := match j with JFloat bits => Some bits | _ => None end
|}.

(** This text gives back every document. *)
Lemma sample_text_exact j : @parse_json sample_text (@print_json sample_text j) = Some j.
Proof.
  unfold parse_json, print_json, sample_text.
  rewrite scale_decode_encode. cbn [mbind option_bind].
  rewrite decode_encode. cbn [mbind option_bind].
  by rewrite of_tree_of.
Qed.
Lemma sample_text_reread j : @reread sample_text j = j.
Proof.
  induction j as [|b|z|bits|s|l IH|m IH] using json_tree_ind; try done.
  - cbn [reread]. by rewrite sample_text_exact.
  - simpl. f_equal. induction IH as [|x l Hx _ IH]; [done|]. simpl. by rewrite Hx, IH.
  - simpl. f_equal. induction IH as [|[k v] m Hx _ IH]; [done|]. simpl in *. by rewrite Hx, IH.
Qed.

Lemma sample_text_laws : @JsonTextLaws sample_text.
Proof.
  constructor; try done.
  - intros j. by rewrite sample_text_exact, sample_text_reread.
  - intros bits _ Hfin. unfold f32_reread. rewrite sample_text_reread.
    change (is_Some (@f32_of_json sample_text (if f32_finite bits then JFloat bits else JNull))).
    rewrite Hfin. by eexists.
  - intros bits Hinf. change ((if f32_finite bits then JFloat bits else JNull) = JNull).
    by rewrite Hinf.
Qed.

(** ** Witnesses *)

Definition submitted_tx : TxStateMachine := {|
  sender_address := "alice"; sender_public_key := Some "pk"; receiver_address := "bob";
  receiver_public_key := None; multi_id := repeat Byte.x2a 32; recv_signature := Some [Byte.xff];
  token := Token_Bnb (BnbToken_BEP20 "USD" "0xaa" 18);
  status := TxSubmissionPassed [Byte.x00; Byte.xff]; code_word := "vane";
  amount := 340282366920938463463374607431768211455; fees_amount := 0;
  signed_call_payload := Some []; call_payload := Some (CallSolana [Byte.x01] 7);
  inbound_req_id := Some 18446744073709551615; outbound_req_id := None;
  tx_nonce := 1; tx_version := 4; sender_address_network := Bnb; receiver_address_network := Bnb |}.

Lemma submitted_tx_fits : tx_fits submitted_tx.
Proof. constructor; vm_compute; done. Qed.

Lemma request_id_forms_witness :
  deserialize_u64_flexible (JString "18446744073709551615") = Some (Some 18446744073709551615) ∧
  deserialize_u64_flexible (JString "0xFf") = Some (Some 255).
Proof.
  split.
  - destruct (request_id_forms 18446744073709551615 "18446744073709551615"
      ltac:(discriminate)) as (_ & H & _). rewrite H by (vm_compute; reflexivity). reflexivity.
  - destruct (request_id_forms 255 "Ff" ltac:(discriminate)) as (_ & _ & H & _).
    exact (H ltac:(vm_compute; reflexivity)).
Defined.

(** With the fee of 1.5 ([0x3fc00000]) the host has set, and with an infinite one. *)
Lemma tx_json_round_trip_witness :
  (∃ data, @to_vec (@serde_tx_json sample_text) (set_fees 1069547520 submitted_tx) = Some data ∧
    @from_slice (@serde_tx_json sample_text) data = Some (set_fees 1069547520 submitted_tx)) ∧
  (∃ data, @to_vec (@serde_tx_json sample_text) (set_fees 2139095040 submitted_tx) = Some data ∧
    @from_slice (@serde_tx_json sample_text) data = None).
Proof.
  split.
  - destruct (@tx_json_round_trip sample_text sample_text_laws (set_fees 1069547520 submitted_tx))
      as (data & Hdata & Hread & _); [constructor; vm_compute; done|].
    destruct Hread as (fees & Hfees & Hread); [reflexivity|].
    exists data. split; [exact Hdata|]. rewrite Hread.
    unfold f32_reread in Hfees. rewrite sample_text_reread in Hfees.
    injection Hfees as <-. reflexivity.
  - destruct (@tx_json_round_trip sample_text sample_text_laws (set_fees 2139095040 submitted_tx))
      as (data & Hdata & _ & _ & Hinf); [constructor; vm_compute; done|].
    exists data. split; [exact Hdata|by apply Hinf].
Defined.
