(* ===== verification/Samples.v ===== *)
(** Concrete transactions and clocks on which the theorems of the other files
    are evaluated. *)

From S2P Require Import Prelude DataStructure Codec.

Definition sample_tx (sender receiver : string) (id : bytes) (st : TxStatus) : TxStateMachine := {|
  sender_address := sender;
  sender_public_key := None;
  receiver_address := receiver;
  receiver_public_key := None;
  multi_id := id;
  recv_signature := None;
  token := Token_default;
  status := st;
  code_word := "vane";
  amount := 1000%N;
  fees_amount := 0%N;
  signed_call_payload := None;
  call_payload := None;
  inbound_req_id := None;
  outbound_req_id := None;
  tx_nonce := 1%N;
  tx_version := 0%N;
  sender_address_network := Ethereum;
  receiver_address_network := Ethereum
|}.

(** Alice sends to Bob. *)
Definition tx_ab (st : TxStatus) : TxStateMachine := sample_tx "alice" "bob" [Byte.x41] st.
(** Alice sends to Carol. *)
Definition tx_ac (st : TxStatus) : TxStateMachine := sample_tx "alice" "carol" [Byte.x42] st.

Definition json_of (tx : TxStateMachine) : bytes := Byte.x7b :: scale_encode tx.

Lemma from_slice_json_of tx : @from_slice sample_json (json_of tx) = Some tx.
Proof. exact (scale_decode_encode tx). Qed.

Definition at_time (t : N) : nat → N := λ _, t.
