(* ===== verification/Server.v ===== *)
(** The backend ([node/vane-backend/src/server.rs]): the request store with
    its time to live, the peer table and the JSON-RPC handlers of
    [VaneSwarmServer].

    The handlers run one at a time under the server's mutex, so each is a
    function of the server's state.  [SystemTime::now()] is an argument: the
    sub-operations take the instants they read, and a handler takes a clock
    [clk], whose [i]-th value is the reading the [i]-th sub-operation sees (one
    reading per scan of a map).  A [HashMap] is iterated in an order that is an
    argument.  Events sent on the broadcast channel and notifications offered to
    the notification channel are kept as logs in the state, oldest first; both
    [send] results are ignored by the code.  Logging is left out. *)

From S2P Require Import Prelude DataStructure Codec.
Open Scope N_scope.

Definition REQUEST_TTL_SECONDS : N := 60 * 30.

Record RequestEntry := { re_data : bytes; re_created_at : N }.

Definition RequestEntry_new (now : N) (data : bytes) : RequestEntry :=
  {| re_data := data; re_created_at := now |}.
Definition RequestEntry_is_expired (now ttl_seconds : N) (e : RequestEntry) : bool :=
  ttl_seconds <? saturating_sub now (re_created_at e).
Definition RequestEntry_update_data (data : bytes) (e : RequestEntry) : RequestEntry :=
  {| re_data := data; re_created_at := re_created_at e |}.

Record RequestListEntry := { multi_ids : list string; rl_created_at : N }.

Definition RequestListEntry_new (now : N) : RequestListEntry :=
  {| multi_ids := []; rl_created_at := now |}.
Definition RequestListEntry_is_expired (now ttl_seconds : N) (e : RequestListEntry) : bool :=
  ttl_seconds <? saturating_sub now (rl_created_at e).
Definition RequestListEntry_push (multi_id : string) (e : RequestListEntry) : RequestListEntry :=
  {| multi_ids := multi_ids e ++ [multi_id]; rl_created_at := rl_created_at e |}.

Record TargetPeer := {
  tp_account_id : string;
  tp_network : ChainSupported;
  times_requested : N
}.

(** [BackendMetrics]: counters only grow, gauges are signed. *)
Record BackendMetrics := {
  sender_requests_total : N;
  receiver_responses_total : N;
  receiver_not_found_total : N;
  peers_added_total : N;
  peers_removed_total : N;
  active_peers : Z;
  pending_requests : Z;
  new_clients_joined : N
}.

Definition BackendMetrics_new : BackendMetrics := {|
  sender_requests_total := 0;
  receiver_responses_total := 0;
  receiver_not_found_total := 0;
  peers_added_total := 0;
  peers_removed_total := 0;
  active_peers := 0;
  pending_requests := 0;
  new_clients_joined := 0
|}.

(** *** [MetricService]: the recorders. *)

Definition metrics_sender_request (m : BackendMetrics) : BackendMetrics := {|
  sender_requests_total := sender_requests_total m + 1;
  receiver_responses_total := receiver_responses_total m;
  receiver_not_found_total := receiver_not_found_total m;
  peers_added_total := peers_added_total m;
  peers_removed_total := peers_removed_total m;
  active_peers := active_peers m;
  pending_requests := pending_requests m;
  new_clients_joined := new_clients_joined m
|}.

Definition metrics_receiver_response (m : BackendMetrics) : BackendMetrics := {|
  sender_requests_total := sender_requests_total m;
  receiver_responses_total := receiver_responses_total m + 1;
  receiver_not_found_total := receiver_not_found_total m;
  peers_added_total := peers_added_total m;
  peers_removed_total := peers_removed_total m;
  active_peers := active_peers m;
  pending_requests := pending_requests m;
  new_clients_joined := new_clients_joined m
|}.

Definition metrics_peer_added (m : BackendMetrics) : BackendMetrics := {|
  sender_requests_total := sender_requests_total m;
  receiver_responses_total := receiver_responses_total m;
  receiver_not_found_total := receiver_not_found_total m;
  peers_added_total := peers_added_total m + 1;
  peers_removed_total := peers_removed_total m;
  active_peers := active_peers m + 1;
  pending_requests := pending_requests m;
  new_clients_joined := new_clients_joined m
|}.

Definition metrics_peer_removed (m : BackendMetrics) : BackendMetrics := {|
  sender_requests_total := sender_requests_total m;
  receiver_responses_total := receiver_responses_total m;
  receiver_not_found_total := receiver_not_found_total m;
  peers_added_total := peers_added_total m;
  peers_removed_total := peers_removed_total m + 1;
  active_peers := active_peers m - 1;
  pending_requests := pending_requests m;
  new_clients_joined := new_clients_joined m
|}.

Definition metrics_update_gauges (peers requests : Z) (m : BackendMetrics) : BackendMetrics := {|
  sender_requests_total := sender_requests_total m;
  receiver_responses_total := receiver_responses_total m;
  receiver_not_found_total := receiver_not_found_total m;
  peers_added_total := peers_added_total m;
  peers_removed_total := peers_removed_total m;
  active_peers := peers;
  pending_requests := requests;
  new_clients_joined := new_clients_joined m
|}.

Definition metrics_new_client_joined (m : BackendMetrics) : BackendMetrics := {|
  sender_requests_total := sender_requests_total m;
  receiver_responses_total := receiver_responses_total m;
  receiver_not_found_total := receiver_not_found_total m;
  peers_added_total := peers_added_total m;
  peers_removed_total := peers_removed_total m;
  active_peers := active_peers m;
  pending_requests := pending_requests m;
  new_clients_joined := new_clients_joined m + 1
|}.

(** *** The server *)

Abbreviation TargetPeers := (gmap string TargetPeer).

Record VaneSwarmServer := {
  peers : gmap string TargetPeers;
  requests : gmap string RequestEntry;
  sender_requests : gmap string RequestListEntry;
  receiver_requests : gmap string RequestListEntry;
  metrics : BackendMetrics;
  event_sender : list BackendEvent;
  system_notification_sender : list SystemNotification
}.

Definition VaneSwarmServer_new : VaneSwarmServer := {|
  peers := ∅;
  requests := ∅;
  sender_requests := ∅;
  receiver_requests := ∅;
  metrics := BackendMetrics_new;
  event_sender := [];
  system_notification_sender := []
|}.

Definition with_peers f (s : VaneSwarmServer) : VaneSwarmServer := {|
  peers := f (peers s); requests := requests s;
  sender_requests := sender_requests s; receiver_requests := receiver_requests s;
  metrics := metrics s; event_sender := event_sender s;
  system_notification_sender := system_notification_sender s |}.
Definition with_requests f (s : VaneSwarmServer) : VaneSwarmServer := {|
  peers := peers s; requests := f (requests s);
  sender_requests := sender_requests s; receiver_requests := receiver_requests s;
  metrics := metrics s; event_sender := event_sender s;
  system_notification_sender := system_notification_sender s |}.
Definition with_lists f g (s : VaneSwarmServer) : VaneSwarmServer := {|
  peers := peers s; requests := requests s;
  sender_requests := f (sender_requests s); receiver_requests := g (receiver_requests s);
  metrics := metrics s; event_sender := event_sender s;
  system_notification_sender := system_notification_sender s |}.
Definition with_metrics f (s : VaneSwarmServer) : VaneSwarmServer := {|
  peers := peers s; requests := requests s;
  sender_requests := sender_requests s; receiver_requests := receiver_requests s;
  metrics := f (metrics s); event_sender := event_sender s;
  system_notification_sender := system_notification_sender s |}.
Definition with_events f (s : VaneSwarmServer) : VaneSwarmServer := {|
  peers := peers s; requests := requests s;
  sender_requests := sender_requests s; receiver_requests := receiver_requests s;
  metrics := metrics s; event_sender := f (event_sender s);
  system_notification_sender := system_notification_sender s |}.
Definition with_notifications f (s : VaneSwarmServer) : VaneSwarmServer := {|
  peers := peers s; requests := requests s;
  sender_requests := sender_requests s; receiver_requests := receiver_requests s;
  metrics := metrics s; event_sender := event_sender s;
  system_notification_sender := f (system_notification_sender s) |}.

(** [let _ = self.event_sender.send(event)] *)
Definition send_event (ev : BackendEvent) : M VaneSwarmServer unit :=
  modify (with_events (λ l, l ++ [ev])).
(** [let _ = self.system_notification_sender.try_send(n)] *)
Definition try_send_notification (n : SystemNotification) : M VaneSwarmServer unit :=
  modify (with_notifications (λ l, l ++ [n])).

(** *** Expiry *)

Definition live_request (now : N) (e : RequestEntry) : bool :=
  negb (RequestEntry_is_expired now REQUEST_TTL_SECONDS e).

Definition cleanup_expired_requests (now : N) : M VaneSwarmServer unit :=
  modify (with_requests (filter (λ kv, live_request now kv.2 = true))).

(** The body of the two loops over the keys of an index: what becomes of an entry. *)
Definition prune_list_entry (now : N) (expired_multi_ids : gset string)
    (entry : RequestListEntry) : option RequestListEntry :=
  if RequestListEntry_is_expired now REQUEST_TTL_SECONDS entry then None
  else if decide (expired_multi_ids = ∅) then Some entry
  else
    let kept := filter (λ multi_id, multi_id ∉ expired_multi_ids) (multi_ids entry) in
    match kept with
    | [] => None
    | _ => Some {| multi_ids := kept; rl_created_at := rl_created_at entry |}
    end.

Definition cleanup_expired_sender_receiver_requests (now : N) : M VaneSwarmServer unit :=
  expired_multi_ids ← gets (λ s,
    dom (filter (λ kv, RequestEntry_is_expired now REQUEST_TTL_SECONDS kv.2 = true)
           (requests s)));
  modify (with_lists (omap (prune_list_entry now expired_multi_ids))
                     (omap (prune_list_entry now expired_multi_ids))).

Definition insert_request (t0 t1 t2 : N) (multi_id : string) (data : bytes) :
    M VaneSwarmServer unit :=
  cleanup_expired_requests t0;;
  cleanup_expired_sender_receiver_requests t1;;
  modify (with_requests (<[multi_id := RequestEntry_new t2 data]>)).

Definition update_request (t0 t1 t2 : N) (multi_id : string) (data : bytes) :
    M VaneSwarmServer bool :=
  cleanup_expired_requests t0;;
  cleanup_expired_sender_receiver_requests t1;;
  entry ← gets (λ s, requests s !! multi_id);
  match entry with
  | Some entry =>
      if RequestEntry_is_expired t2 REQUEST_TTL_SECONDS entry then
        modify (with_requests (delete multi_id));;
        send_event (DataExpired multi_id (re_data entry));;
        mret false
      else
        modify (with_requests (<[multi_id := RequestEntry_update_data data entry]>));;
        mret true
  | None =>
      send_event (DataExpired multi_id []);;
      mret false
  end.

Definition update_metrics (t0 t1 : N) : M VaneSwarmServer unit :=
  cleanup_expired_requests t0;;
  cleanup_expired_sender_receiver_requests t1;;
  peer_count ← gets (λ s, Z.of_nat (size (peers s)));
  request_count ← gets (λ s, Z.of_nat (size (requests s)));
  modify (with_metrics (metrics_update_gauges peer_count request_count)).

(** *** Handlers *)

Section handlers.
Context `{TxJson, Hex, BuildProfile}.

(** [serde_json::from_slice(&data).map_err(..)?] *)
Definition decode_tx (data : bytes) : M VaneSwarmServer TxStateMachine :=
  lift (ok_or (from_slice data) "Failed to decode TxStateMachine").

Definition TargetPeer_first (tx_state : TxStateMachine) : TargetPeer := {|
  tp_account_id := receiver_address tx_state;
  tp_network := receiver_address_network tx_state;
  times_requested := 1
|}.

(** The peer table's part of [handle_sender_request]. *)
Definition record_target_peer (t0 t1 : N) (address : string)
    (tx_state : TxStateMachine) : M VaneSwarmServer unit :=
  let receiver := receiver_address tx_state in
  known ← gets (λ s, peers s !! address);
  match known with
  | None =>
      modify (with_peers (<[address := {[receiver := TargetPeer_first tx_state]}]>));;
      modify (with_metrics metrics_peer_added);;
      update_metrics t0 t1;;
      try_send_notification
        (PeerAdded address receiver (receiver_address_network tx_state))
  | Some target_peers =>
      match target_peers !! receiver with
      | Some peer =>
          times ← lift (add_u 16 (times_requested peer) 1);
          modify (with_peers (<[address := <[receiver := {|
            tp_account_id := tp_account_id peer;
            tp_network := tp_network peer;
            times_requested := times |}]> target_peers]>))
      | None =>
          modify (with_peers
            (<[address := <[receiver := TargetPeer_first tx_state]> target_peers]>))
      end
  end.

(** [index.entry(key).or_insert_with(RequestListEntry::new).push(multi_id)] *)
Definition push_index (now : N) (key multi_id : string)
    (index : gmap string RequestListEntry) : gmap string RequestListEntry :=
  let entry := default (RequestListEntry_new now) (index !! key) in
  <[key := RequestListEntry_push multi_id entry]> index.

Definition handle_sender_request (clk : nat → N) (address : string) (data : bytes) :
    M VaneSwarmServer unit :=
  send_event (SenderRequestReceived address data);;
  tx_state ← decode_tx data;
  let receiver := receiver_address tx_state in
  let multi_id_hex := hex_encode (multi_id tx_state) in
  record_target_peer (clk 0%nat) (clk 1%nat) address tx_state;;
  try_send_notification (RequestQueued receiver);;
  insert_request (clk 2%nat) (clk 3%nat) (clk 4%nat) multi_id_hex data;;
  modify (with_lists (push_index (clk 5%nat) address multi_id_hex) id);;
  modify (with_lists id (push_index (clk 6%nat) receiver multi_id_hex));;
  cleanup_expired_sender_receiver_requests (clk 7%nat);;
  modify (with_metrics metrics_sender_request);;
  update_metrics (clk 8%nat) (clk 9%nat);;
  send_event (SenderRequestHandled receiver data).

(** The guards [handle_sender_confirmation], [handle_sender_revertation] and
    [handle_tx_submission_updates] share: the peer relation and the request
    exist. *)
Definition known_target (address receiver : string) (s : VaneSwarmServer) : bool :=
  match peers s !! address with
  | Some targets => bool_decide (is_Some (targets !! receiver))
  | None => false
  end.

Definition peer_not_found (address receiver : string) : string :=
  "Peer not found for sender " +:+ address +:+ " and receiver " +:+ receiver.
Definition tx_not_found (multi_id_hex : string) : string :=
  "Transaction with multi_id " +:+ multi_id_hex +:+ " not found".
Definition update_failed (multi_id_hex : string) : string :=
  "Failed to update transaction with multi_id " +:+ multi_id_hex.

Definition handle_sender_confirmation (clk : nat → N) (address : string) (data : bytes) :
    M VaneSwarmServer unit :=
  tx_state ← decode_tx data;
  let multi_id_hex := hex_encode (multi_id tx_state) in
  let receiver := receiver_address tx_state in
  known ← gets (known_target address receiver);
  if negb known then fail (peer_not_found address receiver) else
  present ← gets (λ s, bool_decide (is_Some (requests s !! multi_id_hex)));
  if negb present then fail (tx_not_found multi_id_hex) else
  updated ← update_request (clk 0%nat) (clk 1%nat) (clk 2%nat) multi_id_hex data;
  if negb updated then fail (update_failed multi_id_hex) else
  send_event (EvSenderConfirmed address data).

Definition handle_sender_revertation (clk : nat → N) (address : string) (data : bytes) :
    M VaneSwarmServer unit :=
  tx_state ← decode_tx data;
  let multi_id_hex := hex_encode (multi_id tx_state) in
  let receiver := receiver_address tx_state in
  known ← gets (known_target address receiver);
  if negb known then fail (peer_not_found address receiver) else
  present ← gets (λ s, bool_decide (is_Some (requests s !! multi_id_hex)));
  if negb present then fail (tx_not_found multi_id_hex) else
  updated ← update_request (clk 0%nat) (clk 1%nat) (clk 2%nat) multi_id_hex data;
  if negb updated then fail (update_failed multi_id_hex) else
  send_event (SenderReverted address data).

Definition handle_tx_submission_updates (clk : nat → N) (address : string) (data : bytes) :
    M VaneSwarmServer unit :=
  tx_state ← decode_tx data;
  let multi_id_hex := hex_encode (multi_id tx_state) in
  let receiver := receiver_address tx_state in
  known ← gets (known_target address receiver);
  if negb known then fail (peer_not_found address receiver) else
  present ← gets (λ s, bool_decide (is_Some (requests s !! multi_id_hex)));
  if negb present then fail (tx_not_found multi_id_hex) else
  updated ← update_request (clk 0%nat) (clk 1%nat) (clk 2%nat) multi_id_hex data;
  if negb updated then fail (update_failed multi_id_hex) else
  send_event (TxSubmitted address data).

Definition handle_receiver_response (clk : nat → N) (address : string) (data : bytes) :
    M VaneSwarmServer unit :=
  tx_state ← decode_tx data;
  let multi_id_hex := hex_encode (multi_id tx_state) in
  send_event (ReceiverResponseReceived address data);;
  updated ← update_request (clk 0%nat) (clk 1%nat) (clk 2%nat) multi_id_hex data;
  (if negb updated
   then insert_request (clk 3%nat) (clk 4%nat) (clk 5%nat) multi_id_hex data
   else skip);;
  modify (with_metrics metrics_receiver_response);;
  update_metrics (clk 6%nat) (clk 7%nat);;
  try_send_notification (RequestProcessed address);;
  send_event (ReceiverResponseHandled address data).

(** One of the two loops of [fetch_pending_transactions]. *)
Fixpoint pending_of_ids (store : gmap string RequestEntry) (ids : list string) :
    outcome (list TxStateMachine) :=
  match ids with
  | [] => Ok []
  | multi_id :: ids =>
      match store !! multi_id with
      | None => pending_of_ids store ids
      | Some request =>
          tx_state ← ok_or (from_slice (re_data request)) "Failed to decode TxStateMachine";
          rest ← pending_of_ids store ids;
          mret (if is_reverted (status tx_state) then rest else tx_state :: rest)
      end
  end.

Definition ids_at (index : gmap string RequestListEntry) (address : string) : list string :=
  match index !! address with
  | Some entry => multi_ids entry
  | None => []
  end.

Definition fetch_pending_transactions (address : string) :
    M VaneSwarmServer (list TxStateMachine) := λ s,
  (from_sender ← pending_of_ids (requests s) (ids_at (sender_requests s) address);
   from_receiver ← pending_of_ids (requests s) (ids_at (receiver_requests s) address);
   mret (from_sender ++ from_receiver), s).

(** The first sender, in iteration order, that has [account_id] as a target. *)
Fixpoint find_target (order : list string) (table : gmap string TargetPeers)
    (account_id : string) : option (string * TargetPeers * TargetPeer) :=
  match order with
  | [] => None
  | sender_key :: order =>
      match table !! sender_key with
      | None => find_target order table account_id
      | Some target_peers =>
          match target_peers !! account_id with
          | Some peer => Some (sender_key, target_peers, peer)
          | None => find_target order table account_id
          end
      end
  end.

Definition retain_other (multi_id_hex : string) (entry : RequestListEntry) :
    option RequestListEntry :=
  match (filter (λ multi_id, multi_id ≠ multi_id_hex) (multi_ids entry) : list string) with
  | [] => None
  | kept => Some {| multi_ids := kept; rl_created_at := rl_created_at entry |}
  end.

(** [order] is the order in which [self.peers.iter_mut()] visits the senders. *)
Definition disconnect_peer (order : list string) (t0 t1 : N) (account_id : string)
    (data : bytes) : M VaneSwarmServer unit :=
  tx_state ← decode_tx data;
  let multi_id_hex := hex_encode (multi_id tx_state) in
  modify (with_lists id
    (partial_alter (λ entry, entry ≫= retain_other multi_id_hex) account_id));;
  target ← gets (λ s, find_target order (peers s) account_id);
  match target with
  | None => fail ("Peer with account_id " +:+ account_id +:+ " not found")
  | Some (sender_key, target_peers, peer) =>
      if decide (times_requested peer = 1) then
        let remaining := delete account_id target_peers in
        modify (with_peers (<[sender_key := remaining]>));;
        modify (with_metrics metrics_peer_removed);;
        try_send_notification (PeerRemoved sender_key);;
        send_event (PeerDisconnected account_id);;
        (if decide (remaining = ∅)
         then modify (with_peers (delete sender_key)) else skip);;
        update_metrics t0 t1
      else skip
  end.

(** [BackendRpcHandler::fetch_pending_transactions] *)
Definition rpc_fetch_pending_transactions (address : string) : M VaneSwarmServer unit :=
  transactions ← fetch_pending_transactions address;
  send_event (PendingTransactionsFetched address transactions).

(** *** The subscription filter of [subscribe_to_events] *)

(** [matches_tx]: the transaction in the event's data concerns the subscriber. *)
Definition matches_tx (subscriber : string) (data : bytes) : bool :=
  match from_slice data with
  | Some tx =>
      if is_reverted (status tx) then false
      else bool_decide (sender_address tx = subscriber) ||
           bool_decide (receiver_address tx = subscriber)
  | None => false
  end.

Definition should_send (subscriber : string) (ev : BackendEvent) : bool :=
  match ev with
  | SenderRequestReceived event_address data =>
      bool_decide (event_address = subscriber) || matches_tx subscriber data
  | SenderRequestHandled event_address data =>
      bool_decide (event_address = subscriber) || matches_tx subscriber data
  | EvSenderConfirmed event_address data =>
      bool_decide (event_address = subscriber) || matches_tx subscriber data
  | SenderReverted event_address data =>
      bool_decide (event_address = subscriber) || matches_tx subscriber data
  | ReceiverResponseReceived event_address data =>
      bool_decide (event_address = subscriber) || matches_tx subscriber data
  | ReceiverResponseHandled event_address data =>
      bool_decide (event_address = subscriber) || matches_tx subscriber data
  | PeerDisconnected account_id => bool_decide (account_id = subscriber)
  | DataExpired _ data => matches_tx subscriber data
  | PendingTransactionsFetched event_address _ => bool_decide (event_address = subscriber)
  | TxSubmitted event_address data =>
      bool_decide (event_address = subscriber) || matches_tx subscriber data
  end.

(** What a subscription to [subscriber] delivers of a sequence of events, as long as
    nothing fails. *)
Definition subscription (subscriber : string) (evs : list BackendEvent) : list BackendEvent :=
  filter (λ ev, should_send subscriber ev = true) evs.

(** What [receiver.recv()] returns at a turn of the loop: an event, with whether the sink
    would take it; or an error, when the receiver lags behind the broadcast channel. *)
Inductive feed := FeedEvent (ev : BackendEvent) (taken : bool) | FeedError (e : string).

Fixpoint subscription_loop (subscriber : string) (l : list feed) : list BackendEvent :=
  match l with
  | FeedEvent ev taken :: l =>
      if should_send subscriber ev then
        if taken then ev :: subscription_loop subscriber l else []
      else subscription_loop subscriber l
  | FeedError _ :: _ | [] => []
  end.

(** [pending.accept()] can fail; then the loop runs. *)
Definition subscribe_to_events (accepted : bool) (address : string) (l : list feed) :
    M VaneSwarmServer (list BackendEvent) :=
  if accepted then
    modify (with_metrics metrics_new_client_joined);;
    mret (subscription_loop address l)
  else fail "failed to accept subscription".
End handlers.
