(* ===== verification/ServerInvariant.v ===== *)
(** The invariant of the backend's state, for every sequence of calls: the
    peer table, the two indices, the request store and the gauges. *)

From S2P Require Import Prelude DataStructure Codec Samples Server.
Open Scope N_scope.

Section invariant.
Context `{TxJson, Hex, BuildProfile}.

(** A sender in the table has a target; a target is filed under its account and
    its counter is a [u16]. *)
Definition targets_wf (targets : TargetPeers) : Prop :=
  targets ≠ ∅ ∧
  ∀ r p, targets !! r = Some p → tp_account_id p = r ∧ fits 16 (times_requested p).
Definition peers_wf (table : gmap string TargetPeers) : Prop :=
  ∀ a targets, table !! a = Some targets → targets_wf targets.

(** No empty index entry. *)
Definition index_wf (index : gmap string RequestListEntry) : Prop :=
  ∀ a e, index !! a = Some e → multi_ids e ≠ [].

(** A stored request decodes, to a transaction whose [multi_id] is its key. *)
Definition requests_wf (store : gmap string RequestEntry) : Prop :=
  ∀ k e, store !! k = Some e →
    ∃ tx, from_slice (re_data e) = Some tx ∧ k = hex_encode (multi_id tx).

(** Everything but the gauges. *)
Definition data_inv (s : VaneSwarmServer) : Prop :=
  peers_wf (peers s) ∧ index_wf (sender_requests s) ∧ index_wf (receiver_requests s) ∧
  requests_wf (requests s).

(** The peers gauge is exact, the requests gauge never too low (requests expire
    between two updates of it). *)
Definition gauges_inv (s : VaneSwarmServer) : Prop :=
  active_peers (metrics s) = Z.of_nat (size (peers s)) ∧
  (Z.of_nat (size (requests s)) ≤ pending_requests (metrics s))%Z.

Definition server_inv (s : VaneSwarmServer) : Prop := data_inv s ∧ gauges_inv s.

(** *** Building blocks *)

Lemma index_wf_omap now expired index :
  index_wf index → index_wf (omap (prune_list_entry now expired) index).
Proof.
  intros Hwf a e. rewrite lookup_omap. intros (e0 & He0 & He)%bind_Some.
  unfold prune_list_entry in He. repeat case_match; simplify_eq; simpl; [eauto|done].
Qed.

Lemma requests_wf_filter P `{∀ kv, Decision (P kv)} store :
  requests_wf store → requests_wf (filter P store).
Proof. intros Hwf k e [Hk _]%map_lookup_filter_Some. eauto. Qed.

Lemma requests_wf_insert k e tx store :
  requests_wf store → from_slice (re_data e) = Some tx → k = hex_encode (multi_id tx) →
  requests_wf (<[k := e]> store).
Proof. intros Hwf Htx -> k' e' [[<- <-]|[_ ?]]%lookup_insert_Some; eauto. Qed.

Lemma size_filter_le `{Countable K} {A} P `{∀ kv : K * A, Decision (P kv)} (m : gmap K A) :
  (size (filter P m) ≤ size m)%nat.
Proof. apply map_subseteq_size, map_filter_subseteq. Qed.

Lemma cleanup_requests_inv (I : VaneSwarmServer → Prop) now :
  (∀ s, I s → I (with_requests (filter (λ kv, live_request now kv.2 = true)) s)) →
  preserves I (cleanup_expired_requests now).
Proof. apply preserves_modify. Qed.

Lemma cleanup_requests_data now : preserves data_inv (cleanup_expired_requests now).
Proof.
  apply cleanup_requests_inv. intros s (? & ? & ? & ?).
  split_and!; simpl; auto using requests_wf_filter.
Qed.

Lemma cleanup_requests_gauges now : preserves gauges_inv (cleanup_expired_requests now).
Proof.
  apply cleanup_requests_inv. intros s [Hp Hr]. split; simpl; [done|].
  pose proof (size_filter_le (λ kv, live_request now kv.2 = true) (requests s)). lia.
Qed.

Lemma cleanup_lists_data now :
  preserves data_inv (cleanup_expired_sender_receiver_requests now).
Proof.
  apply preserves_bind; [preserve|]. intros ids. apply preserves_modify.
  intros s (? & ? & ? & ?). split_and!; simpl; auto using index_wf_omap.
Qed.

Lemma cleanup_lists_gauges now :
  preserves gauges_inv (cleanup_expired_sender_receiver_requests now).
Proof. apply preserves_bind; [preserve|]. intros ids. by apply preserves_modify. Qed.

Lemma send_event_inv ev : preserves server_inv (send_event ev).
Proof. by apply preserves_modify. Qed.
Lemma try_send_notification_inv n : preserves server_inv (try_send_notification n).
Proof. by apply preserves_modify. Qed.

Lemma preserves_conj {S A} (I J : S → Prop) (m : M S A) :
  preserves I m → preserves J m → preserves (λ s, I s ∧ J s) m.
Proof. intros HI HJ s [Hi Hj]. split; [by apply HI|by apply HJ]. Qed.

Lemma cleanup_requests_server_inv now : preserves server_inv (cleanup_expired_requests now).
Proof. apply preserves_conj; [apply cleanup_requests_data|apply cleanup_requests_gauges]. Qed.
Lemma cleanup_lists_server_inv now :
  preserves server_inv (cleanup_expired_sender_receiver_requests now).
Proof. apply preserves_conj; [apply cleanup_lists_data|apply cleanup_lists_gauges]. Qed.

#[local] Hint Resolve cleanup_requests_data cleanup_lists_data send_event_inv
  try_send_notification_inv cleanup_requests_server_inv cleanup_lists_server_inv : preserve.

Lemma update_metrics_establishes t0 t1 E :
  hoare data_inv (update_metrics t0 t1) (λ _, server_inv) E.
Proof.
  intros s Hs. unfold update_metrics. unfold cleanup_expired_requests at 1.
  unfold cleanup_expired_sender_receiver_requests. run.
  destruct Hs as (? & ? & ? & ?).
  split; [|split; simpl; [done|lia]].
  split_and!; simpl; auto using requests_wf_filter, index_wf_omap.
Qed.

Lemma update_metrics_inv t0 t1 : preserves server_inv (update_metrics t0 t1).
Proof.
  apply hoare_preserves. eapply hoare_weaken; [apply update_metrics_establishes|..]; [|done].
  by intros s [? _].
Qed.

(** [insert_request] never fails, and leaves the requests gauge behind. *)
Lemma insert_request_data t0 t1 t2 tx data E :
  from_slice data = Some tx →
  hoare server_inv (insert_request t0 t1 t2 (hex_encode (multi_id tx)) data)
    (λ _, data_inv) E.
Proof.
  intros Htx s [(? & ? & ? & ?) _]. unfold insert_request, cleanup_expired_requests,
    cleanup_expired_sender_receiver_requests. run.
  split_and!; simpl; auto using requests_wf_filter, index_wf_omap.
  eauto using requests_wf_insert, requests_wf_filter.
Qed.

Lemma requests_wf_update k e tx data store :
  requests_wf store → from_slice data = Some tx → k = hex_encode (multi_id tx) →
  requests_wf (<[k := RequestEntry_update_data data e]> store).
Proof. intros. by eapply requests_wf_insert. Qed.

Lemma update_request_inv t0 t1 t2 tx data :
  from_slice data = Some tx →
  preserves server_inv (update_request t0 t1 t2 (hex_encode (multi_id tx)) data).
Proof.
  intros Htx. unfold update_request.
  apply preserves_bind; [preserve|intros _].
  apply preserves_bind; [preserve|intros _].
  intros s [(? & ? & ? & Hreq) [Hp Hr]]. run.
  destruct (requests s !! _) as [entry|] eqn:Hentry; [|done]. case_match; run.
  - split; [split_and!; simpl; auto|split; simpl; [done|]].
    + intros k e [_ Hk]%lookup_delete_Some. eauto.
    + pose proof (map_size_delete_Some _ _ (ex_intro _ _ Hentry)). lia.
  - split; [split_and!; simpl; auto|split; simpl; [done|]].
    + by eapply requests_wf_update.
    + rewrite map_size_insert_Some; [done|eauto].
Qed.

Lemma peers_wf_insert a targets table :
  peers_wf table → targets_wf targets → peers_wf (<[a := targets]> table).
Proof. intros Hwf Ht a' t [[<- <-]|[_ ?]]%lookup_insert_Some; eauto. Qed.

Lemma targets_wf_insert r p targets :
  (∀ r' p', targets !! r' = Some p' →
     tp_account_id p' = r' ∧ fits 16 (times_requested p')) →
  tp_account_id p = r → fits 16 (times_requested p) →
  targets_wf (<[r := p]> targets).
Proof.
  intros Hwf Hr Hp. split; [apply insert_non_empty|].
  intros r' p' [[<- <-]|[_ ?]]%lookup_insert_Some; eauto.
Qed.

Lemma TargetPeer_first_wf tx targets :
  (∀ r' p', targets !! r' = Some p' →
     tp_account_id p' = r' ∧ fits 16 (times_requested p')) →
  targets_wf (<[receiver_address tx := TargetPeer_first tx]> targets).
Proof. intros Hwf. by apply targets_wf_insert. Qed.

Lemma record_target_peer_inv t0 t1 address tx :
  preserves server_inv (record_target_peer t0 t1 address tx).
Proof.
  intros s Hs. pose proof Hs as [(Hp & ? & ? & ?) [Hg Hr]].
  unfold record_target_peer. run.
  destruct (peers s !! address) as [targets|] eqn:Ha.
  - destruct (Hp _ _ Ha) as [Hne Htp].
    destruct (targets !! receiver_address tx) as [peer|] eqn:Hpeer.
    + destruct (Htp _ _ Hpeer) as [Hid _].
      destruct (add_u 16 (times_requested peer) 1) as [n| | |] eqn:Hn; run; try done.
      split; [split_and!; simpl; auto|split; simpl; [|done]].
      * apply peers_wf_insert; [done|]. apply targets_wf_insert; simpl; eauto using add_u_fits.
      * rewrite map_size_insert_Some; [done|eauto].
    + run. split; [split_and!; simpl; auto|split; simpl; [|done]].
      * apply peers_wf_insert, TargetPeer_first_wf; done.
      * rewrite map_size_insert_Some; [done|eauto].
  - run. split; [|split; simpl; [done|lia]].
    split_and!; simpl; auto using requests_wf_filter, index_wf_omap.
    rewrite <-insert_empty. apply peers_wf_insert, TargetPeer_first_wf; [done|].
    intros r' p' Hr'. by rewrite lookup_empty in Hr'.
Qed.

#[local] Hint Resolve update_metrics_inv record_target_peer_inv : preserve.

Lemma lists_data f g :
  (∀ index, index_wf index → index_wf (f index)) →
  (∀ index, index_wf index → index_wf (g index)) →
  preserves data_inv (modify (with_lists f g)).
Proof.
  intros Hf Hg. apply preserves_modify. intros s (? & ? & ? & ?).
  split_and!; simpl; auto.
Qed.

Lemma index_wf_push now key id index :
  index_wf index → index_wf (push_index now key id index).
Proof.
  unfold push_index.
  intros Hwf a e [[<- <-]|[_ ?]]%lookup_insert_Some; [|eauto].
  simpl. by destruct (multi_ids _).
Qed.

Lemma index_wf_retain id key index :
  index_wf index →
  index_wf (partial_alter (λ entry, entry ≫= retain_other id) key index).
Proof.
  intros Hwf a e. rewrite lookup_partial_alter. case_decide; [|eauto].
  intros (e0 & He0 & He)%bind_Some. unfold retain_other in He.
  by repeat case_match; simplify_eq.
Qed.

Lemma decode_tx_inv {A} data (f : TxStateMachine → M VaneSwarmServer A) :
  (∀ tx, from_slice data = Some tx → preserves server_inv (f tx)) →
  preserves server_inv (decode_tx data ≫= f).
Proof. intros Hf. apply preserves_lift_bind. intros tx Htx%ok_or_Ok. auto. Qed.

Lemma data_to_inv t0 t1 {A} (m : M VaneSwarmServer A) f :
  preserves server_inv m →
  hoare data_inv (modify (with_metrics f);; update_metrics t0 t1;; m) (λ _, server_inv)
    server_inv.
Proof.
  intros Hm. eapply (hoare_bind _ _ (λ _, data_inv)); [by apply hoare_modify|intros u].
  eapply hoare_bind; [apply update_metrics_establishes|intros ?].
  by apply preserves_hoare.
Qed.

Lemma lists_data_hoare f g E :
  (∀ index, index_wf index → index_wf (f index)) →
  (∀ index, index_wf index → index_wf (g index)) →
  hoare data_inv (modify (with_lists f g)) (λ _, data_inv) E.
Proof. intros Hf Hg s Hs. by apply (lists_data f g). Qed.

Lemma cleanup_lists_hoare now E :
  hoare data_inv (cleanup_expired_sender_receiver_requests now) (λ _, data_inv) E.
Proof. intros s Hs. by apply (cleanup_lists_data now s). Qed.

Lemma handle_sender_request_inv clk address data :
  preserves server_inv (handle_sender_request clk address data).
Proof.
  unfold handle_sender_request.
  apply preserves_bind; [preserve|intros _]. apply decode_tx_inv. intros tx Htx.
  do 2 (apply preserves_bind; [preserve|intros _]).
  apply hoare_preserves.
  eapply hoare_bind; [by apply insert_request_data|intros u].
  eapply hoare_bind; [apply lists_data_hoare; auto using index_wf_push|intros ?].
  eapply hoare_bind; [apply lists_data_hoare; auto using index_wf_push|intros ?].
  eapply hoare_bind; [apply cleanup_lists_hoare|intros ?].
  apply data_to_inv. preserve.
Qed.

(** The three updates of a known request differ in the event they emit. *)
Lemma guarded_update_inv t0 t1 t2 address data ev :
  preserves server_inv (
    tx_state ← decode_tx data;
    let multi_id_hex := hex_encode (multi_id tx_state) in
    let receiver := receiver_address tx_state in
    known ← gets (known_target address receiver);
    if negb known then fail (peer_not_found address receiver) else
    present ← gets (λ s, bool_decide (is_Some (requests s !! multi_id_hex)));
    if negb present then fail (tx_not_found multi_id_hex) else
    updated ← update_request t0 t1 t2 multi_id_hex data;
    if negb updated then fail (update_failed multi_id_hex) else send_event ev).
Proof.
  apply decode_tx_inv. intros tx Htx.
  apply preserves_bind; [preserve|intros known]. destruct (negb known); [preserve|].
  apply preserves_bind; [preserve|intros present]. destruct (negb present); [preserve|].
  apply preserves_bind; [by apply update_request_inv|intros updated].
  destruct (negb updated); preserve.
Qed.

Lemma handle_receiver_response_inv clk address data :
  preserves server_inv (handle_receiver_response clk address data).
Proof.
  apply decode_tx_inv. intros tx Htx.
  apply preserves_bind; [preserve|intros _].
  apply preserves_bind; [by apply update_request_inv|intros updated].
  apply hoare_preserves. eapply hoare_bind.
  - destruct (negb updated); [by apply insert_request_data|].
    apply (hoare_ret _ _ (λ _, data_inv)). by intros s [? _].
  - intros ?. apply data_to_inv. preserve.
Qed.

Lemma fetch_pending_inv address : preserves server_inv (fetch_pending_transactions address).
Proof. by intros s Hs. Qed.

Lemma rpc_fetch_inv address : preserves server_inv (rpc_fetch_pending_transactions address).
Proof. apply preserves_bind; [apply fetch_pending_inv|preserve]. Qed.

Lemma find_target_Some order table account_id sender targets peer :
  find_target order table account_id = Some (sender, targets, peer) →
  sender ∈ order ∧ table !! sender = Some targets ∧ targets !! account_id = Some peer.
Proof.
  induction order as [|key order IH]; simpl; [done|].
  assert (find_target order table account_id = Some (sender, targets, peer) →
    sender ∈ key :: order ∧ table !! sender = Some targets ∧
    targets !! account_id = Some peer) as Hrec.
  { intros (? & ? & ?)%IH. split_and!; [by right|done..]. }
  destruct (table !! key) as [ts|] eqn:Hkey; [|done].
  destruct (ts !! account_id) as [p|] eqn:Hp; [|done].
  intros [= <- <- <-]. split_and!; [by left|done..].
Qed.

Lemma find_target_None order table account_id :
  find_target order table account_id = None ↔
  ∀ sender targets, sender ∈ order → table !! sender = Some targets →
    targets !! account_id = None.
Proof.
  induction order as [|key order IH]; simpl.
  { split; [intros _ ?? Hin; by apply not_elem_of_nil in Hin|done]. }
  destruct (table !! key) as [ts|] eqn:Hkey; [destruct (ts !! account_id) eqn:Hp|].
  - split; [done|]. intros Hall. specialize (Hall key ts ltac:(by left) Hkey). congruence.
  - rewrite IH. split; intros Hall sender targets; [intros [->|?]%elem_of_cons|]; intros.
    + congruence.
    + eauto.
    + eapply Hall; [by right|done].
  - rewrite IH. split; intros Hall sender targets; [intros [->|?]%elem_of_cons|]; intros.
    + congruence.
    + eauto.
    + eapply Hall; [by right|done].
Qed.

Lemma targets_wf_delete r targets :
  targets_wf targets → delete r targets ≠ ∅ → targets_wf (delete r targets).
Proof. intros [_ Hwf] Hne. split; [done|]. intros r' p [_ ?]%lookup_delete_Some. eauto. Qed.

Lemma disconnect_peer_inv order t0 t1 account_id data :
  preserves server_inv (disconnect_peer order t0 t1 account_id data).
Proof.
  apply decode_tx_inv. intros tx Htx.
  apply preserves_bind; [|intros _].
  { apply preserves_modify. intros s [(? & ? & ? & ?) ?].
    split; [split_and!|]; simpl; auto using index_wf_retain. }
  intros s [(Hp & ? & ? & ?) ?]. run.
  destruct (find_target order (peers s) account_id) as [[[sender targets] peer]|] eqn:Hfind;
    [|by split].
  apply find_target_Some in Hfind as (_ & Hsender & _).
  case_decide; [|by split]. run.
  case_decide as Hempty; run; (split; [|split; simpl; [done|lia]]);
    split_and!; simpl; auto using requests_wf_filter, index_wf_omap.
  - rewrite delete_insert_eq. intros a ts [_ ?]%lookup_delete_Some. eauto.
  - apply peers_wf_insert; [done|]. apply targets_wf_delete; eauto.
Qed.

(** *** Calls *)

(** The JSON-RPC methods, with the instants they read and, for
    [disconnectPeer], the iteration order of the peer table. *)
Inductive server_call :=
  | CallSenderRequest (clk : nat → N) (address : string) (data : bytes)
  | CallReceiverResponse (clk : nat → N) (address : string) (data : bytes)
  | CallSenderConfirmation (clk : nat → N) (address : string) (data : bytes)
  | CallSenderRevertation (clk : nat → N) (address : string) (data : bytes)
  | CallTxSubmissionUpdates (clk : nat → N) (address : string) (data : bytes)
  | CallFetchPending (address : string)
  | CallDisconnect (order : list string) (t0 t1 : N) (account_id : string) (data : bytes)
  | CallSubscribe.

Definition run_call (c : server_call) : M VaneSwarmServer unit :=
  match c with
  | CallSenderRequest clk address data => handle_sender_request clk address data
  | CallReceiverResponse clk address data => handle_receiver_response clk address data
  | CallSenderConfirmation clk address data => handle_sender_confirmation clk address data
  | CallSenderRevertation clk address data => handle_sender_revertation clk address data
  | CallTxSubmissionUpdates clk address data => handle_tx_submission_updates clk address data
  | CallFetchPending address => rpc_fetch_pending_transactions address
  | CallDisconnect order t0 t1 account_id data => disconnect_peer order t0 t1 account_id data
  | CallSubscribe => modify (with_metrics metrics_new_client_joined)
  end.

(** The states the server goes through; the caller sees errors, the state stays. *)
Inductive reachable : VaneSwarmServer → Prop :=
  | reachable_new : reachable VaneSwarmServer_new
  | reachable_call c s : reachable s → reachable (run_call c s).2.

Fixpoint run_calls (cs : list server_call) (s : VaneSwarmServer) : VaneSwarmServer :=
  match cs with
  | [] => s
  | c :: cs => run_calls cs (run_call c s).2
  end.

Lemma run_calls_reachable cs s : reachable s → reachable (run_calls cs s).
Proof. revert s. induction cs; simpl; auto using reachable_call. Qed.

Lemma run_call_inv c : preserves server_inv (run_call c).
Proof.
  destruct c; simpl.
  - apply handle_sender_request_inv.
  - apply handle_receiver_response_inv.
  - apply guarded_update_inv.
  - apply guarded_update_inv.
  - apply guarded_update_inv.
  - apply rpc_fetch_inv.
  - apply disconnect_peer_inv.
  - by apply preserves_modify.
Qed.

Lemma server_new_inv : server_inv VaneSwarmServer_new.
Proof.
  split; [|split; simpl; by rewrite map_size_empty].
  split_and!; intros k v Hk; simpl in Hk; by rewrite lookup_empty in Hk.
Qed.

Lemma reachable_server_inv s : reachable s → server_inv s.
Proof. induction 1; [apply server_new_inv|by apply run_call_inv]. Qed.

(** C2: every state the backend can reach, by any sequence of calls whatever
    their outcome, satisfies the invariant: each sender in the peer table has at
    least one target, each filed under its own account with a counter that is a
    [u16]; no index entry is empty; each stored request decodes to a transaction
    whose hex-encoded [multi_id] is the key it is stored under; the active-peers
    gauge equals the number of senders and the pending-requests gauge is never
    below the number of stored requests. *)
Theorem backend_invariant (s : VaneSwarmServer) (Hs : reachable s) :
  (∀ a targets, peers s !! a = Some targets → targets_wf targets) ∧
  (∀ a e, sender_requests s !! a = Some e ∨ receiver_requests s !! a = Some e →
     multi_ids e ≠ []) ∧
  (∀ k e, requests s !! k = Some e →
     ∃ tx, from_slice (re_data e) = Some tx ∧ k = hex_encode (multi_id tx)) ∧
  active_peers (metrics s) = Z.of_nat (size (peers s)) ∧
  (Z.of_nat (size (requests s)) ≤ pending_requests (metrics s))%Z.
Proof.
  apply reachable_server_inv in Hs as [(Hp & Hsr & Hrr & Hreq) [Hact Hpend]].
  split_and!; [exact Hp| |exact Hreq|exact Hact|exact Hpend].
  intros a e [He|He]; [by eapply Hsr|by eapply Hrr].
Qed.
End invariant.

#[export] Hint Resolve cleanup_requests_data cleanup_lists_data send_event_inv
  try_send_notification_inv cleanup_requests_server_inv cleanup_lists_server_inv : preserve.

(** Two requests, a response, a fetch and a disconnection. *)
Definition sample_calls : list server_call := [
  CallSenderRequest (at_time 10) "alice" (json_of (tx_ab Genesis));
  CallSenderRequest (at_time 20) "alice" (json_of (tx_ac Genesis));
  CallReceiverResponse (at_time 30) "bob" (json_of (tx_ab RecvAddrConfirmed));
  CallFetchPending "alice";
  CallDisconnect ["alice"] 40 40 "bob" (json_of (tx_ab Genesis))
].

Definition sample_server : VaneSwarmServer :=
  @run_calls sample_json sample_hex release_profile sample_calls VaneSwarmServer_new.

Lemma sample_server_reachable :
  @reachable sample_json sample_hex release_profile sample_server.
Proof. apply run_calls_reachable, reachable_new. Qed.

Lemma backend_invariant_witness :
  active_peers (metrics sample_server) = 1%Z ∧
  active_peers (metrics sample_server) = Z.of_nat (size (peers sample_server)).
Proof.
  split; [vm_compute; reflexivity|].
  apply (@backend_invariant sample_json sample_hex release_profile sample_server
    sample_server_reachable).
Defined.
