(* ===== verification/ServerRequests.v ===== *)
(** The request store over time: what a sender's request makes available to
    both parties, how a known request is updated, what expires, and what a party
    fetches. *)

From S2P Require Import Prelude DataStructure Codec Samples Server ServerInvariant.
Open Scope N_scope.

Section requests.
Context `{TxJson, Hex, BuildProfile}.

(** *** Expiry *)

Lemma live_request_spec now e :
  live_request now e = true ↔ now ≤ re_created_at e + REQUEST_TTL_SECONDS.
Proof.
  unfold live_request, RequestEntry_is_expired, saturating_sub.
  rewrite negb_true_iff, N.ltb_ge. lia.
Qed.

Lemma expired_request_spec now e :
  RequestEntry_is_expired now REQUEST_TTL_SECONDS e = true ↔
  re_created_at e + REQUEST_TTL_SECONDS < now.
Proof. unfold RequestEntry_is_expired, saturating_sub. rewrite N.ltb_lt. lia. Qed.

Lemma expired_list_spec now e :
  RequestListEntry_is_expired now REQUEST_TTL_SECONDS e = true ↔
  rl_created_at e + REQUEST_TTL_SECONDS < now.
Proof. unfold RequestListEntry_is_expired, saturating_sub. rewrite N.ltb_lt. lia. Qed.

(** The requests a scan at [now] finds expired. *)
Definition expired_ids (now : N) (store : gmap string RequestEntry) : gset string :=
  dom (filter (λ kv, RequestEntry_is_expired now REQUEST_TTL_SECONDS kv.2 = true) store).

Lemma elem_of_expired_ids now store k :
  k ∈ expired_ids now store ↔
  ∃ e, store !! k = Some e ∧ re_created_at e + REQUEST_TTL_SECONDS < now.
Proof.
  unfold expired_ids. rewrite elem_of_dom. split.
  - intros [e [? ?%expired_request_spec]%map_lookup_filter_Some]. eauto.
  - intros (e & ? & ?). exists e. apply map_lookup_filter_Some.
    split; [done|]. by apply expired_request_spec.
Qed.

(** [with_lists] on both indices, at an instant. *)
Definition pruned (now : N) (s : VaneSwarmServer) : VaneSwarmServer :=
  let prune := omap (prune_list_entry now (expired_ids now (requests s))) in
  with_lists prune prune s.
Definition purged (now : N) (s : VaneSwarmServer) : VaneSwarmServer :=
  with_requests (filter (λ kv, live_request now kv.2 = true)) s.

Lemma cleanup_requests_run now s : cleanup_expired_requests now s = (Ok (), purged now s).
Proof. reflexivity. Qed.
Lemma cleanup_lists_run now s :
  cleanup_expired_sender_receiver_requests now s = (Ok (), pruned now s).
Proof. reflexivity. Qed.

Lemma purged_lookup now s k e :
  requests (purged now s) !! k = Some e ↔
  requests s !! k = Some e ∧ now ≤ re_created_at e + REQUEST_TTL_SECONDS.
Proof. simpl. rewrite map_lookup_filter_Some. simpl. by rewrite live_request_spec. Qed.

(** Right after the store is purged nothing in it is expired, so a scan at the
    same instant prunes no [multi_id] from an index. *)
Lemma expired_ids_purged now t s : t ≤ now → expired_ids t (requests (purged now s)) = ∅.
Proof.
  intros Ht. apply set_eq. intros k. rewrite elem_of_expired_ids. split; [|set_solver].
  intros (e & [_ ?]%purged_lookup & ?). lia.
Qed.

(** *** Index entries *)

Lemma prune_created now ids e e' :
  prune_list_entry now ids e = Some e' → rl_created_at e' = rl_created_at e.
Proof. unfold prune_list_entry. intros. by repeat case_match; simplify_eq. Qed.

Lemma prune_keeps now ids e k :
  now ≤ rl_created_at e + REQUEST_TTL_SECONDS → k ∈ multi_ids e → k ∉ ids →
  ∃ e', prune_list_entry now ids e = Some e' ∧ k ∈ multi_ids e'.
Proof.
  intros Hnow Hk Hids. unfold prune_list_entry.
  destruct (RequestListEntry_is_expired now REQUEST_TTL_SECONDS e) eqn:Hexp.
  { apply expired_list_spec in Hexp. lia. }
  case_decide; [eauto|].
  assert (k ∈ filter (λ multi_id, multi_id ∉ ids) (multi_ids e)) as Hin
    by (by apply list_elem_of_filter).
  destruct (filter _ (multi_ids e)) as [|x l] eqn:Hf; [by apply not_elem_of_nil in Hin|].
  eexists. split; [done|]. done.
Qed.

(** [a]'s entry, if there is one, outlives [hi]. *)
Definition fresh_list (hi : N) (index : gmap string RequestListEntry) (a : string) : Prop :=
  ∀ e, index !! a = Some e → hi ≤ rl_created_at e + REQUEST_TTL_SECONDS.

(** [k] is filed under [a], in an entry that outlives [hi]. *)
Definition filed (hi : N) (index : gmap string RequestListEntry) (a k : string) : Prop :=
  ∃ e, index !! a = Some e ∧ k ∈ multi_ids e ∧ hi ≤ rl_created_at e + REQUEST_TTL_SECONDS.

Lemma fresh_list_prune now ids hi index a :
  fresh_list hi index a → fresh_list hi (omap (prune_list_entry now ids) index) a.
Proof.
  intros Hf e. rewrite lookup_omap. intros (e0 & He0 & He)%bind_Some.
  rewrite (prune_created _ _ _ _ He). eauto.
Qed.

Lemma filed_prune now ids hi index a k :
  now ≤ hi → k ∉ ids → filed hi index a k →
  filed hi (omap (prune_list_entry now ids) index) a k.
Proof.
  intros Hnow Hids (e & He & Hk & Hhi).
  destruct (prune_keeps now ids e k) as (e' & He' & Hk'); [lia|done|done|].
  exists e'. rewrite lookup_omap, He. simpl. split_and!; [done..|].
  by rewrite (prune_created _ _ _ _ He').
Qed.

Lemma filed_ids_at hi index a k : filed hi index a k → k ∈ ids_at index a.
Proof. intros (e & He & Hk & _). unfold ids_at. by rewrite He. Qed.

Lemma fresh_list_push now hi index a b k :
  fresh_list hi index a → hi ≤ now + REQUEST_TTL_SECONDS →
  fresh_list hi (push_index now b k index) a.
Proof.
  intros Hf Hnow e. unfold push_index. intros [[-> <-]|[_ ?]]%lookup_insert_Some; [|eauto].
  simpl. destruct (index !! a) as [e|] eqn:He; simpl; [by apply Hf|lia].
Qed.

Lemma filed_push now hi index a k :
  fresh_list hi index a → hi ≤ now + REQUEST_TTL_SECONDS →
  filed hi (push_index now a k index) a k.
Proof.
  intros Hf Hnow. unfold push_index. eexists. rewrite lookup_insert_eq.
  split_and!; [done|simpl; set_solver|].
  simpl. destruct (index !! a) as [e|] eqn:He; simpl; [by apply Hf|lia].
Qed.

(** *** A request is queued *)

(** [times_requested += 1] does not overflow. *)
Definition counter_fits (address receiver : string) (s : VaneSwarmServer) : Prop :=
  ∀ targets p, peers s !! address = Some targets → targets !! receiver = Some p →
    fits 16 (times_requested p + 1).

Section queued.
Context (clk : nat → N) (lo hi : N) (address receiver k : string).
Context (Hclk : ∀ i, lo ≤ clk i ∧ clk i ≤ hi) (Hspan : hi ≤ lo + REQUEST_TTL_SECONDS).
Implicit Types (s : VaneSwarmServer) (evs : list BackendEvent).

(** Both parties' index entries outlive the call; the events so far. *)
Definition fresh_lists evs s : Prop :=
  event_sender s = evs ∧
  fresh_list hi (sender_requests s) address ∧ fresh_list hi (receiver_requests s) receiver.

(** The request is stored, since an instant of the call. *)
Definition stored data s : Prop :=
  requests s !! k = Some {| re_data := data; re_created_at := clk 4%nat |}.

Definition queued evs data s : Prop :=
  event_sender s = evs ∧ stored data s ∧
  filed hi (sender_requests s) address k ∧ filed hi (receiver_requests s) receiver k.

Lemma fresh_lists_purge i evs s :
  fresh_lists evs s → fresh_lists evs (pruned (clk i) (purged (clk i) s)).
Proof. intros (? & ? & ?). split_and!; simpl; auto using fresh_list_prune. Qed.

Lemma stored_purged i data s : stored data s → stored data (purged (clk i) s).
Proof.
  intros Hs. apply purged_lookup. split; [done|]. simpl.
  destruct (Hclk i), (Hclk 4%nat). lia.
Qed.

Lemma stored_not_expired i data s :
  stored data s → k ∉ expired_ids (clk i) (requests s).
Proof.
  intros Hs (e & He & ?)%elem_of_expired_ids. rewrite Hs in He. simplify_eq. simpl in *.
  destruct (Hclk i), (Hclk 4%nat). lia.
Qed.

Lemma queued_purged i evs data s : queued evs data s → queued evs data (purged (clk i) s).
Proof. intros (? & ? & ? & ?). split_and!; simpl; auto. by apply stored_purged. Qed.

Lemma queued_pruned i evs data s : queued evs data s → queued evs data (pruned (clk i) s).
Proof.
  intros (? & ? & ? & ?). destruct (Hclk i).
  split_and!; simpl; auto; apply filed_prune; eauto using stored_not_expired.
Qed.

Lemma insert_request_stored data evs E :
  hoare (fresh_lists evs) (insert_request (clk 2%nat) (clk 3%nat) (clk 4%nat) k data)
    (λ _ s, fresh_lists evs s ∧ stored data s) E.
Proof.
  intros s (? & ? & ?). split; [|apply lookup_insert_eq].
  split_and!; simpl; auto using fresh_list_prune.
Qed.

Lemma push_sender_queued data evs E :
  hoare (λ s, fresh_lists evs s ∧ stored data s)
    (modify (with_lists (push_index (clk 5%nat) address k) id))
    (λ _ s, fresh_lists evs s ∧ stored data s ∧
       filed hi (sender_requests s) address k) E.
Proof.
  intros s [(? & ? & ?) ?]. destruct (Hclk 5%nat).
  split_and!; simpl; auto; [split_and!; simpl; auto; apply fresh_list_push; auto; lia|].
  apply filed_push; auto; lia.
Qed.

Lemma push_receiver_queued data evs E :
  hoare (λ s, fresh_lists evs s ∧ stored data s ∧ filed hi (sender_requests s) address k)
    (modify (with_lists id (push_index (clk 6%nat) receiver k)))
    (λ _, queued evs data) E.
Proof.
  intros s ((? & ? & ?) & ? & ?). destruct (Hclk 6%nat).
  split_and!; simpl; auto. apply filed_push; auto; lia.
Qed.

Lemma record_target_peer_fresh tx evs s :
  receiver_address tx = receiver →
  counter_fits address receiver s → fresh_lists evs s →
  ∃ s', record_target_peer (clk 0%nat) (clk 1%nat) address tx s = (Ok (), s') ∧
    fresh_lists evs s'.
Proof.
  intros <- Hfits (? & ? & ?). unfold record_target_peer. run.
  destruct (peers s !! address) as [targets|] eqn:Ha.
  - destruct (targets !! receiver_address tx) as [p|] eqn:Hp.
    + rewrite (add_u_small _ _ _ (Hfits _ _ Ha Hp)). run.
      eexists. split; [done|]. by split_and!.
    + run. eexists. split; [done|]. by split_and!.
  - run. eexists. split; [done|].
    split_and!; simpl; auto using fresh_list_prune.
Qed.

Lemma queued_send_event ev evs data s :
  queued evs data s → queued (evs ++ [ev]) data (with_events (λ l, l ++ [ev]) s).
Proof. intros (<- & ? & ? & ?). by split_and!. Qed.

Lemma queued_with_metrics f evs data s :
  queued evs data s → queued evs data (with_metrics f s).
Proof. done. Qed.

Lemma request_tail_queued ev evs data s :
  queued evs data s →
  ∃ s', (cleanup_expired_sender_receiver_requests (clk 7%nat);;
         modify (with_metrics metrics_sender_request);;
         update_metrics (clk 8%nat) (clk 9%nat);;
         send_event ev) s = (Ok (), s') ∧ queued (evs ++ [ev]) data s'.
Proof.
  intros Hq. eexists. split; [reflexivity|].
  apply queued_send_event, queued_with_metrics.
  apply (queued_pruned 9), (queued_purged 8), queued_with_metrics.
  by apply (queued_pruned 7).
Qed.
End queued.

Lemma handle_sender_request_run clk lo hi address data tx s :
  (∀ i, lo ≤ clk i ∧ clk i ≤ hi) → hi ≤ lo + REQUEST_TTL_SECONDS →
  from_slice data = Some tx →
  counter_fits address (receiver_address tx) s →
  fresh_list hi (sender_requests s) address →
  fresh_list hi (receiver_requests s) (receiver_address tx) →
  ∃ s', handle_sender_request clk address data s = (Ok (), s') ∧
    queued clk hi address (receiver_address tx) (hex_encode (multi_id tx))
      (event_sender s ++
       [SenderRequestReceived address data; SenderRequestHandled (receiver_address tx) data])
      data s'.
Proof.
  intros Hclk Hspan Htx Hfits Hs Hr. unfold handle_sender_request, decode_tx.
  set (evs := event_sender s ++ [SenderRequestReceived address data]).
  run_first. rewrite Htx. run_first. cbv zeta.
  destruct (record_target_peer_fresh clk hi address (receiver_address tx) tx evs
    (with_events (λ l, l ++ [SenderRequestReceived address data]) s))
    as (s1 & Hs1 & Hf1); [done|exact Hfits|by split_and!|].
  erewrite run_bind_ok by exact Hs1. run_first.
  eapply hoare_then; [by apply (insert_request_stored clk hi address (receiver_address tx))
                     |exact Hf1|intros ? s2 Hf2].
  eapply hoare_then; [by eapply push_sender_queued|exact Hf2|intros ? s3 Hf3].
  eapply hoare_then; [by eapply push_receiver_queued|exact Hf3|intros ? s4 Hf4].
  destruct (request_tail_queued clk lo hi address (receiver_address tx)
    (hex_encode (multi_id tx)) Hclk Hspan (SenderRequestHandled (receiver_address tx) data)
    _ _ _ Hf4) as (s5 & Hs5 & Hf5).
  subst evs. exists s5. split; [exact Hs5|]. by rewrite <-app_assoc in Hf5.
Qed.
End requests.
