(* ===== verification/ServerProperties.v ===== *)
(** What the backend's handlers do, branch by branch: queueing, fetching, the
    guarded updates of a known request, expiry, disconnection, and which events a
    subscription delivers. *)

From S2P Require Import Prelude DataStructure Codec Samples Server ServerInvariant.
From S2P Require Import ServerRequests.
Open Scope N_scope.

#[local] Arguments known_target : simpl never.

Section properties.
Context `{TJ : TxJson, HX : Hex, BP : BuildProfile}.

(** *** Fetching *)

(** What one index slot contributes to a fetch. *)
Definition pending_tx (store : gmap string RequestEntry) (k : string) :
    option TxStateMachine :=
  e ← store !! k;
  tx ← from_slice (re_data e);
  if is_reverted (status tx) then None else Some tx.

Lemma pending_of_ids_omap store ids :
  requests_wf store → pending_of_ids store ids = Ok (omap (pending_tx store) ids).
Proof.
  intros Hwf. induction ids as [|k ids IH]; simpl; [done|]. unfold pending_tx at 1.
  destruct (store !! k) as [e|] eqn:Hk; simpl; [|done].
  destruct (Hwf _ _ Hk) as (tx & Htx & _). rewrite Htx, IH. simpl.
  by destruct (is_reverted (status tx)).
Qed.

Lemma fetch_pending_run s address :
  requests_wf (requests s) →
  fetch_pending_transactions address s =
    (Ok (omap (pending_tx (requests s))
           (ids_at (sender_requests s) address ++ ids_at (receiver_requests s) address)), s).
Proof.
  intros Hwf. unfold fetch_pending_transactions.
  rewrite !pending_of_ids_omap by done. simpl. by rewrite omap_app.
Qed.

Lemma reachable_requests_wf s : reachable s → requests_wf (requests s).
Proof. by intros [(_ & _ & _ & ?) _]%reachable_server_inv. Qed.

Lemma elem_of_pending store (ids : list string) tx :
  tx ∈ (omap (pending_tx store) ids : list TxStateMachine) ↔
  ∃ k e, k ∈ ids ∧ store !! k = Some e ∧ from_slice (re_data e) = Some tx ∧
    is_reverted (status tx) = false.
Proof.
  rewrite list_elem_of_omap. unfold pending_tx. split.
  - intros (k & Hk & Hp). apply bind_Some in Hp as (e & He & Hp).
    apply bind_Some in Hp as (tx' & Htx & Hp). case_match; [done|]. simplify_eq. eauto 10.
  - intros (k & e & Hk & He & Htx & Hr). exists k. split; [done|].
    rewrite He. simpl. rewrite Htx. simpl. by rewrite Hr.
Qed.

(** C13: on every reachable state [fetch_pending_transactions] succeeds, changes
    nothing, and returns exactly, in index order (the sender's index first), the
    stored transactions filed under the address that are not reverted: one for
    each time the request was filed, so repeated requests are returned
    repeatedly. *)
Theorem fetch_returns_filed_transactions (s : VaneSwarmServer) (address : string)
    (Hs : reachable s) :
  ∃ txs, fetch_pending_transactions address s = (Ok txs, s) ∧
    txs = omap (pending_tx (requests s))
            (ids_at (sender_requests s) address ++ ids_at (receiver_requests s) address) ∧
    ∀ tx, tx ∈ txs ↔
      ∃ k e, (k ∈ ids_at (sender_requests s) address ∨
              k ∈ ids_at (receiver_requests s) address) ∧
        requests s !! k = Some e ∧ from_slice (re_data e) = Some tx ∧
        k = hex_encode (multi_id tx) ∧ is_reverted (status tx) = false.
Proof.
  pose proof (reachable_requests_wf s Hs) as Hwf. eexists.
  split; [by apply fetch_pending_run|split; [done|]]. intros tx. rewrite elem_of_pending. split.
  2: { intros (k & e & Hk & ? & ? & ? & ?). exists k, e. by rewrite elem_of_app. }
  intros (k & e & Hk%elem_of_app & He & Htx & Hr). exists k, e.
  split; [done|split; [done|split; [done|split; [|done]]]].
  destruct (Hwf _ _ He) as (tx' & Htx' & ->). congruence.
Qed.

(** C12: a sender's request, when its peer counter has room and neither party's
    index entry expires during the call, succeeds: the request is stored under
    its [multi_id] with the instant it was inserted at, exactly the two events are
    emitted, and (from a reachable state, unless it arrives already reverted) a
    fetch by the sender's address and a fetch by the receiver's both return the
    transaction. *)
Theorem request_reaches_both_parties (clk : nat → N) (lo hi : N) (address : string)
    (data : bytes) (tx : TxStateMachine) (s : VaneSwarmServer)
    (Hreach : reachable s)
    (Hclk : ∀ i, lo ≤ clk i ∧ clk i ≤ hi) (Hspan : hi ≤ lo + REQUEST_TTL_SECONDS)
    (Htx : from_slice data = Some tx)
    (Hfits : counter_fits address (receiver_address tx) s)
    (Hsender : fresh_list hi (sender_requests s) address)
    (Hreceiver : fresh_list hi (receiver_requests s) (receiver_address tx)) :
  ∃ s', handle_sender_request clk address data s = (Ok (), s') ∧
    requests s' !! hex_encode (multi_id tx) =
      Some {| re_data := data; re_created_at := clk 4%nat |} ∧
    event_sender s' = event_sender s ++
      [SenderRequestReceived address data; SenderRequestHandled (receiver_address tx) data] ∧
    (is_reverted (status tx) = false →
     ∀ party, party = address ∨ party = receiver_address tx →
       ∃ txs, fetch_pending_transactions party s' = (Ok txs, s') ∧ tx ∈ txs).
Proof.
  destruct (handle_sender_request_run clk lo hi address data tx s) as (s' & Hrun & Hq); auto.
  exists s'. destruct Hq as (Hev & Hstored & Hfs & Hfr). split_and!; auto.
  intros Hr party Hparty.
  assert (reachable s') as Hreach'.
  { pose proof (reachable_call (CallSenderRequest clk address data) s Hreach) as Hc.
    simpl in Hc. by rewrite Hrun in Hc. }
  eexists. split; [by apply fetch_pending_run, reachable_requests_wf|].
  apply elem_of_pending. eexists _, _. split_and!; [|exact Hstored|done|done].
  apply elem_of_app. apply filed_ids_at in Hfs, Hfr. destruct Hparty as [->| ->]; auto.
Qed.

(** *** The guarded updates *)

Inductive update_kind := Confirmation | Revertation | Submission.

Definition handle_update (u : update_kind) :
    (nat → N) → string → bytes → M VaneSwarmServer unit :=
  match u with
  | Confirmation => handle_sender_confirmation
  | Revertation => handle_sender_revertation
  | Submission => handle_tx_submission_updates
  end.
Definition update_event (u : update_kind) : string → bytes → BackendEvent :=
  match u with
  | Confirmation => EvSenderConfirmed
  | Revertation => SenderReverted
  | Submission => TxSubmitted
  end.

Definition guarded_update (ev : string → bytes → BackendEvent) (clk : nat → N)
    (address : string) (data : bytes) : M VaneSwarmServer unit :=
  tx_state ← decode_tx data;
  let multi_id_hex := hex_encode (multi_id tx_state) in
  let receiver := receiver_address tx_state in
  known ← gets (known_target address receiver);
  if negb known then fail (peer_not_found address receiver) else
  present ← gets (λ s, bool_decide (is_Some (requests s !! multi_id_hex)));
  if negb present then fail (tx_not_found multi_id_hex) else
  updated ← update_request (clk 0%nat) (clk 1%nat) (clk 2%nat) multi_id_hex data;
  if negb updated then fail (update_failed multi_id_hex) else send_event (ev address data).

Lemma handle_update_guarded u : handle_update u = guarded_update (update_event u).
Proof. by destruct u. Qed.

Lemma guarded_update_run ev clk address data tx s e :
  from_slice data = Some tx → known_target address (receiver_address tx) s = true →
  requests s !! hex_encode (multi_id tx) = Some e →
  guarded_update ev clk address data s =
    (updated ← update_request (clk 0%nat) (clk 1%nat) (clk 2%nat)
                 (hex_encode (multi_id tx)) data;
     if negb updated then fail (update_failed (hex_encode (multi_id tx)))
     else send_event (ev address data)) s.
Proof.
  intros Htx Hknown He. unfold guarded_update, decode_tx. rewrite Htx. simpl ok_or. run.
  rewrite Hknown. simpl. run. by rewrite He.
Qed.

(** a confirmation, revertation or submission update is refused, with the
    server's state untouched and no event emitted, when its data does not decode,
    when the calling address never requested a transfer to the transaction's
    receiver, or when no request is stored under its [multi_id]. *)
Theorem unknown_update_refused (u : update_kind) (clk : nat → N) (address : string)
    (data : bytes) (s : VaneSwarmServer)
    (Hunknown : ∀ tx, from_slice data = Some tx →
       known_target address (receiver_address tx) s = false ∨
       requests s !! hex_encode (multi_id tx) = None) :
  ∃ msg, handle_update u clk address data s = (Err msg, s).
Proof.
  rewrite handle_update_guarded. unfold guarded_update, decode_tx.
  destruct (from_slice data) as [tx|] eqn:Htx; [|by eexists]. simpl ok_or. run.
  destruct (Hunknown tx eq_refl) as [Hk|Hr].
  - rewrite Hk. by eexists.
  - destruct (known_target _ _ s); [|by eexists]. simpl. run. rewrite Hr. by eexists.
Qed.

Lemma update_request_live t0 t1 t2 k data s e :
  requests s !! k = Some e → t0 ≤ re_created_at e + REQUEST_TTL_SECONDS →
  t2 ≤ re_created_at e + REQUEST_TTL_SECONDS →
  update_request t0 t1 t2 k data s =
    (Ok true, with_requests (<[k := RequestEntry_update_data data e]>)
                (pruned t1 (purged t0 s))).
Proof.
  intros He Ht0 Ht2. unfold update_request.
  rewrite (run_bind_ok _ _ _ _ _ (cleanup_requests_run t0 s)).
  rewrite (run_bind_ok _ _ _ _ _ (cleanup_lists_run t1 (purged t0 s))).
  rewrite run_bind_gets.
  assert (requests (pruned t1 (purged t0 s)) !! k = Some e) as ->
    by (by apply purged_lookup).
  destruct (RequestEntry_is_expired t2 REQUEST_TTL_SECONDS e) eqn:Hexp; [|done].
  apply expired_request_spec in Hexp. lia.
Qed.

Lemma update_request_expired t0 t1 t2 k data s e :
  requests s !! k = Some e → re_created_at e + REQUEST_TTL_SECONDS < t0 →
  update_request t0 t1 t2 k data s =
    (Ok false, with_events (λ l, l ++ [DataExpired k []]) (pruned t1 (purged t0 s))).
Proof.
  intros He Ht0. unfold update_request.
  rewrite (run_bind_ok _ _ _ _ _ (cleanup_requests_run t0 s)).
  rewrite (run_bind_ok _ _ _ _ _ (cleanup_lists_run t1 (purged t0 s))).
  rewrite run_bind_gets.
  assert (requests (pruned t1 (purged t0 s)) !! k = None) as ->; [|done].
  destruct (requests (pruned t1 (purged t0 s)) !! k) as [e'|] eqn:He'; [|done].
  change (requests (pruned t1 (purged t0 s))) with (requests (purged t0 s)) in He'.
  apply purged_lookup in He' as [? ?]. simplify_eq. lia.
Qed.

Lemma update_request_absent t0 t1 t2 k data s :
  requests s !! k = None →
  update_request t0 t1 t2 k data s =
    (Ok false, with_events (λ l, l ++ [DataExpired k []]) (pruned t1 (purged t0 s))).
Proof.
  intros He. unfold update_request.
  rewrite (run_bind_ok _ _ _ _ _ (cleanup_requests_run t0 s)).
  rewrite (run_bind_ok _ _ _ _ _ (cleanup_lists_run t1 (purged t0 s))).
  rewrite run_bind_gets.
  assert (requests (pruned t1 (purged t0 s)) !! k = None) as ->; [|done].
  destruct (requests (pruned t1 (purged t0 s)) !! k) as [e'|] eqn:He'; [|done].
  change (requests (pruned t1 (purged t0 s))) with (requests (purged t0 s)) in He'.
  apply purged_lookup in He' as [? ?]. congruence.
Qed.

(** a confirmation, revertation or submission update of a live request to a
    known target succeeds: the stored data becomes the update's data and keeps
    the original creation time (an update does not extend the request's life),
    exactly one event is emitted, and peers and metrics are unchanged; no other
    request changes except that expired ones are dropped.  The transaction's own
    [sender_address] plays no part: the caller need not be its sender. *)
Theorem known_update_applies (u : update_kind) (clk : nat → N) (address : string)
    (data : bytes) (tx : TxStateMachine) (e : RequestEntry) (s : VaneSwarmServer)
    (Htx : from_slice data = Some tx)
    (Hknown : known_target address (receiver_address tx) s = true)
    (He : requests s !! hex_encode (multi_id tx) = Some e)
    (Hlive : ∀ i, clk i ≤ re_created_at e + REQUEST_TTL_SECONDS) :
  ∃ s', handle_update u clk address data s = (Ok (), s') ∧
    requests s' !! hex_encode (multi_id tx) =
      Some {| re_data := data; re_created_at := re_created_at e |} ∧
    (∀ k e', k ≠ hex_encode (multi_id tx) →
       requests s' !! k = Some e' ↔
       requests s !! k = Some e' ∧ clk 0%nat ≤ re_created_at e' + REQUEST_TTL_SECONDS) ∧
    event_sender s' = event_sender s ++ [update_event u address data] ∧
    peers s' = peers s ∧ metrics s' = metrics s.
Proof.
  rewrite handle_update_guarded, (guarded_update_run _ _ _ _ _ _ _ Htx Hknown He).
  erewrite run_bind_ok by (eapply update_request_live; eauto). simpl.
  eexists. split; [reflexivity|]. split_and!; simpl; auto.
  - apply lookup_insert_eq.
  - intros k e' Hk. rewrite lookup_insert_ne by done. apply (purged_lookup (clk 0%nat)).
Qed.

(** An update that arrives after the request's time to live fails, drops the
    request, leaves no trace but a [DataExpired] event, and that event carries no
    data: whoever subscribes, no subscription delivers it. *)
Theorem expired_update_is_silent `{!TxJsonLaws} (u : update_kind) (clk : nat → N)
    (address : string) (data : bytes) (tx : TxStateMachine) (e : RequestEntry)
    (s : VaneSwarmServer)
    (Htx : from_slice data = Some tx)
    (Hknown : known_target address (receiver_address tx) s = true)
    (He : requests s !! hex_encode (multi_id tx) = Some e)
    (Hlate : re_created_at e + REQUEST_TTL_SECONDS < clk 0%nat) :
  ∃ msg s', handle_update u clk address data s = (Err msg, s') ∧
    requests s' !! hex_encode (multi_id tx) = None ∧
    event_sender s' = event_sender s ++ [DataExpired (hex_encode (multi_id tx)) []] ∧
    ∀ subscriber,
      subscription subscriber (event_sender s') = subscription subscriber (event_sender s).
Proof.
  rewrite handle_update_guarded, (guarded_update_run _ _ _ _ _ _ _ Htx Hknown He).
  erewrite run_bind_ok by (eapply update_request_expired; eauto). simpl.
  eexists _, _. split; [reflexivity|]. split_and!; simpl; auto.
  - apply map_lookup_filter_None. right. intros e' He' Hl. simplify_eq.
    simpl in Hl. apply live_request_spec in Hl. lia.
  - intros subscriber. unfold subscription. rewrite list.filter_app.
    replace (filter _ [DataExpired _ []]) with (@nil BackendEvent); [by rewrite app_nil_r|].
    rewrite list.filter_cons_False; [done|]. simpl. unfold matches_tx. by rewrite from_slice_empty.
Qed.
(** once the sender's revertation is applied, with data saying the
    transaction is reverted, no fetch by anyone returns a transaction with that
    [multi_id], although the request stays stored. *)
Theorem reverted_request_is_hidden `{!HexLaws} (clk : nat → N) (address : string)
    (data : bytes) (tx : TxStateMachine) (e : RequestEntry) (s : VaneSwarmServer)
    (Hs : reachable s)
    (Htx : from_slice data = Some tx) (Hrev : is_reverted (status tx) = true)
    (Hknown : known_target address (receiver_address tx) s = true)
    (He : requests s !! hex_encode (multi_id tx) = Some e)
    (Hlive : ∀ i, clk i ≤ re_created_at e + REQUEST_TTL_SECONDS) :
  ∃ s', handle_sender_revertation clk address data s = (Ok (), s') ∧
    is_Some (requests s' !! hex_encode (multi_id tx)) ∧
    ∀ party, ∃ txs, fetch_pending_transactions party s' = (Ok txs, s') ∧
      ∀ tx', tx' ∈ txs → multi_id tx' ≠ multi_id tx.
Proof.
  set (s' := (handle_sender_revertation clk address data s).2).
  assert (handle_sender_revertation clk address data s = (Ok (), s') ∧
    requests s' !! hex_encode (multi_id tx) = Some (RequestEntry_update_data data e))
    as [Hrun Hin].
  { subst s'. change handle_sender_revertation with (handle_update Revertation).
    rewrite handle_update_guarded, (guarded_update_run _ _ _ _ _ _ _ Htx Hknown He).
    erewrite run_bind_ok by (eapply update_request_live; eauto).
    split; [reflexivity|apply lookup_insert_eq]. }
  exists s'. split_and!; [exact Hrun|by rewrite Hin|]. intros party.
  pose proof (reachable_call (CallSenderRevertation clk address data) s Hs) as Hs'.
  apply reachable_requests_wf in Hs'. simpl in Hs'. fold s' in Hs'.
  eexists. split; [by apply fetch_pending_run|].
  intros tx' (k & e' & _ & He' & Htx' & Hr)%elem_of_pending Heq.
  destruct (Hs' _ _ He') as (tx'' & Htx'' & ->).
  assert (tx'' = tx') as -> by congruence. rewrite Heq, Hin in He'. simplify_eq.
  simpl in Htx'. congruence.
Qed.

(** *** Expiry of the indices *)

(** An index entry expires by the instant of its first request, whatever
    was filed under it since: when a cleanup runs later than that plus the time to
    live, a party stops seeing even the requests that are still live and stored;
    every handler that writes runs such a cleanup. *)
Theorem index_expires_before_its_requests (now : N) (address k : string)
    (entry : RequestListEntry) (e : RequestEntry) (s : VaneSwarmServer)
    (Hentry : sender_requests s !! address = Some entry)
    (Hold : rl_created_at entry + REQUEST_TTL_SECONDS < now)
    (Hfiled : k ∈ multi_ids entry)
    (Hk : requests s !! k = Some e)
    (Hlive : now ≤ re_created_at e + REQUEST_TTL_SECONDS) :
  ∃ s', cleanup_expired_sender_receiver_requests now s = (Ok (), s') ∧
    requests s' !! k = Some e ∧
    k ∈ ids_at (sender_requests s) address ∧ ids_at (sender_requests s') address = [].
Proof.
  exists (pruned now s). split_and!; [apply cleanup_lists_run|done|..].
  - unfold ids_at. by rewrite Hentry.
  - unfold ids_at. simpl. rewrite lookup_omap, Hentry. simpl.
    unfold prune_list_entry. by rewrite (proj2 (expired_list_spec now entry) Hold).
Qed.

(** *** The peer counter *)

(** The counter of repeated requests to the same receiver is a [u16] that is
    never decremented: at 65535 the next request panics in a debug build and sets
    it to 0 in a release build. *)
Theorem times_requested_overflow (t0 t1 : N) (address : string) (tx : TxStateMachine)
    (targets : TargetPeers) (p : TargetPeer) (s : VaneSwarmServer)
    (Ha : peers s !! address = Some targets)
    (Hp : targets !! receiver_address tx = Some p)
    (Hfull : times_requested p = 65535) :
  record_target_peer (H1 := debug_profile) t0 t1 address tx s =
    (Panic ArithmeticOverflow, s) ∧
  ∃ s', record_target_peer (H1 := release_profile) t0 t1 address tx s = (Ok (), s') ∧
    peers s' !! address ≫= lookup (receiver_address tx) = Some {|
      tp_account_id := tp_account_id p; tp_network := tp_network p;
      times_requested := 0 |}.
Proof.
  unfold record_target_peer. run. rewrite Ha, Hp, Hfull. split; [reflexivity|].
  eexists. split; [reflexivity|]. simpl. rewrite lookup_insert_eq. simpl.
  by rewrite lookup_insert_eq.
Qed.

(** *** Disconnection *)

(** [order] visits the senders of the peer table. *)
Definition iterates (order : list string) (table : gmap string TargetPeers) : Prop :=
  ∀ a, a ∈ order ↔ is_Some (table !! a).

(** A sender has [account] among its targets. *)
Definition targeted (account : string) (table : gmap string TargetPeers) : Prop :=
  ∃ sender targets, table !! sender = Some targets ∧ is_Some (targets !! account).

(** Remove [account] from [sender]'s targets, and the sender with its last target. *)
Definition drop_target (sender account : string) (table : gmap string TargetPeers) :
    gmap string TargetPeers :=
  partial_alter (λ targets, t ← targets;
    let remaining := delete account t in
    if decide (remaining = ∅) then None else Some remaining) sender table.

(** Whatever the iteration order of the peer table, a disconnection of an
    account that no sender targets fails; otherwise it succeeds and touches one
    sender that targets it: the account leaves that sender's targets (and the
    sender leaves the table with its last target) when it was requested exactly
    once, and the table does not change at all otherwise. *)
Theorem disconnect_peer_outcome (order : list string) (t0 t1 : N) (account : string)
    (data : bytes) (tx : TxStateMachine) (s : VaneSwarmServer)
    (Horder : iterates order (peers s)) (Htx : from_slice data = Some tx) :
  match disconnect_peer order t0 t1 account data s with
  | (Ok _, s') =>
      ∃ sender targets p,
        peers s !! sender = Some targets ∧ targets !! account = Some p ∧
        peers s' = (if decide (times_requested p = 1)
                    then drop_target sender account (peers s) else peers s)
  | (Err _, s') => ¬ targeted account (peers s) ∧ peers s' = peers s
  | _ => False
  end.
Proof.
  unfold disconnect_peer, decode_tx. rewrite Htx. simpl ok_or. run.
  destruct (find_target order (peers s) account) as [[[sender targets] p]|] eqn:Hfind.
  - apply find_target_Some in Hfind as (_ & Hs & Hp). case_decide as Ht; run.
    + assert (drop_target sender account (peers s) =
        if decide (delete account targets = ∅) then delete sender (peers s)
        else <[sender := delete account targets]> (peers s)) as Hd.
      { unfold drop_target. case_decide.
        - apply map_eq. intros a. rewrite lookup_partial_alter, lookup_delete.
          case_decide; simplify_eq; [|done]. rewrite Hs. simpl. by rewrite decide_True.
        - apply map_eq. intros a. rewrite lookup_partial_alter, lookup_insert.
          case_decide; simplify_eq; [|done]. rewrite Hs. simpl. by rewrite decide_False. }
      case_decide as Hempty; run; exists sender, targets, p; split_and!; auto;
        rewrite decide_True by done; rewrite Hd; [|done].
      by rewrite delete_insert_eq.
    + exists sender, targets, p. by rewrite decide_False.
  - split; [|done]. intros (sender & targets & Hs & [p Hp]).
    rewrite find_target_None in Hfind.
    assert (sender ∈ order) as Hin by (apply Horder; eauto).
    specialize (Hfind _ _ Hin Hs). congruence.
Qed.

(** *** Subscriptions *)

(** The address an event was made for, and its transaction data. *)
Definition event_address (ev : BackendEvent) : option string :=
  match ev with
  | SenderRequestReceived a _ | SenderRequestHandled a _ | EvSenderConfirmed a _
  | SenderReverted a _ | ReceiverResponseReceived a _ | ReceiverResponseHandled a _
  | PeerDisconnected a | PendingTransactionsFetched a _ | TxSubmitted a _ => Some a
  | DataExpired _ _ => None
  end.
Definition event_data (ev : BackendEvent) : option bytes :=
  match ev with
  | SenderRequestReceived _ d | SenderRequestHandled _ d | EvSenderConfirmed _ d
  | SenderReverted _ d | ReceiverResponseReceived _ d | ReceiverResponseHandled _ d
  | DataExpired _ d | TxSubmitted _ d => Some d
  | PeerDisconnected _ | PendingTransactionsFetched _ _ => None
  end.

Lemma matches_tx_spec subscriber data :
  matches_tx subscriber data = true ↔
  ∃ tx, from_slice data = Some tx ∧ is_reverted (status tx) = false ∧
    (sender_address tx = subscriber ∨ receiver_address tx = subscriber).
Proof.
  unfold matches_tx. destruct (from_slice data) as [tx|]; [|naive_solver].
  destruct (is_reverted (status tx)) eqn:Hr; [naive_solver congruence|].
  rewrite orb_true_iff, !bool_decide_eq_true. naive_solver.
Qed.

(** The events a subscriber is to be told of: those made for its address, and those with
    a transaction it is a party of, unless that was reverted. *)
Definition concerns (subscriber : string) (ev : BackendEvent) : Prop :=
  event_address ev = Some subscriber ∨
  ∃ data tx, event_data ev = Some data ∧ from_slice data = Some tx ∧
    is_reverted (status tx) = false ∧
    (sender_address tx = subscriber ∨ receiver_address tx = subscriber).

Lemma should_send_spec subscriber ev :
  should_send subscriber ev = true ↔ concerns subscriber ev.
Proof.
  unfold concerns.
  destruct ev; simpl; rewrite ?orb_true_iff, ?bool_decide_eq_true, ?matches_tx_spec;
    naive_solver.
Qed.
#[export] Instance concerns_dec subscriber ev : Decision (concerns subscriber ev).
Proof.
  destruct (should_send subscriber ev) eqn:Hs; [left|right];
    rewrite <-should_send_spec; congruence.
Defined.

Lemma subscription_concerns subscriber evs :
  subscription subscriber evs = filter (concerns subscriber) evs.
Proof. apply list_filter_iff. intros ev. apply should_send_spec. Qed.

Lemma subscription_spec subscriber evs ev :
  ev ∈ subscription subscriber evs ↔ ev ∈ evs ∧ concerns subscriber ev.
Proof. rewrite subscription_concerns, list_elem_of_filter. tauto. Qed.

(** The events among what the receiver returned, and the turns at which nothing fails: the
    sink is only asked to take what concerns the subscriber. *)
Definition fed : list feed → list BackendEvent :=
  omap (λ f, match f with FeedEvent ev _ => Some ev | FeedError _ => None end).
Definition feed_ok (subscriber : string) (f : feed) : Prop :=
  match f with
  | FeedEvent ev taken => concerns subscriber ev → taken = true
  | FeedError _ => False
  end.

Lemma subscription_loop_app subscriber l l' :
  Forall (feed_ok subscriber) l →
  subscription_loop subscriber (l ++ l') =
    filter (concerns subscriber) (fed l) ++ subscription_loop subscriber l'.
Proof.
  induction 1 as [|[ev taken|e] l Hok _ IH]; simpl in *; [done| |done].
  rewrite filter_cons. destruct (should_send subscriber ev) eqn:Hs.
  - apply should_send_spec in Hs. rewrite decide_True, (Hok Hs) by done. simpl. by rewrite IH.
  - rewrite decide_False by (rewrite <-should_send_spec; congruence). exact IH.
Qed.

(** C36: a subscription delivers exactly the events that concern the subscriber, each as
    often as it is made and in the order of the events: those made for its own address,
    and those that carry a transaction that decodes, is not reverted and has the subscriber
    as sender or receiver; nothing of third parties.  It goes on as long as its receiver
    does not lag and its sink takes what it is given.  At the first failure it ends: what
    was delivered until then is exact, and of what comes after nothing is delivered. *)
Theorem subscription_delivers_to_parties (subscriber : string) (l : list feed)
    (Hok : Forall (feed_ok subscriber) l) :
  subscription_loop subscriber l = filter (concerns subscriber) (fed l) ∧
  (∀ e after, subscription_loop subscriber (l ++ FeedError e :: after) =
     filter (concerns subscriber) (fed l)) ∧
  (∀ ev after, concerns subscriber ev →
     subscription_loop subscriber (l ++ FeedEvent ev false :: after) =
       filter (concerns subscriber) (fed l)).
Proof.
  split_and!.
  - rewrite <-(app_nil_r l) at 1. rewrite subscription_loop_app by done. apply app_nil_r.
  - intros e after. rewrite subscription_loop_app by done. apply app_nil_r.
  - intros ev after Hev%should_send_spec. rewrite subscription_loop_app by done.
    simpl. rewrite Hev. apply app_nil_r.
Qed.

(** The announcement of a revertation, sent with the reverted transaction,
    reaches the address it was made for and no one else: in particular not the
    transaction's receiver. *)
Theorem revertation_reaches_sender_only (address subscriber : string) (data : bytes)
    (tx : TxStateMachine)
    (Htx : from_slice data = Some tx) (Hrev : is_reverted (status tx) = true) :
  subscription subscriber [SenderReverted address data] =
    if decide (address = subscriber) then [SenderReverted address data] else [].
Proof.
  unfold subscription.
  assert (matches_tx subscriber data = false) as Hm
    by (unfold matches_tx; by rewrite Htx, Hrev).
  case_decide; [rewrite list.filter_cons_True|rewrite list.filter_cons_False]; try done; simpl;
    rewrite Hm, orb_false_r, bool_decide_eq_true; done.
Qed.
End properties.

(** ** Witnesses: Alice's request to Bob, filed at instant 10 *)

#[local] Existing Instances sample_json sample_hex.
#[local] Existing Instance release_profile.

Definition filed_calls : list server_call :=
  [CallSenderRequest (at_time 10) "alice" (json_of (tx_ab Genesis))].
Definition filed_server : VaneSwarmServer := run_calls filed_calls VaneSwarmServer_new.
Definition key_ab : string := hex_encode [Byte.x41].
Definition entry_ab : RequestEntry :=
  {| re_data := json_of (tx_ab Genesis); re_created_at := 10 |}.

Lemma filed_server_reachable : reachable filed_server.
Proof. apply run_calls_reachable, reachable_new. Qed.

Lemma fetch_returns_filed_transactions_witness :
  reachable filed_server ∧
  fetch_pending_transactions "bob" filed_server = (Ok [tx_ab Genesis], filed_server) ∧
  ∃ txs, fetch_pending_transactions "bob" filed_server = (Ok txs, filed_server).
Proof.
  split; [apply filed_server_reachable|]. split; [vm_compute; reflexivity|].
  destruct (fetch_returns_filed_transactions filed_server "bob" filed_server_reachable)
    as (txs & ? & _). by exists txs.
Defined.

(** Bob is told of Alice's request to him and not of an expiry of data he cannot read;
    the second event the sink does not take. *)
Lemma subscription_delivers_to_parties_witness :
  let ev := SenderRequestHandled "bob" (json_of (tx_ab Genesis)) in
  let l := [FeedEvent ev true; FeedEvent (DataExpired "key" []) false] in
  subscription_loop "bob" l = [ev] ∧
  subscription_loop "bob" (l ++ [FeedEvent ev false; FeedEvent ev true]) = [ev].
Proof.
  intros ev l.
  assert (concerns "bob" ev) as Hev by by left.
  assert (¬ concerns "bob" (DataExpired "key" [])) as Hno
    by (rewrite <-should_send_spec; vm_compute; discriminate).
  assert (filter (concerns "bob") (fed l) = [ev]) as Hl
    by (unfold l, fed; cbn -[concerns filter]; rewrite !filter_cons, decide_True by exact Hev;
        by rewrite decide_False by exact Hno).
  destruct (subscription_delivers_to_parties "bob" l) as (Hall & _ & Hrefused).
  { apply list.Forall_cons. split; [done|]. apply list.Forall_cons.
    split; [intros Hev'; by destruct Hno|done]. }
  split; [by rewrite Hall|]. rewrite (Hrefused ev [FeedEvent ev true] Hev). exact Hl.
Defined.

Lemma request_reaches_both_parties_witness :
  ∃ s', handle_sender_request (at_time 20) "alice" (json_of (tx_ab Genesis)) filed_server =
          (Ok (), s') ∧
    ∃ txs, fetch_pending_transactions "bob" s' = (Ok txs, s') ∧ tx_ab Genesis ∈ txs.
Proof.
  destruct (request_reaches_both_parties (at_time 20) 20 20 "alice" (json_of (tx_ab Genesis))
    (tx_ab Genesis) filed_server filed_server_reachable) as (s' & Hrun & _ & _ & Hfetch).
  - intros i. unfold at_time. lia.
  - lia.
  - apply from_slice_json_of.
  - intros targets p Ht Hp. vm_compute in Ht. injection Ht as <-.
    vm_compute in Hp. injection Hp as <-. vm_compute. reflexivity.
  - intros e He. vm_compute in He. injection He as <-. vm_compute. discriminate.
  - intros e He. vm_compute in He. injection He as <-. vm_compute. discriminate.
  - exists s'. split; [exact Hrun|]. apply Hfetch; [reflexivity|by right].
Defined.

Lemma unknown_update_refused_witness :
  ∃ msg, handle_update Confirmation (at_time 20) "mallory" (json_of (tx_ab RecvAddrConfirmed))
    filed_server = (Err msg, filed_server).
Proof.
  apply unknown_update_refused. intros tx. rewrite from_slice_json_of. intros [= <-].
  left. vm_compute. reflexivity.
Defined.

Lemma known_update_applies_witness :
  ∃ s', handle_update Confirmation (at_time 20) "alice" (json_of (tx_ab RecvAddrConfirmed))
          filed_server = (Ok (), s') ∧
    requests s' !! key_ab =
      Some {| re_data := json_of (tx_ab RecvAddrConfirmed); re_created_at := 10 |}.
Proof.
  destruct (known_update_applies Confirmation (at_time 20) "alice"
    (json_of (tx_ab RecvAddrConfirmed)) (tx_ab RecvAddrConfirmed) entry_ab filed_server)
    as (s' & Hrun & Hk & _).
  - apply from_slice_json_of.
  - vm_compute. reflexivity.
  - vm_compute. reflexivity.
  - intros i. vm_compute. discriminate.
  - exists s'. split; [exact Hrun|exact Hk].
Defined.

Lemma expired_update_is_silent_witness :
  ∃ msg s', handle_update Submission (at_time 1811) "alice" (json_of (tx_ab RecvAddrConfirmed))
    filed_server = (Err msg, s') ∧ requests s' !! key_ab = None.
Proof.
  destruct (expired_update_is_silent (H := sample_json_laws) Submission (at_time 1811) "alice"
    (json_of (tx_ab RecvAddrConfirmed)) (tx_ab RecvAddrConfirmed) entry_ab filed_server)
    as (msg & s' & Hrun & Hk & _).
  - apply from_slice_json_of.
  - vm_compute. reflexivity.
  - vm_compute. reflexivity.
  - vm_compute. reflexivity.
  - exists msg, s'. split; [exact Hrun|exact Hk].
Defined.

Lemma reverted_request_is_hidden_witness :
  ∃ s', handle_sender_revertation (at_time 20) "alice" (json_of (tx_ab (Reverted "changed")))
          filed_server = (Ok (), s') ∧
    ∃ txs, fetch_pending_transactions "bob" s' = (Ok txs, s') ∧
      ∀ tx', tx' ∈ txs → multi_id tx' ≠ [Byte.x41].
Proof.
  destruct (reverted_request_is_hidden (H := sample_hex_laws) (at_time 20) "alice"
    (json_of (tx_ab (Reverted "changed"))) (tx_ab (Reverted "changed")) entry_ab filed_server
    filed_server_reachable) as (s' & Hrun & _ & Hfetch).
  - apply from_slice_json_of.
  - reflexivity.
  - vm_compute. reflexivity.
  - vm_compute. reflexivity.
  - intros i. vm_compute. discriminate.
  - exists s'. split; [exact Hrun|]. exact (Hfetch "bob").
Defined.

(** Alice files a second request, to Carol, just before her index entry expires. *)
Definition late_server : VaneSwarmServer :=
  run_calls [CallSenderRequest (at_time 1800) "alice" (json_of (tx_ac Genesis))] filed_server.

Lemma index_expires_before_its_requests_witness :
  ∃ s', cleanup_expired_sender_receiver_requests 1811 late_server = (Ok (), s') ∧
    is_Some (requests s' !! hex_encode [Byte.x42]) ∧
    ids_at (sender_requests s') "alice" = [].
Proof.
  destruct (index_expires_before_its_requests 1811 "alice" (hex_encode [Byte.x42])
    {| multi_ids := [key_ab; hex_encode [Byte.x42]]; rl_created_at := 10 |}
    {| re_data := json_of (tx_ac Genesis); re_created_at := 1800 |} late_server)
    as (s' & Hrun & Hk & _ & Hids).
  - vm_compute. reflexivity.
  - vm_compute. reflexivity.
  - simpl. right. left.
  - vm_compute. reflexivity.
  - vm_compute. discriminate.
  - exists s'. split; [exact Hrun|]. split; [by rewrite Hk|exact Hids].
Defined.

(** Alice has asked for Bob 65535 times. *)
Definition full_peer : TargetPeer :=
  {| tp_account_id := "bob"; tp_network := Ethereum; times_requested := 65535 |}.
Definition full_server : VaneSwarmServer :=
  with_peers (λ _, {["alice" := {["bob" := full_peer]}]}) VaneSwarmServer_new.

Lemma times_requested_overflow_witness :
  ∃ s', record_target_peer (H1 := release_profile) 0 0 "alice" (tx_ab Genesis) full_server =
    (Ok (), s').
Proof.
  destruct (times_requested_overflow 0 0 "alice" (tx_ab Genesis) {["bob" := full_peer]}
    full_peer full_server) as (_ & s' & Hrun & _).
  - vm_compute. reflexivity.
  - vm_compute. reflexivity.
  - reflexivity.
  - exists s'. exact Hrun.
Defined.

Lemma disconnect_peer_outcome_witness :
  iterates ["alice"] (peers filed_server) ∧
  (disconnect_peer ["alice"] 20 20 "bob" (json_of (tx_ab Genesis)) filed_server).1 = Ok () ∧
  match disconnect_peer ["alice"] 20 20 "bob" (json_of (tx_ab Genesis)) filed_server with
  | (Ok _, s') => ∃ sender targets p,
      peers filed_server !! sender = Some targets ∧ targets !! "bob" = Some p ∧
      peers s' = (if decide (times_requested p = 1)
                  then drop_target sender "bob" (peers filed_server) else peers filed_server)
  | (Err _, s') => ¬ targeted "bob" (peers filed_server) ∧ peers s' = peers filed_server
  | _ => False
  end.
Proof.
  assert (iterates ["alice"] (peers filed_server)) as Hit.
  { intros a. rewrite list_elem_of_singleton. split; [intros ->; vm_compute; eauto|].
    intros [targets Ht]. change (peers filed_server) with
      (<["alice" := {["bob" := TargetPeer_first (tx_ab Genesis)]}]> (∅ : gmap string TargetPeers))
      in Ht. apply lookup_insert_Some in Ht as [[<- _]|[_ Ht]]; [done|].
    by rewrite lookup_empty in Ht. }
  split; [exact Hit|]. split; [vm_compute; reflexivity|].
  apply (disconnect_peer_outcome ["alice"] 20 20 "bob" (json_of (tx_ab Genesis)) (tx_ab Genesis));
    [exact Hit|apply from_slice_json_of].
Defined.

Lemma revertation_reaches_sender_only_witness :
  subscription "bob" [SenderReverted "alice" (json_of (tx_ab (Reverted "changed")))] = [].
Proof.
  exact (revertation_reaches_sender_only "alice" "bob" (json_of (tx_ab (Reverted "changed")))
    (tx_ab (Reverted "changed")) (from_slice_json_of _) eq_refl).
Defined.
