(* ===== verification/Mailbox.v ===== *)
(** What the backend promises, without its bookkeeping: an ideal mailbox, in which a
    transfer stays where it was put and is live for [REQUEST_TTL_SECONDS], and the proof
    that the server implements it.

    The server sweeps expired requests whenever some handler happens to run, through three
    scans at three readings of the clock, and prunes its two indices on the way.  The
    mailbox never sweeps: it keeps every transfer with the time it was filed, and looks at
    the clock once per operation.  The two are related by [implements]. *)

From S2P Require Import Prelude DataStructure Codec Samples.
From S2P Require Import Server ServerInvariant ServerRequests ServerProperties.
Open Scope N_scope.

Section mailbox.
Context `{TxJson, Hex, BuildProfile}.

(** ** The mailbox *)

Record Mailbox := {
  (** who announced transfers to whom *)
  contacts : gmap string TargetPeers;
  (** the last content of a transfer, and when it was filed *)
  box : gmap string RequestEntry;
  (** the transfers an account was named in when they were announced *)
  named : gmap string (gset string)
}.

Definition Mailbox_new : Mailbox := {| contacts := ∅; box := ∅; named := ∅ |}.

Definition with_box f (m : Mailbox) : Mailbox :=
  {| contacts := contacts m; box := f (box m); named := named m |}.

Definition named_in (m : Mailbox) (account : string) : gset string :=
  default ∅ (named m !! account).
Definition name_in (account k : string) (n : gmap string (gset string)) :
    gmap string (gset string) :=
  <[account := {[k]} ∪ default ∅ (n !! account)]> n.

Definition live_at (now : N) (e : RequestEntry) : Prop :=
  now ≤ re_created_at e + REQUEST_TTL_SECONDS.
#[local] Instance live_at_dec now e : Decision (live_at now e) := N.le_dec _ _.

(** The transfer [k], if it is there and live. *)
Definition look (now : N) (k : string) (m : Mailbox) : option RequestEntry :=
  e ← box m !! k; if decide (live_at now e) then Some e else None.

(** A contact is counted each time it is announced, in sixteen bits. *)
Definition announce_contact (address : string) (tx : TxStateMachine)
    (table : gmap string TargetPeers) : outcome (gmap string TargetPeers) :=
  match table !! address with
  | None => Ok (<[address := {[receiver_address tx := TargetPeer_first tx]}]> table)
  | Some targets =>
      match targets !! receiver_address tx with
      | Some peer =>
          times ← add_u 16 (times_requested peer) 1;
          Ok (<[address := <[receiver_address tx := {|
                tp_account_id := tp_account_id peer; tp_network := tp_network peer;
                times_requested := times |}]> targets]> table)
      | None => Ok (<[address := <[receiver_address tx := TargetPeer_first tx]> targets]> table)
      end
  end.

Definition drop_contact (order : list string) (account : string)
    (table : gmap string TargetPeers) : option (gmap string TargetPeers) :=
  '(sender, targets, peer) ← find_target order table account;
  Some (if decide (times_requested peer = 1) then
          let remaining := delete account targets in
          let table := <[sender := remaining]> table in
          if decide (remaining = ∅) then delete sender table else table
        else table).

(** The operations; each tells whether it was accepted. *)
Definition announce (now : N) (address : string) (data : bytes) (m : Mailbox) : bool * Mailbox :=
  match from_slice data with
  | None => (false, m)
  | Some tx =>
      let k := hex_encode (multi_id tx) in
      match announce_contact address tx (contacts m) with
      | Ok table => (true, {|
          contacts := table;
          box := <[k := RequestEntry_new now data]> (box m);
          named := name_in (receiver_address tx) k (name_in address k (named m)) |})
      | _ => (false, m)
      end
  end.

Definition amend (now : N) (address : string) (data : bytes) (m : Mailbox) : bool * Mailbox :=
  match from_slice data with
  | None => (false, m)
  | Some tx =>
      let k := hex_encode (multi_id tx) in
      match contacts m !! address ≫= (.!! receiver_address tx), look now k m with
      | Some _, Some e => (true, with_box <[k := RequestEntry_update_data data e]> m)
      | _, _ => (false, m)
      end
  end.

(** An answer to a transfer that is not there, or no longer, is filed as a new one, at a
    later reading of the clock. *)
Definition answer (now later : N) (data : bytes) (m : Mailbox) : bool * Mailbox :=
  match from_slice data with
  | None => (false, m)
  | Some tx =>
      let k := hex_encode (multi_id tx) in
      (true, match look now k m with
             | Some e => with_box <[k := RequestEntry_update_data data e]> m
             | None => with_box <[k := RequestEntry_new later data]> m
             end)
  end.

Definition disconnect (order : list string) (account : string) (data : bytes) (m : Mailbox) :
    bool * Mailbox :=
  match from_slice data, drop_contact order account (contacts m) with
  | Some _, Some table => (true, {| contacts := table; box := box m; named := named m |})
  | _, _ => (false, m)
  end.

(** The reading of the clock at which each call of the server takes effect. *)
Definition mailbox_call (c : server_call) : Mailbox → bool * Mailbox :=
  match c with
  | CallSenderRequest clk address data => announce (clk 4%nat) address data
  | CallReceiverResponse clk address data => answer (clk 2%nat) (clk 5%nat) data
  | CallSenderConfirmation clk address data | CallSenderRevertation clk address data
  | CallTxSubmissionUpdates clk address data => amend (clk 2%nat) address data
  | CallDisconnect order _ _ account data => disconnect order account data
  | CallFetchPending _ | CallSubscribe => pair true
  end.

(** ** The relation *)

(** At [now] the server differs from the mailbox only in what has expired. *)
Record implements (now : N) (s : VaneSwarmServer) (m : Mailbox) : Prop := {
  same_contacts : peers s = contacts m;
  stored_in_box : requests s ⊆ box m;
  live_is_stored k e : box m !! k = Some e → live_at now e → requests s !! k = Some e;
  indexed_is_named a k :
    k ∈ ids_at (sender_requests s) a ∨ k ∈ ids_at (receiver_requests s) a → k ∈ named_in m a
}.

(** Everything else of the server plays no part. *)
Lemma implements_frame now s s' m :
  peers s' = peers s → requests s' = requests s → sender_requests s' = sender_requests s →
  receiver_requests s' = receiver_requests s → implements now s m → implements now s' m.
Proof. intros Ep Er Es Ei []. split; congruence || (rewrite ?Er, ?Es, ?Ei; done). Qed.

Lemma implements_metrics now f s m : implements now s m → implements now (with_metrics f s) m.
Proof. by apply implements_frame. Qed.
Lemma implements_events now f s m : implements now s m → implements now (with_events f s) m.
Proof. by apply implements_frame. Qed.
Lemma implements_notifications now f s m :
  implements now s m → implements now (with_notifications f s) m.
Proof. by apply implements_frame. Qed.

Lemma implements_later now later s m :
  now ≤ later → implements now s m → implements later s m.
Proof.
  intros Hle [Hc Hb Hl Hi]. split; try done. intros k e Hk Hlive. apply Hl; [done|].
  unfold live_at in *. lia.
Qed.

(** *** Sweeping *)

Lemma implements_purged now t s m : t ≤ now → implements now s m → implements now (purged t s) m.
Proof.
  intros Ht [Hc Hb Hl Hi]. split; try done.
  - etrans; [apply map_filter_subseteq|done].
  - intros k e Hk Hlive. apply purged_lookup. split; [by apply Hl|]. unfold live_at in *. lia.
Qed.

Lemma ids_at_pruned t ids index a k :
  k ∈ ids_at (omap (prune_list_entry t ids) index) a → k ∈ ids_at index a.
Proof.
  unfold ids_at. rewrite lookup_omap. destruct (index !! a) as [e|]; [|done]. simpl.
  unfold prune_list_entry. destruct (RequestListEntry_is_expired _ _ _);
    [by intros ?%not_elem_of_nil|].
  case_decide; [done|].
  destruct (filter _ (multi_ids e)) as [|x l] eqn:Hf; [by intros ?%not_elem_of_nil|].
  simpl. rewrite <-Hf. by intros [_ ?]%list_elem_of_filter.
Qed.

Lemma implements_pruned now t s m : implements now s m → implements now (pruned t s) m.
Proof.
  intros [Hc Hb Hl Hi]. split; try done. intros a k [Hk|Hk]; apply ids_at_pruned in Hk; auto.
Qed.

Lemma implements_swept now t0 t1 s m :
  t0 ≤ now → implements now s m → implements now (pruned t1 (purged t0 s)) m.
Proof. intros ? ?. by apply implements_pruned, implements_purged. Qed.

Lemma update_metrics_implements now t0 t1 s m :
  t0 ≤ now → implements now s m →
  ∃ s', update_metrics t0 t1 s = (Ok (), s') ∧ implements now s' m.
Proof.
  intros Ht Hs. eexists. split; [reflexivity|].
  eapply implements_frame; [..|by apply (implements_swept now t0 t1)]; done.
Qed.

(** *** Writing *)

Lemma implements_insert now s m k e :
  implements now s m →
  implements now (with_requests (<[k := e]>) s) (with_box <[k := e]> m).
Proof.
  intros [Hc Hb Hl Hi]. split; simpl; try done.
  - by apply insert_mono.
  - intros k' e'. rewrite !lookup_insert_Some. naive_solver.
Qed.

Lemma ids_at_push now a k index b x :
  x ∈ ids_at (push_index now a k index) b → (b = a ∧ x = k) ∨ x ∈ ids_at index b.
Proof.
  unfold ids_at, push_index. destruct (decide (b = a)) as [->|Hne].
  - rewrite lookup_insert_eq. simpl. rewrite elem_of_app, list_elem_of_singleton.
    destruct (index !! a); simpl; [naive_solver|]. intros [?%not_elem_of_nil|]; naive_solver.
  - rewrite lookup_insert_ne by done. auto.
Qed.

Lemma named_in_name_in m account k a :
  default ∅ (name_in account k (named m) !! a) =
    if decide (a = account) then {[k]} ∪ named_in m account else named_in m a.
Proof.
  unfold name_in, named_in. case_decide; subst; [by rewrite lookup_insert_eq|].
  by rewrite lookup_insert_ne.
Qed.

(** A transfer filed under both its parties. *)
Definition file_under (account k : string) (m : Mailbox) : Mailbox :=
  {| contacts := contacts m; box := box m; named := name_in account k (named m) |}.

Lemma implements_file now t s m account k f g :
  (f = push_index t account k ∧ g = id ∨ f = id ∧ g = push_index t account k) →
  implements now s m → implements now (with_lists f g s) (file_under account k m).
Proof.
  intros Hfg [Hc Hb Hl Hi]. split; simpl; try done. intros a x Hx.
  unfold named_in at 1. simpl. rewrite named_in_name_in.
  assert ((a = account ∧ x = k) ∨ x ∈ named_in m a) as Hin.
  { destruct Hfg as [[-> ->]|[-> ->]]; destruct Hx as [Hx|Hx]; unfold id in *;
      try apply ids_at_push in Hx; naive_solver. }
  case_decide; [|naive_solver]. subst. set_solver.
Qed.

(** *** The operations of the store *)

Lemma look_spec now k m e : look now k m = Some e ↔ box m !! k = Some e ∧ live_at now e.
Proof.
  unfold look. destruct (box m !! k) as [e'|]; simpl; [case_decide|]; naive_solver.
Qed.

Lemma update_request_implements t t0 t1 t2 k data s m :
  t ≤ t0 → t0 ≤ t2 → implements t s m →
  ∃ s', update_request t0 t1 t2 k data s = (Ok (bool_decide (is_Some (look t2 k m))), s') ∧
    implements t2 s'
      (match look t2 k m with
       | Some e => with_box <[k := RequestEntry_update_data data e]> m
       | None => m
       end).
Proof.
  intros Ht0 Ht2 Hs. unfold update_request.
  rewrite (run_bind_ok _ _ _ _ _ (cleanup_requests_run t0 s)).
  rewrite (run_bind_ok _ _ _ _ _ (cleanup_lists_run t1 (purged t0 s))).
  rewrite run_bind_gets. set (s1 := pruned t1 (purged t0 s)).
  assert (implements t2 s1 m) as Hs1
    by (apply implements_swept; [done|]; by apply (implements_later t); [lia|]).
  destruct (look t2 k m) as [e|] eqn:Hlook.
  - apply look_spec in Hlook as [Hk Hlive]. rewrite (live_is_stored _ _ _ Hs1 _ _ Hk Hlive).
    destruct (RequestEntry_is_expired t2 REQUEST_TTL_SECONDS e) eqn:Hexp.
    { apply expired_request_spec in Hexp. unfold live_at in Hlive. lia. }
    eexists. split; [reflexivity|]. by apply implements_insert.
  - assert (∀ e, box m !! k = Some e → ¬ live_at t2 e) as Hdead.
    { intros e Hk Hlive. destruct (look t2 k m) eqn:E; [done|].
      by rewrite (proj2 (look_spec t2 k m e) (conj Hk Hlive)) in E. }
    destruct (requests s1 !! k) as [e|] eqn:Hk.
    + pose proof (lookup_weaken _ _ _ _ Hk (stored_in_box _ _ _ Hs1)) as Hbox.
      destruct (RequestEntry_is_expired t2 REQUEST_TTL_SECONDS e) eqn:Hexp.
      2: { destruct (Hdead e Hbox). unfold live_at. apply not_true_iff_false in Hexp.
           rewrite expired_request_spec in Hexp. lia. }
      run. eexists. split; [reflexivity|].
      destruct Hs1 as [Hc Hb Hl Hi]. split; simpl; try done.
      * etrans; [apply delete_subseteq|done].
      * intros k' e' Hk' Hlive. rewrite lookup_delete_ne; [by apply Hl|]. intros <-.
        by apply (Hdead e').
    + run. eexists. split; [reflexivity|]. by apply (implements_frame t2 s1).
Qed.

Lemma insert_request_implements t t0 t1 t2 k data s m :
  t ≤ t0 → t0 ≤ t2 → implements t s m →
  ∃ s', insert_request t0 t1 t2 k data s = (Ok (), s') ∧
    implements t2 s' (with_box <[k := RequestEntry_new t2 data]> m).
Proof.
  intros Ht0 Ht2 Hs. eexists. split; [reflexivity|].
  apply (implements_insert t2 (pruned t1 (purged t0 s))).
  apply implements_swept; [done|]. by apply (implements_later t); [lia|].
Qed.

Definition with_contacts table (m : Mailbox) : Mailbox :=
  {| contacts := table; box := box m; named := named m |}.

Lemma implements_contacts now s s' m table :
  peers s' = table → requests s' = requests s → sender_requests s' = sender_requests s →
  receiver_requests s' = receiver_requests s → implements now s m →
  implements now s' (with_contacts table m).
Proof. intros Ep Er Es Ei []. split; [done|by rewrite ?Er, ?Es, ?Ei..]. Qed.

Lemma record_target_peer_implements t t0 t1 address tx s m :
  t ≤ t0 → implements t s m →
  match announce_contact address tx (contacts m) with
  | Ok table => ∃ s', record_target_peer t0 t1 address tx s = (Ok (), s') ∧
      implements t0 s' (with_contacts table m)
  | _ => is_ok (record_target_peer t0 t1 address tx s).1 = false ∧
      (record_target_peer t0 t1 address tx s).2 = s
  end.
Proof.
  intros Ht Hs%(implements_later t t0 _ _ Ht). pose proof (same_contacts _ _ _ Hs) as Hc.
  unfold announce_contact, record_target_peer. rewrite <-Hc. run.
  destruct (peers s !! address) as [targets|].
  - destruct (targets !! receiver_address tx) as [peer|].
    + destruct (add_u 16 (times_requested peer) 1); run; [|done..].
      eexists. split; [reflexivity|]. by apply (implements_contacts t0 s).
    + run. eexists. split; [reflexivity|]. by apply (implements_contacts t0 s).
  - run. destruct (update_metrics_implements t0 t0 t1
      (with_metrics metrics_peer_added
        (with_peers <[address:={[receiver_address tx:=TargetPeer_first tx]}]> s))
      (with_contacts (<[address:={[receiver_address tx:=TargetPeer_first tx]}]> (peers s)) m))
      as (s' & Hrun & Hs'); [done|by apply (implements_contacts t0 s)|].
    rewrite (run_bind_ok _ _ _ _ _ Hrun). eexists. split; [reflexivity|].
    by apply (implements_frame t0 s').
Qed.

(** ** The calls *)

(** A call made not before [t] and over by [t'], with a clock that does not go back. *)
Definition during (t t' : N) (c : server_call) : Prop :=
  match c with
  | CallSenderRequest clk _ _ | CallReceiverResponse clk _ _ | CallSenderConfirmation clk _ _
  | CallSenderRevertation clk _ _ | CallTxSubmissionUpdates clk _ _ =>
      (∀ i, t ≤ clk i ∧ clk i ≤ t') ∧ ∀ i j, (i ≤ j)%nat → clk i ≤ clk j
  | CallDisconnect _ t0 t1 _ _ => t ≤ t0 ∧ t0 ≤ t1 ∧ t1 ≤ t'
  | CallFetchPending _ | CallSubscribe => t ≤ t'
  end.

(** A computation of the server and an operation of the mailbox agree. *)
Definition agrees (t' : N) {A} (r : outcome A * VaneSwarmServer) (i : bool * Mailbox) : Prop :=
  is_ok r.1 = i.1 ∧ implements t' r.2 i.2.

Lemma sender_request_agrees t t' clk address data s m :
  (∀ i, t ≤ clk i ∧ clk i ≤ t') → (∀ i j, (i ≤ j)%nat → clk i ≤ clk j) → implements t s m →
  agrees t' (handle_sender_request clk address data s) (announce (clk 4%nat) address data m).
Proof.
  intros Hclk Hmono Hs. unfold handle_sender_request, decode_tx, announce. run_first.
  set (s0 := with_events _ s). assert (implements t s0 m) as Hs0 by (by apply (implements_frame t s)).
  assert (t ≤ t') as Htt by (destruct (Hclk 0%nat); lia).
  destruct (from_slice data) as [tx|]; simpl ok_or; [|run; by split; [|apply (implements_later t)]].
  rewrite run_bind_lift_ok. cbv zeta.
  pose proof (record_target_peer_implements t (clk 0%nat) (clk 1%nat) address tx s0 m
    (proj1 (Hclk 0%nat)) Hs0) as Hrec.
  destruct (announce_contact address tx (contacts m)) as [table| | |].
  2-4: destruct Hrec as [Hno Hsame]; rewrite run_bind;
    destruct (record_target_peer _ _ _ _ s0) as [[] s1]; try done; simpl in *; subst s1;
    by split; [|apply (implements_later t)].
  destruct Hrec as (s1 & Hrun & Hs1). rewrite (run_bind_ok _ _ _ _ _ Hrun). run_first.
  set (s2 := with_notifications _ s1).
  destruct (insert_request_implements (clk 0%nat) (clk 2%nat) (clk 3%nat) (clk 4%nat)
    (hex_encode (multi_id tx)) data s2 (with_contacts table m)) as (s3 & Hrun3 & Hs3);
    [apply Hmono; lia..|by apply (implements_frame (clk 0%nat) s1)|].
  rewrite (run_bind_ok _ _ _ _ _ Hrun3). run_first. run_first.
  rewrite (run_bind_ok _ _ _ _ _ (cleanup_lists_run (clk 7%nat) _)). run_first.
  set (k := hex_encode (multi_id tx)) in *.
  assert (implements (clk 4%nat) (with_lists id (push_index (clk 6%nat) (receiver_address tx) k)
      (with_lists (push_index (clk 5%nat) address k) id s3))
    {| contacts := table; box := <[k := RequestEntry_new (clk 4%nat) data]> (box m);
       named := name_in (receiver_address tx) k (name_in address k (named m)) |}) as Hs4.
  { change (implements (clk 4%nat)
      (with_lists id (push_index (clk 6%nat) (receiver_address tx) k)
        (with_lists (push_index (clk 5%nat) address k) id s3))
      (file_under (receiver_address tx) k (file_under address k
        (with_box <[k := RequestEntry_new (clk 4%nat) data]> (with_contacts table m))))).
    apply (implements_file _ (clk 6%nat)); [by right|].
    apply (implements_file _ (clk 5%nat) _ _ address k); [by left|done]. }
  apply (implements_pruned _ (clk 7%nat)) in Hs4.
  apply (implements_later _ t') in Hs4; [|apply Hclk].
  apply (implements_metrics _ metrics_sender_request) in Hs4.
  destruct (update_metrics_implements t' (clk 8%nat) (clk 9%nat) _ _ (proj2 (Hclk 8%nat)) Hs4)
    as (s5 & Hrun5 & Hs5).
  rewrite (run_bind_ok _ _ _ _ _ Hrun5). split; [done|]. by apply (implements_frame t' s5).
Qed.

Lemma receiver_response_agrees t t' clk address data s m :
  (∀ i, t ≤ clk i ∧ clk i ≤ t') → (∀ i j, (i ≤ j)%nat → clk i ≤ clk j) → implements t s m →
  agrees t' (handle_receiver_response clk address data s) (answer (clk 2%nat) (clk 5%nat) data m).
Proof.
  intros Hclk Hmono Hs. unfold handle_receiver_response, decode_tx, answer.
  assert (t ≤ t') as Htt by (destruct (Hclk 0%nat); lia).
  destruct (from_slice data) as [tx|]; simpl ok_or; [|run; by split; [|apply (implements_later t)]].
  rewrite run_bind_lift_ok. cbv zeta. run_first. set (k := hex_encode (multi_id tx)).
  destruct (update_request_implements t (clk 0%nat) (clk 1%nat) (clk 2%nat) k data
    (with_events (λ l, l ++ [ReceiverResponseReceived address data]) s) m)
    as (s1 & Hrun1 & Hs1); [apply Hclk|apply Hmono; lia|by apply (implements_frame t s)|].
  rewrite (run_bind_ok _ _ _ _ _ Hrun1).
  assert (∃ s2, (if negb (bool_decide (is_Some (look (clk 2%nat) k m)))
      then insert_request (clk 3%nat) (clk 4%nat) (clk 5%nat) k data else skip) s1 = (Ok (), s2) ∧
    implements t' s2 (match look (clk 2%nat) k m with
      | Some e => with_box <[k := RequestEntry_update_data data e]> m
      | None => with_box <[k := RequestEntry_new (clk 5%nat) data]> m
      end)) as (s2 & Hrun2 & Hs2).
  { destruct (look (clk 2%nat) k m) as [e|] eqn:Hlook; simpl.
    - exists s1. split; [done|]. apply (implements_later (clk 2%nat)); [apply Hclk|done].
    - destruct (insert_request_implements (clk 2%nat) (clk 3%nat) (clk 4%nat) (clk 5%nat) k data s1 m)
        as (s2 & Hrun2 & Hs2); [apply Hmono; lia..|done|].
      exists s2. split; [done|]. apply (implements_later (clk 5%nat)); [apply Hclk|done]. }
  rewrite (run_bind_ok _ _ _ _ _ Hrun2). run_first.
  apply (implements_metrics _ metrics_receiver_response) in Hs2.
  destruct (update_metrics_implements t' (clk 6%nat) (clk 7%nat) _ _ (proj2 (Hclk 6%nat)) Hs2)
    as (s3 & Hrun3 & Hs3).
  rewrite (run_bind_ok _ _ _ _ _ Hrun3). split; [done|]. by apply (implements_frame t' s3).
Qed.

Lemma guarded_update_agrees t t' ev clk address data s m :
  (∀ i, t ≤ clk i ∧ clk i ≤ t') → (∀ i j, (i ≤ j)%nat → clk i ≤ clk j) → implements t s m →
  agrees t' (guarded_update ev clk address data s) (amend (clk 2%nat) address data m).
Proof.
  intros Hclk Hmono Hs. unfold guarded_update, decode_tx, amend.
  assert (t ≤ t') as Htt by (destruct (Hclk 0%nat); lia).
  destruct (from_slice data) as [tx|]; simpl ok_or; [|run; by split; [|apply (implements_later t)]].
  rewrite run_bind_lift_ok, run_bind_gets. cbv zeta. set (k := hex_encode (multi_id tx)).
  assert (known_target address (receiver_address tx) s =
    bool_decide (is_Some (contacts m !! address ≫= (.!! receiver_address tx)))) as ->.
  { unfold known_target. rewrite (same_contacts _ _ _ Hs). by destruct (contacts m !! address). }
  destruct (contacts m !! address ≫= (.!! receiver_address tx)) as [peer|]; simpl;
    [|by split; [|apply (implements_later t)]].
  rewrite run_bind_gets. destruct (requests s !! k) as [e0|] eqn:Hk; simpl.
  2: { destruct (look (clk 2%nat) k m) as [e|] eqn:Hlook; [|by split; [|apply (implements_later t)]].
       apply look_spec in Hlook as [Hbox Hlive].
       rewrite (live_is_stored _ _ _ Hs _ _ Hbox) in Hk; [done|].
       unfold live_at in *. destruct (Hclk 2%nat). lia. }
  destruct (update_request_implements t (clk 0%nat) (clk 1%nat) (clk 2%nat) k data s m)
    as (s1 & Hrun1 & Hs1); [apply Hclk|apply Hmono; lia|done|].
  rewrite (run_bind_ok _ _ _ _ _ Hrun1).
  apply (implements_later _ t') in Hs1; [|apply Hclk].
  destruct (look (clk 2%nat) k m); split; try done. by apply (implements_frame t' s1).
Qed.

Lemma ids_at_retain k account index a x :
  x ∈ ids_at (partial_alter (λ entry, entry ≫= retain_other k) account index) a →
  x ∈ ids_at index a.
Proof.
  unfold ids_at. rewrite lookup_partial_alter. case_decide; [subst|done].
  destruct (index !! a) as [e|]; [|done]. simpl. unfold retain_other.
  destruct (filter _ (multi_ids e)) as [|y l] eqn:Hf; simpl; [by intros ?%not_elem_of_nil|].
  rewrite <-Hf. by intros [_ ?]%list_elem_of_filter.
Qed.

Lemma implements_retain now k account s m :
  implements now s m →
  implements now
    (with_lists id (partial_alter (λ entry, entry ≫= retain_other k) account) s) m.
Proof.
  intros [Hc Hb Hl Hi]. split; try done. intros a x [Hx|Hx]; [by apply Hi; left|].
  apply Hi. right. exact (ids_at_retain _ _ _ _ _ Hx).
Qed.

Lemma disconnect_agrees t t' order t0 t1 account data s m :
  t ≤ t0 → t0 ≤ t1 → t1 ≤ t' → implements t s m →
  agrees t' (disconnect_peer order t0 t1 account data s) (disconnect order account data m).
Proof.
  intros Ht0 Ht1 Ht' Hs%(implements_later t t' _ _ ltac:(lia)).
  unfold disconnect_peer, decode_tx, disconnect.
  destruct (from_slice data) as [tx|]; simpl ok_or; [|by run].
  rewrite run_bind_lift_ok. cbv zeta. run_first. rewrite run_bind_gets.
  apply (implements_retain _ (hex_encode (multi_id tx)) account) in Hs as Hs1.
  set (s1 := with_lists id _ s) in *. unfold drop_contact.
  assert (peers s1 = contacts m) as Hpeers by apply Hs1. rewrite Hpeers.
  destruct (find_target order (contacts m) account) as [[[sender targets] peer]|]; simpl; [|done].
  case_decide as Hone.
  2: { split; [done|]. by apply (implements_contacts t' s1). }
  run_first. run_first. run_first. run_first. simpl in Hpeers.
  case_decide as Hempty.
  - run_first. match goal with |- context [update_metrics t0 t1 ?s2] =>
      destruct (update_metrics_implements t' t0 t1 s2 (with_contacts (peers s2) m))
        as (s3 & -> & Hs3); [lia|by apply (implements_contacts t' s1)|]
    end.
    split; [done|]. simpl in Hs3. by rewrite ?Hpeers in Hs3.
  - rewrite run_bind_skip. match goal with |- context [update_metrics t0 t1 ?s2] =>
      destruct (update_metrics_implements t' t0 t1 s2 (with_contacts (peers s2) m))
        as (s3 & -> & Hs3); [lia|by apply (implements_contacts t' s1)|]
    end.
    split; [done|]. simpl in Hs3. by rewrite ?Hpeers in Hs3.
Qed.

(** Every call is the mailbox's. *)
Lemma call_agrees t t' c s m :
  during t t' c → server_inv s → implements t s m → agrees t' (run_call c s) (mailbox_call c m).
Proof.
  intros Hc Hinv Hs. destruct c; simpl in *; try destruct Hc as [Hclk Hmono].
  - by apply (sender_request_agrees t).
  - by apply (receiver_response_agrees t).
  - by apply (guarded_update_agrees t _ EvSenderConfirmed).
  - by apply (guarded_update_agrees t _ SenderReverted).
  - by apply (guarded_update_agrees t _ TxSubmitted).
  - destruct Hinv as [(_ & _ & _ & Hwf) _]. unfold rpc_fetch_pending_transactions.
    rewrite (run_bind_ok _ _ _ _ _ (fetch_pending_run s address Hwf)).
    split; [done|]. by apply implements_events, (implements_later t).
  - destruct Hmono. by apply (disconnect_agrees t).
  - split; [done|]. by apply implements_metrics, (implements_later t).
Qed.

(** *** Sequences of calls *)

Fixpoint verdicts (cs : list server_call) (s : VaneSwarmServer) : list bool :=
  match cs with
  | [] => []
  | c :: cs => is_ok (run_call c s).1 :: verdicts cs (run_call c s).2
  end.

Fixpoint mailbox_run (cs : list server_call) (m : Mailbox) : list bool * Mailbox :=
  match cs with
  | [] => ([], m)
  | c :: cs =>
      let '(b, m) := mailbox_call c m in
      let '(bs, m) := mailbox_run cs m in
      (b :: bs, m)
  end.

(** Calls one after the other, between two times. *)
Fixpoint timed (t t' : N) (cs : list server_call) : Prop :=
  match cs with
  | [] => t ≤ t'
  | c :: cs => ∃ t1, during t t1 c ∧ timed t1 t' cs
  end.

Lemma run_agrees t t' cs s m :
  timed t t' cs → server_inv s → implements t s m →
  verdicts cs s = (mailbox_run cs m).1 ∧
  implements t' (run_calls cs s) (mailbox_run cs m).2.
Proof.
  revert t s m. induction cs as [|c cs IH]; intros t s m; simpl.
  - intros ? _ ?. split; [done|]. by apply (implements_later t).
  - intros (t1 & Hc & Hcs) Hinv Hs.
    destruct (call_agrees t t1 c s m Hc Hinv Hs) as [Hok Hs1].
    destruct (mailbox_call c m) as [b m1]. simpl in *.
    destruct (IH t1 (run_call c s).2 m1 Hcs (run_call_inv c s Hinv) Hs1) as [Hv Hs2].
    destruct (mailbox_run cs m1) as [bs m2]. simpl in *. by rewrite Hok, Hv.
Qed.

Lemma implements_new t : implements t VaneSwarmServer_new Mailbox_new.
Proof. split; simpl; try done. unfold ids_at. simpl. intros a k [Hk|Hk]; by apply not_elem_of_nil in Hk. Qed.

(** C8: The backend is an ideal mailbox: on every sequence of calls, as long as the clock
    does not go back, it accepts and refuses exactly the calls that the mailbox does, in
    which nothing is ever swept and a transfer is live for thirty minutes from the time it
    was filed.  At the end every live transfer of the mailbox is stored, with the same
    content; nothing is stored that the mailbox has not; and an account is only given
    transfers it was named in, with the mailbox's content. *)
Theorem backend_is_a_mailbox (t t' : N) (cs : list server_call) (Hcs : timed t t' cs) :
  let s := run_calls cs VaneSwarmServer_new in
  let m := (mailbox_run cs Mailbox_new).2 in
  verdicts cs VaneSwarmServer_new = (mailbox_run cs Mailbox_new).1 ∧
  (∀ k e, look t' k m = Some e → requests s !! k = Some e) ∧
  requests s ⊆ box m ∧ peers s = contacts m ∧
  ∀ account, ∃ txs, fetch_pending_transactions account s = (Ok txs, s) ∧
    ∀ tx, tx ∈ txs → ∃ k e, k ∈ named_in m account ∧ box m !! k = Some e ∧
      from_slice (re_data e) = Some tx ∧ k = hex_encode (multi_id tx).
Proof.
  destruct (run_agrees t t' cs VaneSwarmServer_new Mailbox_new Hcs server_new_inv
    (implements_new t)) as [Hv [Hc Hb Hl Hi]].
  cbv zeta. split_and!; try done.
  - intros k e [Hk Hlive]%look_spec. by apply Hl.
  - intros account.
    pose proof (reachable_requests_wf _ (run_calls_reachable cs _ reachable_new)) as Hwf.
    eexists. split; [by apply fetch_pending_run|]. intros tx (k & e & Hk & He & Htx & _)%elem_of_pending.
    destruct (Hwf _ _ He) as (tx' & Htx' & ->). simplify_eq.
    exists (hex_encode (multi_id tx)), e. split_and!; [|by eapply lookup_weaken|done|done].
    apply Hi. by rewrite elem_of_app in Hk.
Qed.
End mailbox.

(** ** Witness *)

Section witness.
#[local] Existing Instances sample_json sample_hex.
#[local] Existing Instance release_profile.

(** Alice announces a transfer, Bob answers, Alice confirms; an hour later it has expired
    and a second confirmation is refused.  Mallory is never accepted. *)
Definition mailbox_calls : list server_call :=
  [CallSenderRequest (at_time 100) "alice" (json_of (tx_ab Genesis));
   CallSenderConfirmation (at_time 150) "mallory" (json_of (tx_ab SenderConfirmed));
   CallReceiverResponse (at_time 200) "bob" (json_of (tx_ab RecvAddrConfirmed));
   CallSenderConfirmation (at_time 300) "alice" (json_of (tx_ab SenderConfirmed));
   CallFetchPending "bob";
   CallSenderConfirmation (at_time 4000) "alice" (json_of (tx_ab SenderConfirmed))].

Lemma mailbox_calls_timed : timed 0 4000 mailbox_calls.
Proof.
  exists 100. split; [split; intros; unfold at_time; lia|].
  exists 150. split; [split; intros; unfold at_time; lia|].
  exists 200. split; [split; intros; unfold at_time; lia|].
  exists 300. split; [split; intros; unfold at_time; lia|].
  exists 300. split; [simpl; lia|].
  exists 4000. split; [split; intros; unfold at_time; lia|]. simpl. lia.
Qed.

Lemma backend_is_a_mailbox_witness :
  verdicts mailbox_calls VaneSwarmServer_new = [true; false; true; true; true; false] ∧
  (mailbox_run mailbox_calls Mailbox_new).1 = [true; false; true; true; true; false] ∧
  requests (run_calls mailbox_calls VaneSwarmServer_new) = ∅.
Proof.
  destruct (backend_is_a_mailbox 0 4000 mailbox_calls mailbox_calls_timed) as (Hv & _).
  split_and!; [rewrite Hv| |]; vm_compute; reflexivity.
Defined.
End witness.
