(* ===== verification/DbInterface.v ===== *)
(** The node's database interface ([DbWorkerInterface] in
    [primitives/src/data_structure.rs]) as a type class, and its abstract
    specification: a database is six optional fields, without tables, keys or
    encodings.  An implementation refines the specification through a
    [DbRefines] instance; what a client of the interface observes is then what
    the specification says. *)

From S2P Require Import Prelude DataStructure.
Open Scope N_scope.

Class DbWorkerInterface (S : Type) := {
  set_user_account : UserAccount → M S unit;
  update_user_account : string → ChainSupported → M S UserAccount;
  get_nonce : M S N;
  set_nonce : N → M S unit;
  db_increment_nonce : M S unit;
  get_user_account : M S UserAccount;
  update_success_tx : DbTxStateMachine → M S unit;
  update_failed_tx : DbTxStateMachine → M S unit;
  get_failed_txs : M S (list DbTxStateMachine);
  get_success_txs : M S (list DbTxStateMachine);
  get_total_value_success : M S N;
  get_total_value_failed : M S N;
  get_all_saved_peers_info : M S (list SavedPeerInfo);
  get_saved_user_peers : string → M S string;
  delete_saved_peer : string → M S unit;
  record_saved_user_peers : string → string → M S unit
}.

(** [TransactionsData] of [db-wasm/src/lib.rs]: the running totals, [i64]s. *)
Record TransactionsData := { success_value : Z; failed_value : Z }.

Definition TransactionsData_zero : TransactionsData :=
  {| success_value := 0; failed_value := 0 |}.

(** [current_data.success_value + tx_state.amount as i64] *)
Definition add_success `{BuildProfile} (amount : N) (d : TransactionsData) :
    outcome TransactionsData :=
  v ← add_i64 (success_value d) (as_i64 amount);
  mret {| success_value := v; failed_value := failed_value d |}.
Definition add_failed `{BuildProfile} (amount : N) (d : TransactionsData) :
    outcome TransactionsData :=
  v ← add_i64 (failed_value d) (as_i64 amount);
  mret {| success_value := success_value d; failed_value := v |}.

Lemma add_success_cases `{BuildProfile} amount d :
  add_success amount d = Panic ArithmeticOverflow ∨ ∃ t, add_success amount d = Ok t.
Proof. unfold add_success, add_i64. repeat case_match; simpl; eauto. Qed.
Lemma add_failed_cases `{BuildProfile} amount d :
  add_failed amount d = Panic ArithmeticOverflow ∨ ∃ t, add_failed amount d = Ok t.
Proof. unfold add_failed, add_i64. repeat case_match; simpl; eauto. Qed.

Definition push_account (account_id : string) (network : ChainSupported) (u : UserAccount) :
    UserAccount :=
  {| multi_addr := multi_addr u; accounts := accounts u ++ [(account_id, network)] |}.

(** The first saved peer that holds [account_id]. *)
Fixpoint peer_of_account (account_id : string) (saved_peers : list SavedPeerInfo) :
    outcome string :=
  match saved_peers with
  | [] => Err "Peer Not found in DB"
  | peer_info :: saved_peers =>
      if contains account_id (spi_account_ids peer_info) then Ok (spi_multi_addr peer_info)
      else peer_of_account account_id saved_peers
  end.

Definition add_account (account_id : string) (p : SavedPeerInfo) : SavedPeerInfo :=
  if contains account_id (spi_account_ids p) then p
  else {| spi_peer_id := spi_peer_id p; spi_multi_addr := spi_multi_addr p;
          spi_account_ids := spi_account_ids p ++ [account_id] |}.

(** Find or create the peer, [multi_addr] being its identifier ([position] is in
    range, so [alter] is the indexed update). *)
Definition record_peer (account_id multi_addr : string) (saved_peers : list SavedPeerInfo) :
    list SavedPeerInfo :=
  match position (λ p, bool_decide (spi_multi_addr p = multi_addr)) saved_peers with
  | Some idx => alter (add_account account_id) idx saved_peers
  | None => saved_peers ++ [{| spi_peer_id := multi_addr; spi_multi_addr := multi_addr;
                               spi_account_ids := [account_id] |}]
  end.

(** [saved_peers.retain(|peer| peer.multi_addr != peer_id)], an error when that
    removes nothing. *)
Definition forget_peer (peer_id : string) (saved_peers : list SavedPeerInfo) :
    outcome (list SavedPeerInfo) :=
  let kept := filter (λ peer, spi_multi_addr peer ≠ peer_id) saved_peers in
  if decide (length kept = length saved_peers)
  then Err ("Peer not found with multi_addr: " +:+ peer_id)
  else Ok kept.

(** ** The specification *)

Record AbsDb := {
  abs_user : option UserAccount;
  abs_nonce : option N;
  abs_success : option (list DbTxStateMachine);
  abs_failed : option (list DbTxStateMachine);
  abs_totals : option TransactionsData;
  abs_peers : option (list SavedPeerInfo)
}.

Definition AbsDb_new : AbsDb := {|
  abs_user := None; abs_nonce := None; abs_success := None; abs_failed := None;
  abs_totals := None; abs_peers := None |}.

Definition abs_set_user u (d : AbsDb) : AbsDb := {|
  abs_user := Some u; abs_nonce := abs_nonce d; abs_success := abs_success d;
  abs_failed := abs_failed d; abs_totals := abs_totals d; abs_peers := abs_peers d |}.
Definition abs_set_nonce n (d : AbsDb) : AbsDb := {|
  abs_user := abs_user d; abs_nonce := Some n; abs_success := abs_success d;
  abs_failed := abs_failed d; abs_totals := abs_totals d; abs_peers := abs_peers d |}.
Definition abs_set_success l (d : AbsDb) : AbsDb := {|
  abs_user := abs_user d; abs_nonce := abs_nonce d; abs_success := Some l;
  abs_failed := abs_failed d; abs_totals := abs_totals d; abs_peers := abs_peers d |}.
Definition abs_set_failed l (d : AbsDb) : AbsDb := {|
  abs_user := abs_user d; abs_nonce := abs_nonce d; abs_success := abs_success d;
  abs_failed := Some l; abs_totals := abs_totals d; abs_peers := abs_peers d |}.
Definition abs_set_totals t (d : AbsDb) : AbsDb := {|
  abs_user := abs_user d; abs_nonce := abs_nonce d; abs_success := abs_success d;
  abs_failed := abs_failed d; abs_totals := Some t; abs_peers := abs_peers d |}.
Definition abs_set_peers p (d : AbsDb) : AbsDb := {|
  abs_user := abs_user d; abs_nonce := abs_nonce d; abs_success := abs_success d;
  abs_failed := abs_failed d; abs_totals := abs_totals d; abs_peers := Some p |}.

Definition totals (d : AbsDb) : TransactionsData := default TransactionsData_zero (abs_totals d).

Definition no_user : string := "user account not found".

#[export] Instance AbsDb_interface `{BuildProfile} : DbWorkerInterface AbsDb := {|
  set_user_account user := modify (abs_set_user user);
  update_user_account account_id network :=
    user_account ← (user ← gets abs_user; lift (ok_or user no_user));
    if contains (account_id, network) (accounts user_account) then mret user_account
    else modify (abs_set_user (push_account account_id network user_account));;
         mret (push_account account_id network user_account);
  get_nonce := gets (λ d, default 0 (abs_nonce d));
  set_nonce nonce := modify (abs_set_nonce nonce);
  db_increment_nonce :=
    current ← gets (λ d, default 0 (abs_nonce d));
    next ← lift (add_u 32 current 1);
    modify (abs_set_nonce next);
  get_user_account := user ← gets abs_user; lift (ok_or user no_user);
  update_success_tx tx_state :=
    new_data ← (d ← gets totals; lift (add_success (db_amount tx_state) d));
    modify (λ d, abs_set_totals new_data
                   (abs_set_success (default [] (abs_success d) ++ [tx_state]) d));
  update_failed_tx tx_state :=
    new_data ← (d ← gets totals; lift (add_failed (db_amount tx_state) d));
    modify (λ d, abs_set_totals new_data
                   (abs_set_failed (default [] (abs_failed d) ++ [tx_state]) d));
  get_failed_txs := gets (λ d, default [] (abs_failed d));
  get_success_txs := gets (λ d, default [] (abs_success d));
  get_total_value_success := data ← gets totals; mret (i64_as_u128 (success_value data));
  get_total_value_failed := data ← gets totals; mret (i64_as_u128 (failed_value data));
  get_all_saved_peers_info := gets (λ d, default [] (abs_peers d));
  get_saved_user_peers account_id :=
    saved_peers ← gets (λ d, default [] (abs_peers d));
    lift (peer_of_account account_id saved_peers);
  delete_saved_peer peer_id :=
    saved_peers ← gets (λ d, default [] (abs_peers d));
    kept ← lift (forget_peer peer_id saved_peers);
    modify (abs_set_peers kept);
  record_saved_user_peers account_id multi_addr :=
    saved_peers ← gets (λ d, default [] (abs_peers d));
    modify (abs_set_peers (record_peer account_id multi_addr saved_peers))
|}.

(** ** What an implementation owes its clients *)

Class DbRefines `{BuildProfile} {S} `{DbWorkerInterface S} (R : S → AbsDb → Prop) : Prop := {
  refines_set_user_account user :
    refines R (set_user_account user) (set_user_account user);
  refines_update_user_account account_id network :
    refines R (update_user_account account_id network) (update_user_account account_id network);
  refines_get_nonce : refines R get_nonce get_nonce;
  refines_set_nonce nonce : refines R (set_nonce nonce) (set_nonce nonce);
  refines_increment_nonce : refines R db_increment_nonce db_increment_nonce;
  refines_get_user_account : refines R get_user_account get_user_account;
  refines_update_success_tx tx : refines R (update_success_tx tx) (update_success_tx tx);
  refines_update_failed_tx tx : refines R (update_failed_tx tx) (update_failed_tx tx);
  refines_get_failed_txs : refines R get_failed_txs get_failed_txs;
  refines_get_success_txs : refines R get_success_txs get_success_txs;
  refines_get_total_value_success : refines R get_total_value_success get_total_value_success;
  refines_get_total_value_failed : refines R get_total_value_failed get_total_value_failed;
  refines_get_all_saved_peers_info :
    refines R get_all_saved_peers_info get_all_saved_peers_info;
  refines_get_saved_user_peers account_id :
    refines R (get_saved_user_peers account_id) (get_saved_user_peers account_id);
  refines_delete_saved_peer peer_id :
    refines R (delete_saved_peer peer_id) (delete_saved_peer peer_id);
  refines_record_saved_user_peers account_id multi_addr :
    refines R (record_saved_user_peers account_id multi_addr)
              (record_saved_user_peers account_id multi_addr)
}.

(** ** Clients *)

Inductive db_call :=
  | CallSetUserAccount (user : UserAccount)
  | CallUpdateUserAccount (account_id : string) (network : ChainSupported)
  | CallGetNonce
  | CallSetNonce (nonce : N)
  | CallIncrementNonce
  | CallGetUserAccount
  | CallUpdateSuccessTx (tx : DbTxStateMachine)
  | CallUpdateFailedTx (tx : DbTxStateMachine)
  | CallGetFailedTxs
  | CallGetSuccessTxs
  | CallGetTotalValueSuccess
  | CallGetTotalValueFailed
  | CallGetAllSavedPeersInfo
  | CallGetSavedUserPeers (account_id : string)
  | CallDeleteSavedPeer (peer_id : string)
  | CallRecordSavedUserPeers (account_id multi_addr : string).

Inductive db_answer :=
  | AnsUnit
  | AnsUser (user : UserAccount)
  | AnsNumber (n : N)
  | AnsTxs (txs : list DbTxStateMachine)
  | AnsPeers (saved_peers : list SavedPeerInfo)
  | AnsAddress (multi_addr : string).

Section clients.
Context {S : Type} {I : DbWorkerInterface S}.

Definition answer {A} (f : A → db_answer) (m : M S A) : M S db_answer := a ← m; mret (f a).

Definition db_run (c : db_call) : M S db_answer :=
  match c with
  | CallSetUserAccount user => answer (λ _, AnsUnit) (set_user_account user)
  | CallUpdateUserAccount a n => answer AnsUser (update_user_account a n)
  | CallGetNonce => answer AnsNumber get_nonce
  | CallSetNonce nonce => answer (λ _, AnsUnit) (set_nonce nonce)
  | CallIncrementNonce => answer (λ _, AnsUnit) db_increment_nonce
  | CallGetUserAccount => answer AnsUser get_user_account
  | CallUpdateSuccessTx tx => answer (λ _, AnsUnit) (update_success_tx tx)
  | CallUpdateFailedTx tx => answer (λ _, AnsUnit) (update_failed_tx tx)
  | CallGetFailedTxs => answer AnsTxs get_failed_txs
  | CallGetSuccessTxs => answer AnsTxs get_success_txs
  | CallGetTotalValueSuccess => answer AnsNumber get_total_value_success
  | CallGetTotalValueFailed => answer AnsNumber get_total_value_failed
  | CallGetAllSavedPeersInfo => answer AnsPeers get_all_saved_peers_info
  | CallGetSavedUserPeers a => answer AnsAddress (get_saved_user_peers a)
  | CallDeleteSavedPeer p => answer (λ _, AnsUnit) (delete_saved_peer p)
  | CallRecordSavedUserPeers a m => answer (λ _, AnsUnit) (record_saved_user_peers a m)
  end.

(** What a client sees of a sequence of calls: the outcomes, until a panic. *)
Fixpoint db_trace (cs : list db_call) (s : S) : list (outcome db_answer) :=
  match cs with
  | [] => []
  | c :: cs =>
      let (o, s') := db_run c s in
      o :: (if panics o then [] else db_trace cs s')
  end.
End clients.

Section refinement.
Context {BP : BuildProfile} {S : Type} {I : DbWorkerInterface S} (R : S → AbsDb → Prop)
  {HR : DbRefines R}.

#[local] Hint Resolve refines_set_user_account refines_update_user_account refines_get_nonce
  refines_set_nonce refines_increment_nonce refines_get_user_account
  refines_update_success_tx refines_update_failed_tx refines_get_failed_txs
  refines_get_success_txs refines_get_total_value_success refines_get_total_value_failed
  refines_get_all_saved_peers_info refines_get_saved_user_peers refines_delete_saved_peer
  refines_record_saved_user_peers : refine.

Lemma db_run_refines c : refines R (db_run c) (db_run c).
Proof. destruct c; apply refines_bind; intros; auto with refine. Qed.

Lemma db_trace_refines cs s d : R s d → db_trace cs s = db_trace cs d.
Proof.
  revert s d. induction cs as [|c cs IH]; intros s d HRsd; simpl; [done|].
  destruct (db_run_refines c s d HRsd) as [Ho Hs].
  destruct (db_run c s) as [o s'], (db_run c d) as [o' d']. simpl in *. subst o'.
  f_equal. destruct (panics o); auto.
Qed.
End refinement.
