(* ===== verification/DbTables.v ===== *)
(** The table layout of [db-wasm/src/lib.rs]: the keys, and the encodings of
    the stored values, shared by the two database workers. *)

From S2P Require Import Prelude DataStructure Codec DbInterface.

Definition USER_ACC_KEY : string := "user_account".
Definition NONCE_KEY : string := "nonce_key".
Definition SUCCESS_TXS_KEY : string := "success_txs_key".
Definition FAILED_TXS_KEY : string := "failed_txs_key".
Definition TXS_DATA_KEY : string := "txs_data_key".
Definition SAVED_PEERS_KEY : string := "saved_peers_key".

(** The encodings the workers use. *)
Class DbCodecs := {
  user_codec :: Codec UserAccount;
  peers_codec :: Codec (list SavedPeerInfo);
  tx_codec :: Codec DbTxStateMachine;
  totals_codec :: Codec TransactionsData
}.

Class DbCodecsLaws `{DbCodecs} : Prop := {
  user_laws :: CodecLaws UserAccount;
  peers_laws :: CodecLaws (list SavedPeerInfo);
  tx_laws :: CodecLaws DbTxStateMachine;
  totals_laws :: CodecLaws TransactionsData
}.

(** [Decode::decode(&mut &v[..]).expect("failed to decode")] *)
Definition decode_expect {A} `{Codec A} (v : bytes) : outcome A :=
  expect (scale_decode v) "failed to decode".
(** [Decode::decode(&mut &v[..]).map_err(..)?] *)
Definition decode_or {A} `{Codec A} (msg : string) (v : bytes) : outcome A :=
  ok_or (scale_decode v) msg.

(** [opt.map(|v| decode(v))] when [decode] may panic. *)
Definition decode_opt {A} (decode : bytes → outcome A) (v : option bytes) :
    outcome (option A) :=
  match v with
  | Some v => a ← decode v; mret (Some a)
  | None => mret None
  end.

(** An optional value, and an optional list of values, as a table stores it. *)
Definition encoded {A} `{Codec A} (o : option A) : option bytes :=
  match o with Some a => Some (scale_encode a) | None => None end.
Definition encode_all {A} `{Codec A} : list A → list bytes := map scale_encode.
Definition encoded_list {A} `{Codec A} (o : option (list A)) : option (list bytes) :=
  match o with Some l => Some (encode_all l) | None => None end.

Section laws.
Context {A} `{CodecLaws A}.

Lemma decode_expect_encode (a : A) : decode_expect (scale_encode a) = Ok a.
Proof. unfold decode_expect. by rewrite scale_decode_encode. Qed.
Lemma decode_or_encode msg (a : A) : decode_or msg (scale_encode a) = Ok a.
Proof. unfold decode_or. by rewrite scale_decode_encode. Qed.
Lemma decode_opt_encode decode (o : option A) :
  (∀ a, decode (scale_encode a) = Ok a) →
  decode_opt decode (encoded o) = Ok o.
Proof. intros Hd. destruct o; simpl; [by rewrite Hd|done]. Qed.
Lemma decode_all_encode decode (l : list A) :
  (∀ a, decode (scale_encode a) = Ok a) →
  mapM decode (encode_all l) = Ok l.
Proof.
  intros Hd. induction l as [|a l IH]; [done|].
  change (mapM decode (encode_all (a :: l))) with
    (x ← decode (scale_encode a); k ← mapM decode (encode_all l); mret (x :: k)).
  by rewrite Hd, IH.
Qed.
Lemma encoded_list_snoc (o : option (list A)) (a : A) :
  default [] (encoded_list o) ++ [scale_encode a] = encode_all (default [] o ++ [a]).
Proof. unfold encode_all. rewrite map_app. by destruct o. Qed.
End laws.

(** A concrete layout. *)
#[export] Instance TransactionsData_stream : Stream TransactionsData.
Proof.
  refine (stream_inj' (λ d, (success_value d, failed_value d))
    (λ '(s, f), {| success_value := s; failed_value := f |}) _).
  by intros [].
Defined.

Definition sample_codecs : DbCodecs := {|
  user_codec := stream_codec; peers_codec := stream_codec;
  tx_codec := stream_codec; totals_codec := stream_codec |}.

Lemma sample_codecs_laws : @DbCodecsLaws sample_codecs.
Proof. split; apply stream_codec_laws. Qed.
