(* ===== verification/InMemoryDb.v ===== *)
(** The in-memory database worker ([InMemoryDbWorker] in [db-wasm/src/lib.rs])
    and its refinement of the interface's specification.

    The worker's [RefCell]s are never borrowed across a statement, so they are
    plain fields.  A [HashMap] table is a [gmap]. *)

From S2P Require Import Prelude DataStructure Codec DbInterface DbTables.
Open Scope N_scope.

Record InMemoryDbWorker := {
  user_accounts : gmap string bytes;
  transactions_data : gmap string bytes;
  transactions : gmap string (list bytes);
  nonces : gmap string N;
  saved_peers : gmap string bytes
}.

Definition InMemoryDbWorker_initialize_db_client (file_url : string) :
    outcome InMemoryDbWorker :=
  Ok {| user_accounts := ∅; transactions_data := ∅; transactions := ∅; nonces := ∅;
        saved_peers := ∅ |}.

Definition with_user_accounts f (w : InMemoryDbWorker) : InMemoryDbWorker := {|
  user_accounts := f (user_accounts w); transactions_data := transactions_data w;
  transactions := transactions w; nonces := nonces w; saved_peers := saved_peers w |}.
Definition with_transactions_data f (w : InMemoryDbWorker) : InMemoryDbWorker := {|
  user_accounts := user_accounts w; transactions_data := f (transactions_data w);
  transactions := transactions w; nonces := nonces w; saved_peers := saved_peers w |}.
Definition with_transactions f (w : InMemoryDbWorker) : InMemoryDbWorker := {|
  user_accounts := user_accounts w; transactions_data := transactions_data w;
  transactions := f (transactions w); nonces := nonces w; saved_peers := saved_peers w |}.
Definition with_nonces f (w : InMemoryDbWorker) : InMemoryDbWorker := {|
  user_accounts := user_accounts w; transactions_data := transactions_data w;
  transactions := transactions w; nonces := f (nonces w); saved_peers := saved_peers w |}.
Definition with_saved_peers f (w : InMemoryDbWorker) : InMemoryDbWorker := {|
  user_accounts := user_accounts w; transactions_data := transactions_data w;
  transactions := transactions w; nonces := nonces w; saved_peers := f (saved_peers w) |}.

Section worker.
Context `{DbCodecs, BuildProfile}.
Abbreviation W := (M InMemoryDbWorker).

(** The stored user account, decoded. *)
Definition mem_get_user_account : W UserAccount :=
  v ← gets (λ w, user_accounts w !! USER_ACC_KEY);
  user ← lift (decode_opt decode_expect v);
  lift (ok_or user no_user).

Definition mem_set_user_account (user : UserAccount) : W unit :=
  modify (with_user_accounts (<[USER_ACC_KEY := scale_encode user]>)).

Definition mem_update_user_account (account_id : string) (network : ChainSupported) :
    W UserAccount :=
  user_account ← mem_get_user_account;
  if contains (account_id, network) (accounts user_account) then mret user_account
  else
    let user_account := push_account account_id network user_account in
    modify (with_user_accounts (<[USER_ACC_KEY := scale_encode user_account]>));;
    mret user_account.

Definition mem_get_nonce : W N := gets (λ w, default 0 (nonces w !! NONCE_KEY)).

Definition mem_increment_nonce : W unit :=
  current ← mem_get_nonce;
  next ← lift (add_u 32 current 1);
  modify (with_nonces (<[NONCE_KEY := next]>)).

Definition mem_set_nonce (nonce : N) : W unit :=
  modify (with_nonces (<[NONCE_KEY := nonce]>)).

Definition mem_get_all_saved_peers_info : W (list SavedPeerInfo) :=
  encoded ← gets (λ w, saved_peers w !! SAVED_PEERS_KEY);
  peers ← lift (decode_opt (decode_or "Failed to decode saved peers") encoded);
  mret (default [] peers).

Definition mem_get_saved_user_peers (account_id : string) : W string :=
  peers ← mem_get_all_saved_peers_info;
  lift (peer_of_account account_id peers).

Definition mem_delete_saved_peer (peer_id : string) : W unit :=
  peers ← mem_get_all_saved_peers_info;
  kept ← lift (forget_peer peer_id peers);
  modify (with_saved_peers (<[SAVED_PEERS_KEY := scale_encode kept]>)).

Definition mem_record_saved_user_peers (account_id multi_addr : string) : W unit :=
  peers ← mem_get_all_saved_peers_info;
  modify (with_saved_peers
    (<[SAVED_PEERS_KEY := scale_encode (record_peer account_id multi_addr peers)]>)).

(** [TXS_DATA_KEY]'s totals, zero when absent. *)
Definition mem_totals : W TransactionsData :=
  v ← gets (λ w, transactions_data w !! TXS_DATA_KEY);
  d ← lift (decode_opt decode_expect v);
  mret (default TransactionsData_zero d).

(** Append to one of the two transaction lists. *)
Definition mem_push_tx (key : string) (tx_state : DbTxStateMachine) : W unit :=
  let tx_data := scale_encode tx_state in
  saved ← gets (λ w, transactions w !! key);
  let to_store := match saved with
                  | Some saved_txs => saved_txs ++ [tx_data]
                  | None => [tx_data]
                  end in
  modify (with_transactions (<[key := to_store]>)).

Definition mem_update_success_tx (tx_state : DbTxStateMachine) : W unit :=
  mem_push_tx SUCCESS_TXS_KEY tx_state;;
  current_data ← mem_totals;
  new_data ← lift (add_success (db_amount tx_state) current_data);
  modify (with_transactions_data (<[TXS_DATA_KEY := scale_encode new_data]>)).

Definition mem_update_failed_tx (tx_state : DbTxStateMachine) : W unit :=
  mem_push_tx FAILED_TXS_KEY tx_state;;
  current_data ← mem_totals;
  new_data ← lift (add_failed (db_amount tx_state) current_data);
  modify (with_transactions_data (<[TXS_DATA_KEY := scale_encode new_data]>)).

Definition mem_get_txs (key : string) : W (list DbTxStateMachine) :=
  stored ← gets (λ w, default [] (transactions w !! key));
  lift (mapM decode_expect stored).
Definition mem_get_failed_txs : W (list DbTxStateMachine) := mem_get_txs FAILED_TXS_KEY.
Definition mem_get_success_txs : W (list DbTxStateMachine) := mem_get_txs SUCCESS_TXS_KEY.

Definition mem_get_total_value_success : W N :=
  data ← mem_totals; mret (i64_as_u128 (success_value data)).
Definition mem_get_total_value_failed : W N :=
  data ← mem_totals; mret (i64_as_u128 (failed_value data)).

#[export] Instance InMemoryDbWorker_interface : DbWorkerInterface InMemoryDbWorker := {|
  set_user_account := mem_set_user_account;
  update_user_account := mem_update_user_account;
  get_nonce := mem_get_nonce;
  set_nonce := mem_set_nonce;
  db_increment_nonce := mem_increment_nonce;
  get_user_account := mem_get_user_account;
  update_success_tx := mem_update_success_tx;
  update_failed_tx := mem_update_failed_tx;
  get_failed_txs := mem_get_failed_txs;
  get_success_txs := mem_get_success_txs;
  get_total_value_success := mem_get_total_value_success;
  get_total_value_failed := mem_get_total_value_failed;
  get_all_saved_peers_info := mem_get_all_saved_peers_info;
  get_saved_user_peers := mem_get_saved_user_peers;
  delete_saved_peer := mem_delete_saved_peer;
  record_saved_user_peers := mem_record_saved_user_peers
|}.

(** ** Refinement *)

Record mem_abs (w : InMemoryDbWorker) (d : AbsDb) : Prop := {
  mem_abs_user : user_accounts w !! USER_ACC_KEY = encoded (abs_user d);
  mem_abs_nonce : nonces w !! NONCE_KEY = abs_nonce d;
  mem_abs_success :
    transactions w !! SUCCESS_TXS_KEY = encoded_list (abs_success d);
  mem_abs_failed :
    transactions w !! FAILED_TXS_KEY = encoded_list (abs_failed d);
  mem_abs_totals : transactions_data w !! TXS_DATA_KEY = encoded (abs_totals d);
  mem_abs_peers : saved_peers w !! SAVED_PEERS_KEY = encoded (abs_peers d)
}.

Lemma mem_abs_initial file_url w :
  InMemoryDbWorker_initialize_db_client file_url = Ok w → mem_abs w AbsDb_new.
Proof. by intros [= <-]. Qed.

Context `{!DbCodecsLaws}.

Lemma mem_user_read w d :
  mem_abs w d → mem_get_user_account w = (ok_or (abs_user d) no_user, w).
Proof.
  intros Hr. unfold mem_get_user_account. rewrite run_bind_gets, (mem_abs_user w d Hr).
  rewrite decode_opt_encode by apply decode_expect_encode. reflexivity.
Qed.
Lemma mem_peers_read w d :
  mem_abs w d → mem_get_all_saved_peers_info w = (Ok (default [] (abs_peers d)), w).
Proof.
  intros Hr. unfold mem_get_all_saved_peers_info.
  rewrite run_bind_gets, (mem_abs_peers w d Hr).
  rewrite decode_opt_encode by (intros; apply decode_or_encode). reflexivity.
Qed.
Lemma mem_totals_read w d : mem_abs w d → mem_totals w = (Ok (totals d), w).
Proof.
  intros Hr. unfold mem_totals. rewrite run_bind_gets, (mem_abs_totals w d Hr).
  rewrite decode_opt_encode by apply decode_expect_encode. reflexivity.
Qed.
Lemma mem_txs_read w key (o : option (list DbTxStateMachine)) :
  transactions w !! key = encoded_list o →
  mem_get_txs key w = (Ok (default [] o), w).
Proof.
  intros Hr. unfold mem_get_txs. rewrite run_bind_gets, Hr. destruct o as [l|]; [|done].
  change (default [] (encoded_list (Some l))) with (encode_all l).
  by rewrite decode_all_encode by apply decode_expect_encode.
Qed.

Lemma mem_reads {A} (m : W A) (m' : M AbsDb A) (f : AbsDb → outcome A) :
  (∀ w d, mem_abs w d → m w = (f d, w)) → (∀ d, m' d = (f d, d)) →
  refines mem_abs m m'.
Proof. intros Hm Hm'. apply refines_read. intros w d Hr. by rewrite (Hm w d Hr), Hm'. Qed.

Lemma mem_set_user_refines user :
  refines mem_abs (mem_set_user_account user) (modify (abs_set_user user)).
Proof.
  apply refines_modify. intros w d []. split; simpl; auto. by rewrite lookup_insert_eq.
Qed.
Lemma mem_set_nonce_refines nonce :
  refines mem_abs (mem_set_nonce nonce) (modify (abs_set_nonce nonce)).
Proof.
  apply refines_modify. intros w d []. split; simpl; auto. by rewrite lookup_insert_eq.
Qed.
Lemma mem_set_peers_refines peers :
  refines mem_abs
    (modify (with_saved_peers (<[SAVED_PEERS_KEY := scale_encode peers]>)))
    (modify (abs_set_peers peers)).
Proof.
  apply refines_modify. intros w d []. split; simpl; auto. by rewrite lookup_insert_eq.
Qed.

(** Both lists grow the same way; the totals are computed in between. *)
Lemma mem_push_run key tx w :
  mem_push_tx key tx w =
    (Ok (), with_transactions
              (<[key := default [] (transactions w !! key) ++ [scale_encode tx]]>) w).
Proof. unfold mem_push_tx. run. by destruct (transactions w !! key). Qed.

Lemma mem_push_totals key (tx : DbTxStateMachine) w d :
  mem_abs w d →
  mem_totals (with_transactions (<[key := default [] (transactions w !! key) ++
    [scale_encode tx]]>) w) =
  (Ok (totals d), with_transactions (<[key := default [] (transactions w !! key) ++
    [scale_encode tx]]>) w).
Proof.
  intros Hr. unfold mem_totals. rewrite run_bind_gets. simpl transactions_data.
  rewrite (mem_abs_totals w d Hr).
  rewrite decode_opt_encode by apply decode_expect_encode. reflexivity.
Qed.

Lemma mem_success_refines tx :
  refines mem_abs (mem_update_success_tx tx) (update_success_tx tx).
Proof.
  intros w d Hr. unfold mem_update_success_tx. rewrite (run_bind_ok _ _ _ _ _ (mem_push_run _ _ _)).
  rewrite (run_bind_ok _ _ _ _ _ (mem_push_totals _ _ _ _ Hr)).
  cbn [update_success_tx AbsDb_interface]. rewrite run_bind_bind, run_bind_gets.
  destruct (add_success_cases (db_amount tx) (totals d)) as [->|[t ->]]; [done|].
  split; [reflexivity|]. intros _. destruct Hr. split; simpl; auto.
  - rewrite lookup_insert_eq, mem_abs_success0. simpl. f_equal. apply encoded_list_snoc.
  - by rewrite lookup_insert_ne by discriminate.
  - by rewrite lookup_insert_eq.
Qed.

Lemma mem_failed_refines tx :
  refines mem_abs (mem_update_failed_tx tx) (update_failed_tx tx).
Proof.
  intros w d Hr. unfold mem_update_failed_tx. rewrite (run_bind_ok _ _ _ _ _ (mem_push_run _ _ _)).
  rewrite (run_bind_ok _ _ _ _ _ (mem_push_totals _ _ _ _ Hr)).
  cbn [update_failed_tx AbsDb_interface]. rewrite run_bind_bind, run_bind_gets.
  destruct (add_failed_cases (db_amount tx) (totals d)) as [->|[t ->]]; [done|].
  split; [reflexivity|]. intros _. destruct Hr. split; simpl; auto.
  - by rewrite lookup_insert_ne by discriminate.
  - rewrite lookup_insert_eq, mem_abs_failed0. simpl. f_equal. apply encoded_list_snoc.
  - by rewrite lookup_insert_eq.
Qed.

Lemma mem_user_refines :
  refines mem_abs mem_get_user_account (user ← gets abs_user; lift (ok_or user no_user)).
Proof. by apply (mem_reads _ _ _ mem_user_read). Qed.
Lemma mem_peers_refines :
  refines mem_abs mem_get_all_saved_peers_info (gets (λ d, default [] (abs_peers d))).
Proof. by apply (mem_reads _ _ (λ d, Ok _) mem_peers_read). Qed.
Lemma mem_totals_refines : refines mem_abs mem_totals (gets totals).
Proof. by apply (mem_reads _ _ (λ d, Ok _) mem_totals_read). Qed.
Lemma mem_nonce_refines :
  refines mem_abs mem_get_nonce (gets (λ d, default 0 (abs_nonce d))).
Proof. apply refines_gets. intros w d Hr. by rewrite (mem_abs_nonce w d Hr). Qed.

#[local] Hint Resolve mem_set_user_refines mem_set_nonce_refines mem_set_peers_refines
  mem_success_refines mem_failed_refines mem_user_refines mem_peers_refines
  mem_nonce_refines : refine.

#[export] Instance InMemoryDbWorker_refines : DbRefines mem_abs.
Proof.
  split; cbn -[mbind];
    lazymatch goal with
    | |- ∀ _ _, refines _ _ _ => intros account_id x
    | |- ∀ _, refines _ _ _ => intros x
    | |- _ => idtac
    end; auto with refine.
  - apply refines_bind; [apply mem_user_refines|intros u].
    apply refines_if; [apply refines_ret|].
    apply refines_bind; [apply mem_set_user_refines|intros ?; apply refines_ret].
  - apply refines_bind; [apply mem_nonce_refines|intros current].
    apply refines_bind; [apply refines_lift|apply mem_set_nonce_refines].
  - apply (mem_reads _ _ (λ d, Ok (default [] (abs_failed d)))); [|done].
    intros w d Hr. by apply mem_txs_read, mem_abs_failed.
  - apply (mem_reads _ _ (λ d, Ok (default [] (abs_success d)))); [|done].
    intros w d Hr. by apply mem_txs_read, mem_abs_success.
  - apply refines_bind; [apply mem_totals_refines|intros data; apply refines_ret].
  - apply refines_bind; [apply mem_totals_refines|intros data; apply refines_ret].
  - apply refines_bind; [apply mem_peers_refines|intros peers; apply refines_lift].
  - apply refines_bind; [apply mem_peers_refines|intros peers].
    apply refines_bind; [apply refines_lift|intros kept; apply mem_set_peers_refines].
  - apply refines_bind; [apply mem_peers_refines|intros peers; apply mem_set_peers_refines].
Qed.
End worker.
