(* ===== verification/Redb.v ===== *)
(** The two libraries below the browser database worker, as parameters: the
    embedded database [redb] (typed tables, read snapshots, write transactions)
    and the origin-private file system [opfs].

    [RedbLaws] states what [redb] documents: a read transaction sees the
    committed contents, a write transaction sees its own writes, a commit
    publishes them, a transaction that is dropped changes nothing.  Every
    operation may also fail; [RedbReliable] says that none does.  [MemRedb] is a
    concrete database that satisfies both. *)

From S2P Require Import Prelude.

(** The table schemas of [db-wasm/src/lib.rs], by the type of their values. *)
Inductive TableDefinition : Type → Type :=
  | USER_ACCOUNT_TABLE : TableDefinition bytes
  | TRANSACTIONS_DATA_TABLE : TableDefinition bytes
  | TRANSACTION_TABLE : TableDefinition (list bytes)
  | NONCE_TABLE : TableDefinition N
  | SAVED_PEERS_TABLE : TableDefinition bytes.

Class Redb := {
  Database : Type;
  ReadTransaction : Type;
  WriteTransaction : Type;
  (** opens the database of the file, or initialises a new one *)
  redb_create : string → outcome Database;
  begin_read : Database → outcome ReadTransaction;
  begin_write : Database → outcome WriteTransaction;
  read_open_table {V} : TableDefinition V → ReadTransaction → outcome unit;
  read_get {V} : TableDefinition V → string → ReadTransaction → outcome (option V);
  write_open_table {V} : TableDefinition V → M WriteTransaction unit;
  write_get {V} : TableDefinition V → string → M WriteTransaction (option V);
  write_insert {V} : TableDefinition V → string → V → M WriteTransaction unit;
  commit : WriteTransaction → outcome Database
}.

(** The contents of a database: a table that was never opened for writing does
    not exist. *)
Record Tables := {
  user_account_table : option (gmap string bytes);
  transactions_data_table : option (gmap string bytes);
  transaction_table : option (gmap string (list bytes));
  nonce_table : option (gmap string N);
  saved_peers_table : option (gmap string bytes)
}.

Definition no_tables : Tables := {|
  user_account_table := None; transactions_data_table := None; transaction_table := None;
  nonce_table := None; saved_peers_table := None |}.

Definition table {V} (t : TableDefinition V) : Tables → option (gmap string V) :=
  match t with
  | USER_ACCOUNT_TABLE => user_account_table
  | TRANSACTIONS_DATA_TABLE => transactions_data_table
  | TRANSACTION_TABLE => transaction_table
  | NONCE_TABLE => nonce_table
  | SAVED_PEERS_TABLE => saved_peers_table
  end.

Definition set_table {V} (t : TableDefinition V) : gmap string V → Tables → Tables :=
  match t with
  | USER_ACCOUNT_TABLE => λ m ts, {|
      user_account_table := Some m; transactions_data_table := transactions_data_table ts;
      transaction_table := transaction_table ts; nonce_table := nonce_table ts;
      saved_peers_table := saved_peers_table ts |}
  | TRANSACTIONS_DATA_TABLE => λ m ts, {|
      user_account_table := user_account_table ts; transactions_data_table := Some m;
      transaction_table := transaction_table ts; nonce_table := nonce_table ts;
      saved_peers_table := saved_peers_table ts |}
  | TRANSACTION_TABLE => λ m ts, {|
      user_account_table := user_account_table ts;
      transactions_data_table := transactions_data_table ts;
      transaction_table := Some m; nonce_table := nonce_table ts;
      saved_peers_table := saved_peers_table ts |}
  | NONCE_TABLE => λ m ts, {|
      user_account_table := user_account_table ts;
      transactions_data_table := transactions_data_table ts;
      transaction_table := transaction_table ts; nonce_table := Some m;
      saved_peers_table := saved_peers_table ts |}
  | SAVED_PEERS_TABLE => λ m ts, {|
      user_account_table := user_account_table ts;
      transactions_data_table := transactions_data_table ts;
      transaction_table := transaction_table ts; nonce_table := nonce_table ts;
      saved_peers_table := Some m |}
  end.

Definition open_in {V} (t : TableDefinition V) (ts : Tables) : Tables :=
  set_table t (default ∅ (table t ts)) ts.

(** What successful operations do. *)
Class RedbLaws `{Redb} := {
  contents : Database → Tables;
  snapshot : ReadTransaction → Tables;
  view : WriteTransaction → Tables;
  begin_read_snapshot db r : begin_read db = Ok r → snapshot r = contents db;
  begin_write_view db w : begin_write db = Ok w → view w = contents db;
  read_get_snapshot {V} (t : TableDefinition V) k r m o :
    table t (snapshot r) = Some m → read_get t k r = Ok o → o = m !! k;
  write_open_view {V} (t : TableDefinition V) w w' :
    write_open_table t w = (Ok (), w') → view w' = open_in t (view w);
  write_get_view {V} (t : TableDefinition V) k w w' m o :
    table t (view w) = Some m → write_get t k w = (Ok o, w') → o = m !! k ∧ view w' = view w;
  write_insert_view {V} (t : TableDefinition V) k (v : V) w w' m :
    table t (view w) = Some m → write_insert t k v w = (Ok (), w') →
    view w' = set_table t (<[k := v]> m) (view w);
  commit_contents w db : commit w = Ok db → contents db = view w
}.

(** No storage fault: an operation fails only when its table does not exist. *)
Class RedbReliable `{RedbLaws} : Prop := {
  begin_read_ok db : ∃ r, begin_read db = Ok r;
  begin_write_ok db : ∃ w, begin_write db = Ok w;
  read_open_ok {V} (t : TableDefinition V) r :
    is_Some (table t (snapshot r)) → read_open_table t r = Ok ();
  read_get_ok {V} (t : TableDefinition V) k r :
    is_Some (table t (snapshot r)) → ∃ o, read_get t k r = Ok o;
  write_open_ok {V} (t : TableDefinition V) w : ∃ w', write_open_table t w = (Ok (), w');
  write_get_ok {V} (t : TableDefinition V) k w :
    is_Some (table t (view w)) → ∃ o w', write_get t k w = (Ok o, w');
  write_insert_ok {V} (t : TableDefinition V) k (v : V) w :
    is_Some (table t (view w)) → ∃ w', write_insert t k v w = (Ok (), w');
  commit_ok w : ∃ db, commit w = Ok db
}.

(** ** The file system *)

Class Opfs := {
  DirectoryHandle : Type;
  FileHandle : Type;
  WritableFileStream : Type;
  app_specific_dir : outcome DirectoryHandle;
  get_file_handle_with_options : string → DirectoryHandle → outcome FileHandle;
  file_read : FileHandle → outcome bytes;
  create_writable_with_options : FileHandle → outcome WritableFileStream;
  write_at_cursor_pos : bytes → WritableFileStream → outcome WritableFileStream;
  stream_close : WritableFileStream → outcome FileHandle
}.

(** ** A concrete database and a concrete file *)

Definition mem_with {V A} (t : TableDefinition V) (f : gmap string V → A * gmap string V) :
    M Tables A := λ ts,
  match table t ts with
  | Some m => (Ok (f m).1, set_table t (f m).2 ts)
  | None => (Err "table does not exist", ts)
  end.

(** [stored] is what the database file holds when it is opened. *)
Definition MemRedb (stored : Tables) : Redb := {|
  Database := Tables; ReadTransaction := Tables; WriteTransaction := Tables;
  redb_create _ := Ok stored;
  begin_read db := Ok db;
  begin_write db := Ok db;
  read_open_table V t ts :=
    match table t ts with Some _ => Ok () | None => Err "table does not exist" end;
  read_get V t k ts :=
    match table t ts with Some m => Ok (m !! k) | None => Err "table does not exist" end;
  write_open_table V t := modify (open_in t);
  write_get V t k := λ ts,
    match table t ts with
    | Some m => (Ok (m !! k), ts) | None => (Err "table does not exist", ts)
    end;
  write_insert V t k v := mem_with t (λ m, ((), <[k := v]> m));
  commit ts := Ok ts
|}.

Definition MemRedb_laws stored : @RedbLaws (MemRedb stored).
Proof.
  refine {| contents := (λ ts : @Database (MemRedb stored), ts : Tables);
            snapshot := (λ ts : @ReadTransaction (MemRedb stored), ts : Tables);
            view := (λ ts : @WriteTransaction (MemRedb stored), ts : Tables) |}; simpl.
  - congruence.
  - congruence.
  - intros V t k r m o Hm. rewrite Hm. congruence.
  - intros V t w w' [= <-]. done.
  - intros V t k w w' m o Hm. rewrite Hm. intros [= <- <-]. done.
  - intros V t k v w w' m Hm. unfold mem_with. rewrite Hm. by intros [= <-].
  - congruence.
Defined.

Lemma MemRedb_reliable stored : @RedbReliable (MemRedb stored) (MemRedb_laws stored).
Proof.
  split; simpl; eauto.
  - by intros V t r [m ->].
  - intros V t k r [m ->]. eauto.
  - intros V t k w [m ->]. eauto.
  - intros V t k v w [m Hm]. unfold mem_with. rewrite Hm. eauto.
Qed.

(** A file of a directory, holding its bytes. *)
Definition MemOpfs (stored : bytes) : Opfs := {|
  DirectoryHandle := unit; FileHandle := bytes; WritableFileStream := bytes;
  app_specific_dir := Ok ();
  get_file_handle_with_options _ _ := Ok stored;
  file_read f := Ok f;
  create_writable_with_options _ := Ok [];
  write_at_cursor_pos data s := Ok (s ++ data);
  stream_close s := Ok s
|}.
