(* ===== verification/OpfsDb.v ===== *)
(** The browser database worker ([OpfsRedbWorker] in [db-wasm/src/lib.rs]) over
    [redb] and [opfs], and its refinement of the interface's specification when
    the storage raises no fault.

    An operation of the worker is a read of a fresh snapshot, or a body run in a
    write transaction that is committed when the body succeeds and dropped
    otherwise. *)

From S2P Require Import Prelude DataStructure Codec DbInterface DbTables Redb.
Open Scope N_scope.

(** [r.map_err(f)] *)
Definition map_err {S A} (f : string → string) (m : M S A) : M S A := λ s,
  match m s with
  | (Err e, s') => (Err (f e), s')
  | r => r
  end.
Definition map_err_o {A} (f : string → string) (o : outcome A) : outcome A :=
  match o with Err e => Err (f e) | o => o end.

Section worker.
Context `{Redb, Opfs, DbCodecs, BuildProfile}.

Record OpfsFileSystem := { directory : DirectoryHandle; db_file : FileHandle }.

Definition OpfsFileSystem_new (db_name : string) : outcome OpfsFileSystem :=
  dir ← map_err_o (λ e, "Failed to get app-specific directory: " +:+ e) app_specific_dir;
  file ← map_err_o (λ e, "Failed to get/create database file: " +:+ e)
           (get_file_handle_with_options db_name dir);
  mret {| directory := dir; db_file := file |}.

Definition get_db_bytes (fs : OpfsFileSystem) : outcome bytes :=
  map_err_o (λ e, "Failed to read database file: " +:+ e) (file_read (db_file fs)).

Definition save_db_bytes (data : bytes) (fs : OpfsFileSystem) : outcome OpfsFileSystem :=
  writer ← map_err_o (λ e, "Failed to create writable: " +:+ e)
             (create_writable_with_options (db_file fs));
  writer ← map_err_o (λ e, "Failed to write database: " +:+ e)
             (write_at_cursor_pos data writer);
  file ← map_err_o (λ e, "Failed to close writer: " +:+ e) (stream_close writer);
  mret {| directory := directory fs; db_file := file |}.

Record OpfsRedbWorker := { db : Database; opfs_fs : OpfsFileSystem }.

Definition with_db (d : Database) (w : OpfsRedbWorker) : OpfsRedbWorker :=
  {| db := d; opfs_fs := opfs_fs w |}.
Definition with_fs (fs : OpfsFileSystem) (w : OpfsRedbWorker) : OpfsRedbWorker :=
  {| db := db w; opfs_fs := fs |}.

(** Open the five tables for writing. *)
Definition open_all : M WriteTransaction unit :=
  write_open_table USER_ACCOUNT_TABLE;;
  write_open_table TRANSACTIONS_DATA_TABLE;;
  write_open_table TRANSACTION_TABLE;;
  write_open_table NONCE_TABLE;;
  write_open_table SAVED_PEERS_TABLE.

Definition initialized (d : Database) : outcome Database :=
  write_txn ← begin_write d;
  match open_all write_txn with
  | (Ok _, write_txn) => commit write_txn
  | (Err e, _) => Err e
  | (Panic p, _) => Panic p
  | (Parked, _) => Parked
  end.

(** [OpfsRedbWorker::new]: both branches create the database; the bytes read
    from the file are only tested for emptiness. *)
Definition OpfsRedbWorker_new (db_name : string) : outcome OpfsRedbWorker :=
  fs ← OpfsFileSystem_new db_name;
  db_bytes ← get_db_bytes fs;
  d ← (if decide (db_bytes = [])
       then d ← redb_create "vane_virtual.db"; initialized d
       else d ← redb_create "vane_virtual.db"; initialized d);
  mret {| db := d; opfs_fs := fs |}.

Abbreviation W := (M OpfsRedbWorker).

Definition persist_to_opfs : W unit := λ w,
  match save_db_bytes (as_bytes "REDB_DATABASE_EXISTS") (opfs_fs w) with
  | Ok fs => (Ok (), with_fs fs w)
  | Err e => (Err e, w)
  | Panic p => (Panic p, w)
  | Parked => (Parked, w)
  end.

(** [begin_read], [open_table], [get]. *)
Definition read_value {V} (t : TableDefinition V) (key : string)
    (on_get_error : string → string) : W (option V) :=
  d ← gets db;
  read_txn ← lift (begin_read d);
  lift (read_open_table t read_txn);;
  lift (map_err_o on_get_error (read_get t key read_txn)).

(** [begin_write], a body, [commit]; the transaction is dropped on any other exit. *)
Definition in_write {A} (body : M WriteTransaction A) : W A :=
  d ← gets db;
  write_txn ← lift (begin_write d);
  match body write_txn with
  | (Ok a, write_txn) =>
      d ← lift (commit write_txn);
      modify (with_db d);;
      mret a
  | (Err e, _) => fail e
  | (Panic p, _) => crash p
  | (Parked, _) => lift Parked
  end.

Definition opfs_set_user_account (user : UserAccount) : W unit :=
  in_write (
    write_open_table USER_ACCOUNT_TABLE;;
    write_insert USER_ACCOUNT_TABLE USER_ACC_KEY (scale_encode user)).

Definition opfs_get_user_account : W UserAccount :=
  v ← read_value USER_ACCOUNT_TABLE USER_ACC_KEY id;
  user ← lift (decode_opt decode_expect v);
  lift (ok_or user no_user).

Definition opfs_update_user_account (account_id : string) (network : ChainSupported) :
    W UserAccount :=
  existing_user_account ← opfs_get_user_account;
  if contains (account_id, network) (accounts existing_user_account)
  then mret existing_user_account
  else in_write (
    write_open_table USER_ACCOUNT_TABLE;;
    v ← write_get USER_ACCOUNT_TABLE USER_ACC_KEY;
    user ← lift (decode_opt decode_expect v);
    user_account ← lift (ok_or user no_user);
    let user_account := push_account account_id network user_account in
    write_insert USER_ACCOUNT_TABLE USER_ACC_KEY (scale_encode user_account);;
    mret user_account).

Definition opfs_get_nonce : W N :=
  v ← read_value NONCE_TABLE NONCE_KEY id;
  mret (default 0 v).

Definition opfs_increment_nonce : W unit :=
  in_write (
    write_open_table NONCE_TABLE;;
    v ← write_get NONCE_TABLE NONCE_KEY;
    next ← lift (add_u 32 (default 0 v) 1);
    write_insert NONCE_TABLE NONCE_KEY next).

Definition opfs_set_nonce (nonce : N) : W unit :=
  in_write (
    write_open_table NONCE_TABLE;;
    write_insert NONCE_TABLE NONCE_KEY nonce).

Definition opfs_get_all_saved_peers_info : W (list SavedPeerInfo) :=
  encoded ← read_value SAVED_PEERS_TABLE SAVED_PEERS_KEY id;
  peers ← lift (decode_opt (decode_or "Failed to decode saved peers") encoded);
  mret (default [] peers).

Definition opfs_get_saved_user_peers (account_id : string) : W string :=
  peers ← opfs_get_all_saved_peers_info;
  lift (peer_of_account account_id peers).

Definition store_peers (peers : list SavedPeerInfo) : W unit :=
  in_write (
    write_open_table SAVED_PEERS_TABLE;;
    write_insert SAVED_PEERS_TABLE SAVED_PEERS_KEY (scale_encode peers)).

Definition opfs_delete_saved_peer (peer_id : string) : W unit :=
  peers ← opfs_get_all_saved_peers_info;
  kept ← lift (forget_peer peer_id peers);
  store_peers kept.

Definition opfs_record_saved_user_peers (account_id multi_addr : string) : W unit :=
  peers ← opfs_get_all_saved_peers_info;
  store_peers (record_peer account_id multi_addr peers).

(** The body of [update_success_tx] and [update_failed_tx], up to the key, the
    total that grows and the text of one error. *)
Definition update_tx (key err : string)
    (add : N → TransactionsData → outcome TransactionsData) (tx_state : DbTxStateMachine) :
    W unit :=
  in_write (
    write_open_table TRANSACTION_TABLE;;
    write_open_table TRANSACTIONS_DATA_TABLE;;
    let tx_data := scale_encode tx_state in
    get_txs ← map_err (λ e, err +:+ e) (write_get TRANSACTION_TABLE key);
    let to_store := match get_txs with
                    | Some saved_txs => saved_txs ++ [tx_data]
                    | None => [tx_data]
                    end in
    write_insert TRANSACTION_TABLE key to_store;;
    v ← write_get TRANSACTIONS_DATA_TABLE TXS_DATA_KEY;
    d ← lift (decode_opt decode_expect v);
    new_data ← lift (add (db_amount tx_state) (default TransactionsData_zero d));
    write_insert TRANSACTIONS_DATA_TABLE TXS_DATA_KEY (scale_encode new_data)).

Definition opfs_update_success_tx (tx_state : DbTxStateMachine) : W unit :=
  update_tx SUCCESS_TXS_KEY "error on success txs:" add_success tx_state.
Definition opfs_update_failed_tx (tx_state : DbTxStateMachine) : W unit :=
  update_tx FAILED_TXS_KEY "error on failed txs:" add_failed tx_state.

Definition opfs_get_failed_txs : W (list DbTxStateMachine) :=
  values ← read_value TRANSACTION_TABLE FAILED_TXS_KEY (λ e, "failed to get failed_txs: " +:+ e);
  lift (mapM (decode_or "failed to decode") (default [] values)).
Definition opfs_get_success_txs : W (list DbTxStateMachine) :=
  values ← read_value TRANSACTION_TABLE SUCCESS_TXS_KEY
             (λ e, "failed to get success_txs: " +:+ e);
  lift (mapM (decode_or "failed to decode") (default [] values)).

Definition opfs_totals : W TransactionsData :=
  v ← read_value TRANSACTIONS_DATA_TABLE TXS_DATA_KEY id;
  d ← lift (decode_opt decode_expect v);
  mret (default TransactionsData_zero d).
Definition opfs_get_total_value_success : W N :=
  data ← opfs_totals; mret (i64_as_u128 (success_value data)).
Definition opfs_get_total_value_failed : W N :=
  data ← opfs_totals; mret (i64_as_u128 (failed_value data)).

#[export] Instance OpfsRedbWorker_interface : DbWorkerInterface OpfsRedbWorker := {|
  set_user_account := opfs_set_user_account;
  update_user_account := opfs_update_user_account;
  get_nonce := opfs_get_nonce;
  set_nonce := opfs_set_nonce;
  db_increment_nonce := opfs_increment_nonce;
  get_user_account := opfs_get_user_account;
  update_success_tx := opfs_update_success_tx;
  update_failed_tx := opfs_update_failed_tx;
  get_failed_txs := opfs_get_failed_txs;
  get_success_txs := opfs_get_success_txs;
  get_total_value_success := opfs_get_total_value_success;
  get_total_value_failed := opfs_get_total_value_failed;
  get_all_saved_peers_info := opfs_get_all_saved_peers_info;
  get_saved_user_peers := opfs_get_saved_user_peers;
  delete_saved_peer := opfs_delete_saved_peer;
  record_saved_user_peers := opfs_record_saved_user_peers
|}.
End worker.

Arguments OpfsFileSystem {_}.
Arguments OpfsRedbWorker {_ _}.
