(* ===== verification/OpfsRefinement.v ===== *)
(** The browser database worker implements the interface's specification: every
    operation that does not succeed leaves the database as it was, whatever the
    storage does; and with a storage that raises no fault each operation has the
    outcome of the specification. *)

From S2P Require Import Prelude DataStructure Codec DbInterface DbTables Redb OpfsDb.
Open Scope N_scope.

(** [m] has the outcome [o], and takes [P] to [Q]. *)
Definition yields {S A} (P : S → Prop) (m : M S A) (o : outcome A) (Q : S → Prop) : Prop :=
  ∀ s, P s → (m s).1 = o ∧ Q (m s).2.

Section yields.
Context {S : Type}.

Lemma yields_bind {A B} (P Q R : S → Prop) (m : M S A) (f : A → M S B) a o :
  yields P m (Ok a) Q → yields Q (f a) o R → yields P (m ≫= f) o R.
Proof.
  intros Hm Hf s Hs. destruct (Hm s Hs) as [Ho Hq]. unfold mbind, M_bind.
  destruct (m s) as [o' s']. simpl in *. subst o'. by apply Hf.
Qed.
Lemma yields_ret {A} (P : S → Prop) (a : A) : yields P (mret a) (Ok a) P.
Proof. by intros s Hs. Qed.
Lemma yields_lift {A} (P : S → Prop) (o : outcome A) : yields P (lift o) o P.
Proof. by intros s Hs. Qed.
Lemma yields_map_err {A} (P Q : S → Prop) f (m : M S A) a :
  yields P m (Ok a) Q → yields P (map_err f m) (Ok a) Q.
Proof.
  intros Hm s Hs. destruct (Hm s Hs) as [Ho Hq]. unfold map_err.
  destruct (m s) as [o' s']. simpl in *. by subst o'.
Qed.
(** Nothing follows a computation that fails. *)
Lemma yields_bind_panic {A B} (P Q : S → Prop) (m : M S A) (f : A → M S B) p :
  yields P m (Panic p) Q → yields P (m ≫= f) (Panic p) Q.
Proof.
  intros Hm s Hs. destruct (Hm s Hs) as [Ho Hq]. unfold mbind, M_bind.
  destruct (m s) as [o' s']. simpl in *. by subst o'.
Qed.
End yields.

Section refinement.
Context {RD : Redb} {OF : Opfs} {DC : DbCodecs} {BP : BuildProfile} {RL : RedbLaws}.

(** The transaction sees [ts]. *)
Definition sees (ts : Tables) (w : WriteTransaction) : Prop := view w = ts.

(** *** Atomicity *)

(** Whatever its outcome, [m] leaves the contents alone unless it succeeds. *)
Definition atomic {A} (m : M OpfsRedbWorker A) : Prop :=
  ∀ w, is_ok (m w).1 = false → contents (db (m w).2) = contents (db w).
(** [m] does not change the worker. *)
Definition read_only {A} (m : M OpfsRedbWorker A) : Prop := ∀ w, (m w).2 = w.

Lemma read_only_ret {A} (a : A) : read_only (mret a).
Proof. by intros w. Qed.
Lemma read_only_lift {A} (o : outcome A) : read_only (lift o).
Proof. by intros w. Qed.
Lemma read_only_gets {A} (f : OpfsRedbWorker → A) : read_only (gets f).
Proof. by intros w. Qed.
Lemma read_only_bind {A B} (m : M OpfsRedbWorker A) (f : A → M OpfsRedbWorker B) :
  read_only m → (∀ a, read_only (f a)) → read_only (m ≫= f).
Proof.
  intros Hm Hf w. specialize (Hm w). unfold mbind, M_bind.
  destruct (m w) as [[] w']; simpl in *; subst; auto. apply Hf.
Qed.
Lemma read_only_atomic {A} (m : M OpfsRedbWorker A) : read_only m → atomic m.
Proof. intros Hm w _. by rewrite Hm. Qed.
Lemma atomic_bind {A B} (m : M OpfsRedbWorker A) (f : A → M OpfsRedbWorker B) :
  read_only m → (∀ a, atomic (f a)) → atomic (m ≫= f).
Proof.
  intros Hm Hf w. specialize (Hm w). unfold mbind, M_bind.
  destruct (m w) as [[] w']; simpl in *; subst; auto. apply Hf.
Qed.
Lemma atomic_if {A} (b : bool) (m n : M OpfsRedbWorker A) :
  atomic m → atomic n → atomic (if b then m else n).
Proof. by destruct b. Qed.
Lemma in_write_atomic {A} (body : M WriteTransaction A) : atomic (in_write body).
Proof.
  intros w. unfold in_write. rewrite run_bind_gets.
  destruct (begin_write (db w)) as [txn| | |]; [|done..]. rewrite run_bind_lift_ok.
  destruct (body txn) as [[a| | |] txn']; [|done..].
  by destruct (commit txn').
Qed.
Lemma read_value_read_only {V} (t : TableDefinition V) key f : read_only (read_value t key f).
Proof.
  apply read_only_bind; [apply read_only_gets|intros d].
  repeat (apply read_only_bind; [apply read_only_lift|intros ?]). apply read_only_lift.
Qed.

Create HintDb atomic discriminated.
#[local] Hint Resolve read_only_ret read_only_lift read_only_gets read_only_bind
  read_only_atomic atomic_bind atomic_if in_write_atomic read_value_read_only : atomic.

(** C34: no operation of the browser worker leaves a trace when it does not
    succeed: an error of the storage, an undecodable value, a missing account, an
    arithmetic panic or a failed commit leaves the contents of all five tables as
    they were. *)
Theorem opfs_operations_atomic (c : db_call) (w : OpfsRedbWorker) :
  is_ok (db_run c w).1 = false → contents (db (db_run c w).2) = contents (db w).
Proof.
  revert w. change (atomic (db_run c)).
  assert (∀ A (f : A → db_answer) (m : M OpfsRedbWorker A), atomic m → atomic (answer f m))
    as Hans.
  { intros A f m Hm w. specialize (Hm w). unfold answer, mbind, M_bind.
    by destruct (m w) as [[] w']. }
  destruct c; apply Hans; cbn -[mbind];
    unfold opfs_update_user_account, opfs_get_user_account, opfs_get_nonce,
      opfs_get_failed_txs, opfs_get_success_txs, opfs_get_total_value_success,
      opfs_get_total_value_failed, opfs_totals, opfs_get_saved_user_peers,
      opfs_delete_saved_peer, opfs_record_saved_user_peers, opfs_get_all_saved_peers_info;
    eauto 10 with atomic.
Qed.

(** *** Refinement *)

(** The tables are all there and hold [d]. *)
Definition holds {V} (t : TableDefinition V) (key : string) (v : option V) (ts : Tables) :
    Prop := ∃ m, table t ts = Some m ∧ m !! key = v.

Record tables_abs (ts : Tables) (d : AbsDb) : Prop := {
  tables_abs_user : holds USER_ACCOUNT_TABLE USER_ACC_KEY (encoded (abs_user d)) ts;
  tables_abs_nonce : holds NONCE_TABLE NONCE_KEY (abs_nonce d) ts;
  tables_abs_success :
    holds TRANSACTION_TABLE SUCCESS_TXS_KEY (encoded_list (abs_success d)) ts;
  tables_abs_failed :
    holds TRANSACTION_TABLE FAILED_TXS_KEY (encoded_list (abs_failed d)) ts;
  tables_abs_totals : holds TRANSACTIONS_DATA_TABLE TXS_DATA_KEY (encoded (abs_totals d)) ts;
  tables_abs_peers : holds SAVED_PEERS_TABLE SAVED_PEERS_KEY (encoded (abs_peers d)) ts
}.

Definition opfs_abs (w : OpfsRedbWorker) (d : AbsDb) : Prop :=
  tables_abs (contents (db w)) d.

Context {RR : RedbReliable} {DL : DbCodecsLaws}.

Lemma holds_open {V} (t : TableDefinition V) key v ts : holds t key v ts → open_in t ts = ts.
Proof.
  intros (m & Hm & _). unfold open_in. rewrite Hm. simpl.
  destruct t, ts; simpl in *; by subst.
Qed.

Lemma yields_open {V} (t : TableDefinition V) key v ts :
  holds t key v ts → yields (sees ts) (write_open_table t) (Ok ()) (sees ts).
Proof.
  intros Hh w Hw. destruct (write_open_ok t w) as [w' Hopen]. rewrite Hopen. simpl.
  split; [done|]. unfold sees in *. rewrite (write_open_view _ _ _ Hopen), Hw.
  by eapply holds_open.
Qed.

Lemma yields_get {V} (t : TableDefinition V) key v ts :
  holds t key v ts → yields (sees ts) (write_get t key) (Ok v) (sees ts).
Proof.
  intros (m & Hm & Hv) w Hw. unfold sees in *. subst ts.
  destruct (write_get_ok t key w) as (o & w' & Hget); [by eexists|].
  destruct (write_get_view _ _ _ _ _ _ Hm Hget) as [-> Hview]. rewrite Hget. simpl.
  by subst v.
Qed.

(** [ts] with one value stored. *)
Definition put {V} (t : TableDefinition V) (key : string) (v : V) (ts : Tables) : Tables :=
  set_table t (<[key := v]> (default ∅ (table t ts))) ts.

Lemma yields_insert {V} (t : TableDefinition V) key v0 v ts :
  holds t key v0 ts →
  yields (sees ts) (write_insert t key v) (Ok ()) (sees (put t key v ts)).
Proof.
  intros (m & Hm & _) w Hw. unfold sees in *. subst ts.
  destruct (write_insert_ok t key v w) as (w' & Hins); [by eexists|].
  rewrite Hins. simpl. split; [done|].
  rewrite (write_insert_view _ _ _ _ _ _ Hm Hins). unfold put. by rewrite Hm.
Qed.

Lemma in_write_run {A} (body : M WriteTransaction A) o ts w :
  yields (sees (contents (db w))) body o (sees ts) →
  (in_write body w).1 = o ∧
  (is_ok o = true → contents (db (in_write body w).2) = ts) ∧
  (is_ok o = false → (in_write body w).2 = w).
Proof.
  intros Hb. unfold in_write. rewrite run_bind_gets.
  destruct (begin_write_ok (db w)) as [txn Htxn]. rewrite Htxn, run_bind_lift_ok.
  destruct (Hb txn (begin_write_view _ _ Htxn)) as [Ho Hts].
  destruct (body txn) as [o' txn']. simpl in Ho, Hts. subst o'.
  destruct o as [a| | |]; [|done..].
  destruct (commit_ok txn') as [d Hd]. rewrite Hd, run_bind_lift_ok. simpl.
  split_and!; [done| |done]. intros _. by rewrite (commit_contents _ _ Hd).
Qed.

(** A write transaction whose body succeeds. *)
Lemma in_write_ok {A} (body : M WriteTransaction A) (a : A) ts w d :
  yields (sees (contents (db w))) body (Ok a) (sees ts) → tables_abs ts d →
  (in_write body w).1 = Ok a ∧ opfs_abs (in_write body w).2 d.
Proof.
  intros Hb Habs. destruct (in_write_run _ _ _ w Hb) as (Ho & Hts & _).
  split; [exact Ho|]. unfold opfs_abs. by rewrite Hts.
Qed.

Lemma read_value_run {V} (t : TableDefinition V) key f v w :
  holds t key v (contents (db w)) → read_value t key f w = (Ok v, w).
Proof.
  intros (m & Hm & Hv). unfold read_value. rewrite run_bind_gets.
  destruct (begin_read_ok (db w)) as [r Hr]. rewrite Hr, run_bind_lift_ok.
  pose proof (begin_read_snapshot _ _ Hr) as Hsnap. rewrite <-Hsnap in Hm.
  rewrite read_open_ok by eauto. rewrite run_bind_lift_ok.
  destruct (read_get_ok t key r) as [o Ho]; [eauto|]. rewrite Ho.
  rewrite <-(read_get_snapshot _ _ _ _ _ Hm Ho) in Hv. by subst.
Qed.

(** *** The reads *)

Lemma opfs_user_read w d :
  opfs_abs w d → opfs_get_user_account w = (ok_or (abs_user d) no_user, w).
Proof.
  intros Hr. unfold opfs_get_user_account.
  rewrite (run_bind_ok _ _ _ _ _ (read_value_run _ _ _ _ _ (tables_abs_user _ _ Hr))).
  rewrite decode_opt_encode by apply decode_expect_encode. reflexivity.
Qed.
Lemma opfs_nonce_read w d : opfs_abs w d → opfs_get_nonce w = (Ok (default 0 (abs_nonce d)), w).
Proof.
  intros Hr. unfold opfs_get_nonce.
  by rewrite (run_bind_ok _ _ _ _ _ (read_value_run _ _ _ _ _ (tables_abs_nonce _ _ Hr))).
Qed.
Lemma opfs_peers_read w d :
  opfs_abs w d → opfs_get_all_saved_peers_info w = (Ok (default [] (abs_peers d)), w).
Proof.
  intros Hr. unfold opfs_get_all_saved_peers_info.
  rewrite (run_bind_ok _ _ _ _ _ (read_value_run _ _ _ _ _ (tables_abs_peers _ _ Hr))).
  rewrite decode_opt_encode by (intros; apply decode_or_encode). reflexivity.
Qed.
Lemma opfs_totals_read w d : opfs_abs w d → opfs_totals w = (Ok (totals d), w).
Proof.
  intros Hr. unfold opfs_totals.
  rewrite (run_bind_ok _ _ _ _ _ (read_value_run _ _ _ _ _ (tables_abs_totals _ _ Hr))).
  rewrite decode_opt_encode by apply decode_expect_encode. reflexivity.
Qed.
Lemma opfs_txs_decode (o : option (list DbTxStateMachine)) :
  mapM (decode_or "failed to decode") (default [] (encoded_list o)) = Ok (default [] o).
Proof.
  destruct o as [l|]; [|done]. change (default [] (encoded_list (Some l))) with (encode_all l).
  apply decode_all_encode. intros; apply decode_or_encode.
Qed.
Lemma opfs_failed_read w d :
  opfs_abs w d → opfs_get_failed_txs w = (Ok (default [] (abs_failed d)), w).
Proof.
  intros Hr. unfold opfs_get_failed_txs.
  rewrite (run_bind_ok _ _ _ _ _ (read_value_run _ _ _ _ _ (tables_abs_failed _ _ Hr))).
  by rewrite opfs_txs_decode.
Qed.
Lemma opfs_success_read w d :
  opfs_abs w d → opfs_get_success_txs w = (Ok (default [] (abs_success d)), w).
Proof.
  intros Hr. unfold opfs_get_success_txs.
  rewrite (run_bind_ok _ _ _ _ _ (read_value_run _ _ _ _ _ (tables_abs_success _ _ Hr))).
  by rewrite opfs_txs_decode.
Qed.

Lemma opfs_reads {A} (m : M OpfsRedbWorker A) (m' : M AbsDb A) (f : AbsDb → outcome A) :
  (∀ w d, opfs_abs w d → m w = (f d, w)) → (∀ d, m' d = (f d, d)) →
  refines opfs_abs m m'.
Proof. intros Hm Hm'. apply refines_read. intros w d Hr. by rewrite (Hm w d Hr), Hm'. Qed.

(** *** The writes *)

Lemma holds_put_same {V} (t : TableDefinition V) key (v : V) ts :
  holds t key (Some v) (put t key v ts).
Proof.
  exists (<[key := v]> (default ∅ (table t ts))). unfold put.
  split; [by destruct t|]. apply lookup_insert_eq.
Qed.

Lemma set_user_abs user ts d :
  tables_abs ts d →
  tables_abs (put USER_ACCOUNT_TABLE USER_ACC_KEY (scale_encode user) ts) (abs_set_user user d).
Proof. intros []. split; try assumption. apply holds_put_same. Qed.
Lemma set_nonce_abs nonce ts d :
  tables_abs ts d → tables_abs (put NONCE_TABLE NONCE_KEY nonce ts) (abs_set_nonce nonce d).
Proof. intros []. split; try assumption. apply holds_put_same. Qed.
Lemma set_peers_abs peers ts d :
  tables_abs ts d →
  tables_abs (put SAVED_PEERS_TABLE SAVED_PEERS_KEY (scale_encode peers) ts)
    (abs_set_peers peers d).
Proof. intros []. split; try assumption. apply holds_put_same. Qed.

Lemma opfs_set_user_refines user :
  refines opfs_abs (opfs_set_user_account user) (modify (abs_set_user user)).
Proof.
  intros w d Hr. pose proof (tables_abs_user _ _ Hr) as Hh.
  destruct (in_write_ok (A := unit) (write_open_table USER_ACCOUNT_TABLE;;
    write_insert USER_ACCOUNT_TABLE USER_ACC_KEY (scale_encode user)) () _ w _
    ltac:(eapply yields_bind; [by eapply yields_open|by eapply yields_insert])
    (set_user_abs user _ _ Hr)) as [Ho Ha].
  by split.
Qed.
Lemma opfs_set_nonce_refines nonce :
  refines opfs_abs (opfs_set_nonce nonce) (modify (abs_set_nonce nonce)).
Proof.
  intros w d Hr. pose proof (tables_abs_nonce _ _ Hr) as Hh.
  destruct (in_write_ok (A := unit) (write_open_table NONCE_TABLE;;
    write_insert NONCE_TABLE NONCE_KEY nonce) () _ w _
    ltac:(eapply yields_bind; [by eapply yields_open|by eapply yields_insert])
    (set_nonce_abs nonce _ _ Hr)) as [Ho Ha].
  by split.
Qed.
Lemma store_peers_refines peers :
  refines opfs_abs (store_peers peers) (modify (abs_set_peers peers)).
Proof.
  intros w d Hr. pose proof (tables_abs_peers _ _ Hr) as Hh.
  destruct (in_write_ok (A := unit) (write_open_table SAVED_PEERS_TABLE;;
    write_insert SAVED_PEERS_TABLE SAVED_PEERS_KEY (scale_encode peers)) () _ w _
    ltac:(eapply yields_bind; [by eapply yields_open|by eapply yields_insert])
    (set_peers_abs peers _ _ Hr)) as [Ho Ha].
  by split.
Qed.

(** A write transaction whose body panics: the same panic, nothing to relate. *)
Lemma in_write_panics {A} (body : M WriteTransaction A) p ts w :
  yields (sees (contents (db w))) body (Panic p) (sees ts) → (in_write body w).1 = Panic p.
Proof. intros Hb. by destruct (in_write_run _ _ _ w Hb) as (Ho & _). Qed.

Lemma opfs_increment_refines : refines opfs_abs opfs_increment_nonce db_increment_nonce.
Proof.
  intros w d Hr. pose proof (tables_abs_nonce _ _ Hr) as Hh. unfold opfs_increment_nonce.
  cbn -[mbind]. rewrite run_bind_gets.
  set (body := write_open_table NONCE_TABLE;; _).
  assert (add_u 32 (default 0 (abs_nonce d)) 1 = Panic ArithmeticOverflow ∨
    ∃ n, add_u 32 (default 0 (abs_nonce d)) 1 = Ok n) as [Hadd|[n Hadd]]
    by (unfold add_u; repeat case_match; eauto); rewrite Hadd.
  - rewrite (in_write_panics body ArithmeticOverflow (contents (db w)) w); [done|].
    eapply yields_bind; [by eapply yields_open|].
    eapply yields_bind; [by eapply yields_get|]. rewrite Hadd.
    apply (yields_bind_panic _ (sees (contents (db w)))), yields_lift.
  - destruct (in_write_ok body () (put NONCE_TABLE NONCE_KEY n (contents (db w))) w
      (abs_set_nonce n d)) as [Ho Ha]; [|by apply set_nonce_abs|by split].
    eapply yields_bind; [by eapply yields_open|].
    eapply yields_bind; [by eapply yields_get|]. rewrite Hadd.
    eapply yields_bind; [apply yields_lift|]. by eapply yields_insert.
Qed.

Lemma opfs_update_user_refines account_id network :
  refines opfs_abs (opfs_update_user_account account_id network)
    (update_user_account account_id network).
Proof.
  intros w d Hr. unfold opfs_update_user_account. cbn -[mbind].
  pose proof (tables_abs_user _ _ Hr) as Hh.
  pose proof (opfs_user_read _ _ Hr) as Hread.
  rewrite run_bind_bind, run_bind_gets.
  destruct (abs_user d) as [u|] eqn:Hu; simpl ok_or in *;
    [|by rewrite (run_bind_err _ _ _ _ _ Hread)].
  rewrite (run_bind_ok _ _ _ _ _ Hread), run_bind_lift_ok.
  destruct (contains _ _); [by split|].
  set (body := write_open_table USER_ACCOUNT_TABLE;; _).
  destruct (in_write_ok body (push_account account_id network u)
    (put USER_ACCOUNT_TABLE USER_ACC_KEY
      (scale_encode (push_account account_id network u)) (contents (db w))) w
    (abs_set_user (push_account account_id network u) d)) as [Ho Ha];
    [|by apply set_user_abs|by split].
  eapply yields_bind; [by eapply yields_open|].
  eapply yields_bind; [by eapply yields_get|].
  rewrite decode_opt_encode by apply decode_expect_encode.
  do 2 (eapply yields_bind; [apply yields_lift|]).
  eapply yields_bind; [by eapply yields_insert|apply yields_ret].
Qed.

(** [update_tx] on a list [o] with new totals [t]. *)
Lemma update_tx_run key err add tx o w d ts :
  opfs_abs w d →
  holds TRANSACTION_TABLE key (encoded_list o) (contents (db w)) →
  ts = put TRANSACTION_TABLE key (encode_all (default [] o ++ [tx])) (contents (db w)) →
  match add (db_amount tx) (totals d) with
  | Ok t =>
      (update_tx key err add tx w).1 = Ok () ∧
      contents (db (update_tx key err add tx w).2) =
        put TRANSACTIONS_DATA_TABLE TXS_DATA_KEY (scale_encode t) ts
  | Panic p => (update_tx key err add tx w).1 = Panic p
  | _ => True
  end.
Proof.
  intros Hr Htx ->. pose proof (tables_abs_totals _ _ Hr) as Hd.
  set (ts := put TRANSACTION_TABLE _ _ _).
  assert (holds TRANSACTIONS_DATA_TABLE TXS_DATA_KEY (encoded (abs_totals d)) ts) as Hd'
    by exact Hd.
  unfold update_tx. set (body := write_open_table TRANSACTION_TABLE;; _).
  assert (∀ r P, yields (sees ts)
    (new_data ← lift (add (db_amount tx) (totals d));
     write_insert TRANSACTIONS_DATA_TABLE TXS_DATA_KEY (scale_encode new_data)) r P →
    yields (sees (contents (db w))) body r P) as Hbody.
  { intros r P Hrest.
    eapply yields_bind; [by eapply yields_open|].
    eapply yields_bind; [by eapply yields_open|].
    eapply yields_bind; [by eapply yields_map_err, yields_get|].
    eapply yields_bind; [by eapply yields_insert|].
    replace (put _ key _ _) with ts
      by (subst ts; unfold encode_all; rewrite map_app; by destruct o).
    eapply yields_bind; [by eapply yields_get|].
    rewrite decode_opt_encode by apply decode_expect_encode.
    eapply yields_bind; [apply yields_lift|exact Hrest]. }
  destruct (add (db_amount tx) (totals d)) as [t| |p|]; [|done| |done].
  - edestruct (in_write_run body (Ok ())) as (Ho & Hc & _); [|split; [exact Ho|by apply Hc]].
    apply Hbody. eapply yields_bind; [apply yields_lift|by eapply yields_insert].
  - eapply in_write_panics, Hbody.
    apply (yields_bind_panic _ (sees ts)), yields_lift.
Qed.

Lemma push_success_abs tx t ts d :
  tables_abs ts d →
  tables_abs (put TRANSACTIONS_DATA_TABLE TXS_DATA_KEY (scale_encode t)
      (put TRANSACTION_TABLE SUCCESS_TXS_KEY
         (encode_all (default [] (abs_success d) ++ [tx])) ts))
    (abs_set_totals t (abs_set_success (default [] (abs_success d) ++ [tx]) d)).
Proof.
  intros []. split; try assumption; [by apply (holds_put_same TRANSACTION_TABLE)| |].
  - destruct tables_abs_failed0 as (m & Hm & Hl).
    eexists. split; [reflexivity|]. simpl in Hm |- *. rewrite Hm. simpl.
    by rewrite lookup_insert_ne by discriminate.
  - apply (holds_put_same TRANSACTIONS_DATA_TABLE).
Qed.
Lemma push_failed_abs tx t ts d :
  tables_abs ts d →
  tables_abs (put TRANSACTIONS_DATA_TABLE TXS_DATA_KEY (scale_encode t)
      (put TRANSACTION_TABLE FAILED_TXS_KEY
         (encode_all (default [] (abs_failed d) ++ [tx])) ts))
    (abs_set_totals t (abs_set_failed (default [] (abs_failed d) ++ [tx]) d)).
Proof.
  intros []. split; try assumption; [|by apply (holds_put_same TRANSACTION_TABLE)|].
  - destruct tables_abs_success0 as (m & Hm & Hl).
    eexists. split; [reflexivity|]. simpl in Hm |- *. rewrite Hm. simpl.
    by rewrite lookup_insert_ne by discriminate.
  - apply (holds_put_same TRANSACTIONS_DATA_TABLE).
Qed.

Lemma opfs_success_refines tx :
  refines opfs_abs (opfs_update_success_tx tx) (update_success_tx tx).
Proof.
  intros w d Hr. pose proof (update_tx_run SUCCESS_TXS_KEY "error on success txs:" add_success
    tx _ w d _ Hr (tables_abs_success _ _ Hr) eq_refl) as Hrun.
  unfold opfs_update_success_tx, opfs_update_failed_tx. cbn -[mbind update_tx].
  rewrite run_bind_bind, run_bind_gets.
  destruct (add_success_cases (db_amount tx) (totals d)) as [Hadd|[t Hadd]];
    rewrite Hadd in Hrun |- *; [by rewrite Hrun|].
  destruct Hrun as [Ho Hc]. split; [exact Ho|]. intros _. unfold opfs_abs. rewrite Hc.
  by apply push_success_abs.
Qed.
Lemma opfs_failed_refines tx :
  refines opfs_abs (opfs_update_failed_tx tx) (update_failed_tx tx).
Proof.
  intros w d Hr. pose proof (update_tx_run FAILED_TXS_KEY "error on failed txs:" add_failed
    tx _ w d _ Hr (tables_abs_failed _ _ Hr) eq_refl) as Hrun.
  unfold opfs_update_success_tx, opfs_update_failed_tx. cbn -[mbind update_tx].
  rewrite run_bind_bind, run_bind_gets.
  destruct (add_failed_cases (db_amount tx) (totals d)) as [Hadd|[t Hadd]];
    rewrite Hadd in Hrun |- *; [by rewrite Hrun|].
  destruct Hrun as [Ho Hc]. split; [exact Ho|]. intros _. unfold opfs_abs. rewrite Hc.
  by apply push_failed_abs.
Qed.

#[local] Hint Resolve opfs_set_user_refines opfs_set_nonce_refines store_peers_refines
  opfs_increment_refines opfs_update_user_refines opfs_success_refines opfs_failed_refines
  : refine.

Lemma opfs_peers_refines :
  refines opfs_abs opfs_get_all_saved_peers_info (gets (λ d, default [] (abs_peers d))).
Proof. by apply (opfs_reads _ _ (λ d, Ok _) opfs_peers_read). Qed.
Lemma opfs_totals_refines : refines opfs_abs opfs_totals (gets totals).
Proof. by apply (opfs_reads _ _ (λ d, Ok _) opfs_totals_read). Qed.

#[export] Instance OpfsRedbWorker_refines : DbRefines opfs_abs.
Proof.
  split; try (intros; eauto with refine; fail); cbn -[mbind].
  - by apply (opfs_reads _ _ (λ d, Ok _) opfs_nonce_read).
  - by apply (opfs_reads _ _ _ opfs_user_read).
  - by apply (opfs_reads _ _ (λ d, Ok _) opfs_failed_read).
  - by apply (opfs_reads _ _ (λ d, Ok _) opfs_success_read).
  - apply refines_bind; [apply opfs_totals_refines|intros data; apply refines_ret].
  - apply refines_bind; [apply opfs_totals_refines|intros data; apply refines_ret].
  - apply opfs_peers_refines.
  - intros account_id.
    apply refines_bind; [apply opfs_peers_refines|intros peers; apply refines_lift].
  - intros peer_id. apply refines_bind; [apply opfs_peers_refines|intros peers].
    apply refines_bind; [apply refines_lift|intros kept; apply store_peers_refines].
  - intros account_id multi_addr.
    apply refines_bind; [apply opfs_peers_refines|intros peers; apply store_peers_refines].
Qed.
End refinement.
