(* ===== verification/DbWorker.v ===== *)
(** The database a node holds ([DbWorker] in [db-wasm/src/lib.rs]): one of the
    two workers.  What its clients can rely on, whichever it is. *)

From S2P Require Import Prelude DataStructure Codec DbInterface DbTables InMemoryDb Redb.
From S2P Require Import OpfsDb OpfsRefinement.
Open Scope N_scope.

Section worker.
Context {RD : Redb} {OF : Opfs} {DC : DbCodecs} {BP : BuildProfile}.

Inductive DbWorker :=
  | Opfs_ (worker : OpfsRedbWorker)
  | InMemory (worker : InMemoryDbWorker).

Definition initialize_opfs_db_client (file_url : string) : outcome DbWorker :=
  worker ← OpfsRedbWorker_new file_url; mret (Opfs_ worker).
Definition initialize_inmemory_db_client (file_url : string) : outcome DbWorker :=
  worker ← InMemoryDbWorker_initialize_db_client file_url; mret (InMemory worker).
Definition initialize_db_client (file_url : string) : outcome DbWorker :=
  initialize_inmemory_db_client file_url.

(** [match self { Opfs(worker) => .., InMemory(worker) => .. }] *)
Definition on_worker {A} (opfs : M OpfsRedbWorker A) (memory : M InMemoryDbWorker A) :
    M DbWorker A := λ w,
  match w with
  | Opfs_ worker => let (o, worker) := opfs worker in (o, Opfs_ worker)
  | InMemory worker => let (o, worker) := memory worker in (o, InMemory worker)
  end.

#[export] Instance DbWorker_interface : DbWorkerInterface DbWorker := {|
  set_user_account user := on_worker (set_user_account user) (set_user_account user);
  update_user_account account_id network :=
    on_worker (update_user_account account_id network) (update_user_account account_id network);
  get_nonce := on_worker get_nonce get_nonce;
  set_nonce nonce := on_worker (set_nonce nonce) (set_nonce nonce);
  db_increment_nonce := on_worker db_increment_nonce db_increment_nonce;
  get_user_account := on_worker get_user_account get_user_account;
  update_success_tx tx := on_worker (update_success_tx tx) (update_success_tx tx);
  update_failed_tx tx := on_worker (update_failed_tx tx) (update_failed_tx tx);
  get_failed_txs := on_worker get_failed_txs get_failed_txs;
  get_success_txs := on_worker get_success_txs get_success_txs;
  get_total_value_success := on_worker get_total_value_success get_total_value_success;
  get_total_value_failed := on_worker get_total_value_failed get_total_value_failed;
  get_all_saved_peers_info := on_worker get_all_saved_peers_info get_all_saved_peers_info;
  get_saved_user_peers account_id :=
    on_worker (get_saved_user_peers account_id) (get_saved_user_peers account_id);
  delete_saved_peer peer_id := on_worker (delete_saved_peer peer_id) (delete_saved_peer peer_id);
  record_saved_user_peers account_id multi_addr :=
    on_worker (record_saved_user_peers account_id multi_addr)
              (record_saved_user_peers account_id multi_addr)
|}.

Context {DL : DbCodecsLaws}.

(** *** The enumeration refines the specification when its workers do *)

Context {RL : RedbLaws} {RR : RedbReliable}.

Definition worker_abs (w : DbWorker) (d : AbsDb) : Prop :=
  match w with
  | Opfs_ worker => opfs_abs worker d
  | InMemory worker => mem_abs worker d
  end.

Lemma on_worker_refines {A} (opfs : M OpfsRedbWorker A) (memory : M InMemoryDbWorker A) m :
  refines opfs_abs opfs m → refines mem_abs memory m →
  refines worker_abs (on_worker opfs memory) m.
Proof.
  intros Ho Hm [w|w] d Hr; [specialize (Ho w d Hr)|specialize (Hm w d Hr)]; simpl.
  - by destruct (opfs w).
  - by destruct (memory w).
Qed.

#[export] Instance DbWorker_refines : DbRefines worker_abs.
Proof.
  split; intros *; apply on_worker_refines.
  1,2: apply refines_set_user_account.
  1,2: apply refines_update_user_account.
  1,2: apply refines_get_nonce.
  1,2: apply refines_set_nonce.
  1,2: apply refines_increment_nonce.
  1,2: apply refines_get_user_account.
  1,2: apply refines_update_success_tx.
  1,2: apply refines_update_failed_tx.
  1,2: apply refines_get_failed_txs.
  1,2: apply refines_get_success_txs.
  1,2: apply refines_get_total_value_success.
  1,2: apply refines_get_total_value_failed.
  1,2: apply refines_get_all_saved_peers_info.
  1,2: apply refines_get_saved_user_peers.
  1,2: apply refines_delete_saved_peer.
  1,2: apply refines_record_saved_user_peers.
Qed.

(** *** Initial states *)

Definition all_tables (ts : Tables) : Tables :=
  open_in SAVED_PEERS_TABLE (open_in NONCE_TABLE (open_in TRANSACTION_TABLE
    (open_in TRANSACTIONS_DATA_TABLE (open_in USER_ACCOUNT_TABLE ts)))).

Lemma write_open_run {V} (t : TableDefinition V) ts :
  yields (sees ts) (write_open_table t) (Ok ()) (sees (open_in t ts)).
Proof.
  intros w Hw. destruct (write_open_ok t w) as [w' Hopen]. rewrite Hopen. simpl.
  split; [done|]. unfold sees in *. by rewrite (write_open_view _ _ _ Hopen), Hw.
Qed.

Lemma initialized_contents d d' :
  initialized d = Ok d' → contents d' = all_tables (contents d).
Proof.
  unfold initialized. intros Hi. destruct (begin_write_ok d) as [txn Htxn].
  rewrite Htxn in Hi. simpl in Hi.
  assert (yields (sees (contents d)) open_all (Ok ()) (sees (all_tables (contents d)))) as Ho.
  { unfold open_all. repeat (eapply yields_bind; [apply write_open_run|]).
    apply write_open_run. }
  destruct (Ho txn (begin_write_view _ _ Htxn)) as [Hok Hview].
  destruct (open_all txn) as [o txn']. simpl in *. subst o.
  rewrite (commit_contents _ _ Hi). exact Hview.
Qed.

(** What a browser worker starts with, on the database [d0] that [redb] opens: nothing when
    it is new, else what it holds.  The bytes of the browser file do not matter. *)
Lemma opfs_new_abs file_url d0 w :
  redb_create "vane_virtual.db" = Ok d0 → OpfsRedbWorker_new file_url = Ok w →
  (contents d0 = no_tables → opfs_abs w AbsDb_new) ∧
  (∀ a, tables_abs (contents d0) a → opfs_abs w a).
Proof.
  unfold OpfsRedbWorker_new. intros Hd0 Hnew. rewrite Hd0 in Hnew.
  destruct (OpfsFileSystem_new file_url) as [fs| | |]; [|done..]. simpl in Hnew.
  destruct (get_db_bytes fs) as [bs| | |]; [|done..]. simpl in Hnew.
  assert (∃ d, initialized d0 = Ok d ∧ w = {| db := d; opfs_fs := fs |}) as (d & Hd & ->).
  { case_decide; simpl in Hnew;
      (destruct (initialized d0) as [d| | |] eqn:Hd; [|done..]);
      injection Hnew as <-; eauto. }
  unfold opfs_abs. simpl. rewrite (initialized_contents _ _ Hd). split.
  - intros ->. split; by eexists.
  - intros a Ha. assert (all_tables (contents d0) = contents d0) as ->; [|done].
    destruct Ha. unfold all_tables. by repeat (erewrite holds_open by eassumption).
Qed.

(** C9: on storage that raises no fault, a browser worker cannot be told from the database
    that [redb] opens for it: any sequence of calls has the outcomes, values, errors and
    panics that the specification gives from what that database holds, whatever bytes the
    browser file has.  When it is new, those are the outcomes of the in-memory worker,
    which always starts empty; when it is one that a worker has left, the browser worker
    goes on from it, and the in-memory one does not. *)
Theorem database_workers_agree (cs : list db_call) (file_url : string) (d0 : Database)
    (wo wm : DbWorker) (Hd0 : redb_create "vane_virtual.db" = Ok d0)
    (Ho : initialize_opfs_db_client file_url = Ok wo)
    (Hm : initialize_inmemory_db_client file_url = Ok wm) :
  db_trace cs wm = db_trace cs AbsDb_new ∧
  (contents d0 = no_tables → db_trace cs wo = db_trace cs wm) ∧
  (∀ earlier a, opfs_abs earlier a → contents d0 = contents (db earlier) →
     db_trace cs wo = db_trace cs a).
Proof.
  assert (worker_abs wm AbsDb_new) as Ham by (by injection Hm as <-).
  unfold initialize_opfs_db_client in Ho.
  destruct (OpfsRedbWorker_new file_url) as [w| | |] eqn:Hw; [|done..].
  injection Ho as <-. destruct (opfs_new_abs file_url d0 w Hd0 Hw) as [Hnew Hold].
  rewrite (db_trace_refines _ cs wm _ Ham). split; [done|]. split.
  - intros He. by apply (db_trace_refines worker_abs), Hnew.
  - intros earlier a Ha He. apply (db_trace_refines worker_abs), Hold. by rewrite He.
Qed.
End worker.

Arguments DbWorker {_ _}.

(** ** What the specification gives every client *)

Section clients.
Context {BP : BuildProfile} {S : Type} {I : DbWorkerInterface S} (R : S → AbsDb → Prop)
  {HR : DbRefines R}.

Definition sum_amounts (txs : list DbTxStateMachine) : N :=
  foldr (λ tx n, db_amount tx + n) 0 txs.

Lemma abs_success_run txs d :
  (0 ≤ success_value (totals d))%Z →
  (success_value (totals d) + Z.of_N (sum_amounts txs) < 2 ^ 63)%Z →
  ∃ d', for_each update_success_tx txs d = (Ok (), d') ∧
    default [] (abs_success d') = default [] (abs_success d) ++ txs ∧
    success_value (totals d') = (success_value (totals d) + Z.of_N (sum_amounts txs))%Z.
Proof.
  revert d. induction txs as [|tx txs IH]; intros d H0 Hlt; simpl in *.
  { exists d. rewrite app_nil_r. split_and!; [done..|]. lia. }
  assert (Z.of_N (db_amount tx) < 2 ^ 63)%Z by lia.
  assert (as_i64 (db_amount tx) = Z.of_N (db_amount tx)) as Has by (apply as_i64_small; lia).
  set (t := {| success_value := success_value (totals d) + Z.of_N (db_amount tx);
               failed_value := failed_value (totals d) |}).
  assert (add_success (db_amount tx) (totals d) = Ok t) as Hadd.
  { unfold add_success. rewrite Has, add_i64_small by (unfold i64_fits; lia). done. }
  destruct (IH (abs_set_totals t (abs_set_success (default [] (abs_success d) ++ [tx]) d)))
    as (d' & Hrun & Hl & Ht); simpl; [lia..|].
  exists d'. split_and!; [|rewrite Hl; simpl; by rewrite <-app_assoc|rewrite Ht; simpl; lia].
  rewrite <-Hrun. erewrite run_bind_ok; [reflexivity|].
  cbn -[mbind]. by rewrite run_bind_bind, run_bind_gets, Hadd.
Qed.

Lemma refines_for_each {A} (f : A → M S unit) (g : A → M AbsDb unit) l :
  (∀ x, refines R (f x) (g x)) → refines R (for_each f l) (for_each g l).
Proof.
  intros Hf. induction l as [|x l IH]; simpl; [apply refines_ret|].
  apply refines_bind; auto.
Qed.

(** On a database that implements the interface, from its initial state,
    recording successful transfers whose amounts sum to less than 2^63 succeeds;
    the transfers are then returned in the order they were recorded and the total
    is the exact sum. *)
Theorem success_total_exact (txs : list DbTxStateMachine) (s : S)
    (Hinit : R s AbsDb_new) (Hsum : sum_amounts txs < 2 ^ 63) :
  ∃ s', for_each update_success_tx txs s = (Ok (), s') ∧
    (get_success_txs s').1 = Ok txs ∧
    (get_total_value_success s').1 = Ok (sum_amounts txs).
Proof.
  destruct (abs_success_run txs AbsDb_new) as (d' & Hrun & Hl & Ht); [simpl; lia..|].
  destruct (refines_for_each update_success_tx update_success_tx txs
    refines_update_success_tx s AbsDb_new Hinit) as [Ho Hs].
  rewrite Hrun in Ho, Hs. destruct (for_each update_success_tx txs s) as [o s'].
  simpl in Ho, Hs. subst o. specialize (Hs eq_refl). exists s'. split; [done|]. split.
  - destruct (refines_get_success_txs s' d' Hs) as [-> _]. simpl. by rewrite Hl.
  - destruct (refines_get_total_value_success s' d' Hs) as [-> _]. simpl.
    rewrite Ht, i64_as_u128_nonneg by (simpl; lia). simpl. do 2 f_equal. lia.
Qed.

(** Amounts are [u128]s but the totals are [i64]s: the total after a first
    successful transfer of an amount from 2^63 up to 2^64 (ten ether in wei is
    such an amount) is reported as 2^128 - 2^64 plus the amount. *)
Theorem success_total_wraps (tx : DbTxStateMachine) (s : S)
    (Hinit : R s AbsDb_new) (Hbig : 2 ^ 63 ≤ db_amount tx < 2 ^ 64) :
  ∃ s', update_success_tx tx s = (Ok (), s') ∧
    (get_total_value_success s').1 = Ok (2 ^ 128 - 2 ^ 64 + db_amount tx).
Proof.
  assert (as_i64 (db_amount tx) = Z.of_N (db_amount tx) - 2 ^ 64)%Z as Has.
  { unfold as_i64, i64_wrap.
    rewrite <-(Z.mod_add _ (-1)) by lia. rewrite Z.mod_small; lia. }
  destruct (refines_update_success_tx tx s AbsDb_new Hinit) as [Ho Hs].
  assert (add_success (db_amount tx) (totals AbsDb_new) =
    Ok {| success_value := Z.of_N (db_amount tx) - 2 ^ 64; failed_value := 0 |}) as Hadd.
  { unfold add_success. rewrite Has, add_i64_small by (unfold i64_fits; simpl; lia). done. }
  cbn -[mbind totals AbsDb_new] in Ho, Hs.
  rewrite run_bind_bind, run_bind_gets, Hadd in Ho, Hs. simpl in Ho, Hs.
  destruct (update_success_tx tx s) as [o s']. simpl in Ho, Hs. subst o.
  specialize (Hs eq_refl). exists s'. split; [done|].
  destruct (refines_get_total_value_success _ _ Hs) as [-> _]. simpl. f_equal.
  unfold i64_as_u128. rewrite <-(Z.mod_add _ 1) by lia. rewrite Z.mod_small by lia. lia.
Qed.

(** *** Saved peers *)

Definition addresses (peers : list SavedPeerInfo) : list string := spi_multi_addr <$> peers.

Lemma add_account_address a p : spi_multi_addr (add_account a p) = spi_multi_addr p.
Proof. unfold add_account. by destruct (contains _ _). Qed.

Lemma record_peer_addresses a m peers :
  addresses (record_peer a m peers) =
    if decide (m ∈ addresses peers) then addresses peers else addresses peers ++ [m].
Proof.
  unfold record_peer. destruct (position _ peers) as [idx|] eqn:Hpos.
  - rewrite decide_True.
    + unfold addresses. apply list_eq. intros i. rewrite !list_lookup_fmap.
      destruct (decide (i = idx)) as [->|Hne].
      * rewrite list_lookup_alter_eq. destruct (peers !! idx) as [p|]; [|done]. simpl.
        f_equal. apply add_account_address.
      * by rewrite list_lookup_alter_ne.
    + apply position_lookup in Hpos as (p & Hp & Hm%bool_decide_eq_true). subst m.
      apply list_elem_of_fmap_2. by eapply list_elem_of_lookup_2.
  - rewrite decide_False; [unfold addresses; by rewrite fmap_app|].
    intros (p & -> & Hp)%list_elem_of_fmap. rewrite position_None in Hpos.
    specialize (Hpos p Hp). rewrite bool_decide_eq_false in Hpos. done.
Qed.

Lemma record_peer_NoDup a m peers :
  NoDup (addresses peers) → NoDup (addresses (record_peer a m peers)).
Proof.
  intros Hn. rewrite record_peer_addresses. case_decide; [done|].
  apply list.NoDup_app. split_and!; [done| |apply NoDup_singleton].
  by intros x Hx ->%list_elem_of_singleton.
Qed.

Lemma forget_peer_NoDup p peers kept :
  NoDup (addresses peers) → forget_peer p peers = Ok kept → NoDup (addresses kept).
Proof.
  unfold forget_peer. intros Hn. case_decide; [done|]. intros [= <-].
  eapply sublist_NoDup; [exact Hn|]. apply fmap_sublist, sublist_filter.
Qed.

Lemma peer_of_account_app a l l' :
  peer_of_account a (l ++ l') =
    match peer_of_account a l with Ok m => Ok m | _ => peer_of_account a l' end.
Proof. induction l as [|p l IH]; simpl; [done|]. by destruct (contains _ _). Qed.

Lemma peer_of_account_unknown a l e :
  peer_of_account a l = Err e → ∀ p, p ∈ l → contains a (spi_account_ids p) = false.
Proof.
  induction l as [|q l IH]; simpl; [intros _ p Hp; by apply not_elem_of_nil in Hp|].
  destruct (contains a (spi_account_ids q)) eqn:Hq; [done|].
  intros He p [->|Hp]%elem_of_cons; auto.
Qed.

Lemma peer_of_account_outcome a l :
  (∃ m, peer_of_account a l = Ok m) ∨ peer_of_account a l = Err "Peer Not found in DB".
Proof. induction l as [|p l IH]; simpl; [auto|]. destruct (contains _ _); eauto. Qed.

Lemma peer_of_account_alter a idx p l :
  (∀ q, q ∈ l → contains a (spi_account_ids q) = false) → l !! idx = Some p →
  peer_of_account a (alter (add_account a) idx l) = Ok (spi_multi_addr p).
Proof.
  revert idx. induction l as [|q l IH]; intros idx Hun Hp; [done|].
  pose proof (Hun q ltac:(by left)) as Hq. destruct idx as [|idx]; simpl in *.
  - injection Hp as ->. rewrite (proj2 (contains_spec _ _)).
    + f_equal. apply add_account_address.
    + unfold add_account. rewrite Hq. simpl. set_solver.
  - rewrite Hq. apply IH; [|done]. intros q' Hq'. apply Hun. by right.
Qed.

Lemma record_peer_unknown a m l e :
  peer_of_account a l = Err e → peer_of_account a (record_peer a m l) = Ok m.
Proof.
  intros He. unfold record_peer. destruct (position _ l) as [idx|] eqn:Hpos.
  - apply position_lookup in Hpos as (p & Hp & Hm%bool_decide_eq_true). subst m.
    apply peer_of_account_alter; [|done]. by eapply peer_of_account_unknown.
  - rewrite peer_of_account_app, He. simpl.
    by rewrite (proj2 (contains_spec _ _)) by (by left).
Qed.

Lemma record_peer_known a m m' l :
  m ∉ addresses l → peer_of_account a l = Ok m' →
  peer_of_account a (record_peer a m l) = Ok m'.
Proof.
  intros Hm Hm'. unfold record_peer. destruct (position _ l) as [idx|] eqn:Hpos.
  - apply position_lookup in Hpos as (p & Hp & <-%bool_decide_eq_true).
    destruct Hm. apply list_elem_of_fmap_2. by eapply list_elem_of_lookup_2.
  - by rewrite peer_of_account_app, Hm'.
Qed.

(** Recording a peer for an account that had none makes the account resolve
    to that peer's address; but an account that already resolves to an address
    keeps resolving to it when a new address is recorded for it: the older entry
    shadows the newer. *)
Theorem record_peer_lookup (a m : string) (s : S) (d : AbsDb) (Hr : R s d) :
  ∃ s', record_saved_user_peers a m s = (Ok (), s') ∧
    match (get_saved_user_peers a s).1 with
    | Ok m' => m ∉ addresses (default [] (abs_peers d)) →
               (get_saved_user_peers a s').1 = Ok m'
    | _ => (get_saved_user_peers a s').1 = Ok m
    end.
Proof.
  destruct (refines_record_saved_user_peers a m s d Hr) as [Ho Hs].
  destruct (refines_get_saved_user_peers a s d Hr) as [-> _].
  destruct (record_saved_user_peers a m s) as [o s']. simpl in Ho, Hs. subst o.
  specialize (Hs eq_refl). exists s'. split; [done|].
  destruct (refines_get_saved_user_peers a s' _ Hs) as [-> _]. simpl.
  destruct (peer_of_account_outcome a (default [] (abs_peers d))) as [[m' Hm']|Hm'];
    rewrite Hm'; eauto using record_peer_known, record_peer_unknown.
Qed.

(** The state after a sequence of calls, unless one panics. *)
Definition db_after_step {T} `{DbWorkerInterface T} (c : db_call) (t : T) : option T :=
  let (o, t') := db_run c t in if panics o then None else Some t'.
Fixpoint db_after {T} `{DbWorkerInterface T} (cs : list db_call) (t : T) : option T :=
  match cs with
  | [] => Some t
  | c :: cs => db_after_step c t ≫= db_after cs
  end.

Lemma db_after_refines cs s d s' :
  R s d → db_after cs s = Some s' → ∃ d', db_after cs d = Some d' ∧ R s' d'.
Proof.
  revert s d. induction cs as [|c cs IH]; intros s d Hr; simpl; [naive_solver|].
  unfold db_after_step. destruct (db_run_refines R c s d Hr) as [Ho Hs].
  destruct (db_run c s) as [o s1], (db_run c d) as [o' d1]. simpl in *. subst o'.
  destruct (panics o); simpl; [done|]. eauto.
Qed.

Definition peers_distinct (d : AbsDb) : Prop := NoDup (addresses (default [] (abs_peers d))).

Lemma abs_run_distinct c : preserves peers_distinct (db_run c).
Proof.
  assert (∀ A (f : A → db_answer) (m : M AbsDb A),
    preserves peers_distinct m → preserves peers_distinct (answer f m)) as Hans
    by (intros; apply preserves_bind; [done|intros; apply preserves_ret]).
  destruct c as [| | | | | | | | | | | | | |peer_id|a m]; apply Hans; cbn -[mbind];
    [preserve; by apply preserves_modify..| |]; intros d Hd; rewrite run_bind_gets.
  - destruct (forget_peer peer_id (default [] (abs_peers d))) as [kept| | |] eqn:Hk; try done.
    rewrite run_bind_lift_ok. by apply (forget_peer_NoDup _ _ _ Hd Hk).
  - by apply (record_peer_NoDup a m) in Hd.
Qed.

(** Whatever the sequence of calls, no two saved peers have the same
    address. *)
Theorem saved_peers_distinct (cs : list db_call) (s s' : S)
    (Hinit : R s AbsDb_new) (Hafter : db_after cs s = Some s') :
  ∃ peers, (get_all_saved_peers_info s').1 = Ok peers ∧ NoDup (addresses peers).
Proof.
  destruct (db_after_refines cs s AbsDb_new s' Hinit Hafter) as (d' & Hd' & Hr).
  exists (default [] (abs_peers d')).
  destruct (refines_get_all_saved_peers_info s' d' Hr) as [-> _]. split; [done|].
  assert (∀ d, peers_distinct d → db_after cs d = Some d' → peers_distinct d') as Hinv.
  { clear -R. induction cs as [|c cs IH]; intros d Hd; simpl; [naive_solver|].
    unfold db_after_step. pose proof (abs_run_distinct c d Hd) as Hc.
    destruct (db_run c d) as [o d1]. destruct (panics o); simpl; [done|]. eauto. }
  apply (Hinv AbsDb_new); [apply NoDup_nil_2|done].
Qed.

Lemma abs_increment_run d :
  fits 32 (default 0 (abs_nonce d) + 1) →
  db_increment_nonce d = (Ok (), abs_set_nonce (default 0 (abs_nonce d) + 1) d).
Proof.
  intros Hf. unfold db_increment_nonce, AbsDb_interface.
  by rewrite run_bind_gets, add_u_small.
Qed.

(** The nonce counts: after [n] increments from the initial state it is [n],
    up to the width of a [u32]. *)
Theorem nonce_counts (n : nat) (s : S)
    (Hinit : R s AbsDb_new) (Hn : N.of_nat n < 2 ^ 32) :
  ∃ s', for_each (λ _, db_increment_nonce) (seq 0 n) s = (Ok (), s') ∧
    (get_nonce s').1 = Ok (N.of_nat n).
Proof.
  assert (∀ l d, default 0 (abs_nonce d) + N.of_nat (length l) < 2 ^ 32 →
    ∃ d', for_each (λ _ : nat, db_increment_nonce) l d = (Ok (), d') ∧
      default 0 (abs_nonce d') = default 0 (abs_nonce d) + N.of_nat (length l)) as Habs.
  { intros l. induction l as [|x l IH]; intros d Hlt; [exists d; simpl in *; by rewrite N.add_0_r|].
    cbn [length] in Hlt. rewrite Nat2N.inj_succ in Hlt.
    destruct (IH (abs_set_nonce (default 0 (abs_nonce d) + 1) d)) as (d' & Hrun & Hd');
      [simpl; lia|].
    exists d'. split; [|rewrite Hd'; simpl length; rewrite Nat2N.inj_succ; simpl; lia].
    rewrite <-Hrun. cbn [for_each]. erewrite run_bind_ok; [reflexivity|]. apply abs_increment_run.
    unfold fits. lia. }
  destruct (Habs (seq 0 n) AbsDb_new) as (d' & Hrun & Hd'); [by rewrite length_seq|].
  destruct (refines_for_each (λ _, db_increment_nonce) (λ _, db_increment_nonce) (seq 0 n)
    (λ _, refines_increment_nonce) s AbsDb_new Hinit) as [Ho Hs].
  rewrite Hrun in Ho, Hs. destruct (for_each _ _ s) as [o s']. simpl in Ho, Hs. subst o.
  specialize (Hs eq_refl). exists s'. split; [done|].
  destruct (refines_get_nonce s' d' Hs) as [-> _]. simpl. by rewrite Hd', length_seq.
Qed.
End clients.

(** *** Where the workers differ: a panic *)

Section partial.
Context {DC : DbCodecs} {DL : DbCodecsLaws}.

(** The in-memory worker is not atomic when the total overflows: in a debug
    build the operation panics after the transfer has been appended to the list
    and before the total is changed (the browser worker rolls both back). *)
Theorem in_memory_overflow_is_partial (tx : DbTxStateMachine) (w : InMemoryDbWorker)
    (d : AbsDb) (Hr : mem_abs w d)
    (Hover : (2 ^ 63 ≤ success_value (totals d) + as_i64 (db_amount tx))%Z) :
  ∃ w', @update_success_tx _ (InMemoryDbWorker_interface (H0 := debug_profile)) tx w =
      (Panic ArithmeticOverflow, w') ∧
    (@get_success_txs _ (InMemoryDbWorker_interface (H0 := debug_profile)) w').1 =
      Ok (default [] (abs_success d) ++ [tx]) ∧
    (@get_total_value_success _ (InMemoryDbWorker_interface (H0 := debug_profile)) w').1 =
      Ok (i64_as_u128 (success_value (totals d))).
Proof.
  cbn [update_success_tx get_success_txs get_total_value_success InMemoryDbWorker_interface].
  eexists. split; [|split].
  - unfold mem_update_success_tx. rewrite (run_bind_ok _ _ _ _ _ (mem_push_run _ _ _)).
    rewrite (run_bind_ok _ _ _ _ _ (mem_push_totals _ _ _ _ Hr)).
    assert (add_success (H := debug_profile) (db_amount tx) (totals d) =
      Panic ArithmeticOverflow) as ->; [|reflexivity].
    unfold add_success, add_i64. rewrite bool_decide_eq_false_2 by lia. reflexivity.
  - unfold mem_get_success_txs.
    rewrite (mem_txs_read _ _ (Some (default [] (abs_success d) ++ [tx]))); [done|].
    simpl. rewrite lookup_insert_eq, (mem_abs_success _ _ Hr). f_equal.
    apply encoded_list_snoc.
  - unfold mem_get_total_value_success.
    by rewrite (run_bind_ok _ _ _ _ _ (mem_push_totals _ _ _ _ Hr)).
Qed.
End partial.

(** ** Witnesses *)

#[local] Existing Instances sample_codecs sample_codecs_laws.
#[local] Existing Instance release_profile.
(** The file of an earlier session. *)
#[local] Instance marked_file : Opfs := MemOpfs (as_bytes "REDB_DATABASE_EXISTS").

Definition sample_transfer (amount : N) : DbTxStateMachine := {|
  db_tx_hash := [Byte.x01]; db_amount := amount; db_token := Token_default;
  db_sender := "alice"; db_receiver := "bob"; db_sender_network := Ethereum;
  db_receiver_network := Ethereum; db_success := true |}.

Definition empty_memory : InMemoryDbWorker := {|
  user_accounts := ∅; transactions_data := ∅; transactions := ∅; nonces := ∅;
  saved_peers := ∅ |}.

Lemma empty_memory_abs : mem_abs empty_memory AbsDb_new.
Proof. by apply (mem_abs_initial ""). Qed.

Definition sample_script : list db_call := [
  CallGetUserAccount;
  CallSetUserAccount {| multi_addr := "/ip4/1.2.3.4"; accounts := [("alice", Ethereum)] |};
  CallUpdateUserAccount "alice2" Solana;
  CallUpdateSuccessTx (sample_transfer 7);
  CallRecordSavedUserPeers "bob" "/ip4/5.6.7.8";
  CallGetTotalValueSuccess
].

(** [redb] on a new file, and on the file of a worker whose nonce is 5. *)
#[local] Instance new_redb : Redb := MemRedb no_tables.
#[local] Instance new_redb_laws : RedbLaws := MemRedb_laws no_tables.
#[local] Instance new_redb_reliable : RedbReliable := MemRedb_reliable no_tables.

Definition left_behind : Tables :=
  set_table NONCE_TABLE {[NONCE_KEY := 5]} (all_tables no_tables).
Definition fresh_fs : OpfsFileSystem := {| directory := (); db_file := [] |}.
Definition earlier_worker : @OpfsRedbWorker (MemRedb left_behind) _ :=
  @Build_OpfsRedbWorker (MemRedb left_behind) _ left_behind fresh_fs.

Lemma database_workers_agree_witness :
  (∃ wo, initialize_opfs_db_client "vane.db" = Ok wo ∧
     db_trace sample_script wo = db_trace sample_script (InMemory empty_memory)) ∧
  (∃ wo, @initialize_opfs_db_client (MemRedb left_behind) _ "vane.db" = Ok wo ∧
     @db_trace _ (@DbWorker_interface (MemRedb left_behind) _ _ _) [CallGetNonce] wo =
       [Ok (AnsNumber 5)]).
Proof.
  split.
  - destruct (initialize_opfs_db_client "vane.db") as [wo| | |] eqn:Hwo; try discriminate Hwo.
    exists wo. split; [reflexivity|].
    destruct (database_workers_agree (RD := new_redb) sample_script "vane.db" no_tables wo (InMemory empty_memory)
      eq_refl Hwo eq_refl) as (_ & Hnew & _). by apply Hnew.
  - destruct (@initialize_opfs_db_client (MemRedb left_behind) _ "vane.db")
      as [wo| | |] eqn:Hwo; try discriminate Hwo.
    exists wo. split; [reflexivity|].
    destruct (@database_workers_agree (MemRedb left_behind) _ _ _ _
      (MemRedb_laws left_behind) (MemRedb_reliable left_behind) [CallGetNonce] "vane.db"
      left_behind wo (InMemory empty_memory) eq_refl Hwo eq_refl) as (_ & _ & Hold).
    rewrite (Hold earlier_worker (abs_set_nonce 5 AbsDb_new)); [reflexivity| |reflexivity].
    split; by eexists.
Defined.

Lemma success_total_exact_witness :
  ∃ s', for_each update_success_tx [sample_transfer 5; sample_transfer 7] empty_memory =
          (Ok (), s') ∧ (get_total_value_success s').1 = Ok 12.
Proof.
  destruct (success_total_exact mem_abs [sample_transfer 5; sample_transfer 7] empty_memory)
    as (s' & Hrun & _ & Ht).
  - exact empty_memory_abs.
  - vm_compute. reflexivity.
  - exists s'. split; [exact Hrun|exact Ht].
Defined.

(** Ten ether, in wei. *)
Lemma success_total_wraps_witness :
  ∃ s', update_success_tx (sample_transfer (10 * 10 ^ 18)) empty_memory = (Ok (), s') ∧
    (get_total_value_success s').1 = Ok 340282366920938463454927863358058659840.
Proof.
  destruct (success_total_wraps mem_abs (sample_transfer (10 * 10 ^ 18)) empty_memory)
    as (s' & Hrun & Ht).
  - exact empty_memory_abs.
  - split; vm_compute; [discriminate|reflexivity].
  - exists s'. split; [exact Hrun|]. rewrite Ht. vm_compute. reflexivity.
Defined.

Lemma record_peer_lookup_witness :
  ∃ s', record_saved_user_peers "bob" "/ip4/5.6.7.8" empty_memory = (Ok (), s') ∧
    (get_saved_user_peers "bob" s').1 = Ok "/ip4/5.6.7.8".
Proof.
  destruct (record_peer_lookup mem_abs "bob" "/ip4/5.6.7.8" empty_memory AbsDb_new
    empty_memory_abs) as (s' & Hrun & Hl).
  exists s'. split; [exact Hrun|exact Hl].
Defined.

Lemma saved_peers_distinct_witness :
  ∃ s' peers, db_after sample_script empty_memory = Some s' ∧
    (get_all_saved_peers_info s').1 = Ok peers ∧ NoDup (addresses peers).
Proof.
  destruct (db_after sample_script empty_memory) as [s'|] eqn:Hs; [|by vm_compute in Hs].
  destruct (saved_peers_distinct mem_abs sample_script empty_memory s' empty_memory_abs Hs)
    as (peers & Hp & Hn).
  exists s', peers. split; [reflexivity|split; [exact Hp|exact Hn]].
Defined.

Lemma nonce_counts_witness :
  ∃ s', for_each (λ _, db_increment_nonce) (seq 0 3) empty_memory = (Ok (), s') ∧
    (get_nonce s').1 = Ok 3.
Proof.
  apply (nonce_counts mem_abs 3 empty_memory empty_memory_abs). vm_compute. reflexivity.
Defined.

(** The total is at the largest [i64] but one. *)
Definition nearly_full : AbsDb :=
  abs_set_totals {| success_value := 2 ^ 63 - 2; failed_value := 0 |} AbsDb_new.
Definition nearly_full_memory : InMemoryDbWorker :=
  with_transactions_data
    (<[TXS_DATA_KEY := scale_encode {| success_value := 2 ^ 63 - 2; failed_value := 0 |}]>)
    empty_memory.

Lemma in_memory_overflow_is_partial_witness :
  ∃ w', @update_success_tx _ (InMemoryDbWorker_interface (H0 := debug_profile))
    (sample_transfer 7) nearly_full_memory = (Panic ArithmeticOverflow, w').
Proof.
  destruct (in_memory_overflow_is_partial (sample_transfer 7) nearly_full_memory nearly_full)
    as (w' & Hw & _).
  - split; reflexivity.
  - vm_compute. discriminate.
  - exists w'. exact Hw.
Defined.

(** A fresh database has no user account: the lookup fails. *)
Definition fresh_opfs : OpfsRedbWorker :=
  {| db := all_tables no_tables; opfs_fs := {| directory := (); db_file := [] |} |}.

Lemma opfs_operations_atomic_witness :
  contents (db (db_run (CallUpdateUserAccount "alice" Ethereum) fresh_opfs).2) =
    contents (db fresh_opfs).
Proof. apply opfs_operations_atomic. vm_compute. reflexivity. Defined.
