(* ===== verification/Lru.v ===== *)
(** Interface to the [lru] crate: a bounded map that forgets its least recently
    used entry.

    The laws give each operation's effect on [lru_iter], the entries from the
    most to the least recently used one.  [get] and [get_mut] make the entry the
    most recent one, [peek] does not, [push] evicts the last entry of a full
    cache, [demote] makes an entry the least recent one, [pop] removes it.
    [ListLru] is a concrete cache that satisfies them. *)

From S2P Require Import Prelude.

Class LruCache (K V : Type) := {
  Lru : Type;
  lru_new : nat → Lru;
  lru_cap : Lru → nat;
  lru_iter : Lru → list (K * V);
  lru_push : K → V → Lru → Lru;
  lru_get : K → Lru → option V * Lru;
  lru_peek : K → Lru → option V;
  (** [get_mut], and [f] applied to the value through the reference. *)
  lru_get_mut : K → (V → V) → Lru → Lru;
  lru_pop : K → Lru → Lru;
  lru_demote : K → Lru → Lru
}.
Arguments Lru K V {_}.

(** ** Association lists *)

Fixpoint assoc {K V} `{EqDecision K} (k : K) (l : list (K * V)) : option V :=
  match l with
  | [] => None
  | (k', v) :: l => if decide (k = k') then Some v else assoc k l
  end.

Definition without {K V} `{EqDecision K} (k : K) (l : list (K * V)) : list (K * V) :=
  filter (λ kv, kv.1 ≠ k) l.

Class LruLaws {K V} `{EqDecision K} `{LruCache K V} : Prop := {
  lru_nodup c : NoDup (lru_iter c).*1;
  lru_bounded c : length (lru_iter c) ≤ lru_cap c;
  lru_new_iter n : lru_iter (lru_new n) = [];
  lru_new_cap n : lru_cap (lru_new n) = n;
  lru_push_iter k v c : 0 < lru_cap c →
    lru_iter (lru_push k v c) = take (lru_cap c) ((k, v) :: without k (lru_iter c));
  lru_push_cap k v c : lru_cap (lru_push k v c) = lru_cap c;
  lru_get_value k c : (lru_get k c).1 = assoc k (lru_iter c);
  lru_get_iter k c : lru_iter (lru_get k c).2 =
    match assoc k (lru_iter c) with
    | Some v => (k, v) :: without k (lru_iter c)
    | None => lru_iter c
    end;
  lru_get_cap k c : lru_cap (lru_get k c).2 = lru_cap c;
  lru_peek_value k c : lru_peek k c = assoc k (lru_iter c);
  lru_get_mut_iter k f c : lru_iter (lru_get_mut k f c) =
    match assoc k (lru_iter c) with
    | Some v => (k, f v) :: without k (lru_iter c)
    | None => lru_iter c
    end;
  lru_get_mut_cap k f c : lru_cap (lru_get_mut k f c) = lru_cap c;
  lru_pop_iter k c : lru_iter (lru_pop k c) = without k (lru_iter c);
  lru_pop_cap k c : lru_cap (lru_pop k c) = lru_cap c;
  lru_demote_iter k c : lru_iter (lru_demote k c) =
    match assoc k (lru_iter c) with
    | Some v => without k (lru_iter c) ++ [(k, v)]
    | None => lru_iter c
    end;
  lru_demote_cap k c : lru_cap (lru_demote k c) = lru_cap c
}.

Section assoc.
Context {K V : Type} `{EqDecision K}.
Implicit Types (l : list (K * V)).

Lemma assoc_without k k' l :
  assoc k (without k' l) = if decide (k = k') then None else assoc k l.
Proof.
  unfold without. induction l as [|[k0 v] l IH]; simpl; [by case_decide|].
  destruct (decide (k0 = k')) as [->|Hne].
  - rewrite list.filter_cons_False by (simpl; naive_solver). rewrite IH.
    repeat case_decide; naive_solver.
  - rewrite list.filter_cons_True by done. simpl. rewrite IH.
    repeat case_decide; naive_solver.
Qed.

Lemma assoc_take_head n k v l : 0 < n → assoc k (take n ((k, v) :: l)) = Some v.
Proof. destruct n; [lia|]. intros _. simpl. by rewrite decide_True. Qed.

Lemma assoc_Some k v l : assoc k l = Some v → (k, v) ∈ l.
Proof.
  induction l as [|[k' v'] l IH]; simpl; [done|].
  case_decide; [intros; simplify_eq; by left|]. right. auto.
Qed.

Lemma assoc_NoDup k v l : NoDup l.*1 → (k, v) ∈ l → assoc k l = Some v.
Proof.
  induction l as [|[k' v'] l IH]; simpl; intros Hn Hin; [by apply not_elem_of_nil in Hin|].
  apply list.NoDup_cons in Hn as [Hk' Hn]. apply elem_of_cons in Hin as [[= -> ->]|Hin].
  - by rewrite decide_True.
  - rewrite decide_False; [auto|]. intros ->. apply Hk'. by apply (list_elem_of_fmap_2 fst) in Hin.
Qed.

Lemma assoc_None k l : assoc k l = None ↔ k ∉ l.*1.
Proof.
  induction l as [|[k' v'] l IH]; simpl; [split; [intros _; apply not_elem_of_nil|done]|].
  rewrite not_elem_of_cons. case_decide; naive_solver.
Qed.

Lemma assoc_app k l l' :
  assoc k (l ++ l') = match assoc k l with Some v => Some v | None => assoc k l' end.
Proof. induction l as [|[k' v'] l IH]; simpl; [done|]. by case_decide. Qed.

Lemma elem_of_without k l k' v : (k', v) ∈ without k l ↔ (k', v) ∈ l ∧ k' ≠ k.
Proof. unfold without. rewrite list_elem_of_filter. simpl. naive_solver. Qed.

Lemma without_keys_NoDup k l : NoDup l.*1 → NoDup (without k l).*1.
Proof. intros Hn. eapply sublist_NoDup; [exact Hn|]. apply fmap_sublist, sublist_filter. Qed.

Lemma without_id k l : k ∉ l.*1 → without k l = l.
Proof.
  unfold without. induction l as [|[k' v] l IH]; simpl; [done|].
  intros [Hne Hk]%not_elem_of_cons. rewrite list.filter_cons_True by done. by rewrite IH.
Qed.
Lemma without_app k l l' : without k (l ++ l') = without k l ++ without k l'.
Proof. apply list.filter_app. Qed.
Lemma without_idem k l : without k (without k l) = without k l.
Proof. apply without_id. rewrite <-assoc_None, assoc_without. by rewrite decide_True. Qed.
Lemma without_touched k v l : without k ((k, v) :: without k l) = without k l.
Proof.
  unfold without at 1. rewrite list.filter_cons_False by (simpl; naive_solver).
  apply without_idem.
Qed.

Lemma filter_ext_in (P Q : K * V → Prop) `{∀ x, Decision (P x)} `{∀ x, Decision (Q x)} l :
  (∀ x, x ∈ l → P x ↔ Q x) → filter P l = filter Q l.
Proof.
  induction l as [|x l IH]; intros Hpq; [done|].
  assert (filter P l = filter Q l) as Hl by (apply IH; intros; apply Hpq; by right).
  destruct (decide (Q x)) as [Hq|Hq].
  - rewrite !list.filter_cons_True; [by rewrite Hl|done|apply Hpq; [by left|done]].
  - rewrite !list.filter_cons_False; [done|done|].
    intros Hp. apply Hq, Hpq; [by left|done].
Qed.

(** Removing the keys of the entries that satisfy [P] leaves those that do not. *)
Lemma filter_not_keys (P : K * V → Prop) `{∀ x, Decision (P x)} l :
  NoDup l.*1 → filter (λ kv, kv.1 ∉ (filter P l).*1) l = filter (λ kv, ¬ P kv) l.
Proof.
  intros Hn. apply filter_ext_in. intros [k v] Hkv. simpl. split; intros Hnot Hin; apply Hnot.
  - apply list_elem_of_fmap. exists (k, v). split; [done|]. by apply list_elem_of_filter.
  - apply list_elem_of_fmap in Hin as ([k' v'] & -> & [Hp Hkv']%list_elem_of_filter).
    apply assoc_NoDup in Hkv, Hkv'; [|done..]. simpl in Hkv. by simplify_eq.
Qed.

Lemma without_length k l : length (without k l) ≤ length l.
Proof. apply sublist_length, sublist_filter. Qed.

Lemma without_not_key k l : k ∉ (without k l).*1.
Proof. rewrite <-assoc_None, assoc_without. by rewrite decide_True. Qed.

Lemma without_shorter k v l : assoc k l = Some v → length (without k l) < length l.
Proof.
  unfold without. induction l as [|[k' v'] l IH]; simpl; [done|]. case_decide as Hk; intros Hv.
  - subst. rewrite list.filter_cons_False by (simpl; naive_solver).
    pose proof (without_length k' l) as Hw. unfold without in Hw. lia.
  - rewrite list.filter_cons_True by (simpl; congruence). simpl. specialize (IH Hv). lia.
Qed.
End assoc.

(** ** A property of every entry *)

Section entries.
Context {K V : Type} `{LruLaws K V} (P : K → V → Prop).

Definition all_entries (c : Lru K V) : Prop := ∀ k v, (k, v) ∈ lru_iter c → P k v.

Lemma all_new n : all_entries (lru_new n).
Proof. intros k v. rewrite lru_new_iter. by intros ?%not_elem_of_nil. Qed.
Lemma all_assoc k v c : all_entries c → assoc k (lru_iter c) = Some v → P k v.
Proof. intros Hc Hv%assoc_Some. by apply Hc. Qed.
Lemma all_peek k v c : all_entries c → lru_peek k c = Some v → P k v.
Proof. rewrite lru_peek_value. apply all_assoc. Qed.
(** An entry moved to the front. *)
Lemma all_touched k v l :
  P k v → (∀ k' v', (k', v') ∈ l → P k' v') →
  ∀ k' v', (k', v') ∈ (k, v) :: without k l → P k' v'.
Proof. intros Hv Hl k' v' [[= -> ->]|[Hin _]%elem_of_without]%elem_of_cons; auto. Qed.
Lemma all_push k v c : 0 < lru_cap c → P k v → all_entries c → all_entries (lru_push k v c).
Proof.
  intros Hcap Hv Hc k' v' Hin. rewrite lru_push_iter in Hin by done.
  eapply elem_of_sublist in Hin; [|apply sublist_take]. by eapply all_touched in Hin.
Qed.
Lemma all_get_mut k f c :
  (∀ v, P k v → P k (f v)) → all_entries c → all_entries (lru_get_mut k f c).
Proof.
  intros Hf Hc k' v' Hin. rewrite lru_get_mut_iter in Hin.
  destruct (assoc k (lru_iter c)) as [v|] eqn:Hv; [|by apply Hc].
  eapply all_touched in Hin; [done| |done]. by eapply Hf, all_assoc.
Qed.
Lemma all_get k c : all_entries c → all_entries (lru_get k c).2.
Proof.
  intros Hc k' v' Hin. rewrite lru_get_iter in Hin.
  destruct (assoc k (lru_iter c)) as [v|] eqn:Hv; [|by apply Hc].
  eapply all_touched in Hin; [done| |done]. by eapply all_assoc.
Qed.
Lemma all_pop k c : all_entries c → all_entries (lru_pop k c).
Proof. intros Hc k' v'. rewrite lru_pop_iter. intros [Hin _]%elem_of_without. by apply Hc. Qed.
Lemma all_demote k c : all_entries c → all_entries (lru_demote k c).
Proof.
  intros Hc k' v' Hin. rewrite lru_demote_iter in Hin.
  destruct (assoc k (lru_iter c)) as [v|] eqn:Hv; [|by apply Hc].
  apply elem_of_app in Hin as [[Hin _]%elem_of_without|[= -> ->]%list_elem_of_singleton];
    [by apply Hc|by eapply all_assoc].
Qed.
End entries.

(** ** What the laws give a client *)

Section client.
Context {K V : Type} `{LruLaws K V}.

Lemma lru_peek_push k v c : 0 < lru_cap c → lru_peek k (lru_push k v c) = Some v.
Proof. intros Hc. rewrite lru_peek_value, lru_push_iter by done. by apply assoc_take_head. Qed.

Lemma lru_get_peek k c : (lru_get k c).1 = lru_peek k c.
Proof. by rewrite lru_get_value, lru_peek_value. Qed.

Lemma lru_peek_get_mut k f c : lru_peek k (lru_get_mut k f c) = f <$> lru_peek k c.
Proof.
  rewrite !lru_peek_value, lru_get_mut_iter.
  destruct (assoc k (lru_iter c)) as [v|] eqn:Hv; simpl; [by rewrite decide_True|by rewrite Hv].
Qed.

Lemma lru_peek_pop k k' c :
  lru_peek k (lru_pop k' c) = if decide (k = k') then None else lru_peek k c.
Proof. rewrite !lru_peek_value, lru_pop_iter. apply assoc_without. Qed.

Lemma lru_peek_demote k k' c : lru_peek k (lru_demote k' c) = lru_peek k c.
Proof.
  rewrite !lru_peek_value, lru_demote_iter.
  destruct (assoc k' (lru_iter c)) as [v|] eqn:Hv; [|done].
  rewrite assoc_app, assoc_without. case_decide; [subst; simpl; rewrite Hv|].
  - by rewrite decide_True.
  - simpl. by destruct (assoc k (lru_iter c)); [|rewrite decide_False].
Qed.

(** Updating an entry in place and pushing it: the entry becomes the first, the
    others keep their order, the last is dropped when the cache was full. *)
Lemma lru_refresh_iter k f v c : 0 < lru_cap c →
  lru_iter (lru_push k v (lru_get_mut k f c)) =
    (k, v) :: take (pred (lru_cap c)) (without k (lru_iter c)).
Proof.
  intros Hc. rewrite lru_push_iter, lru_get_mut_cap by (by rewrite lru_get_mut_cap).
  rewrite lru_get_mut_iter. destruct (lru_cap c) as [|n]; [lia|]. simpl. do 2 f_equal.
  destruct (assoc k (lru_iter c)); [apply without_touched|done].
Qed.

(** A push that finds room, or replaces, keeps every other entry. *)
Lemma lru_peek_push_other k k' v c :
  0 < lru_cap c → k ≠ k' →
  (length (lru_iter c) < lru_cap c ∨ is_Some (lru_peek k' c)) →
  lru_peek k (lru_push k' v c) = lru_peek k c.
Proof.
  intros Hc Hne Hroom. rewrite !lru_peek_value, lru_push_iter by done.
  assert (length (without k' (lru_iter c)) < lru_cap c) as Hlen.
  { pose proof (without_length k' (lru_iter c)). destruct Hroom as [?|[v' Hv']]; [lia|].
    rewrite lru_peek_value in Hv'. pose proof (without_shorter _ _ _ Hv').
    pose proof (lru_bounded c). lia. }
  rewrite take_ge by (simpl; lia). simpl. rewrite decide_False by done.
  by rewrite assoc_without, decide_False.
Qed.
End client.

(** ** A concrete cache *)

Section list_lru.
Context (K V : Type) `{EqDecision K}.

Record list_cache := {
  cache_cap : nat;
  cache_entries : list (K * V);
  cache_ok : bool_decide (NoDup cache_entries.*1 ∧ length cache_entries ≤ cache_cap)
}.

Definition mk_cache (n : nat) (l : list (K * V)) : list_cache :=
  match decide (NoDup l.*1 ∧ length l ≤ n) with
  | left H => {| cache_cap := n; cache_entries := l; cache_ok := bool_decide_pack _ H |}
  | right _ => {| cache_cap := n; cache_entries := [];
                  cache_ok := bool_decide_pack _ (conj (NoDup_nil_2) (Nat.le_0_l n)) |}
  end.

Lemma mk_cache_entries n l :
  NoDup l.*1 → length l ≤ n → cache_entries (mk_cache n l) = l.
Proof. intros ? ?. unfold mk_cache. destruct (decide _) as [|Hn]; [done|]. by destruct Hn. Qed.
Lemma mk_cache_cap n l : cache_cap (mk_cache n l) = n.
Proof. unfold mk_cache. by destruct (decide _). Qed.
Lemma cache_wf c : NoDup (cache_entries c).*1 ∧ length (cache_entries c) ≤ cache_cap c.
Proof. exact (bool_decide_unpack _ (cache_ok c)). Qed.

Definition list_touch (k : K) (f : V → V) (c : list_cache) : list (K * V) :=
  match assoc k (cache_entries c) with
  | Some v => (k, f v) :: without k (cache_entries c)
  | None => cache_entries c
  end.

Definition list_demote (k : K) (c : list_cache) : list (K * V) :=
  match assoc k (cache_entries c) with
  | Some v => without k (cache_entries c) ++ [(k, v)]
  | None => cache_entries c
  end.

Definition ListLru : LruCache K V := {|
  Lru := list_cache;
  lru_new n := mk_cache n [];
  lru_cap := cache_cap;
  lru_iter := cache_entries;
  lru_push k v c := mk_cache (cache_cap c)
    (take (cache_cap c) ((k, v) :: without k (cache_entries c)));
  lru_get k c := (assoc k (cache_entries c), mk_cache (cache_cap c) (list_touch k id c));
  lru_peek k c := assoc k (cache_entries c);
  lru_get_mut k f c := mk_cache (cache_cap c) (list_touch k f c);
  lru_pop k c := mk_cache (cache_cap c) (without k (cache_entries c));
  lru_demote k c := mk_cache (cache_cap c) (list_demote k c)
|}.

Lemma list_touch_wf k f c :
  NoDup (list_touch k f c).*1 ∧ length (list_touch k f c) ≤ cache_cap c.
Proof.
  destruct (cache_wf c) as [Hn Hl]. unfold list_touch.
  destruct (assoc k (cache_entries c)) as [v|] eqn:Hv; [|done]. split; simpl.
  - apply list.NoDup_cons. split; [apply without_not_key|by apply without_keys_NoDup].
  - pose proof (without_shorter _ _ _ Hv). lia.
Qed.
Lemma list_demote_wf k c :
  NoDup (list_demote k c).*1 ∧ length (list_demote k c) ≤ cache_cap c.
Proof.
  destruct (cache_wf c) as [Hn Hl]. unfold list_demote.
  destruct (assoc k (cache_entries c)) as [v|] eqn:Hv; [|done]. split.
  - rewrite fmap_app. apply list.NoDup_app. split_and!; [by apply without_keys_NoDup| |].
    + intros x Hx Hk. apply list_elem_of_singleton in Hk. subst. by apply without_not_key in Hx.
    + apply NoDup_singleton.
  - rewrite length_app. simpl. pose proof (without_shorter _ _ _ Hv). lia.
Qed.
Lemma list_push_wf k v c :
  NoDup (take (cache_cap c) ((k, v) :: without k (cache_entries c))).*1 ∧
  length (take (cache_cap c) ((k, v) :: without k (cache_entries c))) ≤ cache_cap c.
Proof.
  destruct (cache_wf c) as [Hn Hl]. split; [|rewrite length_take; lia].
  eapply sublist_NoDup; [|apply fmap_sublist, sublist_take]. simpl.
  apply list.NoDup_cons. split; [apply without_not_key|by apply without_keys_NoDup].
Qed.

Lemma ListLru_laws : @LruLaws K V _ ListLru.
Proof.
  split; simpl; intros; rewrite ?mk_cache_cap; try done; try apply cache_wf.
  - destruct (list_push_wf k v c). by apply mk_cache_entries.
  - destruct (list_touch_wf k id c). by apply mk_cache_entries.
  - destruct (list_touch_wf k f c). by apply mk_cache_entries.
  - destruct (cache_wf c). apply mk_cache_entries; [by apply without_keys_NoDup|].
    pose proof (without_length k (cache_entries c)). lia.
  - destruct (list_demote_wf k c). by apply mk_cache_entries.
Qed.
End list_lru.
