(* ===== verification/TxProcessing.v ===== *)
(** Transaction processing in the node ([node/wasm/src/tx_processing.rs]) and
    address verification ([node/wasm/src/cryptography.rs]).

    The cryptographic libraries (hashes, ECDSA recovery, Ed25519, base58, address
    parsing) and the JavaScript host functions are parameters; a host call is
    answered as a function of the calls made before it. *)

From stdpp Require Import pretty.
From S2P Require Import Prelude DataStructure Codec Samples.
Open Scope N_scope.

Class Crypto := {
  Address : Type;
  address_eq :: EqDecision Address;
  EcdsaSignature : Type;
  VerifyingKey : Type;
  Ed25519PublicKey : Type;
  Ed25519Signature : Type;
  blake2_256 : bytes → bytes;
  keccak_256 : bytes → bytes;
  (** [str::parse::<Address>], also [Address::from_str] *)
  parse_address : string → outcome Address;
  to_checksum : Address → string;
  parse_checksummed : string → outcome Address;
  (** [format!("0x{}", hex::encode(..))] *)
  hex_0x : bytes → string;
  ecdsa_signature_try_from : bytes → outcome EcdsaSignature;
  recover_from_prehash : EcdsaSignature → bytes → outcome VerifyingKey;
  to_encoded_point : VerifyingKey → bytes;
  (** [EncodedPoint::from_bytes] then [AffinePoint::from_encoded_point] *)
  sec1_point : bytes → option bool;
  from_base58 : string → option bytes;
  ed25519_public_key : bytes → outcome Ed25519PublicKey;
  ed25519_signature : bytes → outcome Ed25519Signature;
  ed25519_verify : Ed25519PublicKey → bytes → Ed25519Signature → bool
}.

(** The calls to the JavaScript host, in order. *)
Inductive host_call :=
  | HostSubmit (tx : TxStateMachine)
  | HostCreate (tx : TxStateMachine).

Class Host := {
  submit_tx_js : list host_call → TxStateMachine → outcome bytes;
  create_tx_js : list host_call → TxStateMachine → outcome TxStateMachine
}.

(** [r.map_err(|e| anyhow!(msg, e))] *)
Definition context {A} (msg : string) (o : outcome A) : outcome A :=
  match o with Err e => Err (msg +:+ e) | o => o end.

(** [r.expect(msg)] *)
Definition expect_ok {A} (o : outcome A) (msg : string) : outcome A :=
  match o with Err _ => Panic (ExpectFailed msg) | o => o end.

(** [n.to_string()] *)
Definition nat_to_string (n : nat) : string := pretty n.

Section validation.
Context `{Crypto}.

Definition is_on_curve_sec1 (sec1 : bytes) : bool :=
  match sec1_point sec1 with Some ok => ok | None => false end.

(** [msg.try_into().unwrap()] to 32 bytes *)
Definition to_b256 (msg : bytes) : outcome bytes :=
  if decide (length msg = 32%nat) then Ok msg
  else Panic (ExpectFailed "called `Result::unwrap()` on an `Err` value").

Definition verify_evm_signature (address : string) (signature msg : bytes) (who : string) :
    outcome unit :=
  addr ← expect_ok (parse_address address) "Invalid address";
  hashed_msg ← (if decide (who = "Receiver")
                then mret (keccak_256 (as_bytes ETH_SIG_MSG_PREFIX ++
                       as_bytes (nat_to_string (length msg)) ++ msg))
                else to_b256 msg);
  sig ← context "failed to convert ecdsa signature: " (ecdsa_signature_try_from signature);
  key ← context "ec signature verification failed: " (recover_from_prehash sig hashed_msg);
  let encoded_point := to_encoded_point key in
  if negb (is_on_curve_sec1 encoded_point)
  then Err ("addresses verification failed: point not on curve: who: " +:+ who)
  else
    let pub_key_hash := keccak_256 (drop 1 encoded_point) in
    recovered_addr ← context "failed to convert pub key hash to address: "
      (parse_address (hex_0x (drop (length pub_key_hash - 20) pub_key_hash)));
    if decide (recovered_addr = addr) then Ok ()
    else Err "addr recovery equality failed hence account invalid".

Definition verify_tron_signature (address : string) (signature msg : bytes) (who : string) :
    outcome unit :=
  Panic (NotImplemented "TRON signature verification not implemented yet").
Definition verify_bitcoin_signature (address : string) (signature msg : bytes) (who : string) :
    outcome unit :=
  Panic (NotImplemented "Bitcoin signature verification not implemented yet").
Definition verify_polkadot_signature (address : string) (signature msg : bytes) (who : string) :
    outcome unit :=
  Panic (NotImplemented "Polkadot signature verification not implemented yet").

Definition verify_solana_signature (address : string) (signature msg : bytes) (who : string) :
    outcome unit :=
  key_bytes ← ok_or (from_base58 address) "invalid solana address";
  public_key ← ed25519_public_key key_bytes;
  sig ← ed25519_signature signature;
  if ed25519_verify public_key msg sig then Ok ()
  else Err "solana signature verification failed".

(** The bytes the sender signs. *)
Definition signed_message (payload : ChainTransactionType) : bytes :=
  match payload with
  | CallEthereum _ call_payload => call_payload.1
  | CallBnb call_payload _ => call_payload.1
  | CallSolana call_payload _ => call_payload
  end.

Definition validate_receiver_and_sender_address (tx : TxStateMachine) (who : string) :
    outcome unit :=
  '(network, signature, msg, address) ←
    (if decide (who = "Receiver") then
       signature ← ok_or (recv_signature tx) "receiver didnt signed";
       mret (receiver_address_network tx, signature, as_bytes (receiver_address tx),
             receiver_address tx)
     else
       signature ← ok_or (signed_call_payload tx) "original sender didnt signed";
       payload ← expect (call_payload tx) "unexpected error, call payload should be available";
       mret (sender_address_network tx, signature, signed_message payload, sender_address tx));
  match network with
  | Ethereum | Bnb | Arbitrum | Optimism | Polygon | Base =>
      verify_evm_signature address signature msg who
  | Tron => verify_tron_signature address signature msg who
  | Solana => verify_solana_signature address signature msg who
  | Bitcoin => verify_bitcoin_signature address signature msg who
  | Polkadot => verify_polkadot_signature address signature msg who
  end.

(** [blake2_256] of the two addresses, concatenated. *)
Definition multi_id_of (sender receiver : string) : bytes :=
  blake2_256 (as_bytes sender ++ as_bytes receiver).

Definition validate_multi_id (txn : TxStateMachine) : bool :=
  bool_decide (multi_id_of (sender_address txn) (receiver_address txn) = multi_id txn).

(** *** [cryptography.rs] *)

Definition verify_public_bytes (account : string) (token : Token) (network : ChainSupported) :
    outcome ChainSupported :=
  match token with
  | Token_Ethereum _ | Token_Bnb _ | Token_Optimism _ | Token_Arbitrum _ | Token_Polygon _
  | Token_Base _ =>
      let token_network := Token_into_chain token in
      if decide (token_network ≠ network)
      then Err "Token network does not match the network"
      else
        address ← context "Invalid EVM address format: " (parse_address account);
        returned_address ← context "Invalid EVM address format: "
          (parse_checksummed (to_checksum address));
        if decide (returned_address = address) then Ok token_network
        else Err "Invalid EVM address format"
  | Token_Tron _ => Panic (NotImplemented "TRON address verification not implemented yet")
  | Token_Solana _ =>
      let token_network := Token_into_chain token in
      if decide (token_network ≠ network)
      then Err "Token network does not match the network"
      else
        key_bytes ← ok_or (from_base58 account) "invalid solana address";
        if decide (length key_bytes ≠ 32%nat)
        then Err "Invalid key length: expected 32 bytes"
        else match ed25519_public_key key_bytes with
             | Ok _ => Ok token_network
             | Panic p => Panic p
             | _ => Err "invalid solana address"
             end
  | Token_Bitcoin _ =>
      Panic (NotImplemented "Bitcoin address verification not implemented yet")
  | Token_Polkadot _ =>
      Panic (NotImplemented "Polkadot address verification not implemented yet")
  end.

Definition verify_route (sender_network receiver_network : ChainSupported) : outcome unit :=
  if decide (sender_network = receiver_network) then Ok ()
  else Err "currently complex cross chain route not supported".

(** ** Properties *)

(** What an accepted EVM signature certifies: the signature recovers, on the hashed
    message, a key on the curve whose address is the claimed one. *)
Definition evm_signed (address : string) (signature digest : bytes) : Prop :=
  ∃ addr sig key,
    parse_address address = Ok addr ∧ ecdsa_signature_try_from signature = Ok sig ∧
    recover_from_prehash sig digest = Ok key ∧
    is_on_curve_sec1 (to_encoded_point key) = true ∧
    let h := keccak_256 (drop 1 (to_encoded_point key)) in
    parse_address (hex_0x (drop (length h - 20) h)) = Ok addr.

Definition personal_message_digest (msg : bytes) : bytes :=
  keccak_256 (as_bytes ETH_SIG_MSG_PREFIX ++ as_bytes (nat_to_string (length msg)) ++ msg).

Lemma context_Ok {A} msg (o : outcome A) a : context msg o = Ok a ↔ o = Ok a.
Proof. destruct o; simpl; naive_solver. Qed.

Lemma outcome_bind_Ok {A B} (o : outcome A) (f : A → outcome B) b :
  (o ≫= f) = Ok b ↔ ∃ a, o = Ok a ∧ f a = Ok b.
Proof. destruct o; simpl; naive_solver. Qed.

Lemma verify_evm_signature_Ok address signature msg who :
  verify_evm_signature address signature msg who = Ok () ↔
  ∃ digest, evm_signed address signature digest ∧
    if decide (who = "Receiver") then digest = personal_message_digest msg
    else digest = msg ∧ length msg = 32%nat.
Proof.
  unfold verify_evm_signature, evm_signed, to_b256. cbv zeta. split.
  - intros (addr & Haddr & (digest & Hd & (sig & Hsig%context_Ok &
      (key & Hkey%context_Ok & Hrest)%outcome_bind_Ok)%outcome_bind_Ok)%outcome_bind_Ok)%outcome_bind_Ok.
    destruct (is_on_curve_sec1 _) eqn:Hcurve; simpl in Hrest; [|done].
    apply outcome_bind_Ok in Hrest as (addr' & Haddr'%context_Ok & Hrest).
    destruct (decide (addr' = addr)) as [->|]; [|done]. exists digest. split.
    + exists addr, sig, key. destruct (parse_address address); naive_solver.
    + destruct (decide (who = "Receiver")); [by injection Hd|]. by case_decide; simplify_eq.
  - intros (digest & (addr & sig & key & -> & -> & Hkey & Hcurve & Haddr) & Hd).
    assert ((if decide (who = "Receiver")
             then mret (keccak_256 (as_bytes ETH_SIG_MSG_PREFIX ++
                    as_bytes (nat_to_string (length msg)) ++ msg))
             else if decide (length msg = 32%nat) then Ok msg
                  else Panic (ExpectFailed "called `Result::unwrap()` on an `Err` value")) =
            Ok digest) as ->.
    { destruct (decide (who = "Receiver")); [by subst|]. destruct Hd as [-> ?].
      by rewrite decide_True. }
    simpl. rewrite Hkey. simpl. rewrite Hcurve. simpl. rewrite Haddr. simpl.
    by rewrite decide_True.
Qed.

(** The networks whose signatures the node can check. *)
Definition verifiable (network : ChainSupported) : bool :=
  match network with Tron | Bitcoin | Polkadot => false | _ => true end.

(** C15: address validation of the receiver on an EVM network accepts exactly the
    transactions whose receiver signature recovers, on the personal-message digest
    of the receiver's own address, a key on the curve with that address. *)
Theorem receiver_validation_evm (tx : TxStateMachine)
    (Hnet : match receiver_address_network tx with
            | Ethereum | Bnb | Arbitrum | Optimism | Polygon | Base => True
            | _ => False
            end) :
  validate_receiver_and_sender_address tx "Receiver" = Ok () ↔
  ∃ signature, recv_signature tx = Some signature ∧
    evm_signed (receiver_address tx) signature
      (personal_message_digest (as_bytes (receiver_address tx))).
Proof.
  unfold validate_receiver_and_sender_address.
  destruct (recv_signature tx) as [s|]; simpl; [|naive_solver].
  assert (verify_evm_signature (receiver_address tx) s (as_bytes (receiver_address tx))
      "Receiver" = Ok () ↔
    evm_signed (receiver_address tx) s
      (personal_message_digest (as_bytes (receiver_address tx)))) as Hv.
  { rewrite verify_evm_signature_Ok. split.
    - intros (d & He & Hd). rewrite decide_True in Hd by done. by subst d.
    - intros He. eexists. split; [exact He|]. by rewrite decide_True. }
  destruct (receiver_address_network tx); try done; rewrite Hv; naive_solver.
Qed.

(** No transaction on TRON, Bitcoin or Polkadot can be validated: with a
    signature present, the check always panics. *)
Theorem unverifiable_networks_panic (tx : TxStateMachine) (signature : bytes)
    (Hsig : recv_signature tx = Some signature)
    (Hnet : verifiable (receiver_address_network tx) = false) :
  panics (validate_receiver_and_sender_address tx "Receiver") = true.
Proof.
  unfold validate_receiver_and_sender_address. rewrite Hsig. simpl.
  by destruct (receiver_address_network tx).
Qed.

(** The identifier that ties a transaction to its parties hashes the two
    addresses without a separator: two pairs of addresses with the same
    concatenation have the same identifier, and so do any two transfers between
    the same two parties. *)
Theorem multi_id_ambiguous (s r s' r' : string) (txn : TxStateMachine)
    (Hsame : s +:+ r = s' +:+ r')
    (Hs : sender_address txn = s') (Hr : receiver_address txn = r')
    (Hid : multi_id txn = multi_id_of s r) :
  validate_multi_id txn = true.
Proof.
  unfold validate_multi_id, multi_id_of in *. apply bool_decide_eq_true.
  rewrite Hid, Hs, Hr, <-!as_bytes_app. by rewrite Hsame.
Qed.

(** A transaction that carries the identifier made for [s] and [r] and passes
    the identifier check has addresses that concatenate to those of [s] and [r],
    or exhibits a collision of the hash. *)
Theorem multi_id_binds (s r : string) (txn : TxStateMachine)
    (Hid : multi_id txn = multi_id_of s r) (Hv : validate_multi_id txn = true) :
  sender_address txn +:+ receiver_address txn = s +:+ r ∨
  ∃ x y, x ≠ y ∧ blake2_256 x = blake2_256 y.
Proof.
  unfold validate_multi_id, multi_id_of in *. apply bool_decide_eq_true in Hv.
  rewrite Hid, <-!as_bytes_app in Hv.
  destruct (decide (sender_address txn +:+ receiver_address txn = s +:+ r)) as [|Hne]; [by left|].
  right. eexists _, _. split; [|exact Hv]. by intros ?%(inj as_bytes).
Qed.
End validation.

(** ** A concrete scheme and its witnesses

An address is its own parse, hashes are the identity (cut or padded to the digest's size for
[blake2_256]), and a signature is the signer's address followed by the digest. *)

Definition sample_recover (sig digest : bytes) : outcome bytes :=
  let n := (length sig - length digest)%nat in
  if decide (drop n sig = digest) then Ok (Byte.x04 :: take n sig) else Err "bad signature".

Definition sample_crypto : Crypto := {|
  Address := string;
  address_eq := _;
  EcdsaSignature := bytes;
  VerifyingKey := bytes;
  Ed25519PublicKey := bytes;
  Ed25519Signature := bytes;
  blake2_256 x := take 32 (x ++ repeat Byte.x00 32);
  keccak_256 x := x;
  parse_address s := Ok s;
  to_checksum s := s;
  parse_checksummed s := Ok s;
  hex_0x := String.string_of_list_byte;
  ecdsa_signature_try_from s := Ok s;
  recover_from_prehash := sample_recover;
  to_encoded_point k := k;
  sec1_point _ := Some true;
  from_base58 s := Some (as_bytes s);
  ed25519_public_key b := Ok b;
  ed25519_signature b := Ok b;
  ed25519_verify k m s := bool_decide (s = k ++ m)
|}.

#[local] Existing Instance sample_crypto.

(** Bob's signature of his own address. *)
Definition bob_signature : bytes :=
  as_bytes "bob" ++ personal_message_digest (as_bytes "bob").

Definition signed_by (signature : option bytes) (tx : TxStateMachine) : TxStateMachine := {|
  sender_address := sender_address tx; sender_public_key := sender_public_key tx;
  receiver_address := receiver_address tx; receiver_public_key := receiver_public_key tx;
  multi_id := multi_id tx; recv_signature := signature; token := token tx;
  status := status tx; code_word := code_word tx; amount := amount tx;
  fees_amount := fees_amount tx; signed_call_payload := signed_call_payload tx;
  call_payload := call_payload tx; inbound_req_id := inbound_req_id tx;
  outbound_req_id := outbound_req_id tx; tx_nonce := tx_nonce tx; tx_version := tx_version tx;
  sender_address_network := sender_address_network tx;
  receiver_address_network := receiver_address_network tx |}.
Definition on_network (n : ChainSupported) (tx : TxStateMachine) : TxStateMachine := {|
  sender_address := sender_address tx; sender_public_key := sender_public_key tx;
  receiver_address := receiver_address tx; receiver_public_key := receiver_public_key tx;
  multi_id := multi_id tx; recv_signature := recv_signature tx; token := token tx;
  status := status tx; code_word := code_word tx; amount := amount tx;
  fees_amount := fees_amount tx; signed_call_payload := signed_call_payload tx;
  call_payload := call_payload tx; inbound_req_id := inbound_req_id tx;
  outbound_req_id := outbound_req_id tx; tx_nonce := tx_nonce tx; tx_version := tx_version tx;
  sender_address_network := n; receiver_address_network := n |}.

Definition bob_signed (st : TxStatus) : TxStateMachine :=
  signed_by (Some bob_signature) (tx_ab st).

Lemma receiver_validation_evm_witness :
  validate_receiver_and_sender_address (bob_signed RecvAddrConfirmed) "Receiver" = Ok () ∧
  ∃ signature, recv_signature (bob_signed RecvAddrConfirmed) = Some signature ∧
    evm_signed "bob" signature (personal_message_digest (as_bytes "bob")).
Proof.
  assert (validate_receiver_and_sender_address (bob_signed RecvAddrConfirmed) "Receiver" = Ok ())
    as Hv by (vm_compute; reflexivity).
  split; [exact Hv|].
  exact (proj1 (receiver_validation_evm (bob_signed RecvAddrConfirmed) I) Hv).
Defined.

Lemma unverifiable_networks_panic_witness :
  panics (validate_receiver_and_sender_address
    (on_network Bitcoin (bob_signed RecvAddrConfirmed)) "Receiver") = true.
Proof.
  exact (unverifiable_networks_panic (on_network Bitcoin (bob_signed RecvAddrConfirmed))
    bob_signature eq_refl eq_refl).
Defined.

(** Alice to Bob, and "alic" to "ebob". *)
Definition split_tx : TxStateMachine :=
  sample_tx "alic" "ebob" (multi_id_of "alice" "bob") Genesis.

Lemma multi_id_ambiguous_witness : validate_multi_id split_tx = true.
Proof. exact (multi_id_ambiguous "alice" "bob" "alic" "ebob" split_tx eq_refl eq_refl eq_refl eq_refl). Defined.

Lemma multi_id_binds_witness :
  "alic" +:+ "ebob" = "alice" +:+ "bob" ∨ ∃ x y, x ≠ y ∧ blake2_256 x = blake2_256 y.
Proof.
  apply (multi_id_binds "alice" "bob" split_tx); [reflexivity|vm_compute; reflexivity].
Defined.
