(* ===== verification/Node.v ===== *)
(** The state of a node in the browser: what its parts share, as
    [WasmMainServiceWorker::new] ([node/wasm/src/lib.rs]) lays it out.

    The parts hold their shared state in [Rc<RefCell<_>>]s.  A [RefCell]'s borrow
    flag is part of the state: [with_mut] and [with_ref] take a borrow for the
    extent of a computation, panic when the cell is already borrowed, and keep the
    borrow when the computation stays pending (a future that is suspended at an
    [await] does not drop its guards) and when it panics (the WebAssembly target
    aborts without unwinding: the memory outlives the trap as it was).  In the 2021 edition the guard in the
    scrutinee of an [if let] or [match] lives through every branch, so such a
    branch is inside the [with_mut].

    A bounded channel is a queue: [send] on a full one stays pending, [try_send]
    fails. *)

From S2P Require Import Prelude DataStructure Codec DbInterface Lru TxProcessing.
Open Scope N_scope.

(** ** Bounded channels ([tokio::sync::mpsc]) *)

Record Chan (A : Type) := { queue : list A; capacity : nat; closed : bool }.
Arguments Build_Chan {A} _ _ _.
Arguments queue {A} _.
Arguments capacity {A} _.
Arguments closed {A} _.

Definition chan_new {A} (n : nat) : Chan A :=
  {| queue := []; capacity := n; closed := false |}.
Definition chan_full {A} (ch : Chan A) : bool :=
  bool_decide (capacity ch ≤ length (queue ch))%nat.
Definition chan_push {A} (x : A) (ch : Chan A) : Chan A :=
  {| queue := queue ch ++ [x]; capacity := capacity ch; closed := closed ch |}.
(** The last sender is dropped. *)
Definition chan_close {A} (ch : Chan A) : Chan A :=
  {| queue := queue ch; capacity := capacity ch; closed := true |}.
Definition chan_pop {A} (ch : Chan A) : Chan A :=
  {| queue := tail (queue ch); capacity := capacity ch; closed := closed ch |}.

(** [ch.send(x).await] *)
Definition chan_send {A} (x : A) (ch : Chan A) : outcome (Chan A) :=
  if closed ch then Err "channel closed"
  else if chan_full ch then Parked
  else Ok (chan_push x ch).
(** [ch.try_send(x)] *)
Definition chan_try_send {A} (x : A) (ch : Chan A) : outcome (Chan A) :=
  if closed ch then Err "channel closed"
  else if chan_full ch then Err "no available capacity"
  else Ok (chan_push x ch).

(** The channel takes [n] more messages. *)
Definition has_room {A} (n : nat) (ch : Chan A) : Prop :=
  closed ch = false ∧ (length (queue ch) + n ≤ capacity ch)%nat.

Lemma has_room_le {A} n m (ch : Chan A) : (m ≤ n)%nat → has_room n ch → has_room m ch.
Proof. unfold has_room. naive_solver lia. Qed.
Lemma chan_send_room {A} (x : A) ch n :
  has_room (S n) ch → chan_send x ch = Ok (chan_push x ch) ∧ has_room n (chan_push x ch).
Proof.
  intros [Hc Hl]. unfold chan_send, chan_full, has_room. rewrite Hc.
  rewrite bool_decide_eq_false_2 by lia. split_and!; [done..|].
  simpl. rewrite length_app. simpl. lia.
Qed.
Lemma chan_try_send_room {A} (x : A) ch n :
  has_room (S n) ch → chan_try_send x ch = Ok (chan_push x ch).
Proof.
  intros [Hc Hl]. unfold chan_try_send, chan_full. rewrite Hc.
  by rewrite bool_decide_eq_false_2 by lia.
Qed.

(** ** Borrow flags *)

Inductive borrow := Free | Shared (n : nat) | Exclusive.

Inductive cell :=
  | CacheCell | TxWorkerCell | RpcSenderCell | RpcRecvCell | UserSenderCell
  | UserRecvCell | NetworkServiceCell | IntegrityCell | NotifSenderCell | NotifRecvCell.

Record Borrows := {
  b_cache : borrow;
  b_tx_worker : borrow;
  b_rpc_sender : borrow;
  b_rpc_recv : borrow;
  b_user_sender : borrow;
  b_user_recv : borrow;
  b_network_service : borrow;
  b_integrity : borrow;
  b_notif_sender : borrow;
  b_notif_recv : borrow
}.

Definition no_borrows : Borrows := {|
  b_cache := Free;
  b_tx_worker := Free;
  b_rpc_sender := Free;
  b_rpc_recv := Free;
  b_user_sender := Free;
  b_user_recv := Free;
  b_network_service := Free;
  b_integrity := Free;
  b_notif_sender := Free;
  b_notif_recv := Free |}.

Definition get_borrow (c : cell) : Borrows → borrow :=
  match c with
  | CacheCell => b_cache
  | TxWorkerCell => b_tx_worker
  | RpcSenderCell => b_rpc_sender
  | RpcRecvCell => b_rpc_recv
  | UserSenderCell => b_user_sender
  | UserRecvCell => b_user_recv
  | NetworkServiceCell => b_network_service
  | IntegrityCell => b_integrity
  | NotifSenderCell => b_notif_sender
  | NotifRecvCell => b_notif_recv
  end.

Definition set_borrow (c : cell) (v : borrow) (bs : Borrows) : Borrows :=
  match c with
  | CacheCell => {|
      b_cache := v; b_tx_worker := b_tx_worker bs; b_rpc_sender := b_rpc_sender bs;
      b_rpc_recv := b_rpc_recv bs; b_user_sender := b_user_sender bs;
      b_user_recv := b_user_recv bs; b_network_service := b_network_service bs;
      b_integrity := b_integrity bs; b_notif_sender := b_notif_sender bs;
      b_notif_recv := b_notif_recv bs |}
  | TxWorkerCell => {|
      b_cache := b_cache bs; b_tx_worker := v; b_rpc_sender := b_rpc_sender bs;
      b_rpc_recv := b_rpc_recv bs; b_user_sender := b_user_sender bs;
      b_user_recv := b_user_recv bs; b_network_service := b_network_service bs;
      b_integrity := b_integrity bs; b_notif_sender := b_notif_sender bs;
      b_notif_recv := b_notif_recv bs |}
  | RpcSenderCell => {|
      b_cache := b_cache bs; b_tx_worker := b_tx_worker bs; b_rpc_sender := v;
      b_rpc_recv := b_rpc_recv bs; b_user_sender := b_user_sender bs;
      b_user_recv := b_user_recv bs; b_network_service := b_network_service bs;
      b_integrity := b_integrity bs; b_notif_sender := b_notif_sender bs;
      b_notif_recv := b_notif_recv bs |}
  | RpcRecvCell => {|
      b_cache := b_cache bs; b_tx_worker := b_tx_worker bs;
      b_rpc_sender := b_rpc_sender bs; b_rpc_recv := v; b_user_sender := b_user_sender bs;
      b_user_recv := b_user_recv bs; b_network_service := b_network_service bs;
      b_integrity := b_integrity bs; b_notif_sender := b_notif_sender bs;
      b_notif_recv := b_notif_recv bs |}
  | UserSenderCell => {|
      b_cache := b_cache bs; b_tx_worker := b_tx_worker bs;
      b_rpc_sender := b_rpc_sender bs; b_rpc_recv := b_rpc_recv bs; b_user_sender := v;
      b_user_recv := b_user_recv bs; b_network_service := b_network_service bs;
      b_integrity := b_integrity bs; b_notif_sender := b_notif_sender bs;
      b_notif_recv := b_notif_recv bs |}
  | UserRecvCell => {|
      b_cache := b_cache bs; b_tx_worker := b_tx_worker bs;
      b_rpc_sender := b_rpc_sender bs; b_rpc_recv := b_rpc_recv bs;
      b_user_sender := b_user_sender bs; b_user_recv := v;
      b_network_service := b_network_service bs; b_integrity := b_integrity bs;
      b_notif_sender := b_notif_sender bs; b_notif_recv := b_notif_recv bs |}
  | NetworkServiceCell => {|
      b_cache := b_cache bs; b_tx_worker := b_tx_worker bs;
      b_rpc_sender := b_rpc_sender bs; b_rpc_recv := b_rpc_recv bs;
      b_user_sender := b_user_sender bs; b_user_recv := b_user_recv bs;
      b_network_service := v; b_integrity := b_integrity bs;
      b_notif_sender := b_notif_sender bs; b_notif_recv := b_notif_recv bs |}
  | IntegrityCell => {|
      b_cache := b_cache bs; b_tx_worker := b_tx_worker bs;
      b_rpc_sender := b_rpc_sender bs; b_rpc_recv := b_rpc_recv bs;
      b_user_sender := b_user_sender bs; b_user_recv := b_user_recv bs;
      b_network_service := b_network_service bs; b_integrity := v;
      b_notif_sender := b_notif_sender bs; b_notif_recv := b_notif_recv bs |}
  | NotifSenderCell => {|
      b_cache := b_cache bs; b_tx_worker := b_tx_worker bs;
      b_rpc_sender := b_rpc_sender bs; b_rpc_recv := b_rpc_recv bs;
      b_user_sender := b_user_sender bs; b_user_recv := b_user_recv bs;
      b_network_service := b_network_service bs; b_integrity := b_integrity bs;
      b_notif_sender := v; b_notif_recv := b_notif_recv bs |}
  | NotifRecvCell => {|
      b_cache := b_cache bs; b_tx_worker := b_tx_worker bs;
      b_rpc_sender := b_rpc_sender bs; b_rpc_recv := b_rpc_recv bs;
      b_user_sender := b_user_sender bs; b_user_recv := b_user_recv bs;
      b_network_service := b_network_service bs; b_integrity := b_integrity bs;
      b_notif_sender := b_notif_sender bs; b_notif_recv := v |}
  end.

Lemma get_set_borrow c v bs : get_borrow c (set_borrow c v bs) = v.
Proof. by destruct c. Qed.
(** Taking a borrow and giving it back. *)
Lemma set_borrow_back c v bs : set_borrow c (get_borrow c bs) (set_borrow c v bs) = bs.
Proof. by destruct c, bs. Qed.

(** ** The node *)

Section node.
Context {P2P : P2pTypes} {LRU : LruCache N (TtlWrapper TxStateMachine)} {D : Type}.

Record Node := {
  node_db : D;
  cache : Lru N (TtlWrapper TxStateMachine);
  (* rpc_sender_channel and its receiver: updates for the user *)
  rpc_channel : Chan TxStateMachine;
  (* user_rpc_update_sender_channel and its receiver: the user's updates *)
  user_channel : Chan TxStateMachine;
  (* p2p_command_tx and its receiver *)
  p2p_commands : Chan NetworkCommand;
  (* P2pEventNotifSubSystem *)
  p2p_event_notif : Chan BackendEvent;
  tx_integrity : gmap N bytes;
  host_calls : list host_call;
  borrows : Borrows
}.

Definition with_node_db f (s : Node) : Node := {|
  node_db := f (node_db s); cache := cache s; rpc_channel := rpc_channel s;
  user_channel := user_channel s; p2p_commands := p2p_commands s;
  p2p_event_notif := p2p_event_notif s; tx_integrity := tx_integrity s;
  host_calls := host_calls s; borrows := borrows s |}.
Definition with_cache f (s : Node) : Node := {|
  node_db := node_db s; cache := f (cache s); rpc_channel := rpc_channel s;
  user_channel := user_channel s; p2p_commands := p2p_commands s;
  p2p_event_notif := p2p_event_notif s; tx_integrity := tx_integrity s;
  host_calls := host_calls s; borrows := borrows s |}.
Definition with_rpc_channel f (s : Node) : Node := {|
  node_db := node_db s; cache := cache s; rpc_channel := f (rpc_channel s);
  user_channel := user_channel s; p2p_commands := p2p_commands s;
  p2p_event_notif := p2p_event_notif s; tx_integrity := tx_integrity s;
  host_calls := host_calls s; borrows := borrows s |}.
Definition with_user_channel f (s : Node) : Node := {|
  node_db := node_db s; cache := cache s; rpc_channel := rpc_channel s;
  user_channel := f (user_channel s); p2p_commands := p2p_commands s;
  p2p_event_notif := p2p_event_notif s; tx_integrity := tx_integrity s;
  host_calls := host_calls s; borrows := borrows s |}.
Definition with_p2p_commands f (s : Node) : Node := {|
  node_db := node_db s; cache := cache s; rpc_channel := rpc_channel s;
  user_channel := user_channel s; p2p_commands := f (p2p_commands s);
  p2p_event_notif := p2p_event_notif s; tx_integrity := tx_integrity s;
  host_calls := host_calls s; borrows := borrows s |}.
Definition with_p2p_event_notif f (s : Node) : Node := {|
  node_db := node_db s; cache := cache s; rpc_channel := rpc_channel s;
  user_channel := user_channel s; p2p_commands := p2p_commands s;
  p2p_event_notif := f (p2p_event_notif s); tx_integrity := tx_integrity s;
  host_calls := host_calls s; borrows := borrows s |}.
Definition with_tx_integrity f (s : Node) : Node := {|
  node_db := node_db s; cache := cache s; rpc_channel := rpc_channel s;
  user_channel := user_channel s; p2p_commands := p2p_commands s;
  p2p_event_notif := p2p_event_notif s; tx_integrity := f (tx_integrity s);
  host_calls := host_calls s; borrows := borrows s |}.
Definition with_host_calls f (s : Node) : Node := {|
  node_db := node_db s; cache := cache s; rpc_channel := rpc_channel s;
  user_channel := user_channel s; p2p_commands := p2p_commands s;
  p2p_event_notif := p2p_event_notif s; tx_integrity := tx_integrity s;
  host_calls := f (host_calls s); borrows := borrows s |}.
Definition with_borrows f (s : Node) : Node := {|
  node_db := node_db s; cache := cache s; rpc_channel := rpc_channel s;
  user_channel := user_channel s; p2p_commands := p2p_commands s;
  p2p_event_notif := p2p_event_notif s; tx_integrity := tx_integrity s;
  host_calls := host_calls s; borrows := f (borrows s) |}.

(** ** Borrows of the cells *)

(** Leave the borrow taken by [set_borrow c taken], which found [b]. *)
Definition release (c : cell) (b : borrow) {A} (o : outcome A) (s : Node) : Node :=
  match o with
  | Parked | Panic _ => s
  | _ => with_borrows (set_borrow c b) s
  end.

(** [cell.borrow_mut()] held for the extent of [m]. *)
Definition with_mut (c : cell) {A} (m : M Node A) : M Node A := λ s,
  match get_borrow c (borrows s) with
  | Free =>
      let (o, s') := m (with_borrows (set_borrow c Exclusive) s) in
      (o, release c Free o s')
  | _ => (Panic BorrowMutError, s)
  end.

(** [cell.borrow()] held for the extent of [m]. *)
Definition with_ref (c : cell) {A} (m : M Node A) : M Node A := λ s,
  match get_borrow c (borrows s) with
  | Exclusive => (Panic BorrowError, s)
  | b =>
      let n := match b with Shared n => n | _ => 0%nat end in
      let (o, s') := m (with_borrows (set_borrow c (Shared (S n))) s) in
      (o, release c b o s')
  end.

(** [match r { Ok(a) => .., Err(e) => .. }]: an error becomes a value. *)
Definition attempt {S A} (m : M S A) : M S (A + string) := λ s,
  match m s with
  | (Ok a, s') => (Ok (inl a), s')
  | (Err e, s') => (Ok (inr e), s')
  | (Panic p, s') => (Panic p, s')
  | (Parked, s') => (Parked, s')
  end.

(** ** The parts *)

Definition on_db {A} (m : M D A) : M Node A := λ s,
  let (o, d) := m (node_db s) in (o, with_node_db (λ _, d) s).

Definition rpc_send (tx : TxStateMachine) : M Node unit :=
  with_mut RpcSenderCell (
    ch ← gets rpc_channel;
    ch ← lift (chan_send tx ch);
    modify (with_rpc_channel (λ _, ch))).

Definition rpc_try_send (tx : TxStateMachine) : M Node unit :=
  with_mut RpcSenderCell (
    ch ← gets rpc_channel;
    ch ← lift (chan_try_send tx ch);
    modify (with_rpc_channel (λ _, ch))).

(** [self.p2p_network_service.borrow().p2p_command_tx.clone()], then a [send] on
    the clone. *)
Definition command_send (cmd : NetworkCommand) : M Node unit :=
  with_ref NetworkServiceCell skip;;
  ch ← gets p2p_commands;
  ch ← lift (chan_send cmd ch);
  modify (with_p2p_commands (λ _, ch)).

(** [self.lru_cache.borrow_mut().push(k, w)] *)
Definition cache_push (k : N) (w : TtlWrapper TxStateMachine) : M Node unit :=
  with_mut CacheCell (modify (with_cache (lru_push k w))).

(** [cache.get_mut(k)], updating the value through the reference: the updated
    wrapper, if there is one. *)
Definition cache_get_mut (k : N) (f : TtlWrapper TxStateMachine → TtlWrapper TxStateMachine) :
    M Node (option (TtlWrapper TxStateMachine)) :=
  modify (with_cache (lru_get_mut k f));;
  gets (λ s, lru_peek k (cache s)).

Definition cache_get (k : N) : M Node (option (TtlWrapper TxStateMachine)) := λ s,
  (Ok (lru_get k (cache s)).1, with_cache (λ c, (lru_get k c).2) s).

(** No cell is borrowed: the state between two handlers. *)
Definition quiet (s : Node) : Prop := borrows s = no_borrows.

End node.
Arguments Node {_ _} D.
