(* ===== verification/NodeLogic.v ===== *)
(** A logic for what the node's handlers keep: [keeps I m Q] says that, from a state
    that satisfies [I], [m] leaves [I] true whatever its outcome, and returns values
    that satisfy [Q].  A rule per construct of the node's monad. *)

From S2P Require Import Prelude DataStructure DbInterface Lru Node.

Section logic.
Context {P2P : P2pTypes} {LRU : LruCache N (TtlWrapper TxStateMachine)} {D : Type}.
Abbreviation NodeM := (M (Node D)).

Definition keeps (I : Node D → Prop) {A} (m : NodeM A) (Q : A → Prop) : Prop :=
  ∀ s, I s → I (m s).2 ∧ ∀ a, (m s).1 = Ok a → Q a.

(** The borrow flags play no part in the invariant. *)
Class BorrowBlind (I : Node D → Prop) : Prop :=
  borrow_blind f s : I s → I (with_borrows f s).

Definition any {A} (_ : A) : Prop := True.
Lemma any_intro {A} (a : A) : any a.
Proof. exact Logic.I. Qed.
#[local] Hint Resolve any_intro : core.

Implicit Types (I : Node D → Prop).

Lemma keeps_pure I {A} (m : NodeM A) : (∀ s, I s → I (m s).2) → keeps I m any.
Proof. intros Hm s Hs. auto. Qed.
Lemma keeps_ret I {A} (a : A) (Q : A → Prop) : Q a → keeps I (mret a) Q.
Proof. intros Ha s Hs. split; [done|]. intros a' [=]. by subst. Qed.
Lemma keeps_skip I : keeps I skip any.
Proof. by apply keeps_ret. Qed.
Lemma keeps_lift I {A} (o : outcome A) (Q : A → Prop) :
  (∀ a, o = Ok a → Q a) → keeps I (lift o) Q.
Proof. intros Ho s Hs. by split. Qed.
Lemma keeps_fail I {A} e (Q : A → Prop) : keeps I (fail e) Q.
Proof. by intros s Hs. Qed.
Lemma keeps_crash I {A} p (Q : A → Prop) : keeps I (crash p) Q.
Proof. by intros s Hs. Qed.
Lemma keeps_gets I {A} (f : Node D → A) (Q : A → Prop) :
  (∀ s, I s → Q (f s)) → keeps I (gets f) Q.
Proof. intros Hf s Hs. split; [done|]. intros a [=]. subst. auto. Qed.
Lemma keeps_modify I f : (∀ s, I s → I (f s)) → keeps I (modify f) any.
Proof. intros Hf s Hs. split; [apply Hf, Hs|done]. Qed.
Lemma keeps_any I {A} (m : NodeM A) Q : keeps I m Q → keeps I m any.
Proof. intros Hm s Hs. destruct (Hm s Hs). done. Qed.
Lemma keeps_weaken I {A} (m : NodeM A) Q (R : A → Prop) :
  keeps I m Q → (∀ a, Q a → R a) → keeps I m R.
Proof. intros Hm HQR s Hs. destruct (Hm s Hs). split; eauto. Qed.
Lemma keeps_bind I {A B} (m : NodeM A) (f : A → NodeM B) Q R :
  keeps I m Q → (∀ a, Q a → keeps I (f a) R) → keeps I (m ≫= f) R.
Proof.
  intros Hm Hf s Hs. destruct (Hm s Hs) as [Hs' HQ]. unfold mbind, M_bind.
  destruct (m s) as [[a| | |] s']; simpl in *; [|done..]. apply Hf; auto.
Qed.
Lemma keeps_with_mut I `{!BorrowBlind I} c {A} (m : NodeM A) Q :
  keeps I m Q → keeps I (with_mut c m) Q.
Proof.
  intros Hm s Hs. unfold with_mut. destruct (get_borrow c (borrows s)); [|done..].
  destruct (Hm (with_borrows (set_borrow c Exclusive) s) (borrow_blind _ s Hs)) as [Hs' HQ].
  destruct (m _) as [o s']. simpl in *. split; [|done].
  destruct o; by try apply borrow_blind.
Qed.
Lemma keeps_with_ref I `{!BorrowBlind I} c {A} (m : NodeM A) Q :
  keeps I m Q → keeps I (with_ref c m) Q.
Proof.
  intros Hm s Hs. unfold with_ref. destruct (get_borrow c (borrows s)) as [|n|]; [| |done].
  - destruct (Hm (with_borrows (set_borrow c (Shared 1)) s) (borrow_blind _ s Hs)) as [Hs' HQ].
    destruct (m _) as [o s']. simpl in *. split; [|done]. destruct o; by try apply borrow_blind.
  - destruct (Hm (with_borrows (set_borrow c (Shared (S n))) s) (borrow_blind _ s Hs))
      as [Hs' HQ].
    destruct (m _) as [o s']. simpl in *. split; [|done]. destruct o; by try apply borrow_blind.
Qed.
(** A value, or an error. *)
Definition on_value {A} (Q : A → Prop) (r : A + string) : Prop :=
  match r with inl a => Q a | inr _ => True end.
Lemma keeps_attempt I {A} (m : NodeM A) Q : keeps I m Q → keeps I (attempt m) (on_value Q).
Proof.
  intros Hm s Hs. destruct (Hm s Hs) as [Hs' HQ]. unfold attempt.
  destruct (m s) as [[a|e|p|] s']; simpl in *; (split; [done|]); intros r [=]; subst; simpl; auto.
Qed.
Lemma keeps_for_each I {A} (f : A → NodeM unit) (P : A → Prop) l :
  (∀ x, P x → keeps I (f x) any) → Forall P l → keeps I (for_each f l) any.
Proof.
  intros Hf. induction 1 as [|x l Hx _ IH]; simpl; [by apply keeps_ret|].
  eapply keeps_bind; [by apply Hf|]. by intros.
Qed.
End logic.
