(* ===== verification/MainService.v ===== *)
(** The node's main service ([WasmMainServiceWorker] in [node/wasm/src/lib.rs]):
    the handlers of the messages that arrive from the network and of the updates
    that arrive from the user.

    [now] is the clock in seconds, [js_sys::Date::now() / 1000.0], read at most once
    on each path.  Logging is left out. *)

From S2P Require Import Prelude DataStructure DbInterface Lru TxProcessing Node.
Open Scope N_scope.

(** The record of a transfer, with the hash of its submission. *)
Definition db_record (tx_hash : bytes) (success : bool) (tx : TxStateMachine) :
    DbTxStateMachine := {|
  db_tx_hash := tx_hash;
  db_amount := amount tx;
  db_token := token tx;
  db_sender := sender_address tx;
  db_receiver := receiver_address tx;
  db_sender_network := sender_address_network tx;
  db_receiver_network := receiver_address_network tx;
  db_success := success
|}.

(** [accounts.iter().any(|(acc, _)| *acc == a)] *)
Definition in_profile (a : string) (profile : UserAccount) : bool :=
  existsb (λ acc, bool_decide (acc.1 = a)) (accounts profile).

Definition both_in_profile (tx : TxStateMachine) (profile : UserAccount) : bool :=
  in_profile (receiver_address tx) profile && in_profile (sender_address tx) profile.

(** A cached update keeps a call payload that the new value does not have. *)
Definition keep_call_payload (existing tx : TxStateMachine) : TxStateMachine :=
  if bool_decide (is_Some (call_payload existing)) && negb (bool_decide (is_Some (call_payload tx)))
  then set_call_payload (call_payload existing) tx
  else tx.

(** Inbound responses that are dropped: the transaction is reverted here, or the
    response is older than what is known here. *)
Definition dropped_response (existing : option (TtlWrapper TxStateMachine))
    (decoded_resp : TxStateMachine) : bool :=
  match existing with
  | Some existing =>
      is_reverted (status (get_value existing)) ||
      (tx_version decoded_resp <? tx_version (get_value existing))
  | None => false
  end.

Section service.
Context {P2P : P2pTypes} {LRU : LruCache N (TtlWrapper TxStateMachine)}.
Context {D : Type} {DB : DbWorkerInterface D} {CR : Crypto} {HO : Host}.
Abbreviation NodeM := (M (Node D)).

(** *** The host *)

Definition create_tx (tx : TxStateMachine) : NodeM TxStateMachine :=
  calls ← gets host_calls;
  modify (with_host_calls (λ l, l ++ [HostCreate tx]));;
  lift (context "createTx failed: " (create_tx_js calls tx)).

Definition submit_tx (tx : TxStateMachine) : NodeM bytes :=
  calls ← gets host_calls;
  modify (with_host_calls (λ l, l ++ [HostSubmit tx]));;
  lift (context "submitTx failed: " (submit_tx_js calls tx)).

(** *** The network service *)

Definition wasm_send_request (request : TxStateMachine) : NodeM unit :=
  ch ← gets p2p_commands;
  ch ← lift (context "failed to send req command; " (chan_send (WasmSendRequest request) ch));
  modify (with_p2p_commands (λ _, ch)).

Definition wasm_send_response (response : TxStateMachine) : NodeM unit :=
  ch ← gets p2p_commands;
  ch ← lift (chan_send (WasmSendResponse (inl response)) ch);
  modify (with_p2p_commands (λ _, ch)).

(** *** Cache updates, as the handlers write them *)

(** [if let Some(w) = cache.borrow_mut().get_mut(k)] with a second borrow of the
    cache in each branch. *)
Definition update_push_send (now : N) (tx absent : TxStateMachine) : NodeM unit :=
  with_mut CacheCell (
    found ← cache_get_mut (tx_nonce tx) (update_value tx);
    match found with
    | Some ttl_wrapper =>
        cache_push (tx_nonce tx) ttl_wrapper;;
        rpc_send tx
    | None =>
        cache_push (tx_nonce tx) (TtlWrapper_new absent now);;
        rpc_send absent
    end).

(** The same with a second borrow in the [else] branch only. *)
Definition update_send (now : N) (tx : TxStateMachine) : NodeM unit :=
  with_mut CacheCell (
    found ← cache_get_mut (tx_nonce tx) (update_value tx);
    match found with
    | Some _ => rpc_send tx
    | None =>
        cache_push (tx_nonce tx) (TtlWrapper_new tx now);;
        rpc_send tx
    end).

(** *** Messages from the network *)

Definition handle_wasm_request (now : N) (decoded_req : TxStateMachine) : NodeM unit :=
  attempt (rpc_try_send decoded_req);;
  cache_push (tx_nonce decoded_req) (TtlWrapper_new decoded_req now).

(** The receiver's confirmation was accepted: ask the host for the transaction to
    sign.  [None] is the early return of a failed creation. *)
Definition response_confirmed (now : N) (decoded_resp : TxStateMachine) :
    NodeM (option TxStateMachine) :=
  let decoded_resp := increment_version (recv_confirmation_passed decoded_resp) in
  with_mut TxWorkerCell (
    created ← attempt (create_tx decoded_resp);
    match created with
    | inl tx => mret (Some tx)
    | inr _ =>
        update_push_send now
          (set_status (TxError "Failed to create transaction ") decoded_resp)
          (set_status (TxError "Failed to create transaction") decoded_resp);;
        mret None
    end).

(** The receiver's confirmation was refused. *)
Definition response_refused (decoded_resp : TxStateMachine) : NodeM TxStateMachine :=
  failed ← lift (recv_confirmation_failed decoded_resp);
  let failed := increment_version failed in
  on_db (update_failed_tx (db_record [] false failed));;
  mret failed.

Definition handle_wasm_response (now : N) (decoded_resp : TxStateMachine) : NodeM unit :=
  existing ← with_ref CacheCell (gets (λ s, lru_peek (tx_nonce decoded_resp) (cache s)));
  if dropped_response existing decoded_resp then skip else
  validated ← attempt (lift (validate_receiver_and_sender_address decoded_resp "Receiver"));
  updated ← match validated with
            | inl _ => response_confirmed now decoded_resp
            | inr _ => failed ← response_refused decoded_resp; mret (Some failed)
            end;
  match updated with
  | None => skip
  | Some decoded_resp =>
      rpc_try_send decoded_resp;;
      found ← with_mut CacheCell
        (cache_get_mut (tx_nonce decoded_resp) (update_value decoded_resp));
      match found with
      | Some ttl_wrapper => cache_push (tx_nonce decoded_resp) ttl_wrapper
      | None =>
          let expired := set_status (TxError "Transaction expired") decoded_resp in
          cache_push (tx_nonce expired) (TtlWrapper_new expired now);;
          rpc_send expired
      end
  end.

(** One turn of the loop over fetched transactions, under the cache's guard. *)
Definition cache_pending (now : N) (tx : TxStateMachine) : NodeM unit :=
  found ← cache_get_mut (tx_nonce tx)
    (λ ttl_wrapper, update_value (keep_call_payload (get_value ttl_wrapper) tx) ttl_wrapper);
  match found with
  | Some updated_wrapper => modify (with_cache (lru_push (tx_nonce tx) updated_wrapper))
  | None => modify (with_cache (lru_push (tx_nonce tx) (TtlWrapper_new tx now)))
  end.

Definition handle_swarm_message (now : N) (swarm_msg_result : SwarmMessage + string) :
    NodeM unit :=
  match swarm_msg_result with
  | inl (WasmRequest data) => handle_wasm_request now data
  | inl (WasmResponse data) => handle_wasm_response now data
  | inl (SwarmPendingTransactionsFetched address transactions) =>
      with_mut CacheCell (for_each (cache_pending now) transactions)
  | inl _ => skip
  | inr _ => skip
  end.

(** *** Updates from the user *)

Definition handle_genesis_tx_state (txn : TxStateMachine) : NodeM unit :=
  target_user_profile ← on_db get_user_account;
  if both_in_profile txn target_user_profile then
    found ← with_mut CacheCell (cache_get (tx_nonce txn));
    ttl_wrapper ← lift (ok_or found " Failed get transaction from cache");
    cache_push (tx_nonce txn) (update_value txn ttl_wrapper);;
    rpc_send txn
  else with_mut NetworkServiceCell (wasm_send_request txn).

(** As [response_confirmed], for a receiver on this node. *)
Definition local_confirmed (txn_inner : TxStateMachine) : NodeM (option TxStateMachine) :=
  let txn_inner := increment_version (recv_confirmation_passed txn_inner) in
  with_mut TxWorkerCell (
    created ← attempt (create_tx txn_inner);
    match created with
    | inl tx => mret (Some tx)
    | inr _ =>
        let failed := set_status (TxError "Failed to create transaction") txn_inner in
        with_mut CacheCell (
          found ← cache_get_mut (tx_nonce failed) (update_value failed);
          match found with
          | Some ttl_wrapper =>
              cache_push (tx_nonce failed) ttl_wrapper;;
              rpc_send failed
          | None => fail "Failed to get transaction from cache; expired"
          end);;
        mret None
    end).

Definition handle_recv_addr_confirmed_tx_state (txn : TxStateMachine) : NodeM unit :=
  target_user_profile ← on_db get_user_account;
  if both_in_profile txn target_user_profile then
    validated ← with_ref TxWorkerCell
      (attempt (lift (validate_receiver_and_sender_address txn "Receiver")));
    updated ← match validated with
              | inl _ => local_confirmed txn
              | inr _ => failed ← response_refused txn; mret (Some failed)
              end;
    match updated with
    | None => skip
    | Some txn_inner =>
        rpc_try_send txn_inner;;
        with_mut CacheCell (
          found ← cache_get_mut (tx_nonce txn_inner) (update_value txn_inner);
          match found with
          | Some _ => skip
          | None => fail "Failed to get transaction from cache; expired"
          end)
    end
  else with_mut NetworkServiceCell (wasm_send_response txn).

(** The sender's signature was refused: everybody is told. *)
Definition sender_refused (now : N) (txn_inner : TxStateMachine) : NodeM unit :=
  let failed := sender_confirmation_failed txn_inner in
  command_send (ConfirmTransaction (sender_address failed) failed);;
  cache_push (tx_nonce failed) (TtlWrapper_new failed now);;
  rpc_send failed.

(** The transaction is submitted through the host. *)
Definition submit_and_record (now : N) (txn_inner : TxStateMachine) : NodeM unit :=
  with_mut TxWorkerCell (
    submitted ← attempt (submit_tx txn_inner);
    match submitted with
    | inl tx_hash =>
        let passed := tx_submission_passed tx_hash txn_inner in
        on_db (update_success_tx (db_record tx_hash true passed));;
        command_send (TxSubmissionUpdate (sender_address passed) passed);;
        update_send now passed
    | inr _ =>
        let failed := tx_submission_failed "Failed to submit transaction" txn_inner in
        command_send (TxSubmissionUpdate (sender_address failed) failed);;
        update_send now failed
    end).

(** The parties are not those of the original transaction. *)
Definition parties_mismatch (now : N) (txn_inner : TxStateMachine) : NodeM unit :=
  let failed :=
    set_status (TxError "failed to match original sender and receiver") txn_inner in
  command_send (ConfirmTransaction (sender_address failed) failed);;
  update_send now failed;;
  on_db (update_failed_tx (db_record [] false failed)).

Definition handle_sender_confirmed_tx_state (now : N) (txn_inner : TxStateMachine) :
    NodeM unit :=
  prof ← on_db get_user_account;
  match status txn_inner with
  | FailedToSubmitTxn _ =>
      on_db (update_failed_tx (db_record [] false txn_inner));;
      update_push_send now txn_inner txn_inner
  | TxSubmissionPassed tx_hash =>
      on_db (update_success_tx (db_record tx_hash true txn_inner));;
      update_push_send now txn_inner txn_inner
  | _ =>
      with_ref TxWorkerCell (lift (validate_receiver_and_sender_address txn_inner "Receiver"));;
      returned ← with_ref TxWorkerCell (
        validated ← attempt (lift (validate_receiver_and_sender_address txn_inner "Sender"));
        match validated with
        | inl _ => mret false
        | inr _ => sender_refused now txn_inner;; mret true
        end);
      if returned : bool then skip else
      matches ← with_ref TxWorkerCell (gets (λ _, validate_multi_id txn_inner));
      if matches : bool then submit_and_record now txn_inner
      else parties_mismatch now txn_inner
  end.

Definition handle_reverted_tx_state (now : N) (txn_inner : TxStateMachine) : NodeM unit :=
  prof ← on_db get_user_account;
  (if negb (both_in_profile txn_inner prof) then
     command_send (RevertTransaction (sender_address txn_inner) txn_inner);;
     command_send (Close (receiver_address txn_inner) txn_inner)
   else skip);;
  on_db (update_failed_tx (db_record [] false txn_inner));;
  updated ← with_mut CacheCell (
    found ← cache_get_mut (tx_nonce txn_inner) (update_value txn_inner);
    match found with
    | Some updated_wrapper => mret (Some updated_wrapper)
    | None => cache_push (tx_nonce txn_inner) (TtlWrapper_new txn_inner now);; mret None
    end);
  match updated with
  | Some updated_wrapper => cache_push (tx_nonce txn_inner) updated_wrapper
  | None => skip
  end;;
  rpc_send txn_inner.

(** One update, by its status. *)
Definition handle_tx_update (now : N) (txn : TxStateMachine) : NodeM unit :=
  match status txn with
  | Genesis => handle_genesis_tx_state txn
  | RecvAddrConfirmed => handle_recv_addr_confirmed_tx_state txn
  | NetConfirmed => crash (NotImplemented "not yet implemented")
  | SenderConfirmed | FailedToSubmitTxn _ | TxSubmissionPassed _ =>
      handle_sender_confirmed_tx_state now txn
  | Reverted _ => handle_reverted_tx_state now txn
  | _ => skip
  end.

(** [receiver.recv().await], the cell being borrowed while it waits. *)
Definition recv_update : NodeM (option TxStateMachine) :=
  with_mut UserRecvCell (
    ch ← gets user_channel;
    match queue ch with
    | txn :: _ => modify (with_user_channel chan_pop);; mret (Some txn)
    | [] => if closed ch then mret None else lift Parked
    end).

(** The loop, given [turns] turns by the executor; a task without a turn stays
    pending. *)
Fixpoint handle_public_interface_tx_updates (now : N) (turns : nat) : NodeM unit :=
  match turns with
  | O => lift Parked
  | S turns =>
      received ← recv_update;
      match received with
      | Some txn => handle_tx_update now txn;; handle_public_interface_tx_updates now turns
      | None => skip
      end
  end.

(** *** The running service *)

(** What happens to a running node: a message reaches the swarm handler's task, the
    user queues an update, the update task gets turns.  A task that parks or panics
    leaves its borrows and its effects behind for those that follow. *)
Inductive activity :=
  | SwarmMessageArrives (now : N) (msg : SwarmMessage + string)
  | UserQueues (txn : TxStateMachine)
  | UpdateTaskRuns (now : N) (turns : nat).

(** The swarm handler logs an error and goes on with the next message. *)
Definition service_step (a : activity) : NodeM unit :=
  match a with
  | SwarmMessageArrives now msg => attempt (handle_swarm_message now msg);; skip
  | UserQueues txn =>
      ch ← gets user_channel;
      ch ← lift (chan_send txn ch);
      modify (with_user_channel (λ _, ch))
  | UpdateTaskRuns now turns => handle_public_interface_tx_updates now turns
  end.

Definition service_run (l : list activity) (s : Node D) : Node D :=
  foldl (λ s a, (service_step a s).2) s l.

(** *** Start-up *)

Definition apply_storage_export (storage_export : StorageExport) : M D unit :=
  match se_user_account storage_export with
  | Some user_account => set_user_account user_account
  | None => skip
  end;;
  set_nonce (se_nonce storage_export);;
  for_each update_success_tx (success_transactions storage_export);;
  for_each update_failed_tx (failed_transactions storage_export).

(** The channels, the cache and the database of [WasmMainServiceWorker::new]. *)
Definition initial_node (db : D) : Node D := {|
  node_db := db;
  cache := lru_new 10;
  rpc_channel := chan_new 10;
  user_channel := chan_new 10;
  p2p_commands := chan_new 10;
  p2p_event_notif := chan_new 20;
  tx_integrity := ∅;
  host_calls := [];
  borrows := no_borrows
|}.

Definition WasmMainServiceWorker_new (db : D) (relay_node_multi_addr account network : string)
    (storage : option StorageExport) : outcome unit * Node D :=
  (on_db (set_user_account {| multi_addr := relay_node_multi_addr;
                              accounts := [(account, ChainSupported_from_str network)] |});;
   match storage with
   | Some storage_export => on_db (apply_storage_export storage_export)
   | None => skip
   end) (initial_node db).
End service.
