(* ===== verification/NodeRun.v ===== *)
(** Running the node's handlers symbolically: equations for the parts, and [exec],
    which executes a handler on a node given by its fields. *)

From S2P Require Import Prelude DataStructure DbInterface Lru TxProcessing Node MainService.
Open Scope N_scope.

Section runs.
Context {P2P : P2pTypes} {LRU : LruCache N (TtlWrapper TxStateMachine)}.
Context {LAWS : @LruLaws N (TtlWrapper TxStateMachine) _ LRU}.
Context {D : Type} {DB : DbWorkerInterface D} {CR : Crypto} {HO : Host}.
Implicit Types (s : Node D).

(** *** Runs of the parts *)

Lemma with_mut_run c {A} (m : M (Node D) A) s o s' :
  get_borrow c (borrows s) = Free → m (with_borrows (set_borrow c Exclusive) s) = (o, s') →
  with_mut c m s = (o, release c Free o s').
Proof. intros Hb Hm. unfold with_mut. by rewrite Hb, Hm. Qed.
Lemma with_ref_run c {A} (m : M (Node D) A) s o s' :
  get_borrow c (borrows s) = Free → m (with_borrows (set_borrow c (Shared 1)) s) = (o, s') →
  with_ref c m s = (o, release c Free o s').
Proof. intros Hb Hm. unfold with_ref. by rewrite Hb, Hm. Qed.
Lemma attempt_ok {A} (m : M (Node D) A) s a s' :
  m s = (Ok a, s') → attempt m s = (Ok (inl a), s').
Proof. intros Hm. unfold attempt. by rewrite Hm. Qed.
Lemma attempt_err {A} (m : M (Node D) A) s e s' :
  m s = (Err e, s') → attempt m s = (Ok (inr e), s').
Proof. intros Hm. unfold attempt. by rewrite Hm. Qed.
Lemma on_db_run {A} (m : M D A) s o d :
  m (node_db s) = (o, d) → on_db m s = (o, with_node_db (λ _, d) s).
Proof. intros Hm. unfold on_db. by rewrite Hm. Qed.

(** Reading the profile leaves the database alone. *)
Lemma profile_run s prof :
  get_user_account (node_db s) = (Ok prof, node_db s) → on_db get_user_account s = (Ok prof, s).
Proof. intros Hm. unfold on_db. rewrite Hm. by destruct s. Qed.

Lemma rpc_send_run tx s :
  get_borrow RpcSenderCell (borrows s) = Free → has_room 1 (rpc_channel s) →
  rpc_send tx s = (Ok (), with_rpc_channel (chan_push tx) s).
Proof.
  intros Hb Hroom. destruct (chan_send_room tx _ _ Hroom) as [Hsend _]. unfold rpc_send.
  erewrite with_mut_run; [|exact Hb|rewrite run_bind_gets; simpl; rewrite Hsend; reflexivity].
  by destruct s as [? ? ? ? ? ? ? ? []]; simpl in *; subst.
Qed.
Lemma rpc_try_send_run tx s :
  get_borrow RpcSenderCell (borrows s) = Free → has_room 1 (rpc_channel s) →
  rpc_try_send tx s = (Ok (), with_rpc_channel (chan_push tx) s).
Proof.
  intros Hb Hroom. pose proof (chan_try_send_room tx _ _ Hroom) as Hsend. unfold rpc_try_send.
  erewrite with_mut_run; [|exact Hb|rewrite run_bind_gets; simpl; rewrite Hsend; reflexivity].
  by destruct s as [? ? ? ? ? ? ? ? []]; simpl in *; subst.
Qed.
Lemma command_send_run cmd s :
  get_borrow NetworkServiceCell (borrows s) = Free → has_room 1 (p2p_commands s) →
  command_send cmd s = (Ok (), with_p2p_commands (chan_push cmd) s).
Proof.
  intros Hb Hroom. destruct (chan_send_room cmd _ _ Hroom) as [Hsend _].
  destruct s as [db ca rpc user cmds notif integ hc bs]. simpl in *. unfold command_send.
  erewrite run_bind_ok; [|eapply with_ref_run; [exact Hb|reflexivity]].
  rewrite run_bind_gets. simpl p2p_commands. rewrite Hsend.
  rewrite run_bind_lift_ok, run_modify. by destruct bs; simpl in *; subst.
Qed.
Lemma cache_get_mut_run tx w v s :
  lru_peek (tx_nonce tx) (cache s) = Some w →
  cache_get_mut (tx_nonce tx) (update_value v) s =
    (Ok (Some (update_value v w)), with_cache (lru_get_mut (tx_nonce tx) (update_value v)) s).
Proof.
  intros Hw. unfold cache_get_mut. rewrite run_bind_modify, run_gets. simpl.
  by rewrite lru_peek_get_mut, Hw.
Qed.
Lemma cache_get_mut_absent tx v s :
  lru_peek (tx_nonce tx) (cache s) = None →
  cache_get_mut (tx_nonce tx) (update_value v) s =
    (Ok None, with_cache (lru_get_mut (tx_nonce tx) (update_value v)) s).
Proof.
  intros Hw. unfold cache_get_mut. rewrite run_bind_modify, run_gets. simpl.
  by rewrite lru_peek_get_mut, Hw.
Qed.

Lemma submit_tx_run tx s hash :
  submit_tx_js (host_calls s) tx = Ok hash →
  submit_tx tx s = (Ok hash, with_host_calls (λ l, l ++ [HostSubmit tx]) s).
Proof. intros Hsub. unfold submit_tx. rewrite run_bind_gets, run_bind_modify. by rewrite Hsub. Qed.
Lemma submit_tx_fails tx s e :
  submit_tx_js (host_calls s) tx = Err e →
  submit_tx tx s = (Err ("submitTx failed: " +:+ e), with_host_calls (λ l, l ++ [HostSubmit tx]) s).
Proof. intros Hsub. unfold submit_tx. rewrite run_bind_gets, run_bind_modify. by rewrite Hsub. Qed.
Lemma create_tx_run tx s created :
  create_tx_js (host_calls s) tx = Ok created →
  create_tx tx s = (Ok created, with_host_calls (λ l, l ++ [HostCreate tx]) s).
Proof. intros Hsub. unfold create_tx. rewrite run_bind_gets, run_bind_modify. by rewrite Hsub. Qed.
Lemma create_tx_fails tx s e :
  create_tx_js (host_calls s) tx = Err e →
  create_tx tx s = (Err ("createTx failed: " +:+ e), with_host_calls (λ l, l ++ [HostCreate tx]) s).
Proof. intros Hsub. unfold create_tx. rewrite run_bind_gets, run_bind_modify. by rewrite Hsub. Qed.

Lemma wasm_send_request_run tx s :
  has_room 1 (p2p_commands s) →
  wasm_send_request tx s = (Ok (), with_p2p_commands (chan_push (WasmSendRequest tx)) s).
Proof.
  intros Hroom. destruct (chan_send_room (WasmSendRequest tx) _ _ Hroom) as [Hsend _].
  unfold wasm_send_request. rewrite run_bind_gets. by rewrite Hsend.
Qed.
Lemma wasm_send_response_run tx s :
  has_room 1 (p2p_commands s) →
  wasm_send_response tx s = (Ok (), with_p2p_commands (chan_push (WasmSendResponse (inl tx))) s).
Proof.
  intros Hroom. destruct (chan_send_room (WasmSendResponse (inl tx)) _ _ Hroom) as [Hsend _].
  unfold wasm_send_response. rewrite run_bind_gets. by rewrite Hsend.
Qed.
Lemma cache_get_run k o s :
  lru_peek k (cache s) = o →
  cache_get k s = (Ok o, with_cache (λ c, (lru_get k c).2) s).
Proof. intros Hw. unfold cache_get. by rewrite lru_get_peek, Hw. Qed.

(** The same equations with the result as a premise, for [exec]. *)
Lemma exec_bind {A B} (m : M (Node D) A) (f : A → M (Node D) B) s a s' r :
  m s = (Ok a, s') → f a s' = r → (m ≫= f) s = r.
Proof. intros Hm <-. by apply run_bind_ok. Qed.
Lemma exec_last {A} (m : M (Node D) A) s o s' s'' :
  m s = (o, s') → s' = s'' → m s = (o, s'').
Proof. by intros -> ->. Qed.
Lemma exec_with_mut c {A} (m : M (Node D) A) s o s' s'' :
  get_borrow c (borrows s) = Free → m (with_borrows (set_borrow c Exclusive) s) = (o, s') →
  release c Free o s' = s'' → with_mut c m s = (o, s'').
Proof. intros Hb Hm <-. by apply with_mut_run. Qed.
Lemma exec_with_ref c {A} (m : M (Node D) A) s o s' s'' :
  get_borrow c (borrows s) = Free → m (with_borrows (set_borrow c (Shared 1)) s) = (o, s') →
  release c Free o s' = s'' → with_ref c m s = (o, s'').
Proof. intros Hb Hm <-. by apply with_ref_run. Qed.

Lemma peek_run k s :
  get_borrow CacheCell (borrows s) = Free →
  with_ref CacheCell (gets (λ s, lru_peek k (cache s))) s = (Ok (lru_peek k (cache s)), s).
Proof.
  intros Hb. eapply exec_with_ref; [exact Hb|reflexivity|].
  by destruct s as [? ? ? ? ? ? ? ? []]; simpl in *; subst.
Qed.
End runs.

(** Solve [m s = (?o, ?s')] by executing [m] on a node given by its fields. *)
Ltac open_node s :=
  destruct s as [db ca rpc user cmds notif integ hc bs]; unfold quiet in *; simpl in *; subst.
(** Equations for further parts: a client of this file redefines it. *)
Ltac exec_more := fail.
Ltac exec_leaf :=
  lazymatch goal with
  | |- on_db _ _ = _ => first [eapply profile_run; eassumption | eapply on_db_run; eassumption]
  | |- submit_tx _ _ = _ =>
      first [eapply submit_tx_run; eassumption | eapply submit_tx_fails; eassumption]
  | |- create_tx _ _ = _ =>
      first [eapply create_tx_run; eassumption | eapply create_tx_fails; eassumption]
  | |- rpc_send _ _ = _ => eapply rpc_send_run; [reflexivity|eassumption]
  | |- rpc_try_send _ _ = _ => eapply rpc_try_send_run; [reflexivity|eassumption]
  | |- command_send _ _ = _ => eapply command_send_run; [reflexivity|eassumption]
  | |- wasm_send_request _ _ = _ => eapply wasm_send_request_run; eassumption
  | |- wasm_send_response _ _ = _ => eapply wasm_send_response_run; eassumption
  | |- cache_get_mut _ _ _ = _ =>
      first [eapply cache_get_mut_run; eassumption | eapply cache_get_mut_absent; eassumption]
  | |- cache_get _ _ = _ => eapply cache_get_run; eassumption
  | |- _ => exec_more
  end.
Ltac exec :=
  cbv beta iota zeta;
  lazymatch goal with
  | |- mbind _ _ _ = _ =>
      first
        [ eapply exec_bind; [solve [exec]|solve [exec]]
        | eapply run_bind_panic; solve [exec]
        | eapply run_bind_err; solve [exec] ]
  | |- with_mut _ _ _ = _ => eapply exec_with_mut; [reflexivity|solve [exec]|reflexivity]
  | |- with_ref _ _ _ = _ => eapply exec_with_ref; [reflexivity|solve [exec]|reflexivity]
  | |- attempt _ _ = _ =>
      first [eapply attempt_ok; solve [exec] | eapply attempt_err; solve [exec]]
  | |- _ => first [eapply exec_last; [exec_leaf|reflexivity] | reflexivity]
  end.
