(* ===== verification/NodeSamples.v ===== *)
(** A concrete node on which the theorems about the main service and the public
    interface are evaluated: the abstract database, the list cache, the
    concrete signature scheme, and two hosts. *)

From S2P Require Import Prelude DataStructure Codec Samples DbInterface Lru TxProcessing.
From S2P Require Import Node MainService.
Open Scope N_scope.

#[export] Existing Instances sample_crypto release_profile.

#[export] Instance sample_p2p : P2pTypes := {|
  PeerId := string; Multiaddr := string; InboundRequestId := N; OutboundRequestId := N;
  ResponseChannel := N; DialSender := N; DhtPeerSender := N |}.

#[export] Instance sample_lru : LruCache N (TtlWrapper TxStateMachine) := ListLru _ _.
#[export] Instance sample_lru_laws : LruLaws := ListLru_laws N (TtlWrapper TxStateMachine).

(** Thirty-two bytes for Alice to sign. *)
Definition sample_digest : bytes := repeat Byte.x2a 32.

Definition sample_eip1559 : UnsignedEip1559 := {|
  eip_to := "bob"; eip_value := 1000; eip_chain_id := 1; eip_nonce := 0; eip_gas := 21000;
  eip_max_fee_per_gas := 1; eip_max_priority_fee_per_gas := 1; eip_data := None;
  eip_access_list := None; eip_tx_type := "eip1559" |}.

Definition sample_payload : ChainTransactionType := CallEthereum sample_eip1559 (sample_digest, []).

Definition alice_signature : bytes := as_bytes "alice" ++ sample_digest.

Definition with_sender_signature (signature : option bytes) (tx : TxStateMachine) :
    TxStateMachine := {|
  sender_address := sender_address tx; sender_public_key := sender_public_key tx;
  receiver_address := receiver_address tx; receiver_public_key := receiver_public_key tx;
  multi_id := multi_id tx; recv_signature := recv_signature tx; token := token tx;
  status := status tx; code_word := code_word tx; amount := amount tx;
  fees_amount := fees_amount tx; signed_call_payload := signature;
  call_payload := call_payload tx; inbound_req_id := inbound_req_id tx;
  outbound_req_id := outbound_req_id tx; tx_nonce := tx_nonce tx; tx_version := tx_version tx;
  sender_address_network := sender_address_network tx;
  receiver_address_network := receiver_address_network tx |}.

(** Alice's transfer to Bob, with its identifier. *)
Definition alice_to_bob (st : TxStatus) : TxStateMachine :=
  sample_tx "alice" "bob" (multi_id_of "alice" "bob") st.
(** Confirmed by Bob. *)
Definition confirmed (st : TxStatus) : TxStateMachine :=
  signed_by (Some bob_signature) (alice_to_bob st).
(** Created by the host and signed by Alice. *)
Definition fully_signed (st : TxStatus) : TxStateMachine :=
  with_sender_signature (Some alice_signature)
    (set_call_payload (Some sample_payload) (confirmed st)).
(** Signed by both, with the identifier of another pair. *)
Definition misfiled (st : TxStatus) : TxStateMachine :=
  with_sender_signature (Some alice_signature)
    (set_call_payload (Some sample_payload)
       (signed_by (Some bob_signature) (sample_tx "alice" "bob" [Byte.x00] st))).

(** A host that creates and submits whatever it is given, and one that refuses. *)
Definition good_host : Host := {|
  submit_tx_js _ _ := Ok [Byte.xaa];
  create_tx_js _ tx := Ok (set_call_payload (Some sample_payload) tx) |}.
Definition bad_host : Host := {|
  submit_tx_js _ _ := Err "no provider";
  create_tx_js _ _ := Err "no provider" |}.

Definition alice_account : UserAccount :=
  {| multi_addr := "backend"; accounts := [("alice", Ethereum)] |}.
(** A node that holds both accounts. *)
Definition both_accounts : UserAccount :=
  {| multi_addr := "backend"; accounts := [("alice", Ethereum); ("bob", Ethereum)] |}.

(** The node of [user], with [txs] in its cache. *)
Definition node_of (user : UserAccount) (txs : list TxStateMachine) : Node AbsDb :=
  with_cache (λ c, foldl (λ c tx, lru_push (tx_nonce tx) (TtlWrapper_new tx 100) c) c txs)
    (initial_node (abs_set_user user AbsDb_new)).
Definition alice_node (txs : list TxStateMachine) : Node AbsDb := node_of alice_account txs.
