(* ===== verification/Interface.v ===== *)
(** The interface the browser application calls ([PublicInterfaceWorker] in
    [node/wasm/src/interface.rs]).

    A transaction that comes from JavaScript is an [outcome]: its conversion can
    fail.  The conversion of results and error texts to JavaScript values, and
    logging, are left out.  [now] is the clock in seconds. *)

From S2P Require Import Prelude DataStructure Codec DbInterface Lru TxProcessing Node MainService.
Open Scope N_scope.

(** What the integrity hash covers. *)
Abbreviation IntegrityFields :=
  (string * string * ChainSupported * ChainSupported * bytes * Token * N)%type.

Definition integrity_fields (tx : TxStateMachine) : IntegrityFields :=
  (sender_address tx, receiver_address tx, sender_address_network tx,
   receiver_address_network tx, multi_id tx, token tx, amount tx).

(** [r.map_err(|_| anyhow!(msg))] *)
Definition or_err {A} (msg : string) (o : outcome A) : outcome A :=
  match o with Err _ => Err msg | o => o end.

(** [r.unwrap_or(d)] *)
Definition or_default {S A} (d : A) (m : M S A) : M S A :=
  r ← attempt m; mret (match r with inl a => a | inr _ => d end).
(** [r.ok()] *)
Definition as_option {S A} (m : M S A) : M S (option A) :=
  r ← attempt m; mret (match r with inl a => Some a | inr _ => None end).

(** The keys of the cached transactions that satisfy [f], from the most recent. *)
Definition keys_where (f : TxStateMachine → bool) (l : list (N * TtlWrapper TxStateMachine)) :
    list N :=
  (filter (λ kv, f (get_value kv.2)) l).*1.

Definition is_finalized (st : TxStatus) : bool :=
  match st with Reverted _ | TxSubmissionPassed _ => true | _ => false end.

(** [cache.iter().filter_map(..is_expired(now, time_to_live)..)] *)
Fixpoint expired_keys `{BuildProfile} (now time_to_live : N)
    (l : list (N * TtlWrapper TxStateMachine)) : outcome (list N) :=
  match l with
  | [] => mret []
  | (k, v) :: l =>
      expired ← TtlWrapper_is_expired v now time_to_live;
      keys ← expired_keys now time_to_live l;
      mret (if expired : bool then k :: keys else keys)
  end.

Section interface.
Context {BP : BuildProfile} {P2P : P2pTypes} {LRU : LruCache N (TtlWrapper TxStateMachine)}.
Context {D : Type} {DB : DbWorkerInterface D} {CR : Crypto} {HO : Host}.
Context {COD : Codec IntegrityFields}.
Abbreviation NodeM := (M (Node D)).

Definition compute_tx_integrity_hash (tx : TxStateMachine) : bytes :=
  blake2_256 (scale_encode (integrity_fields tx)).

(** A send on [user_rpc_update_sender_channel], its guard held by the caller. *)
Definition update_queue (msg : string) (tx : TxStateMachine) : NodeM unit :=
  ch ← gets user_channel;
  ch ← lift (or_err msg (chan_send tx ch));
  modify (with_user_channel (λ _, ch)).

Definition remember_integrity (tx : TxStateMachine) (s : Node D) : Node D :=
  with_tx_integrity <[tx_nonce tx := compute_tx_integrity_hash tx]> s.

Definition new_transaction (sender receiver : string) (amount : N) (token : Token)
    (code_word : string) (sender_network receiver_network : ChainSupported) (nonce : N) :
    TxStateMachine := {|
  sender_address := sender;
  sender_public_key := None;
  receiver_address := receiver;
  receiver_public_key := None;
  multi_id := multi_id_of sender receiver;
  recv_signature := None;
  token := token;
  status := TxStatus_default;
  code_word := code_word;
  amount := amount;
  fees_amount := 0;
  signed_call_payload := None;
  call_payload := None;
  inbound_req_id := None;
  outbound_req_id := None;
  tx_nonce := nonce;
  tx_version := 0;
  sender_address_network := sender_network;
  receiver_address_network := receiver_network
|}.

Definition initiate_transaction (now : N) (sender receiver : string) (amount : N)
    (token : Token) (code_word : string) (sender_network receiver_network : ChainSupported) :
    NodeM TxStateMachine :=
  lift (verify_public_bytes sender token sender_network);;
  lift (verify_public_bytes receiver token receiver_network);;
  lift (verify_route sender_network receiver_network);;
  current ← on_db get_nonce;
  nonce ← lift (add_u 32 current 1);
  on_db db_increment_nonce;;
  let tx_state_machine :=
    new_transaction sender receiver amount token code_word sender_network receiver_network nonce in
  with_mut UserSenderCell (
    with_mut IntegrityCell (modify (remember_integrity tx_state_machine));;
    update_queue "failed to send initial tx state to sender channel" tx_state_machine;;
    cache_push (tx_nonce tx_state_machine) (TtlWrapper_new tx_state_machine now);;
    mret tx_state_machine).

(** The recorded hash of the transaction's nonce must be its own. *)
Definition check_integrity (tx : TxStateMachine) : NodeM unit :=
  stored ← with_mut IntegrityCell (gets (λ s, tx_integrity s !! tx_nonce tx));
  recv_tx_integrity ← lift (ok_or stored " Failed get transaction integrity from cache");
  if decide (compute_tx_integrity_hash tx = recv_tx_integrity) then skip
  else fail "Transaction integrity failed".

(** The states in which neither party may confirm. *)
Definition check_confirmable (st : TxStatus) : outcome unit :=
  match st with
  | Reverted _ => Err "Transaction already reverted"
  | ReceiverNotRegistered => Err "Receiver not registered"
  | RecvAddrFailed => Err "Receiver address failed"
  | _ => Ok ()
  end.

(** The state a sender's confirmation puts the transaction in. *)
Definition confirmed_by_sender (tx : TxStateMachine) : TxStateMachine :=
  increment_version
    (if is_submission_passed (status tx) || is_failed_to_submit (status tx) then tx
     else sender_confirmation tx).

Definition sender_confirm (tx : outcome TxStateMachine) : NodeM unit :=
  tx ← lift tx;
  check_integrity tx;;
  with_mut UserSenderCell (
    lift (check_confirmable (status tx));;
    if bool_decide (signed_call_payload tx = None) &&
       bool_decide (status tx ≠ RecvAddrConfirmationPassed)
    then fail "Wait for Receiver to confirm or sender should confirm"
    else
      let tx := confirmed_by_sender tx in
      found ← with_mut CacheCell (cache_get (tx_nonce tx));
      ttl_wrapper ← lift
        (ok_or found " Failed get transaction from cache, transaction expired");
      cache_push (tx_nonce tx) (update_value tx ttl_wrapper);;
      update_queue "failed to send sender confirmation tx state to sender-channel" tx).

Definition receiver_confirm (tx : outcome TxStateMachine) : NodeM unit :=
  tx ← lift tx;
  with_mut UserSenderCell (
    if decide (status tx = Genesis) then
      lift (check_confirmable (status tx));;
      check_integrity tx;;
      lift (ok_or (recv_signature tx) "Receiver did not confirm");;
      with_mut CacheCell (modify (with_cache (lru_demote (tx_nonce tx))));;
      update_queue "failed to send recv confirmation tx state to sender channel"
        (increment_version (recv_confirmed tx))
    else fail "Transaction not in initial state").

Definition revert_transaction (now : N) (tx : outcome TxStateMachine) (reason : option string) :
    NodeM unit :=
  tx ← lift tx;
  let msg := "failed to send revert transaction tx state to sender channel" in
  if is_reverted (status tx) then
    with_mut UserSenderCell (
      cache_push (tx_nonce tx) (TtlWrapper_new tx 600);;
      update_queue msg tx)
  else
    let tx := set_status (Reverted (default "Intended receiver not met" reason)) tx in
    found ← with_mut CacheCell (cache_get_mut (tx_nonce tx) (update_value tx));
    cache_push (tx_nonce tx)
      (match found with Some ttl_wrapper => ttl_wrapper | None => TtlWrapper_new tx now end);;
    with_mut UserSenderCell (update_queue msg tx).

Definition add_account (account_id : string) (network : ChainSupported) : NodeM unit :=
  on_db (update_user_account account_id network);; skip.

(** *** Pending transactions *)

Definition request_pending (account_id : string) : NodeM unit :=
  ch ← gets p2p_commands;
  ch ← lift (chan_send (FetchPendingTransactions account_id) ch);
  modify (with_p2p_commands (λ _, ch)).

Definition pop_all (keys : list N) (c : Lru N (TtlWrapper TxStateMachine)) :
    Lru N (TtlWrapper TxStateMachine) :=
  foldl (λ c k, lru_pop k c) c keys.

(** Forget what expired (after 40 minutes), return the rest. *)
Definition collect_pending (now : N) : NodeM (list TxStateMachine) :=
  let time_to_live := 60 * 40 in
  keys ← with_ref CacheCell
    (entries ← gets (λ s, lru_iter (cache s)); lift (expired_keys now time_to_live entries));
  with_mut CacheCell (modify (with_cache (pop_all keys)));;
  with_ref CacheCell (with_mut IntegrityCell (
    txs ← gets (λ s, get_value <$> (lru_iter (cache s)).*2);
    for_each (λ tx, modify (remember_integrity tx)) txs;;
    mret txs)).

(** The call waits two seconds for the answer; [meanwhile] is what the other tasks do
    while it waits. *)
Definition fetch_pending_tx_updates (account_id : string) (meanwhile : list activity) (now : N) :
    NodeM (list TxStateMachine) :=
  request_pending account_id;;
  modify (service_run meanwhile);;
  collect_pending now.

(** *** Storage and cache maintenance *)

Definition export_storage : NodeM StorageExport :=
  user_account ← as_option (on_db get_user_account);
  nonce ← or_default 0 (on_db get_nonce);
  success_transactions ← or_default [] (on_db get_success_txs);
  failed_transactions ← or_default [] (on_db get_failed_txs);
  mret {| se_user_account := user_account;
          se_nonce := nonce;
          success_transactions := success_transactions;
          failed_transactions := failed_transactions |}.

Definition delete_tx_in_cache (tx : outcome TxStateMachine) : NodeM unit :=
  tx ← lift tx;
  with_mut CacheCell (modify (with_cache (lru_pop (tx_nonce tx)))).

Definition clear_where (f : TxStateMachine → bool) : NodeM unit :=
  keys ← with_ref CacheCell (gets (λ s, keys_where f (lru_iter (cache s))));
  with_mut CacheCell (modify (with_cache (pop_all keys))).

Definition clear_reverted_from_cache : NodeM unit := clear_where (λ tx, is_reverted (status tx)).
Definition clear_finalized_from_cache : NodeM unit := clear_where (λ tx, is_finalized (status tx)).
End interface.
