(* ===== verification/Session.v ===== *)
(** A node at work: the calls the page makes ([PublicInterfaceWorkerJs] in
    [node/wasm/src/interface.rs]), the activities of the main service
    ([MainService.activity]), and the two tasks that empty its channels, in any order.

    The calls that subscribe and unsubscribe are those of [Watchers.v]; every call borrows
    the worker shared, so no two of them conflict.
    A parameter that comes as a [JsValue] is an [outcome]: its conversion can fail. *)

From S2P Require Import Prelude DataStructure Codec DbInterface Lru TxProcessing.
From S2P Require Import Node MainService Interface.
Open Scope N_scope.

(** A call of the page; [meanwhile] is what the main service does during a fetch. *)
Inductive user_call `{P2pTypes} :=
  | InitiateTransaction (now : N) (sender receiver : string) (amount : N)
      (token : outcome Token) (code_word : string)
      (sender_network receiver_network : outcome ChainSupported)
  | SenderConfirm (tx : outcome TxStateMachine)
  | ReceiverConfirm (tx : outcome TxStateMachine)
  | RevertTransactionCall (now : N) (tx : outcome TxStateMachine) (reason : option string)
  | FetchPendingTxUpdates (account_id : string) (meanwhile : list activity) (now : N)
  | AddAccount (account_id : string) (network : outcome ChainSupported)
  | ExportStorage
  | DeleteTxInCache (tx : outcome TxStateMachine)
  | ClearRevertedFromCache
  | ClearFinalizedFromCache.

Section session.
Context {BP : BuildProfile} {P2P : P2pTypes} {LRU : LruCache N (TtlWrapper TxStateMachine)}.
Context {D : Type} {DB : DbWorkerInterface D} {CR : Crypto} {HO : Host}.
Context {COD : Codec IntegrityFields}.
Abbreviation NodeM := (M (Node D)).

Definition run_user_call (c : user_call) : NodeM unit :=
  match c with
  | InitiateTransaction now sender receiver amount token code_word sender_network
      receiver_network =>
      token ← lift token;
      sender_network_chain ← lift sender_network;
      receiver_network_chain ← lift receiver_network;
      initiate_transaction now sender receiver amount token code_word sender_network_chain
        receiver_network_chain;;
      skip
  | SenderConfirm tx => sender_confirm tx
  | ReceiverConfirm tx => receiver_confirm tx
  | RevertTransactionCall now tx reason => revert_transaction now tx reason
  | FetchPendingTxUpdates account_id meanwhile now =>
      fetch_pending_tx_updates account_id meanwhile now;; skip
  | AddAccount account_id network =>
      network_chain ← lift network; add_account account_id network_chain
  | ExportStorage => export_storage;; skip
  | DeleteTxInCache tx => delete_tx_in_cache tx
  | ClearRevertedFromCache => clear_reverted_from_cache
  | ClearFinalizedFromCache => clear_finalized_from_cache
  end.

(** One step of a session: a call, an activity, the watcher takes an update (and
    records its hash), the network takes a command. *)
Inductive session_step :=
  | PageCalls (c : user_call)
  | ServiceActs (a : activity)
  | WatcherTakes
  | NetworkTakes.

Definition run_session_step (x : session_step) : NodeM unit :=
  match x with
  | PageCalls c => run_user_call c
  | ServiceActs a => service_step a
  | WatcherTakes =>
      ch ← gets rpc_channel;
      match queue ch with
      | tx_update :: _ =>
          modify (with_rpc_channel chan_pop);;
          with_mut IntegrityCell (modify (remember_integrity tx_update))
      | [] => skip
      end
  | NetworkTakes => modify (with_p2p_commands chan_pop)
  end.

Definition session_run (l : list session_step) (s : Node D) : Node D :=
  foldl (λ s x, (run_session_step x s).2) s l.
End session.
