(* ===== verification/MainServiceSafety.v ===== *)
(** What the main service never does: it submits a transaction to its chain only
    after both signatures and the identifier have been checked, and it never
    breaks the cache's layout. *)

From S2P Require Import Prelude DataStructure Codec Samples DbInterface Lru TxProcessing.
From S2P Require Import Node NodeLogic MainService NodeSamples Interface Session.
Open Scope N_scope.

Section safety.
Context {P2P : P2pTypes} {LRU : LruCache N (TtlWrapper TxStateMachine)}.
Context {D : Type} {DB : DbWorkerInterface D} {CR : Crypto} {HO : Host}.
Abbreviation NodeM := (M (Node D)).

(** *** Host calls *)

(** [m] makes only host calls that satisfy [P], whatever its outcome. *)
Definition calls_only (P : host_call → Prop) {A} (m : NodeM A) : Prop :=
  ∀ s, ∃ l, host_calls (m s).2 = host_calls s ++ l ∧ Forall P l.

Implicit Types (P : host_call → Prop).

(** [m] makes no host call. *)
Lemma calls_none P {A} (m : NodeM A) :
  (∀ s, host_calls (m s).2 = host_calls s) → calls_only P m.
Proof. intros Hm s. exists []. rewrite Hm, app_nil_r. auto. Qed.

Lemma calls_ret P {A} (a : A) : calls_only P (mret a).
Proof. by apply calls_none. Qed.
Lemma calls_skip P : calls_only P skip.
Proof. by apply calls_none. Qed.
Lemma calls_lift P {A} (o : outcome A) : calls_only P (lift o).
Proof. by apply calls_none. Qed.
Lemma calls_gets P {A} (f : Node D → A) : calls_only P (gets f).
Proof. by apply calls_none. Qed.
Lemma calls_fail P {A} e : calls_only P (fail e : NodeM A).
Proof. by apply calls_none. Qed.
Lemma calls_crash P {A} p : calls_only P (crash p : NodeM A).
Proof. by apply calls_none. Qed.
Lemma calls_modify P f : (∀ s, host_calls (f s) = host_calls s) → calls_only P (modify f).
Proof. intros Hf. by apply calls_none. Qed.
Lemma calls_on_db P {A} (m : M D A) : calls_only P (on_db m).
Proof. apply calls_none. intros s. unfold on_db. by destruct (m (node_db s)). Qed.

Lemma calls_bind P {A B} (m : NodeM A) (f : A → NodeM B) :
  calls_only P m → (∀ a, calls_only P (f a)) → calls_only P (m ≫= f).
Proof.
  intros Hm Hf s. destruct (Hm s) as (l & Hl & HP). unfold mbind, M_bind.
  destruct (m s) as [[a| | |] s']; simpl in *; eauto.
  destruct (Hf a s') as (l' & Hl' & HP'). exists (l ++ l').
  rewrite Hl', Hl, app_assoc. split; [done|]. by apply Forall_app.
Qed.

Lemma calls_with_mut P c {A} (m : NodeM A) : calls_only P m → calls_only P (with_mut c m).
Proof.
  intros Hm s. unfold with_mut.
  destruct (get_borrow c (borrows s)); [|exists []; by rewrite app_nil_r..].
  destruct (Hm (with_borrows (set_borrow c Exclusive) s)) as (l & Hl & HP).
  destruct (m _) as [o s']. simpl in *. exists l. by destruct o.
Qed.
Lemma calls_with_ref P c {A} (m : NodeM A) : calls_only P m → calls_only P (with_ref c m).
Proof.
  intros Hm s. unfold with_ref.
  destruct (get_borrow c (borrows s)) as [|n|] eqn:Hb; [| |exists []; by rewrite app_nil_r].
  - destruct (Hm (with_borrows (set_borrow c (Shared 1)) s)) as (l & Hl & HP).
    destruct (m _) as [o s']. simpl in *. exists l. by destruct o.
  - destruct (Hm (with_borrows (set_borrow c (Shared (S n))) s)) as (l & Hl & HP).
    destruct (m _) as [o s']. simpl in *. exists l. by destruct o.
Qed.
Lemma calls_attempt P {A} (m : NodeM A) : calls_only P m → calls_only P (attempt m).
Proof.
  intros Hm s. destruct (Hm s) as (l & Hl & HP). unfold attempt.
  destruct (m s) as [[] s']; eauto.
Qed.
Lemma calls_for_each P {A} (f : A → NodeM unit) l :
  (∀ x, calls_only P (f x)) → calls_only P (for_each f l).
Proof.
  intros Hf. induction l as [|x l IH]; simpl; [apply calls_ret|].
  apply calls_bind; auto.
Qed.
Lemma calls_weaken P (Q : host_call → Prop) {A} (m : NodeM A) :
  calls_only P m → (∀ c, P c → Q c) → calls_only Q m.
Proof.
  intros Hm HPQ s. destruct (Hm s) as (l & Hl & HP). exists l. split; [done|].
  eapply Forall_impl; eauto.
Qed.

Create HintDb calls discriminated.
#[local] Hint Resolve calls_ret calls_skip calls_lift calls_gets calls_fail calls_crash
  calls_on_db calls_with_mut calls_with_ref calls_attempt calls_for_each : calls.

Ltac calls_step :=
  first
    [ solve [eauto 2 with calls]
    | match goal with
      | |- calls_only _ (mbind _ _) => apply calls_bind; [|intros ?]
      | |- calls_only _ (modify _) => apply calls_modify; done
      | |- calls_only _ (with_mut _ _) => apply calls_with_mut
      | |- calls_only _ (with_ref _ _) => apply calls_with_ref
      | |- calls_only _ (attempt _) => apply calls_attempt
      | |- calls_only _ (match ?x with _ => _ end) => destruct x
      | |- calls_only _ (if ?x then _ else _) => destruct x
      end ].
Ltac calls := repeat calls_step.

Lemma rpc_send_calls P tx : calls_only P (rpc_send tx).
Proof. unfold rpc_send. calls. Qed.
Lemma rpc_try_send_calls P tx : calls_only P (rpc_try_send tx).
Proof. unfold rpc_try_send. calls. Qed.
Lemma command_send_calls P cmd : calls_only P (command_send cmd).
Proof. unfold command_send. calls. Qed.
Lemma cache_push_calls P k w : calls_only P (cache_push k w).
Proof. unfold cache_push. calls. Qed.
Lemma cache_get_mut_calls P k f : calls_only P (cache_get_mut k f).
Proof. unfold cache_get_mut. calls. Qed.
Lemma cache_get_calls P k : calls_only P (cache_get k).
Proof. by apply calls_none. Qed.
#[local] Hint Resolve rpc_send_calls rpc_try_send_calls command_send_calls cache_push_calls
  cache_get_mut_calls cache_get_calls : calls.

Lemma update_push_send_calls P now tx absent : calls_only P (update_push_send now tx absent).
Proof. unfold update_push_send. calls. Qed.
Lemma update_send_calls P now tx : calls_only P (update_send now tx).
Proof. unfold update_send. calls. Qed.
Lemma wasm_send_request_calls P tx : calls_only P (wasm_send_request tx).
Proof. unfold wasm_send_request. calls. Qed.
Lemma wasm_send_response_calls P tx : calls_only P (wasm_send_response tx).
Proof. unfold wasm_send_response. calls. Qed.
Lemma response_refused_calls P tx : calls_only P (response_refused tx).
Proof. unfold response_refused. calls. Qed.
Lemma sender_refused_calls P now tx : calls_only P (sender_refused now tx).
Proof. unfold sender_refused. cbv zeta. calls. Qed.
Lemma parties_mismatch_calls P now tx : calls_only P (parties_mismatch now tx).
Proof. unfold parties_mismatch. cbv zeta. calls; apply update_send_calls. Qed.
#[local] Hint Resolve update_push_send_calls update_send_calls wasm_send_request_calls
  wasm_send_response_calls response_refused_calls sender_refused_calls parties_mismatch_calls
  : calls.

Lemma create_tx_calls P tx : P (HostCreate tx) → calls_only P (create_tx tx).
Proof.
  intros HP s. exists [HostCreate tx]. split; [|auto].
  unfold create_tx. rewrite run_bind_gets, run_bind_modify. done.
Qed.
Lemma submit_tx_calls P tx : P (HostSubmit tx) → calls_only P (submit_tx tx).
Proof.
  intros HP s. exists [HostSubmit tx]. split; [|auto].
  unfold submit_tx. rewrite run_bind_gets, run_bind_modify. done.
Qed.

(** *** The gate *)

(** Both parties have signed, and the identifier is that of the parties. *)
Definition authorised (tx : TxStateMachine) : Prop :=
  validate_receiver_and_sender_address tx "Receiver" = Ok () ∧
  validate_receiver_and_sender_address tx "Sender" = Ok () ∧
  validate_multi_id tx = true.

(** A host call the service may make: any creation, and the submission of an
    authorised transaction. *)
Definition allowed_call (c : host_call) : Prop :=
  match c with
  | HostSubmit tx => authorised tx
  | HostCreate _ => True
  end.

Lemma submit_and_record_calls now tx :
  authorised tx → calls_only allowed_call (submit_and_record now tx).
Proof.
  intros Ha. unfold submit_and_record. apply calls_with_mut, calls_bind.
  - by apply calls_attempt, submit_tx_calls.
  - intros [h|e]; cbv zeta; calls.
Qed.

(** [a] is a value [m] can return. *)
Definition may_return {A} (m : NodeM A) (a : A) : Prop := ∃ s s', m s = (Ok a, s').

Lemma may_return_lift {A} (o : outcome A) a : may_return (lift o : NodeM A) a → o = Ok a.
Proof. intros (s & s' & Hrun). unfold lift in Hrun. congruence. Qed.
Lemma may_return_with_ref c {A} (m : NodeM A) a : may_return (with_ref c m) a → may_return m a.
Proof.
  intros (s & s' & Hrun). unfold with_ref in Hrun.
  destruct (get_borrow c (borrows s)); [| |done];
    match goal with H : context [m ?s0] |- _ => destruct (m s0) as [o s1] eqn:Hm end;
    simplify_eq; by eexists _, _.
Qed.

Lemma calls_bind_result P {A B} (m : NodeM A) (f : A → NodeM B) :
  calls_only P m → (∀ a, may_return m a → calls_only P (f a)) → calls_only P (m ≫= f).
Proof.
  intros Hm Hf s. destruct (Hm s) as (l & Hl & HP). unfold mbind, M_bind.
  destruct (m s) as [[a| | |] s'] eqn:Hrun; simpl in *; eauto.
  destruct (Hf a ltac:(by eexists _, _) s') as (l' & Hl' & HP'). exists (l ++ l').
  rewrite Hl', Hl, app_assoc. split; [done|]. by apply Forall_app.
Qed.

(** The sender's check lets the handler go on only when it passes. *)
Lemma sender_check_passes tx (m : NodeM unit) :
  may_return (validated ← attempt (lift (validate_receiver_and_sender_address tx "Sender"));
    match validated with inl _ => mret false | inr _ => m;; mret true end) false →
  validate_receiver_and_sender_address tx "Sender" = Ok ().
Proof.
  intros (s & s' & Hrun).
  destruct (validate_receiver_and_sender_address tx "Sender") as [[]|e|p|]; [done|..];
    cbv [mbind M_bind mret M_ret attempt lift] in Hrun; [|done..].
  by destruct (m s) as [[] s1].
Qed.

(** The path on which the signatures and the identifier are checked. *)
Definition checked_submission (now : N) (tx : TxStateMachine) : NodeM unit :=
  with_ref TxWorkerCell (lift (validate_receiver_and_sender_address tx "Receiver"));;
  returned ← with_ref TxWorkerCell (
    validated ← attempt (lift (validate_receiver_and_sender_address tx "Sender"));
    match validated with
    | inl _ => mret false
    | inr _ => sender_refused now tx;; mret true
    end);
  if returned : bool then skip else
  matches ← with_ref TxWorkerCell (gets (λ _, validate_multi_id tx));
  if matches : bool then submit_and_record now tx else parties_mismatch now tx.

Lemma checked_submission_calls now tx : calls_only allowed_call (checked_submission now tx).
Proof.
  unfold checked_submission.
  apply calls_bind_result; [by calls|]. intros [] Hrecv%may_return_with_ref%may_return_lift.
  apply calls_bind_result; [by calls|]. intros [|] Hsend%may_return_with_ref; [by calls|].
  apply sender_check_passes in Hsend.
  apply calls_bind_result; [by calls|]. intros [|] Hid%may_return_with_ref; [|by calls].
  apply submit_and_record_calls. split_and!; [done..|].
  destruct Hid as (s & s' & Hid). unfold gets in Hid. congruence.
Qed.

Lemma sender_confirmed_calls now tx :
  calls_only allowed_call (handle_sender_confirmed_tx_state now tx).
Proof.
  pose proof (checked_submission_calls now tx) as Hchecked.
  unfold handle_sender_confirmed_tx_state. apply calls_bind; [by calls|intros prof].
  destruct (status tx); first [exact Hchecked|by calls].
Qed.

Lemma handle_tx_update_calls now tx : calls_only allowed_call (handle_tx_update now tx).
Proof.
  unfold handle_tx_update. destruct (status tx); try apply sender_confirmed_calls; try by calls.
  - unfold handle_genesis_tx_state. by calls.
  - unfold handle_recv_addr_confirmed_tx_state, local_confirmed. cbv zeta. calls.
    all: by apply create_tx_calls.
  - unfold handle_reverted_tx_state. by calls.
Qed.

Lemma handle_swarm_message_calls now msg :
  calls_only allowed_call (handle_swarm_message now msg).
Proof.
  unfold handle_swarm_message. destruct msg as [[| |data|data|address txs]|e]; try by calls.
  - unfold handle_wasm_request. by calls.
  - unfold handle_wasm_response, response_confirmed. cbv zeta. calls.
    all: by apply create_tx_calls.
  - unfold cache_pending. apply calls_with_mut, calls_for_each. intros tx. by calls.
Qed.

Lemma update_loop_calls now turns :
  calls_only allowed_call (handle_public_interface_tx_updates now turns).
Proof.
  induction turns as [|turns IH]; simpl; [by calls|].
  apply calls_bind; [unfold recv_update; by calls|]. intros [txn|]; [|by calls].
  apply calls_bind; [apply handle_tx_update_calls|done].
Qed.

Lemma service_step_calls a : calls_only allowed_call (service_step a).
Proof.
  destruct a as [now msg|txn|now turns]; simpl; [|by calls|apply update_loop_calls].
  apply calls_bind; [|by calls]. apply calls_attempt, handle_swarm_message_calls.
Qed.

Lemma service_run_calls l s :
  ∃ cs, host_calls (service_run l s) = host_calls s ++ cs ∧ Forall allowed_call cs.
Proof.
  induction l as [|a l IH] using rev_ind; [exists []; by rewrite app_nil_r|].
  unfold service_run in *. rewrite foldl_app. simpl.
  destruct IH as (cs & Hcs & HP). destruct (service_step_calls a (foldl (λ s a, (service_step a s).2) s l))
    as (cs' & Hcs' & HP').
  exists (cs ++ cs'). rewrite Hcs', Hcs, app_assoc. split; [done|]. by apply Forall_app.
Qed.

(** **** The page's calls *)

Section session.
Context {BP : BuildProfile} {COD : Codec IntegrityFields}.

Lemma check_integrity_calls P tx : calls_only P (check_integrity tx).
Proof. unfold check_integrity. calls. Qed.
Lemma update_queue_calls P msg tx : calls_only P (update_queue msg tx).
Proof. unfold update_queue. calls. Qed.
#[local] Hint Resolve check_integrity_calls update_queue_calls : calls.

Lemma fetch_calls account meanwhile now :
  calls_only allowed_call (fetch_pending_tx_updates account meanwhile now).
Proof.
  unfold fetch_pending_tx_updates, request_pending, collect_pending. cbv zeta.
  apply calls_bind; [by calls|]. intros _.
  apply calls_bind; [intros s; apply service_run_calls|]. intros _. by calls.
Qed.

Lemma user_call_calls c : calls_only allowed_call (run_user_call c).
Proof.
  destruct c; simpl.
  - unfold initiate_transaction. cbv zeta. by calls.
  - unfold sender_confirm. cbv zeta. by calls.
  - unfold receiver_confirm. by calls.
  - unfold revert_transaction. cbv zeta. by calls.
  - apply calls_bind; [apply fetch_calls|]. intros _. by calls.
  - unfold add_account. by calls.
  - unfold export_storage, as_option, or_default. by calls.
  - unfold delete_tx_in_cache. by calls.
  - unfold clear_reverted_from_cache, clear_where. by calls.
  - unfold clear_finalized_from_cache, clear_where. by calls.
Qed.

Lemma session_step_calls x : calls_only allowed_call (run_session_step x).
Proof.
  destruct x as [c|a| |]; simpl;
    [apply user_call_calls|apply service_step_calls|by calls|by calls].
Qed.

Lemma session_run_calls l s :
  ∃ cs, host_calls (session_run l s) = host_calls s ++ cs ∧ Forall allowed_call cs.
Proof.
  unfold session_run. revert s. induction l as [|x l IH]; intros s;
    [exists []; by rewrite app_nil_r|]. simpl.
  destruct (session_step_calls x s) as (cs & Hcs & HP).
  destruct (IH (run_session_step x s).2) as (cs' & Hcs' & HP').
  exists (cs ++ cs'). rewrite Hcs', Hcs, app_assoc. split; [done|]. by apply Forall_app.
Qed.

(** C1: the node never submits a transaction that is not authorised: whatever
    messages arrive, whatever the page calls, and however the tasks take turns,
    every submission the host sees is of a transaction for which the receiver's
    check, the sender's check and the identifier's check all passed. *)
Theorem submits_only_authorised (l : list session_step) (s : Node D) (tx : TxStateMachine)
    (Hnone : host_calls s = []) (Hin : HostSubmit tx ∈ host_calls (session_run l s)) :
  authorised tx.
Proof.
  destruct (session_run_calls l s) as (cs & Hcs & HP). rewrite Hcs, Hnone in Hin.
  rewrite list.Forall_forall in HP. exact (HP _ Hin).
Qed.
End session.
End safety.

(** *** The cache's layout *)

Section layout.
Context {BP : BuildProfile} {COD : Codec IntegrityFields} {P2P : P2pTypes} {LRU : LruCache N (TtlWrapper TxStateMachine)}.
Context {LAWS : @LruLaws N (TtlWrapper TxStateMachine) _ LRU}.
Context {D : Type} {DB : DbWorkerInterface D} {CR : Crypto} {HO : Host}.
Abbreviation NodeM := (M (Node D)).

Definition filed_under (k : N) (w : TtlWrapper TxStateMachine) : Prop :=
  tx_nonce (get_value w) = k.

(** The cache holds at most ten entries, each filed under its transaction's nonce. *)
Definition cache_layout (s : Node D) : Prop :=
  lru_cap (cache s) = 10%nat ∧ all_entries filed_under (cache s).

(** The rules of [keeps], at the layout. *)
Abbreviation keeps_layout := (keeps cache_layout).
#[local] Hint Resolve any_intro : core.

Lemma layout_same s s' : cache s' = cache s → cache_layout s → cache_layout s'.
Proof. unfold cache_layout. by intros ->. Qed.
#[local] Instance layout_blind : BorrowBlind cache_layout.
Proof. intros f s. by apply layout_same. Qed.

Lemma keeps_same {A} (m : NodeM A) : (∀ s, cache (m s).2 = cache s) → keeps_layout m any.
Proof. intros Hm. apply keeps_pure. intros s. by apply layout_same. Qed.
Lemma layout_attempt {A} (m : NodeM A) Q : keeps_layout m Q → keeps_layout (attempt m) any.
Proof. intros Hm. eapply keeps_any, keeps_attempt, Hm. Qed.
Lemma layout_for_each {A} (f : A → NodeM unit) l :
  (∀ x, keeps_layout (f x) any) → keeps_layout (for_each f l) any.
Proof.
  intros Hf. apply (keeps_for_each _ _ any); [auto|]. by apply list.Forall_forall.
Qed.

Lemma keeps_push k w :
  filed_under k w → keeps_layout (modify (with_cache (lru_push k w))) any.
Proof.
  intros Hw. apply keeps_modify. intros s [Hcap Hk].
  split; [by simpl; rewrite lru_push_cap|]. apply all_push; [lia|done..].
Qed.
Lemma keeps_cache_push k w : filed_under k w → keeps_layout (cache_push k w) any.
Proof. intros Hw. apply keeps_with_mut; [apply _|]. by apply keeps_push. Qed.

Lemma layout_peek k w s : cache_layout s → lru_peek k (cache s) = Some w → filed_under k w.
Proof. intros [_ Hk]. by apply all_peek. Qed.

(** The entry of a key, when there is one. *)
Definition found_under (k : N) (o : option (TtlWrapper TxStateMachine)) : Prop :=
  ∀ w, o = Some w → filed_under k w.

Lemma keeps_get_mut k f :
  (∀ w, filed_under k w → filed_under k (f w)) → keeps_layout (cache_get_mut k f) (found_under k).
Proof.
  intros Hf s Hs. assert (cache_layout (with_cache (lru_get_mut k f) s)) as Hs'.
  { destruct Hs. split; simpl; [by rewrite lru_get_mut_cap|by apply all_get_mut]. }
  split; [done|]. intros o [=] w Hw. subst. by eapply layout_peek.
Qed.
Lemma keeps_update tx :
  keeps_layout (cache_get_mut (tx_nonce tx) (update_value tx)) (found_under (tx_nonce tx)).
Proof. by apply keeps_get_mut. Qed.
Lemma keeps_get k : keeps_layout (cache_get k) (found_under k).
Proof.
  intros s Hs. pose proof Hs as [Hcap Hk]. split.
  - split; simpl; [by rewrite lru_get_cap|by apply all_get].
  - intros o [=] w Hw. subst. rewrite lru_get_peek in Hw. by eapply layout_peek.
Qed.

Create HintDb layout discriminated.
#[local] Hint Resolve keeps_get_mut keeps_update keeps_get keeps_cache_push keeps_push : layout.

Ltac layout_step :=
  match goal with
  | |- keeps_layout (mbind _ _) _ => eapply keeps_bind; [|intros ? ?]
  | |- keeps_layout (mret _) _ => first [by apply keeps_ret | by apply (keeps_ret _ _ any)]
  | |- keeps_layout skip _ => by apply (keeps_ret _ tt any)
  | |- keeps_layout (gets _) _ => by apply keeps_same
  | |- keeps_layout (lift _) _ => by apply keeps_same
  | |- keeps_layout (fail _) _ => by apply keeps_same
  | |- keeps_layout (crash _) _ => by apply keeps_same
  | |- keeps_layout (cache_get_mut _ _) _ => solve [eauto with layout]
  | |- keeps_layout (cache_get _) _ => solve [eauto with layout]
  | |- keeps_layout (cache_push _ _) _ => apply keeps_cache_push; by eauto
  | |- keeps_layout (modify _) _ => first [by apply keeps_same | apply keeps_push; by eauto]
  | |- keeps_layout (with_mut _ _) _ => apply keeps_with_mut; [apply _|]
  | |- keeps_layout (with_ref _ _) _ => apply keeps_with_ref; [apply _|]
  | |- keeps_layout (attempt _) _ => eapply layout_attempt
  | |- keeps_layout (for_each _ _) _ => apply layout_for_each; intros ?
  | |- keeps_layout (match ?x with _ => _ end) _ => destruct x
  | |- keeps_layout (if ?x then _ else _) _ => destruct x
  end.
Ltac layout := repeat first [layout_step | solve [eauto 2 with layout]].

Lemma keeps_on_db {A} (m : M D A) : keeps_layout (on_db m) any.
Proof. apply keeps_same. intros s. unfold on_db. by destruct (m (node_db s)). Qed.
Lemma keeps_rpc_send tx : keeps_layout (rpc_send tx) any.
Proof. unfold rpc_send. layout. Qed.
Lemma keeps_rpc_try_send tx : keeps_layout (rpc_try_send tx) any.
Proof. unfold rpc_try_send. layout. Qed.
Lemma keeps_command_send cmd : keeps_layout (command_send cmd) any.
Proof. unfold command_send. layout. Qed.
Lemma keeps_create_tx tx : keeps_layout (create_tx tx) any.
Proof. unfold create_tx. layout. Qed.
Lemma keeps_submit_tx tx : keeps_layout (submit_tx tx) any.
Proof. unfold submit_tx. layout. Qed.
#[local] Hint Resolve keeps_on_db keeps_rpc_send keeps_rpc_try_send keeps_command_send
  keeps_create_tx keeps_submit_tx : layout.

Lemma keeps_update_push_send now tx absent :
  tx_nonce absent = tx_nonce tx → keeps_layout (update_push_send now tx absent) any.
Proof. intros Hn. unfold update_push_send. layout. Qed.
Lemma keeps_update_send now tx : keeps_layout (update_send now tx) any.
Proof. unfold update_send. layout. Qed.
#[local] Hint Resolve keeps_update_push_send keeps_update_send : layout.

Lemma keeps_request now tx : keeps_layout (handle_wasm_request now tx) any.
Proof. unfold handle_wasm_request. layout. Qed.

Lemma keeps_response now tx : keeps_layout (handle_wasm_response now tx) any.
Proof. unfold handle_wasm_response, response_confirmed, response_refused. cbv zeta. layout. Qed.

Lemma keep_call_payload_nonce w tx : tx_nonce (keep_call_payload w tx) = tx_nonce tx.
Proof. unfold keep_call_payload. by destruct (_ && _). Qed.

Lemma keeps_swarm_message now msg : keeps_layout (handle_swarm_message now msg) any.
Proof.
  unfold handle_swarm_message. destruct msg as [[| |data|data|address txs]|e]; try by layout.
  - apply keeps_request.
  - apply keeps_response.
  - apply keeps_with_mut; [apply _|]. apply layout_for_each. intros tx. unfold cache_pending.
    eapply keeps_bind; [apply keeps_get_mut|intros o Ho; by layout].
    intros w _. apply keep_call_payload_nonce.
Qed.

Lemma keeps_reverted now tx : keeps_layout (handle_reverted_tx_state now tx) any.
Proof.
  unfold handle_reverted_tx_state. cbv zeta.
  eapply keeps_bind; [apply keeps_on_db|intros prof _].
  eapply keeps_bind; [by layout|intros _ _]. eapply keeps_bind; [apply keeps_on_db|intros _ _].
  eapply (keeps_bind _ _ _ (found_under (tx_nonce tx))); [|intros o Ho; layout].
  apply keeps_with_mut; [apply _|]. eapply keeps_bind; [apply keeps_update|intros [w|] Hw; [by layout|]].
  eapply keeps_bind; [by layout|]. intros _ _. by apply keeps_ret.
Qed.

Lemma keeps_sender_confirmed now tx :
  keeps_layout (handle_sender_confirmed_tx_state now tx) any.
Proof.
  unfold handle_sender_confirmed_tx_state, sender_refused, submit_and_record, parties_mismatch.
  cbv zeta. eapply keeps_bind; [apply keeps_on_db|intros prof _].
  destruct (status tx); layout.
Qed.

Lemma keeps_tx_update now tx : keeps_layout (handle_tx_update now tx) any.
Proof.
  unfold handle_tx_update.
  destruct (status tx); try apply keeps_sender_confirmed; try apply keeps_reverted; try by layout.
  - unfold handle_genesis_tx_state, wasm_send_request. layout.
  - unfold handle_recv_addr_confirmed_tx_state, local_confirmed, response_refused,
      wasm_send_response. cbv zeta. layout.
Qed.

Lemma keeps_update_loop now turns :
  keeps_layout (handle_public_interface_tx_updates now turns) any.
Proof.
  induction turns as [|turns IH]; simpl; [by layout|].
  eapply keeps_bind; [unfold recv_update; by layout|]. intros [txn|] _; [|by layout].
  eapply keeps_bind; [apply keeps_tx_update|done].
Qed.

Lemma keeps_service_step a : keeps_layout (service_step a) any.
Proof.
  destruct a as [now msg|txn|now turns]; simpl; [|by layout|apply keeps_update_loop].
  eapply keeps_bind; [eapply layout_attempt, keeps_swarm_message|]. by layout.
Qed.

Lemma service_run_layout l s : cache_layout s → cache_layout (service_run l s).
Proof.
  intros Hs. unfold service_run. revert s Hs. induction l as [|a l IH]; intros s Hs; [done|].
  simpl. apply IH. by apply keeps_service_step.
Qed.

(** **** The page's calls *)

Lemma keeps_check_integrity tx : keeps_layout (check_integrity tx) any.
Proof. unfold check_integrity. layout. Qed.
Lemma keeps_update_queue msg tx : keeps_layout (update_queue msg tx) any.
Proof. unfold update_queue. layout. Qed.
#[local] Hint Resolve keeps_check_integrity keeps_update_queue : layout.

Lemma keeps_pop keys : keeps_layout (modify (with_cache (pop_all keys))) any.
Proof.
  apply keeps_modify. intros s [Hcap Hk]. unfold cache_layout, pop_all. simpl. revert Hcap Hk.
  generalize (cache s). induction keys as [|k keys IH]; intros c Hcap Hk; [done|]. simpl.
  apply IH; [by rewrite lru_pop_cap|by apply all_pop].
Qed.
Lemma keeps_pop_one k : keeps_layout (modify (with_cache (lru_pop k))) any.
Proof. apply (keeps_pop [k]). Qed.
Lemma keeps_demote k : keeps_layout (modify (with_cache (lru_demote k))) any.
Proof.
  apply keeps_modify. intros s [Hcap Hk].
  split; simpl; [by rewrite lru_demote_cap|by apply all_demote].
Qed.
#[local] Hint Resolve keeps_pop keeps_pop_one keeps_demote : layout.

Lemma keeps_revert now tx reason : keeps_layout (revert_transaction now tx reason) any.
Proof.
  unfold revert_transaction. cbv zeta. eapply keeps_bind; [by layout|]. intros t _.
  destruct (is_reverted _); [by layout|].
  eapply (keeps_bind _ _ _ (found_under (tx_nonce t))); [|intros [w|] Hw; by layout].
  apply keeps_with_mut; [apply _|]. by apply keeps_get_mut.
Qed.

Lemma keeps_fetch account meanwhile now :
  keeps_layout (fetch_pending_tx_updates account meanwhile now) any.
Proof.
  unfold fetch_pending_tx_updates, request_pending, collect_pending. cbv zeta.
  eapply keeps_bind; [by layout|]. intros _ _.
  eapply keeps_bind; [apply keeps_modify; intros s; apply service_run_layout|]. intros _ _.
  by layout.
Qed.

Lemma keeps_user_call c : keeps_layout (run_user_call c) any.
Proof.
  destruct c; simpl.
  - unfold initiate_transaction. cbv zeta. by layout.
  - unfold sender_confirm. cbv zeta. by layout.
  - unfold receiver_confirm. by layout.
  - apply keeps_revert.
  - eapply keeps_bind; [apply keeps_fetch|]. intros _ _. by layout.
  - unfold add_account. by layout.
  - unfold export_storage, as_option, or_default. by layout.
  - unfold delete_tx_in_cache. by layout.
  - unfold clear_reverted_from_cache, clear_where. by layout.
  - unfold clear_finalized_from_cache, clear_where. by layout.
Qed.

Lemma keeps_session_step x : keeps_layout (run_session_step x) any.
Proof.
  destruct x as [c|a| |]; simpl;
    [apply keeps_user_call|apply keeps_service_step|by layout|by layout].
Qed.

Lemma session_run_layout l s : cache_layout s → cache_layout (session_run l s).
Proof.
  unfold session_run. revert s. induction l as [|x l IH]; intros s Hs; [done|].
  simpl. apply IH. by apply keeps_session_step.
Qed.

Lemma initial_layout (db : D) : cache_layout (initial_node db).
Proof.
  split; simpl; [apply lru_new_cap|apply all_new].
Qed.

(** C3: from start-up on, whatever the page calls and whatever messages arrive, the
    cache holds at most ten transactions, no two under the same key, each under its
    own nonce. *)
Theorem cache_bounded_and_keyed (l : list session_step) (db : D) :
  let c := cache (session_run l (initial_node db)) in
  (length (lru_iter c) ≤ 10)%nat ∧ NoDup (lru_iter c).*1 ∧
  ∀ k w, (k, w) ∈ lru_iter c → tx_nonce (get_value w) = k.
Proof.
  destruct (session_run_layout l _ (initial_layout db)) as [Hcap Hk]. cbv zeta.
  split_and!; [|apply lru_nodup|exact Hk]. rewrite <-Hcap. apply lru_bounded.
Qed.
End layout.

Section witnesses.
#[local] Existing Instance good_host.

(** Alice's node: Bob's confirmation arrives, she signs, the node submits. *)
Definition signing_session : list session_step :=
  ServiceActs <$>
  [SwarmMessageArrives 100 (inl (WasmResponse (confirmed RecvAddrConfirmed)));
   UserQueues (fully_signed SenderConfirmed); UpdateTaskRuns 101 1].

Lemma submits_only_authorised_witness :
  HostSubmit (fully_signed SenderConfirmed) ∈
    host_calls (session_run signing_session (alice_node [alice_to_bob Genesis])) ∧
  authorised (fully_signed SenderConfirmed).
Proof.
  assert (HostSubmit (fully_signed SenderConfirmed) ∈
    host_calls (session_run signing_session (alice_node [alice_to_bob Genesis]))) as Hin.
  { replace (host_calls (session_run signing_session (alice_node [alice_to_bob Genesis])))
      with [HostCreate (increment_version (recv_confirmation_passed (confirmed RecvAddrConfirmed)));
            HostSubmit (fully_signed SenderConfirmed)] by (vm_compute; reflexivity).
    right. by left. }
  split; [exact Hin|].
  exact (submits_only_authorised signing_session (alice_node [alice_to_bob Genesis])
    (fully_signed SenderConfirmed) eq_refl Hin).
Defined.

Lemma cache_bounded_and_keyed_witness :
  (length (lru_iter (cache (session_run signing_session
     (initial_node (abs_set_user alice_account AbsDb_new))))) ≤ 10)%nat ∧
  lru_iter (cache (session_run signing_session
     (initial_node (abs_set_user alice_account AbsDb_new)))) ≠ [].
Proof.
  split; [|vm_compute; discriminate].
  exact (proj1 (cache_bounded_and_keyed signing_session
    (abs_set_user alice_account AbsDb_new))).
Defined.
End witnesses.
