(* ===== verification/MainServiceProps.v ===== *)
(** What the main service's handlers do, branch by branch: submissions, refusals,
    responses, routing, and the runs that end in a panic. *)

From S2P Require Import Prelude DataStructure Codec Samples DbInterface Lru TxProcessing.
From S2P Require Import Node MainService NodeRun NodeSamples MainServiceSafety.
Open Scope N_scope.

Section props.
Context {P2P : P2pTypes} {LRU : LruCache N (TtlWrapper TxStateMachine)}.
Context {LAWS : @LruLaws N (TtlWrapper TxStateMachine) _ LRU}.
Context {D : Type} {DB : DbWorkerInterface D} {CR : Crypto} {HO : Host}.
Implicit Types (s : Node D).

(** The node after a submission that the host accepted. *)
Definition submitted (hash : bytes) (tx : TxStateMachine) (d' : D) s : Node D :=
  let passed := tx_submission_passed hash tx in {|
  node_db := d';
  cache := lru_get_mut (tx_nonce tx) (update_value passed) (cache s);
  rpc_channel := chan_push passed (rpc_channel s);
  user_channel := user_channel s;
  p2p_commands := chan_push (TxSubmissionUpdate (sender_address tx) passed) (p2p_commands s);
  p2p_event_notif := p2p_event_notif s;
  tx_integrity := tx_integrity s;
  host_calls := host_calls s ++ [HostSubmit tx];
  borrows := borrows s |}.

(** C7: a sender-confirmed update that passes the three checks, on a node with room
    in its channels and the transaction in its cache, is submitted to its chain
    once; the hash is recorded in the database as a success, announced to the
    backend, cached, and reported to the user, and every cell is free again. *)
Theorem authorised_submission now tx s prof hash d' w
    (Hst : status tx = SenderConfirmed) (Ha : authorised tx) (Hq : quiet s)
    (Hprof : get_user_account (node_db s) = (Ok prof, node_db s))
    (Hsub : submit_tx_js (host_calls s) tx = Ok hash)
    (Hdb : update_success_tx (db_record hash true tx) (node_db s) = (Ok (), d'))
    (Hcmd : has_room 1 (p2p_commands s)) (Hrpc : has_room 1 (rpc_channel s))
    (Hcached : lru_peek (tx_nonce tx) (cache s) = Some w) :
  handle_tx_update now tx s = (Ok (), submitted hash tx d' s).
Proof.
  destruct Ha as (Hr & Hs & Hm). unfold handle_tx_update. rewrite Hst.
  unfold handle_sender_confirmed_tx_state, submit_and_record, update_send.
  rewrite Hst, Hr, Hs, Hm. open_node s. exec.
Qed.

(** What a handler that died holding the cache leaves: the cell stays borrowed, and
    every later message from the network dies on it. *)
Lemma update_push_send_panics now tx absent s :
  get_borrow CacheCell (borrows s) = Free →
  update_push_send now tx absent s =
    (Panic BorrowMutError,
     with_cache (lru_get_mut (tx_nonce tx) (update_value tx))
       (with_borrows (set_borrow CacheCell Exclusive) s)).
Proof.
  intros Hb. unfold update_push_send.
  destruct s as [db ca rpc user cmds notif integ hc bs]; simpl in Hb.
  eapply exec_with_mut; [exact Hb| |reflexivity].
  eapply exec_bind; [unfold cache_get_mut; rewrite run_bind_modify, run_gets; reflexivity|].
  by destruct (lru_peek _ _).
Qed.

Definition touches_cache (msg : SwarmMessage) : Prop :=
  match msg with
  | WasmRequest _ | WasmResponse _ | SwarmPendingTransactionsFetched _ _ => True
  | _ => False
  end.

Lemma cache_wedged now msg s :
  get_borrow CacheCell (borrows s) = Exclusive → touches_cache msg →
  panics (handle_swarm_message now (inl msg) s).1 = true.
Proof.
  intros Hb Hmsg. unfold handle_swarm_message. destruct msg as [| |data|data|address txs]; try done.
  - unfold handle_wasm_request, attempt, rpc_try_send, with_mut.
    unfold mbind, M_bind. destruct (get_borrow RpcSenderCell (borrows s)); [|done..].
    unfold gets, lift, modify. destruct s as [db ca rpc user cmds notif integ hc bs].
    simpl in *. unfold cache_push, with_mut.
    unfold chan_try_send. destruct (closed rpc), (chan_full rpc); simpl; by rewrite Hb.
  - unfold handle_wasm_response, mbind, M_bind, with_ref. by rewrite Hb.
  - unfold with_mut. by rewrite Hb.
Qed.

(** when the transaction has left the cache (ten others came, or it expired), the
    same update is submitted and recorded, and then the handler dies on a second
    borrow of the cache: the user is told nothing, and from then on every request,
    response and fetch that arrives from the network dies on the cell it left
    borrowed. *)
Theorem uncached_submission_panics now tx s prof hash d'
    (Hst : status tx = SenderConfirmed) (Ha : authorised tx) (Hq : quiet s)
    (Hprof : get_user_account (node_db s) = (Ok prof, node_db s))
    (Hsub : submit_tx_js (host_calls s) tx = Ok hash)
    (Hdb : update_success_tx (db_record hash true tx) (node_db s) = (Ok (), d'))
    (Hcmd : has_room 1 (p2p_commands s))
    (Hcached : lru_peek (tx_nonce tx) (cache s) = None) :
  ∃ s', handle_tx_update now tx s = (Panic BorrowMutError, s') ∧
    host_calls s' = host_calls s ++ [HostSubmit tx] ∧ node_db s' = d' ∧
    rpc_channel s' = rpc_channel s ∧
    ∀ now' msg, touches_cache msg → panics (handle_swarm_message now' (inl msg) s').1 = true.
Proof.
  destruct Ha as (Hr & Hs & Hm). unfold handle_tx_update. rewrite Hst.
  unfold handle_sender_confirmed_tx_state, submit_and_record, update_send.
  rewrite Hst, Hr, Hs, Hm. open_node s.
  eexists. split_and!; [exec|done..|]. intros now' msg. by apply cache_wedged.
Qed.

(** The node after a sender's signature was refused. *)
Definition refused (now : N) (tx : TxStateMachine) s : Node D :=
  let failed := sender_confirmation_failed tx in {|
  node_db := node_db s;
  cache := lru_push (tx_nonce tx) (TtlWrapper_new failed now) (cache s);
  rpc_channel := chan_push failed (rpc_channel s);
  user_channel := user_channel s;
  p2p_commands := chan_push (ConfirmTransaction (sender_address tx) failed) (p2p_commands s);
  p2p_event_notif := p2p_event_notif s;
  tx_integrity := tx_integrity s;
  host_calls := host_calls s;
  borrows := borrows s |}.

(** a sender-confirmed update whose receiver signature is refused is answered with
    the error and changes nothing; one whose sender signature is refused is not
    submitted: its failure is announced to the backend, cached afresh and reported
    to the user. *)
Theorem unauthorised_submission now tx s prof
    (Hst : status tx = SenderConfirmed) (Hq : quiet s)
    (Hprof : get_user_account (node_db s) = (Ok prof, node_db s))
    (Hcmd : has_room 1 (p2p_commands s)) (Hrpc : has_room 1 (rpc_channel s)) :
  (∀ e, validate_receiver_and_sender_address tx "Receiver" = Err e →
    handle_tx_update now tx s = (Err e, s)) ∧
  (∀ e, validate_receiver_and_sender_address tx "Receiver" = Ok () →
    validate_receiver_and_sender_address tx "Sender" = Err e →
    handle_tx_update now tx s = (Ok (), refused now tx s)).
Proof.
  unfold handle_tx_update. rewrite Hst. unfold handle_sender_confirmed_tx_state, sender_refused.
  rewrite Hst. split.
  - intros e ->. open_node s. exec.
  - intros e -> ->. open_node s. exec.
Qed.

(** The node after a signed update whose identifier is not that of its parties. *)
Definition mismatched (tx : TxStateMachine) (d' : D) s : Node D :=
  let failed := set_status (TxError "failed to match original sender and receiver") tx in {|
  node_db := d';
  cache := lru_get_mut (tx_nonce tx) (update_value failed) (cache s);
  rpc_channel := chan_push failed (rpc_channel s);
  user_channel := user_channel s;
  p2p_commands := chan_push (ConfirmTransaction (sender_address tx) failed) (p2p_commands s);
  p2p_event_notif := p2p_event_notif s;
  tx_integrity := tx_integrity s;
  host_calls := host_calls s;
  borrows := borrows s |}.

(** A fully signed update whose identifier is not that of its parties is not
    submitted: the failure is announced, cached, reported and recorded. *)
Theorem mismatched_parties now tx s prof d' w
    (Hst : status tx = SenderConfirmed) (Hq : quiet s)
    (Hr : validate_receiver_and_sender_address tx "Receiver" = Ok ())
    (Hs : validate_receiver_and_sender_address tx "Sender" = Ok ())
    (Hm : validate_multi_id tx = false)
    (Hprof : get_user_account (node_db s) = (Ok prof, node_db s))
    (Hdb : update_failed_tx (db_record [] false tx) (node_db s) = (Ok (), d'))
    (Hcmd : has_room 1 (p2p_commands s)) (Hrpc : has_room 1 (rpc_channel s))
    (Hcached : lru_peek (tx_nonce tx) (cache s) = Some w) :
  handle_tx_update now tx s = (Ok (), mismatched tx d' s).
Proof.
  unfold handle_tx_update. rewrite Hst.
  unfold handle_sender_confirmed_tx_state, parties_mismatch, update_send.
  rewrite Hst, Hr, Hs, Hm. open_node s. exec.
Qed.

(** *** Responses *)


(** A response for a transaction that was reverted here, or that is older than the
    cached version, changes nothing at all. *)
Theorem stale_response_ignored now resp w s
    (Hq : quiet s) (Hw : lru_peek (tx_nonce resp) (cache s) = Some w)
    (Hold : (∃ reason, status (get_value w) = Reverted reason) ∨
            tx_version resp < tx_version (get_value w)) :
  handle_swarm_message now (inl (WasmResponse resp)) s = (Ok (), s).
Proof.
  unfold handle_swarm_message, handle_wasm_response.
  erewrite run_bind_ok; [|apply peek_run; by rewrite Hq]. rewrite Hw.
  assert (dropped_response (Some w) resp = true) as ->; [|done].
  unfold dropped_response. apply orb_true_iff. destruct Hold as [[reason ->]|Hlt]; [by left|].
  right. by apply N.ltb_lt.
Qed.

(** The cache after a response was filed. *)
Definition filed (tx : TxStateMachine) (w : TtlWrapper TxStateMachine)
    (c : Lru N (TtlWrapper TxStateMachine)) :=
  lru_push (tx_nonce tx) (update_value tx w) (lru_get_mut (tx_nonce tx) (update_value tx) c).

Definition answered (tx : TxStateMachine) (w : TtlWrapper TxStateMachine) (d' : D)
    (calls : list host_call) s : Node D := {|
  node_db := d';
  cache := filed tx w (cache s);
  rpc_channel := chan_push tx (rpc_channel s);
  user_channel := user_channel s;
  p2p_commands := p2p_commands s;
  p2p_event_notif := p2p_event_notif s;
  tx_integrity := tx_integrity s;
  host_calls := host_calls s ++ calls;
  borrows := borrows s |}.

(** a current response that the receiver signed makes the host create the
    transaction (from the response marked confirmed, one version later); what the
    host returns is reported to the user and cached, the database is untouched. *)
Theorem response_accepted now resp created w s
    (Hq : quiet s) (Hnew : dropped_response (lru_peek (tx_nonce resp) (cache s)) resp = false)
    (Hr : validate_receiver_and_sender_address resp "Receiver" = Ok ())
    (Hcreate : create_tx_js (host_calls s)
       (increment_version (recv_confirmation_passed resp)) = Ok created)
    (Hrpc : has_room 1 (rpc_channel s))
    (Hw : lru_peek (tx_nonce created) (cache s) = Some w) :
  handle_swarm_message now (inl (WasmResponse resp)) s =
    (Ok (), answered created w (node_db s)
              [HostCreate (increment_version (recv_confirmation_passed resp))] s).
Proof.
  unfold handle_swarm_message, handle_wasm_response, response_confirmed.
  erewrite run_bind_ok; [|apply peek_run; by rewrite Hq]. rewrite Hnew, Hr.
  open_node s. exec.
Qed.

(** C29: a current response whose receiver signature is refused becomes a revert, one
    version later; it is recorded as a failure, reported and cached, and the host is
    not called. *)
Theorem response_refused_reverts now resp w e s d'
    (Hq : quiet s) (Hnew : dropped_response (lru_peek (tx_nonce resp) (cache s)) resp = false)
    (Hr : validate_receiver_and_sender_address resp "Receiver" = Err e)
    (Hdb : update_failed_tx (db_record [] false resp) (node_db s) = (Ok (), d'))
    (Hrpc : has_room 1 (rpc_channel s))
    (Hw : lru_peek (tx_nonce resp) (cache s) = Some w) :
  handle_swarm_message now (inl (WasmResponse resp)) s =
    (Ok (), answered
              (increment_version (set_status (Reverted "Receiver address failed") resp))
              w d' [] s).
Proof.
  unfold handle_swarm_message, handle_wasm_response, response_refused.
  erewrite run_bind_ok; [|apply peek_run; by rewrite Hq]. rewrite Hnew, Hr.
  open_node s. rewrite <-(app_nil_r hc) at 1. exec.
Qed.

(** When the host cannot create the transaction, the handler always dies, cached or
    not: the user is told nothing, later messages from the network die on the cache,
    and later submissions die on the processing worker. *)
Theorem creation_failure_panics now resp e s
    (Hq : quiet s) (Hnew : dropped_response (lru_peek (tx_nonce resp) (cache s)) resp = false)
    (Hr : validate_receiver_and_sender_address resp "Receiver" = Ok ())
    (Hcreate : create_tx_js (host_calls s)
       (increment_version (recv_confirmation_passed resp)) = Err e) :
  ∃ s', handle_swarm_message now (inl (WasmResponse resp)) s = (Panic BorrowMutError, s') ∧
    rpc_channel s' = rpc_channel s ∧
    (∀ now' msg, touches_cache msg → panics (handle_swarm_message now' (inl msg) s').1 = true) ∧
    (∀ now' tx prof, status tx = SenderConfirmed →
       get_user_account (node_db s) = (Ok prof, node_db s) →
       (handle_tx_update now' tx s').1 = Panic BorrowError).
Proof.
  unfold handle_swarm_message at 1. unfold handle_wasm_response, response_confirmed.
  erewrite run_bind_ok; [|apply peek_run; by rewrite Hq]. rewrite Hnew, Hr. open_node s.
  eexists. split.
  - eapply exec_bind; [exec|cbv beta iota zeta]. eapply run_bind_panic.
    eapply exec_with_mut; [reflexivity| |reflexivity].
    eapply exec_bind; [exec|cbv beta iota zeta]. eapply run_bind_panic.
    by apply update_push_send_panics.
  - split_and!; [done|intros now' msg; by apply cache_wedged|].
    intros now' tx prof Hst Hprof. unfold handle_tx_update. rewrite Hst.
    unfold handle_sender_confirmed_tx_state. rewrite Hst.
    erewrite run_bind_ok; [|apply profile_run; exact Hprof]. done.
Qed.

(** *** Updates that the user's own node reports *)

(** A user's report that the transaction was submitted is recorded in the database
    and then always kills the handler: the cache is never updated, the user gets no
    answer, and later messages from the network die on the cache. *)
Theorem submission_reports_panic now tx hash s prof d'
    (Hst : status tx = TxSubmissionPassed hash) (Hq : quiet s)
    (Hprof : get_user_account (node_db s) = (Ok prof, node_db s))
    (Hdb : update_success_tx (db_record hash true tx) (node_db s) = (Ok (), d')) :
  ∃ s', handle_tx_update now tx s = (Panic BorrowMutError, s') ∧ node_db s' = d' ∧
    rpc_channel s' = rpc_channel s ∧
    ∀ now' msg, touches_cache msg → panics (handle_swarm_message now' (inl msg) s').1 = true.
Proof.
  unfold handle_tx_update. rewrite Hst. unfold handle_sender_confirmed_tx_state. rewrite Hst.
  open_node s. eexists. split_and!.
  - eapply exec_bind; [exec|]. eapply exec_bind; [exec|]. by apply update_push_send_panics.
  - done.
  - done.
  - intros now' msg. by apply cache_wedged.
Qed.

Lemma genesis_remote_run now tx s prof
    (Hst : status tx = Genesis) (Hq : quiet s)
    (Hprof : get_user_account (node_db s) = (Ok prof, node_db s))
    (Hb : both_in_profile tx prof = false) (Hroom : has_room 1 (p2p_commands s)) :
  handle_tx_update now tx s = (Ok (), with_p2p_commands (chan_push (WasmSendRequest tx)) s).
Proof.
  unfold handle_tx_update. rewrite Hst. unfold handle_genesis_tx_state.
  erewrite run_bind_ok; [|by apply profile_run]. rewrite Hb. open_node s. exec.
Qed.

(** A new transaction goes to the backend unless both its parties are accounts of
    this node; then it is answered locally from the cache, and is an error if the
    cache does not have it. *)
Theorem genesis_routing now tx s prof
    (Hst : status tx = Genesis) (Hq : quiet s)
    (Hprof : get_user_account (node_db s) = (Ok prof, node_db s)) :
  (both_in_profile tx prof = false → has_room 1 (p2p_commands s) →
     handle_tx_update now tx s =
       (Ok (), with_p2p_commands (chan_push (WasmSendRequest tx)) s)) ∧
  (both_in_profile tx prof = true → lru_peek (tx_nonce tx) (cache s) = None →
     (handle_tx_update now tx s).1 = Err " Failed get transaction from cache") ∧
  (∀ w, both_in_profile tx prof = true → lru_peek (tx_nonce tx) (cache s) = Some w →
     has_room 1 (rpc_channel s) →
     ∃ s', handle_tx_update now tx s = (Ok (), s') ∧
       rpc_channel s' = chan_push tx (rpc_channel s) ∧ p2p_commands s' = p2p_commands s ∧
       (0 < lru_cap (cache s) → lru_peek (tx_nonce tx) (cache s') = Some (update_value tx w)))%nat.
Proof.
  split; [by apply genesis_remote_run|].
  unfold handle_tx_update. rewrite Hst. unfold handle_genesis_tx_state.
  erewrite run_bind_ok; [|by apply profile_run]. split.
  - intros -> Hw. open_node s. erewrite run_bind_ok; [|exec]. done.
  - intros w -> Hw Hroom. open_node s. eexists. split_and!; [exec|done..|].
    intros Hcap. simpl. rewrite lru_peek_push; [done|]. by rewrite lru_get_cap.
Qed.

(** *** Reverts *)

(** The node after a revert of a cached transaction between two nodes. *)
Definition reverted (tx : TxStateMachine) (w : TtlWrapper TxStateMachine) (d' : D) s : Node D := {|
  node_db := d';
  cache := filed tx w (cache s);
  rpc_channel := chan_push tx (rpc_channel s);
  user_channel := user_channel s;
  p2p_commands := chan_push (Close (receiver_address tx) tx)
    (chan_push (RevertTransaction (sender_address tx) tx) (p2p_commands s));
  p2p_event_notif := p2p_event_notif s;
  tx_integrity := tx_integrity s;
  host_calls := host_calls s;
  borrows := borrows s |}.

Lemma command_send_twice_room {A} (x : A) ch : has_room 2 ch → has_room 1 (chan_push x ch).
Proof. intros Hroom. by destruct (chan_send_room x ch 1 Hroom). Qed.

(** A revert between two nodes sends the revert to the sender's address and then the
    close to the receiver's, records the failure, caches and reports it; if the cache
    does not have the transaction the handler dies after the first three steps,
    before the report. *)
Theorem revert_between_nodes now tx reason w s prof d'
    (Hst : status tx = Reverted reason) (Hq : quiet s)
    (Hprof : get_user_account (node_db s) = (Ok prof, node_db s))
    (Hremote : both_in_profile tx prof = false)
    (Hdb : update_failed_tx (db_record [] false tx) (node_db s) = (Ok (), d'))
    (Hcmd : has_room 2 (p2p_commands s)) (Hrpc : has_room 1 (rpc_channel s)) :
  (lru_peek (tx_nonce tx) (cache s) = Some w →
     handle_tx_update now tx s = (Ok (), reverted tx w d' s)) ∧
  (lru_peek (tx_nonce tx) (cache s) = None →
     ∃ s', handle_tx_update now tx s = (Panic BorrowMutError, s') ∧ node_db s' = d' ∧
       p2p_commands s' = p2p_commands (reverted tx w d' s) ∧
       rpc_channel s' = rpc_channel s ∧
       ∀ now' msg, touches_cache msg →
         panics (handle_swarm_message now' (inl msg) s').1 = true).
Proof.
  pose proof (command_send_twice_room (RevertTransaction (sender_address tx) tx) _ Hcmd) as Hcmd2.
  apply (has_room_le 2 1) in Hcmd; [|lia].
  unfold handle_tx_update. rewrite Hst. unfold handle_reverted_tx_state.
  erewrite run_bind_ok; [|by apply profile_run]. rewrite Hremote. simpl negb. split.
  - intros Hw. open_node s. exec.
  - intros Hw. open_node s. eexists. split_and!; [exec|done..|].
    intros now' msg. by apply cache_wedged.
Qed.

(** *** The update loop *)

Lemma recv_update_run txn rest s :
  get_borrow UserRecvCell (borrows s) = Free → queue (user_channel s) = txn :: rest →
  recv_update s = (Ok (Some txn), with_user_channel chan_pop s).
Proof.
  intros Hb Hqu. destruct s as [db ca rpc user cmds notif integ hc []]. simpl in *. subst.
  eapply exec_with_mut;
    [reflexivity|rewrite run_bind_gets; simpl; rewrite Hqu; reflexivity|reflexivity].
Qed.

(** One update in error ends the update loop for good: a confirmation with a refused
    receiver signature returns the error from the loop with the updates behind it
    still queued. *)
Theorem update_loop_ends_on_error now turns txn rest s prof e
    (Hq : quiet s) (Hqu : queue (user_channel s) = txn :: rest)
    (Hst : status txn = SenderConfirmed)
    (Hprof : get_user_account (node_db s) = (Ok prof, node_db s))
    (Hr : validate_receiver_and_sender_address txn "Receiver" = Err e) :
  ∃ s', handle_public_interface_tx_updates now (S turns) s = (Err e, s') ∧
    queue (user_channel s') = rest ∧ host_calls s' = host_calls s.
Proof.
  exists (with_user_channel chan_pop s). simpl handle_public_interface_tx_updates.
  erewrite run_bind_ok; [|by eapply recv_update_run; [rewrite Hq|]].
  split_and!; [|by simpl; rewrite Hqu|done]. apply run_bind_err.
  unfold handle_tx_update. rewrite Hst. unfold handle_sender_confirmed_tx_state. rewrite Hst, Hr.
  open_node s. exec.
Qed.

(** While another handler's creation is pending in the host, a submission dies on the
    processing worker that the creation keeps borrowed. *)
Theorem submission_during_creation_panics now tx s prof
    (Hb : get_borrow TxWorkerCell (borrows s) = Exclusive)
    (Hst : status tx = SenderConfirmed)
    (Hprof : get_user_account (node_db s) = (Ok prof, node_db s)) :
  handle_tx_update now tx s = (Panic BorrowError, s).
Proof.
  unfold handle_tx_update. rewrite Hst. unfold handle_sender_confirmed_tx_state. rewrite Hst.
  erewrite run_bind_ok; [|by apply profile_run]. apply run_bind_panic.
  unfold with_ref. by rewrite Hb.
Qed.

(** *** Fetched transactions *)

(** What [cache_pending] does to the cache. *)
Definition file_pending (now : N) (tx : TxStateMachine) (c : Lru N (TtlWrapper TxStateMachine)) :=
  let c' := lru_get_mut (tx_nonce tx)
    (λ w, update_value (keep_call_payload (get_value w) tx) w) c in
  lru_push (tx_nonce tx)
    (match lru_peek (tx_nonce tx) c' with Some w => w | None => TtlWrapper_new tx now end) c'.

Lemma cache_pending_run now tx s :
  cache_pending now tx s = (Ok (), with_cache (file_pending now tx) s).
Proof.
  unfold cache_pending, cache_get_mut, file_pending. cbv zeta.
  rewrite run_bind_bind, run_bind_modify, run_bind_gets. unfold with_cache. simpl.
  by destruct (lru_peek _ _).
Qed.

Lemma fetched_run now txs s :
  for_each (cache_pending now) txs s =
    (Ok (), with_cache (λ c, foldl (λ c tx, file_pending now tx c) c txs) s).
Proof.
  revert s. induction txs as [|tx txs IH]; intros s; [by destruct s|].
  simpl. erewrite run_bind_ok; [|apply cache_pending_run]. by rewrite IH.
Qed.

(** The cached value of a fetched transaction: the fetched one, up to a call
    payload kept from the entry it replaces. *)
Definition carries (tx v : TxStateMachine) : Prop := ∃ existing, v = keep_call_payload existing tx.

(** The entries of [txs], the last fetched first, lead the cache. *)
Definition led_by (txs : list TxStateMachine) (c : Lru N (TtlWrapper TxStateMachine)) : Prop :=
  ∃ front rest, lru_iter c = front ++ rest ∧
    Forall2 (λ kw tx, kw.1 = tx_nonce tx ∧ carries tx (get_value kw.2)) front (reverse txs).

Lemma file_pending_leads now tx txs c :
  (length txs < lru_cap c)%nat → tx_nonce tx ∉ tx_nonce <$> txs → led_by txs c →
  led_by (txs ++ [tx]) (file_pending now tx c).
Proof.
  intros Hlen Hfresh (front & rest & Hiter & Hfront). unfold file_pending. cbv zeta.
  unfold led_by. rewrite lru_refresh_iter by lia. rewrite reverse_snoc.
  assert (tx_nonce tx ∉ front.*1) as Hnf.
  { intros Hin. apply Hfresh. apply list_elem_of_fmap in Hin as (kw & Hk & Hin).
    apply list_elem_of_lookup in Hin as [i Hi].
    destruct (Forall2_lookup_l _ _ _ _ _ Hfront Hi) as (tx' & Hi' & Hn & _).
    apply list_elem_of_fmap. exists tx'. split; [by rewrite Hk|].
    apply elem_of_reverse. by eapply list_elem_of_lookup_2. }
  apply Forall2_length in Hfront as Hfl. rewrite length_reverse in Hfl.
  rewrite Hiter, without_app, without_id by done. rewrite take_app_ge by lia.
  match goal with |- context [(tx_nonce tx, ?v) :: front ++ ?r] =>
    exists ((tx_nonce tx, v) :: front), r end.
  split; [done|]. constructor; [|done]. split; [done|]. simpl.
  rewrite lru_peek_get_mut. destruct (lru_peek (tx_nonce tx) c) as [w|]; simpl.
  - by exists (get_value w).
  - exists tx. unfold keep_call_payload. by destruct (bool_decide _).
Qed.

Lemma fetched_lead now txs c :
  (length txs ≤ lru_cap c)%nat → NoDup (tx_nonce <$> txs) →
  lru_cap (foldl (λ c tx, file_pending now tx c) c txs) = lru_cap c ∧
  led_by txs (foldl (λ c tx, file_pending now tx c) c txs).
Proof.
  induction txs as [|tx txs IH] using rev_ind; intros Hlen Hn.
  - split; [done|]. by exists [], (lru_iter c).
  - rewrite length_app in Hlen. simpl in Hlen. rewrite fmap_app in Hn.
    apply list.NoDup_app in Hn as (Hn & Hfresh & _).
    destruct IH as [Hcap Hlead]; [lia|done|]. rewrite foldl_app. simpl. split.
    + unfold file_pending. cbv zeta. by rewrite lru_push_cap, lru_get_mut_cap.
    + apply file_pending_leads; [lia| |done]. intros Hin. apply (Hfresh _ Hin).
      simpl. by left.
Qed.

Lemma led_by_peek txs c tx :
  led_by txs c → tx ∈ txs →
  ∃ w, lru_peek (tx_nonce tx) c = Some w ∧ carries tx (get_value w).
Proof.
  intros (front & rest & Hiter & Hfront) Htx.
  apply elem_of_reverse, list_elem_of_lookup in Htx as [i Hi].
  destruct (Forall2_lookup_r _ _ _ _ _ Hfront Hi) as ([k w] & Hi' & Hk & Hc). simpl in *.
  exists w. split; [|done]. rewrite lru_peek_value. subst k.
  apply assoc_NoDup; [apply lru_nodup|]. rewrite Hiter. apply elem_of_app. left.
  by eapply list_elem_of_lookup_2.
Qed.

Lemma keep_call_payload_same existing tx :
  status (keep_call_payload existing tx) = status tx ∧
  tx_version (keep_call_payload existing tx) = tx_version tx.
Proof. unfold keep_call_payload. by destruct (_ && _). Qed.

(** transactions fetched from the backend replace the cached ones without the
    checks that responses get: whatever status and version the cache had, reverted
    ones included, afterwards it has those fetched. *)
Theorem fetched_transactions_overwrite now address txs s
    (Hq : quiet s) (Hlen : (length txs ≤ lru_cap (cache s))%nat)
    (Hdistinct : NoDup (tx_nonce <$> txs)) :
  ∃ s', handle_swarm_message now (inl (SwarmPendingTransactionsFetched address txs)) s =
      (Ok (), s') ∧
    ∀ tx, tx ∈ txs → ∃ w, lru_peek (tx_nonce tx) (cache s') = Some w ∧
      status (get_value w) = status tx ∧ tx_version (get_value w) = tx_version tx.
Proof.
  destruct (fetched_lead now txs _ Hlen Hdistinct) as [_ Hlead]. open_node s.
  eexists. split; [eapply exec_with_mut; [reflexivity|apply fetched_run|reflexivity]|].
  intros tx Htx. destruct (led_by_peek _ _ _ Hlead Htx) as (w & Hw & [v Hv]).
  exists w. split; [exact Hw|]. rewrite Hv. apply keep_call_payload_same.
Qed.
End props.

Section good_witnesses.
#[local] Existing Instance good_host.

Lemma authorised_submission_witness :
  authorised (fully_signed SenderConfirmed) ∧
  ∃ d', handle_tx_update 200 (fully_signed SenderConfirmed) (alice_node [alice_to_bob Genesis]) =
    (Ok (), submitted [Byte.xaa] (fully_signed SenderConfirmed) d'
              (alice_node [alice_to_bob Genesis])).
Proof.
  assert (authorised (fully_signed SenderConfirmed)) as Ha by (split_and!; vm_compute; reflexivity).
  split; [exact Ha|]. eexists.
  apply (authorised_submission 200 (fully_signed SenderConfirmed)
    (alice_node [alice_to_bob Genesis]) alice_account [Byte.xaa] _
    (TtlWrapper_new (alice_to_bob Genesis) 100)); try exact Ha; try (vm_compute; reflexivity).
  - split; [reflexivity|vm_compute; lia].
  - split; [reflexivity|vm_compute; lia].
Defined.

Lemma uncached_submission_panics_witness :
  ∃ s', handle_tx_update 200 (fully_signed SenderConfirmed) (alice_node []) =
    (Panic BorrowMutError, s') ∧ host_calls s' = [HostSubmit (fully_signed SenderConfirmed)].
Proof.
  destruct (uncached_submission_panics (DB := AbsDb_interface) 200 (fully_signed SenderConfirmed) (alice_node [])
    alice_account [Byte.xaa] _ eq_refl
    ltac:(split_and!; vm_compute; reflexivity) eq_refl eq_refl eq_refl eq_refl
    ltac:(split; [reflexivity|vm_compute; lia]) ltac:(vm_compute; reflexivity))
    as (s' & Hrun & Hcalls & _). by exists s'.
Defined.

Lemma unauthorised_submission_witness :
  (handle_tx_update 200 (alice_to_bob SenderConfirmed) (alice_node [])).1 =
    Err "receiver didnt signed" ∧
  handle_tx_update 200 (confirmed SenderConfirmed) (alice_node []) =
    (Ok (), refused 200 (confirmed SenderConfirmed) (alice_node [])).
Proof.
  split.
  - destruct (unauthorised_submission (DB := AbsDb_interface) 200 (alice_to_bob SenderConfirmed) (alice_node [])
      alice_account eq_refl eq_refl ltac:(vm_compute; reflexivity)) as [Hreceiver _];
      [split; [reflexivity|vm_compute; lia]..|].
    by rewrite (Hreceiver _ eq_refl).
  - destruct (unauthorised_submission (DB := AbsDb_interface) 200 (confirmed SenderConfirmed) (alice_node [])
      alice_account eq_refl eq_refl ltac:(vm_compute; reflexivity)) as [_ Hsender];
      [split; [reflexivity|vm_compute; lia]..|].
    apply (Hsender "original sender didnt signed"); vm_compute; reflexivity.
Defined.

Lemma mismatched_parties_witness :
  ∃ d', handle_tx_update 200 (misfiled SenderConfirmed) (alice_node [alice_to_bob Genesis]) =
    (Ok (), mismatched (misfiled SenderConfirmed) d' (alice_node [alice_to_bob Genesis])).
Proof.
  eexists. apply (mismatched_parties 200 (misfiled SenderConfirmed)
    (alice_node [alice_to_bob Genesis]) alice_account _
    (TtlWrapper_new (alice_to_bob Genesis) 100)); try (vm_compute; reflexivity).
  - split; [reflexivity|vm_compute; lia].
  - split; [reflexivity|vm_compute; lia].
Defined.

Lemma stale_response_ignored_witness :
  handle_swarm_message 200 (inl (WasmResponse (confirmed RecvAddrConfirmed)))
    (alice_node [alice_to_bob (Reverted "changed my mind")]) =
    (Ok (), alice_node [alice_to_bob (Reverted "changed my mind")]).
Proof.
  apply (stale_response_ignored 200 (confirmed RecvAddrConfirmed)
    (TtlWrapper_new (alice_to_bob (Reverted "changed my mind")) 100));
    [reflexivity|vm_compute; reflexivity|]. left. by exists "changed my mind".
Defined.

(** What the host makes of Bob's confirmation. *)
Definition created_tx : TxStateMachine :=
  set_call_payload (Some sample_payload)
    (increment_version (recv_confirmation_passed (confirmed RecvAddrConfirmed))).

Lemma response_accepted_witness :
  ∃ s', handle_swarm_message 200 (inl (WasmResponse (confirmed RecvAddrConfirmed)))
    (alice_node [alice_to_bob Genesis]) = (Ok (), s') ∧ queue (rpc_channel s') = [created_tx].
Proof.
  eexists. split.
  - apply (response_accepted 200 (confirmed RecvAddrConfirmed) created_tx
      (TtlWrapper_new (alice_to_bob Genesis) 100)); try (vm_compute; reflexivity).
    split; [reflexivity|vm_compute; lia].
  - vm_compute. reflexivity.
Defined.

Lemma response_refused_reverts_witness :
  ∃ s', handle_swarm_message 200 (inl (WasmResponse (alice_to_bob RecvAddrConfirmed)))
    (alice_node [alice_to_bob Genesis]) = (Ok (), s') ∧
    status <$> queue (rpc_channel s') = [Reverted "Receiver address failed"].
Proof.
  eexists. split.
  - eapply (response_refused_reverts 200 (alice_to_bob RecvAddrConfirmed)
      (TtlWrapper_new (alice_to_bob Genesis) 100) "receiver didnt signed");
      try (vm_compute; reflexivity).
    split; [reflexivity|vm_compute; lia].
  - vm_compute. reflexivity.
Defined.

Lemma submission_reports_panic_witness :
  (handle_tx_update 200 (fully_signed (TxSubmissionPassed [Byte.xaa]))
    (alice_node [alice_to_bob Genesis])).1 = Panic BorrowMutError.
Proof.
  destruct (submission_reports_panic (DB := AbsDb_interface) 200 (fully_signed (TxSubmissionPassed [Byte.xaa])) [Byte.xaa]
    (alice_node [alice_to_bob Genesis]) alice_account _ eq_refl eq_refl eq_refl eq_refl)
    as (s' & Hrun & _). by rewrite Hrun.
Defined.

Lemma genesis_routing_witness :
  (∃ s', handle_tx_update 200 (alice_to_bob Genesis) (alice_node [alice_to_bob Genesis]) =
     (Ok (), s') ∧ queue (p2p_commands s') = [WasmSendRequest (alice_to_bob Genesis)]) ∧
  (∃ s', handle_tx_update 200 (alice_to_bob Genesis)
       (node_of both_accounts [alice_to_bob Genesis]) = (Ok (), s') ∧
     queue (rpc_channel s') = [alice_to_bob Genesis]) ∧
  (handle_tx_update 200 (alice_to_bob Genesis) (node_of both_accounts [])).1 =
    Err " Failed get transaction from cache".
Proof.
  split_and!.
  - destruct (genesis_routing (DB := AbsDb_interface) 200 (alice_to_bob Genesis) (alice_node [alice_to_bob Genesis])
      alice_account eq_refl eq_refl ltac:(vm_compute; reflexivity)) as (Hremote & _).
    eexists. split; [apply Hremote; [vm_compute; reflexivity|]|vm_compute; reflexivity].
    split; [reflexivity|vm_compute; lia].
  - destruct (genesis_routing (DB := AbsDb_interface) 200 (alice_to_bob Genesis)
      (node_of both_accounts [alice_to_bob Genesis]) both_accounts eq_refl eq_refl ltac:(vm_compute; reflexivity))
      as (_ & _ & Hlocal).
    destruct (Hlocal (TtlWrapper_new (alice_to_bob Genesis) 100)) as (s' & Hrun & Hq & _);
      [vm_compute; reflexivity..|split; [reflexivity|vm_compute; lia]|].
    exists s'. split; [exact Hrun|]. rewrite Hq. vm_compute. reflexivity.
  - destruct (genesis_routing (DB := AbsDb_interface) 200 (alice_to_bob Genesis) (node_of both_accounts [])
      both_accounts eq_refl eq_refl ltac:(vm_compute; reflexivity)) as (_ & Hlost & _).
    apply Hlost; vm_compute; reflexivity.
Defined.

Lemma revert_between_nodes_witness :
  ∃ s', handle_tx_update 200 (alice_to_bob (Reverted "changed my mind"))
    (alice_node [alice_to_bob Genesis]) = (Ok (), s') ∧
  (handle_tx_update 200 (alice_to_bob (Reverted "changed my mind")) (alice_node [])).1 =
    Panic BorrowMutError.
Proof.
  destruct (revert_between_nodes (DB := AbsDb_interface) 200 (alice_to_bob (Reverted "changed my mind"))
    "changed my mind" (TtlWrapper_new (alice_to_bob Genesis) 100)
    (alice_node [alice_to_bob Genesis]) alice_account _ eq_refl eq_refl eq_refl
    ltac:(vm_compute; reflexivity) eq_refl) as [Hcached _];
    [split; [reflexivity|vm_compute; lia]..|].
  destruct (revert_between_nodes (DB := AbsDb_interface) 200 (alice_to_bob (Reverted "changed my mind"))
    "changed my mind" (TtlWrapper_new (alice_to_bob Genesis) 100)
    (alice_node []) alice_account _ eq_refl eq_refl eq_refl
    ltac:(vm_compute; reflexivity) eq_refl) as [_ Habsent];
    [split; [reflexivity|vm_compute; lia]..|].
  eexists. split; [apply Hcached; vm_compute; reflexivity|].
  destruct Habsent as (s' & Hrun & _); [vm_compute; reflexivity|]. by rewrite Hrun.
Defined.

(** Alice's node with two updates queued, the first without Bob's signature. *)
Definition queued_node : Node AbsDb :=
  with_user_channel (λ ch, chan_push (alice_to_bob Genesis)
                             (chan_push (alice_to_bob SenderConfirmed) ch)) (alice_node []).

Lemma update_loop_ends_on_error_witness :
  ∃ s', handle_public_interface_tx_updates 200 5 queued_node =
    (Err "receiver didnt signed", s') ∧ queue (user_channel s') = [alice_to_bob Genesis].
Proof.
  destruct (update_loop_ends_on_error (DB := AbsDb_interface) 200 4 (alice_to_bob SenderConfirmed) [alice_to_bob Genesis]
    queued_node alice_account "receiver didnt signed" eq_refl eq_refl eq_refl eq_refl
    ltac:(vm_compute; reflexivity)) as (s' & Hrun & Hq & _). by exists s'.
Defined.

Lemma submission_during_creation_panics_witness :
  (handle_tx_update 200 (fully_signed SenderConfirmed)
    (with_borrows (set_borrow TxWorkerCell Exclusive) (alice_node []))).1 = Panic BorrowError.
Proof.
  by rewrite (submission_during_creation_panics (DB := AbsDb_interface) 200 (fully_signed SenderConfirmed)
    (with_borrows (set_borrow TxWorkerCell Exclusive) (alice_node [])) alice_account
    eq_refl eq_refl eq_refl).
Defined.

Lemma fetched_transactions_overwrite_witness :
  ∃ s' w, handle_swarm_message 200
      (inl (SwarmPendingTransactionsFetched "alice" [alice_to_bob Genesis]))
      (alice_node [alice_to_bob (Reverted "changed my mind")]) = (Ok (), s') ∧
    lru_peek 1 (cache s') = Some w ∧ status (get_value w) = Genesis.
Proof.
  destruct (fetched_transactions_overwrite 200 "alice" [alice_to_bob Genesis]
    (alice_node [alice_to_bob (Reverted "changed my mind")]) eq_refl
    ltac:(vm_compute; lia) ltac:(apply NoDup_singleton)) as (s' & Hrun & Hall).
  destruct (Hall (alice_to_bob Genesis)) as (w & Hw & Hst & _); [by left|].
  by exists s', w.
Defined.
End good_witnesses.

Section bad_witnesses.
#[local] Existing Instance bad_host.

Lemma creation_failure_panics_witness :
  (handle_swarm_message 200 (inl (WasmResponse (confirmed RecvAddrConfirmed)))
    (alice_node [alice_to_bob Genesis])).1 = Panic BorrowMutError.
Proof.
  destruct (creation_failure_panics 200 (confirmed RecvAddrConfirmed) "no provider"
    (alice_node [alice_to_bob Genesis]) eq_refl ltac:(vm_compute; reflexivity)
    ltac:(vm_compute; reflexivity) eq_refl) as (s' & Hrun & _). by rewrite Hrun.
Defined.
End bad_witnesses.
