(* ===== verification/UpdateLoop.v ===== *)
(** The update loop comes to rest: it handles exactly the updates that are queued, in
    their order, and then waits for the next one. *)

From S2P Require Import Prelude DataStructure DbInterface Lru TxProcessing.
From S2P Require Import Node NodeLogic MainService NodeRun NodeSamples.
Open Scope N_scope.

Section update_loop.
Context {P2P : P2pTypes} {LRU : LruCache N (TtlWrapper TxStateMachine)}.
Context {D : Type} {DB : DbWorkerInterface D} {CR : Crypto} {HO : Host}.

Abbreviation NodeM := (M (Node D)).

(** *** A handler queues no update *)

Definition user_queue_is (ch : Chan TxStateMachine) (s : Node D) : Prop := user_channel s = ch.

Section handlers.
Context (ch : Chan TxStateMachine) (now : N).
Abbreviation unqueued := (keeps (user_queue_is ch)).
#[local] Hint Resolve any_intro : core.
#[local] Instance user_queue_blind : BorrowBlind (user_queue_is ch).
Proof. by intros f s. Qed.

Lemma unqueued_same {A} (m : NodeM A) :
  (∀ s, user_channel (m s).2 = user_channel s) → unqueued m any.
Proof. intros Hm. apply keeps_pure. unfold user_queue_is. intros s <-. apply Hm. Qed.
Lemma unqueued_on_db {A} (m : M D A) : unqueued (on_db m) any.
Proof. apply unqueued_same. intros s. unfold on_db. by destruct (m (node_db s)). Qed.
Lemma unqueued_attempt {A} (m : NodeM A) : unqueued m any → unqueued (attempt m) any.
Proof. intros Hm. by eapply keeps_any, keeps_attempt. Qed.

Ltac unqueued_step :=
  match goal with
  | |- unqueued (mbind _ _) _ => eapply (keeps_bind _ _ _ any); [|intros ? _]
  | |- unqueued (on_db _) _ => apply unqueued_on_db
  | |- unqueued (with_mut _ _) _ => apply keeps_with_mut; [apply _|]
  | |- unqueued (with_ref _ _) _ => apply keeps_with_ref; [apply _|]
  | |- unqueued (attempt _) _ => apply unqueued_attempt
  | |- unqueued (match ?x with _ => _ end) _ => destruct x
  | |- unqueued (if ?x then _ else _) _ => destruct x
  | |- unqueued _ _ => by apply unqueued_same
  end.
Ltac unqueued := repeat unqueued_step.

Lemma unqueued_update_push_send tx absent : unqueued (update_push_send now tx absent) any.
Proof. unfold update_push_send, rpc_send, cache_push, cache_get_mut. unqueued. Qed.
Lemma unqueued_update_send tx : unqueued (update_send now tx) any.
Proof. unfold update_send, rpc_send, cache_push, cache_get_mut. unqueued. Qed.
Lemma unqueued_command cmd : unqueued (command_send cmd) any.
Proof. unfold command_send. unqueued. Qed.

Lemma unqueued_genesis tx : unqueued (handle_genesis_tx_state tx) any.
Proof.
  unfold handle_genesis_tx_state, wasm_send_request, rpc_send, cache_push, cache_get. unqueued.
Qed.
Lemma unqueued_recv_confirmed tx : unqueued (handle_recv_addr_confirmed_tx_state tx) any.
Proof.
  unfold handle_recv_addr_confirmed_tx_state, local_confirmed, response_refused,
    wasm_send_response, create_tx, rpc_send, rpc_try_send, cache_push, cache_get_mut.
  cbv zeta. unqueued.
Qed.
Lemma unqueued_sender_confirmed tx : unqueued (handle_sender_confirmed_tx_state now tx) any.
Proof.
  unfold handle_sender_confirmed_tx_state, sender_refused, submit_and_record, parties_mismatch.
  cbv zeta. eapply (keeps_bind _ _ _ any); [apply unqueued_on_db|]. intros prof _.
  destruct (status tx);
    repeat first [ apply unqueued_update_push_send | apply unqueued_update_send
                 | apply unqueued_command | progress unfold submit_tx, rpc_send, cache_push
                 | unqueued_step ].
Qed.
Lemma unqueued_reverted tx : unqueued (handle_reverted_tx_state now tx) any.
Proof.
  unfold handle_reverted_tx_state, command_send, rpc_send, cache_push, cache_get_mut. unqueued.
Qed.

Lemma unqueued_tx_update tx : unqueued (handle_tx_update now tx) any.
Proof.
  unfold handle_tx_update.
  destruct (status tx);
    first [ by apply unqueued_same | apply unqueued_genesis | apply unqueued_recv_confirmed
          | apply unqueued_sender_confirmed | apply unqueued_reverted ].
Qed.
End handlers.

Lemma handle_tx_update_queues_nothing now tx (s : Node D) :
  user_channel (handle_tx_update now tx s).2 = user_channel s.
Proof. by apply (unqueued_tx_update (user_channel s) now tx s). Qed.

(** *** Taking an update *)

Lemma recv_update_takes (s : Node D) o s' :
  recv_update s = (Ok o, s') →
  queue (user_channel s') = List.tl (queue (user_channel s)) ∧
  o = head (queue (user_channel s)).
Proof.
  unfold recv_update, with_mut. destruct (get_borrow _ _); [|done..].
  rewrite run_bind_gets. simpl. destruct (queue (user_channel s)) as [|tx l] eqn:Hq.
  - destruct (closed _); [|done]. intros [= <- <-]. simpl. by rewrite Hq.
  - rewrite run_bind_modify. intros [= <- <-]. simpl. by rewrite Hq.
Qed.

(** Each queued update is taken and handled; then the loop waits for another. *)
Definition handle_queued (now : N) (l : list TxStateMachine) : NodeM unit :=
  for_each (λ txn, recv_update;; handle_tx_update now txn) l;; recv_update;; skip.

(** C17: given a turn more than there are updates queued, the loop comes to rest: it does
    what handling the queued updates one after the other and waiting for the next does,
    whatever the handlers do (an error, a panic or a full channel ends both at the same
    update); more turns change nothing. *)
Theorem update_loop_comes_to_rest now turns (s : Node D)
    (Hturns : (length (queue (user_channel s)) < turns)%nat) :
  handle_public_interface_tx_updates now turns s =
    handle_queued now (queue (user_channel s)) s.
Proof.
  unfold handle_queued. remember (queue (user_channel s)) as l eqn:Hl.
  revert turns s Hl Hturns.
  induction l as [|tx l IH]; intros [|turns] s Hl Hturns; simpl in Hturns; [lia| |lia|]; simpl.
  - rewrite run_bind_ret, !run_bind.
    destruct (recv_update s) as [[o| | |] s1] eqn:Hrecv; [|done..].
    apply recv_update_takes in Hrecv as [_ ->]. by rewrite <-Hl.
  - rewrite !run_bind_bind, !(run_bind recv_update).
    destruct (recv_update s) as [[o| | |] s1] eqn:Hrecv; [|done..].
    apply recv_update_takes in Hrecv as [Hq ->]. rewrite <-Hl in Hq. rewrite <-Hl. simpl in *.
    rewrite !(run_bind (handle_tx_update _ _)).
    pose proof (handle_tx_update_queues_nothing now tx s1) as Hsame.
    destruct (handle_tx_update now tx s1) as [[[]| | |] s2]; [|done..]. simpl in Hsame.
    apply IH; [by rewrite Hsame|lia].
Qed.
End update_loop.

(** ** Witness *)

#[local] Existing Instance good_host.

(** Alice's node with a submission and a revert queued. *)
Definition two_updates_node : Node AbsDb :=
  with_user_channel (λ ch, chan_push (alice_to_bob (Reverted "late"))
                             (chan_push (fully_signed SenderConfirmed) ch))
    (alice_node [alice_to_bob Genesis]).

Lemma update_loop_comes_to_rest_witness :
  (handle_public_interface_tx_updates 200 50 two_updates_node).1 = Parked ∧
  handle_public_interface_tx_updates 200 50 two_updates_node =
    handle_queued 200 [fully_signed SenderConfirmed; alice_to_bob (Reverted "late")]
      two_updates_node ∧
  queue (user_channel (handle_public_interface_tx_updates 200 50 two_updates_node).2) = [].
Proof.
  split_and!; [vm_compute; reflexivity| |vm_compute; reflexivity].
  exact (update_loop_comes_to_rest (DB := AbsDb_interface) 200 50 two_updates_node
    ltac:(vm_compute; lia)).
Defined.
