(* ===== verification/InterfaceProps.v ===== *)
(** What the interface promises the application: new transactions, confirmations
    and their integrity check, reverts, fetches, and the storage round trip. *)

From S2P Require Import Prelude DataStructure Codec Samples DbInterface DbWorker Lru TxProcessing.
From S2P Require Import Node MainService NodeRun NodeSamples MainServiceProps Interface.
Open Scope N_scope.

Lemma update_queue_run {P2P : P2pTypes} {LRU : LruCache N (TtlWrapper TxStateMachine)} {D}
    msg tx (s : Node D) :
  has_room 1 (user_channel s) →
  update_queue msg tx s = (Ok (), with_user_channel (chan_push tx) s).
Proof.
  intros Hroom. destruct (chan_send_room tx _ _ Hroom) as [Hsend _].
  unfold update_queue. rewrite run_bind_gets, Hsend. done.
Qed.
Ltac exec_more ::=
  lazymatch goal with
  | |- update_queue _ _ _ = _ => eapply update_queue_run; eassumption
  end.

Section props.
Context {BP : BuildProfile} {P2P : P2pTypes} {LRU : LruCache N (TtlWrapper TxStateMachine)}.
Context {LAWS : @LruLaws N (TtlWrapper TxStateMachine) _ LRU}.
Context {D : Type} {DB : DbWorkerInterface D} {CR : Crypto} {HO : Host}.
Context {COD : Codec IntegrityFields} {CODL : CodecLaws IntegrityFields}.
Implicit Types (s : Node D).

(** *** New transactions *)

(** The node after a transaction was initiated. *)
Definition initiated (now : N) (tx : TxStateMachine) (d' : D) s : Node D := {|
  node_db := d';
  cache := lru_push (tx_nonce tx) (TtlWrapper_new tx now) (cache s);
  rpc_channel := rpc_channel s;
  user_channel := chan_push tx (user_channel s);
  p2p_commands := p2p_commands s;
  p2p_event_notif := p2p_event_notif s;
  tx_integrity := <[tx_nonce tx := compute_tx_integrity_hash tx]> (tx_integrity s);
  host_calls := host_calls s;
  borrows := borrows s |}.

Lemma initiate_run now sender receiver amount token code_word network s n d'
    (Hq : quiet s) (Hs : is_ok (verify_public_bytes sender token network) = true)
    (Hr : is_ok (verify_public_bytes receiver token network) = true)
    (Hn : get_nonce (node_db s) = (Ok n, node_db s)) (Hfit : fits 32 (n + 1))
    (Hinc : db_increment_nonce (node_db s) = (Ok (), d'))
    (Hroom : has_room 1 (user_channel s)) :
  let tx := new_transaction sender receiver amount token code_word network network (n + 1) in
  initiate_transaction now sender receiver amount token code_word network network s =
    (Ok tx, initiated now tx d' s).
Proof.
  unfold initiate_transaction, verify_route. rewrite (decide_True _ _ (eq_refl network)).
  destruct (verify_public_bytes sender token network) as [net| | |]; [|done..].
  destruct (verify_public_bytes receiver token network) as [net'| | |]; [|done..].
  rewrite !run_bind_lift_ok. open_node s.
  eapply exec_bind; [exec|]. rewrite add_u_small by done. exec.
Qed.

(** C16: initiating a transfer between two verified addresses of one network gives it
    the next nonce and the identifier of its parties, advances the nonce of the database,
    records its integrity hash, caches it under its nonce with the time of the call and
    queues it for the main service.  When the update task gets its next turn, on a node
    that does not hold both accounts, the backend is sent the request; the transaction
    stays cached and its hash recorded. *)
Theorem initiated_transaction_reaches_backend now sender receiver amount token code_word network
    now' s n d' prof
    (Hq : quiet s) (Hs : is_ok (verify_public_bytes sender token network) = true)
    (Hr : is_ok (verify_public_bytes receiver token network) = true)
    (Hn : get_nonce (node_db s) = (Ok n, node_db s)) (Hfit : fits 32 (n + 1))
    (Hinc : db_increment_nonce (node_db s) = (Ok (), d'))
    (Hprof : get_user_account d' = (Ok prof, d'))
    (Huser : queue (user_channel s) = []) (Hroom : has_room 1 (user_channel s))
    (Hcmd : has_room 1 (p2p_commands s)) (Hcap : (0 < lru_cap (cache s))%nat) :
  let tx := new_transaction sender receiver amount token code_word network network (n + 1) in
  let kept (s' : Node D) :=
    node_db s' = d' ∧
    lru_peek (n + 1) (cache s') = Some (TtlWrapper_new tx now) ∧
    tx_integrity s' = <[n + 1 := compute_tx_integrity_hash tx]> (tx_integrity s) in
  ∃ s1 s2, initiate_transaction now sender receiver amount token code_word network network s =
      (Ok tx, s1) ∧
    status tx = Genesis ∧ validate_multi_id tx = true ∧
    kept s1 ∧ queue (user_channel s1) = [tx] ∧
    (both_in_profile tx prof = false →
     handle_public_interface_tx_updates now' 1 s1 = (Parked, s2) ∧
     queue (p2p_commands s2) = queue (p2p_commands s) ++ [WasmSendRequest tx] ∧
     queue (user_channel s2) = [] ∧ kept s2).
Proof.
  intros tx kept. exists (initiated now tx d' s).
  exists (with_p2p_commands (chan_push (WasmSendRequest tx))
            (with_user_channel chan_pop (initiated now tx d' s))).
  assert (lru_peek (n + 1) (lru_push (n + 1) (TtlWrapper_new tx now) (cache s)) =
    Some (TtlWrapper_new tx now)) as Hcached by by apply lru_peek_push.
  split; [by apply initiate_run|]. split; [done|].
  split; [unfold validate_multi_id; by apply bool_decide_eq_true|].
  split; [done|]. split; [by simpl; rewrite Huser|].
  intros Hremote. split; [|split; [done|split; [by simpl; rewrite Huser|done]]].
  simpl handle_public_interface_tx_updates.
  erewrite run_bind_ok; [|eapply (recv_update_run tx []); [by rewrite Hq|by simpl; rewrite Huser]].
  assert (quiet (with_user_channel chan_pop (initiated now tx d' s))) as Hq' by exact Hq.
  cbv beta iota. erewrite run_bind_ok; [|by eapply (genesis_remote_run _ _ _ prof)]. done.
Qed.

(** *** Confirmations *)

Lemma bind_Ok_inv {A B} (m : M (Node D) A) (f : A → M (Node D) B) s b s' :
  (m ≫= f) s = (Ok b, s') → ∃ a s1, m s = (Ok a, s1) ∧ f a s1 = (Ok b, s').
Proof. unfold mbind, M_bind. destruct (m s) as [[] s1]; naive_solver. Qed.
Lemma with_mut_Ok_inv c {A} (m : M (Node D) A) s a s' :
  with_mut c m s = (Ok a, s') →
  ∃ s1, m (with_borrows (set_borrow c Exclusive) s) = (Ok a, s1) ∧
        s' = with_borrows (set_borrow c Free) s1.
Proof.
  unfold with_mut. destruct (get_borrow c (borrows s)); [|done..].
  destruct (m _) as [o s1]. intros [= -> <-]. eauto.
Qed.
Lemma lift_Ok_inv {A} (o : outcome A) s a s' : lift o s = (Ok a, s') → o = Ok a ∧ s' = s.
Proof. unfold lift. by intros [= -> <-]. Qed.

Lemma check_integrity_Ok tx s s' :
  check_integrity tx s = (Ok (), s') →
  tx_integrity s !! tx_nonce tx = Some (compute_tx_integrity_hash tx).
Proof.
  intros (stored & s1 & (s2 & Hget & _)%with_mut_Ok_inv & Hrest)%bind_Ok_inv.
  apply bind_Ok_inv in Hrest as (h & s3 & [Hh%ok_or_Ok _]%lift_Ok_inv & Hrest).
  unfold gets in Hget. injection Hget as Hst _. simpl in Hst. rewrite Hst, Hh.
  case_decide as Heq; [by rewrite Heq|done].
Qed.

Lemma sender_confirm_Ok tx s s' :
  sender_confirm (Ok tx) s = (Ok (), s') →
  tx_integrity s !! tx_nonce tx = Some (compute_tx_integrity_hash tx).
Proof.
  intros (tx' & s1 & [[= <-] ->]%lift_Ok_inv & Hrest)%bind_Ok_inv.
  apply bind_Ok_inv in Hrest as ([] & s2 & Hcheck & _). by eapply check_integrity_Ok.
Qed.
Lemma receiver_confirm_Ok tx s s' :
  receiver_confirm (Ok tx) s = (Ok (), s') →
  tx_integrity s !! tx_nonce tx = Some (compute_tx_integrity_hash tx).
Proof.
  intros (tx' & s1 & [[= <-] ->]%lift_Ok_inv & (s2 & Hrest & _)%with_mut_Ok_inv)%bind_Ok_inv.
  case_decide; [|done]. apply bind_Ok_inv in Hrest as (u & s3 & [_ ->]%lift_Ok_inv & Hrest).
  apply bind_Ok_inv in Hrest as ([] & s4 & Hcheck & _). by apply check_integrity_Ok in Hcheck.
Qed.

(** C18: neither party can confirm a transaction other than the one recorded under its
    nonce: an accepted confirmation has the recorded parties, networks, identifier,
    token and amount, or exhibits a collision of the hash. *)
Theorem confirmations_are_of_the_recorded tx recorded s
    (Hrec : tx_integrity s !! tx_nonce tx = Some (compute_tx_integrity_hash recorded))
    (Hok : (sender_confirm (Ok tx) s).1 = Ok () ∨ (receiver_confirm (Ok tx) s).1 = Ok ()) :
  integrity_fields tx = integrity_fields recorded ∨
  ∃ x y, x ≠ y ∧ blake2_256 x = blake2_256 y.
Proof.
  assert (compute_tx_integrity_hash tx = compute_tx_integrity_hash recorded) as Hh.
  { destruct Hok as [Hok|Hok].
    - destruct (sender_confirm (Ok tx) s) as [o s'] eqn:Hrun. simpl in Hok. subst.
      apply sender_confirm_Ok in Hrun. congruence.
    - destruct (receiver_confirm (Ok tx) s) as [o s'] eqn:Hrun. simpl in Hok. subst.
      apply receiver_confirm_Ok in Hrun. congruence. }
  destruct (decide (scale_encode (integrity_fields tx) = scale_encode (integrity_fields recorded)))
    as [He|Hne]; [left; by apply scale_encode_inj|right; by eexists _, _].
Qed.

Lemma check_integrity_run tx s :
  get_borrow IntegrityCell (borrows s) = Free →
  tx_integrity s !! tx_nonce tx = Some (compute_tx_integrity_hash tx) →
  check_integrity tx s = (Ok (), s).
Proof.
  intros Hb Hrec. unfold check_integrity.
  destruct s as [db ca rpc user cmds notif integ hc []]. simpl in *. subst.
  erewrite run_bind_ok; [|eapply exec_with_mut; reflexivity]. simpl. rewrite Hrec. simpl.
  rewrite run_bind_lift_ok, decide_True by done. done.
Qed.

(** The transaction after the sender confirmed: one version later, and confirmed by
    the sender unless its submission is already decided. *)
Definition confirmed_state (tx : TxStateMachine) : TxStateMachine :=
  set_counters (tx_nonce tx) (saturating_add 32 (tx_version tx) 1)
    (set_status
       (match status tx with
        | TxSubmissionPassed _ | FailedToSubmitTxn _ => status tx
        | _ => SenderConfirmed
        end) tx).

(** The node after the sender confirmed. *)
Definition sent_confirmation (tx : TxStateMachine) (w : TtlWrapper TxStateMachine) s : Node D :=
  let tx' := confirmed_state tx in {|
  node_db := node_db s;
  cache := lru_push (tx_nonce tx) (update_value tx' w) (lru_get (tx_nonce tx) (cache s)).2;
  rpc_channel := rpc_channel s;
  user_channel := chan_push tx' (user_channel s);
  p2p_commands := p2p_commands s;
  p2p_event_notif := p2p_event_notif s;
  tx_integrity := tx_integrity s;
  host_calls := host_calls s;
  borrows := borrows s |}.

Lemma confirmed_by_sender_state tx : confirmed_by_sender tx = confirmed_state tx.
Proof. by destruct tx as [? ? ? ? ? ? ? []]. Qed.

(** A transaction that is not the recorded one is refused, and nothing changes. *)
Lemma check_integrity_unrecorded tx s :
  get_borrow IntegrityCell (borrows s) = Free → tx_integrity s !! tx_nonce tx = None →
  check_integrity tx s = (Err " Failed get transaction integrity from cache", s).
Proof.
  intros Hb Hrec. unfold check_integrity.
  destruct s as [db ca rpc user cmds notif integ hc []]. simpl in *. subst.
  erewrite run_bind_ok; [|eapply exec_with_mut; reflexivity]. simpl. by rewrite Hrec.
Qed.
Lemma check_integrity_other tx h s :
  get_borrow IntegrityCell (borrows s) = Free → tx_integrity s !! tx_nonce tx = Some h →
  compute_tx_integrity_hash tx ≠ h →
  check_integrity tx s = (Err "Transaction integrity failed", s).
Proof.
  intros Hb Hrec Hne. unfold check_integrity.
  destruct s as [db ca rpc user cmds notif integ hc []]. simpl in *. subst.
  erewrite run_bind_ok; [|eapply exec_with_mut; reflexivity]. simpl. rewrite Hrec. simpl.
  rewrite run_bind_lift_ok, decide_False by done. done.
Qed.

(** The states from which nobody can confirm, with the error of each. *)
Definition refusal (st : TxStatus) : option string :=
  match st with
  | Reverted _ => Some "Transaction already reverted"
  | ReceiverNotRegistered => Some "Receiver not registered"
  | RecvAddrFailed => Some "Receiver address failed"
  | _ => None
  end.

Lemma sender_confirm_refused tx e s :
  quiet s → tx_integrity s !! tx_nonce tx = Some (compute_tx_integrity_hash tx) →
  refusal (status tx) = Some e → sender_confirm (Ok tx) s = (Err e, s).
Proof.
  intros Hq Hrec He. unfold sender_confirm. rewrite run_bind_lift_ok.
  erewrite run_bind_ok; [|apply check_integrity_run; [by rewrite Hq|done]].
  destruct (status tx); simpl in He; try discriminate He; injection He as <-;
    open_node s; (eapply exec_with_mut; [reflexivity|apply run_bind_err; reflexivity|reflexivity]).
Qed.

(** C26: a sender may confirm the transaction that is recorded under its nonce, unless
    it was reverted, its receiver is not registered or the receiver's address failed,
    once it carries a signed payload or the receiver's confirmation passed (either is
    enough, in whatever state it is): the confirmed transaction, one version later,
    replaces the cached one and is queued for the main service; a submitted or failed one
    keeps its status.  Every other call is refused with an error of its own, and nothing
    changes; a transaction that has left the cache is reported expired, the lookup leaving
    the entries of the cache and their order as they were. *)
Theorem sender_confirmation tx s (Hq : quiet s) (Hroom : has_room 1 (user_channel s)) :
  let h := compute_tx_integrity_hash tx in
  let signed := is_Some (signed_call_payload tx) ∨ status tx = RecvAddrConfirmationPassed in
  (tx_integrity s !! tx_nonce tx = None →
     sender_confirm (Ok tx) s = (Err " Failed get transaction integrity from cache", s)) ∧
  (∀ h', tx_integrity s !! tx_nonce tx = Some h' → h ≠ h' →
     sender_confirm (Ok tx) s = (Err "Transaction integrity failed", s)) ∧
  (tx_integrity s !! tx_nonce tx = Some h →
   (∀ e, refusal (status tx) = Some e → sender_confirm (Ok tx) s = (Err e, s)) ∧
   (refusal (status tx) = None → ¬ signed →
      sender_confirm (Ok tx) s =
        (Err "Wait for Receiver to confirm or sender should confirm", s)) ∧
   (refusal (status tx) = None → signed →
      (∀ w, lru_peek (tx_nonce tx) (cache s) = Some w →
         sender_confirm (Ok tx) s = (Ok (), sent_confirmation tx w s)) ∧
      (lru_peek (tx_nonce tx) (cache s) = None →
         sender_confirm (Ok tx) s =
           (Err " Failed get transaction from cache, transaction expired",
            with_cache (λ c, (lru_get (tx_nonce tx) c).2) s) ∧
         lru_iter (lru_get (tx_nonce tx) (cache s)).2 = lru_iter (cache s)))).
Proof.
  cbv zeta. split_and!.
  { intros Hnone. unfold sender_confirm. rewrite run_bind_lift_ok. apply run_bind_err.
    apply check_integrity_unrecorded; [by rewrite Hq|done]. }
  { intros h' Hrec Hne. unfold sender_confirm. rewrite run_bind_lift_ok. apply run_bind_err.
    eapply check_integrity_other; [by rewrite Hq|done|done]. }
  intros Hrec. split; [intros e He; by apply sender_confirm_refused|].
  unfold sender_confirm. rewrite run_bind_lift_ok.
  erewrite run_bind_ok; [|apply check_integrity_run; [by rewrite Hq|done]].
  assert (refusal (status tx) = None → check_confirmable (status tx) = Ok ()) as Hcheck
    by by destruct (status tx).
  split; intros Hok; rewrite (Hcheck Hok); cbv zeta;
    rewrite confirmed_by_sender_state; change (tx_nonce (confirmed_state tx)) with (tx_nonce tx).
  - intros Hno. destruct (signed_call_payload tx); [exfalso; apply Hno; left; by eexists|].
    rewrite (bool_decide_eq_true_2 _ eq_refl), (bool_decide_eq_true_2 (status tx ≠ _)) by tauto.
    open_node s. exec.
  - intros Hguard.
    assert (bool_decide (signed_call_payload tx = None) &&
            bool_decide (status tx ≠ RecvAddrConfirmationPassed) = false) as ->.
    { destruct Hguard as [[sig ->] | ->]; [done|]. apply andb_false_r. }
    split; [intros w Hw; open_node s; exec|]. intros Hw. split.
    + open_node s. exec.
    + rewrite lru_get_iter, <-lru_peek_value. by rewrite Hw.
Qed.

(** The node after the receiver confirmed: the cached transaction is only demoted. *)
Definition receiver_confirmed (tx : TxStateMachine) s : Node D :=
  let tx' := increment_version (recv_confirmed tx) in {|
  node_db := node_db s;
  cache := lru_demote (tx_nonce tx) (cache s);
  rpc_channel := rpc_channel s;
  user_channel := chan_push tx' (user_channel s);
  p2p_commands := p2p_commands s;
  p2p_event_notif := p2p_event_notif s;
  tx_integrity := tx_integrity s;
  host_calls := host_calls s;
  borrows := borrows s |}.

(** C27: a receiver may confirm a recorded new transaction that carries its signature:
    the confirmed transaction, one version later, is queued for the main service.
    The cached entry is not removed, every key is still found with its old value.
    Without a signature, or in another state, nothing changes. *)
Theorem receiver_confirmation tx s
    (Hq : quiet s) (Hroom : has_room 1 (user_channel s)) :
  (status tx ≠ Genesis →
     receiver_confirm (Ok tx) s = (Err "Transaction not in initial state", s)) ∧
  (status tx = Genesis →
   tx_integrity s !! tx_nonce tx = Some (compute_tx_integrity_hash tx) →
   (recv_signature tx = None →
      receiver_confirm (Ok tx) s = (Err "Receiver did not confirm", s)) ∧
   (is_Some (recv_signature tx) →
      receiver_confirm (Ok tx) s = (Ok (), receiver_confirmed tx s) ∧
      ∀ k, lru_peek k (cache (receiver_confirmed tx s)) = lru_peek k (cache s))).
Proof.
  unfold receiver_confirm. rewrite !run_bind_lift_ok. split; [|intros Hst Hrec; split].
  - intros Hne. rewrite decide_False by done. open_node s. exec.
  - intros Hnone. rewrite decide_True, Hst, Hnone by done. open_node s.
    eapply exec_with_mut; [reflexivity|rewrite run_bind_lift_ok|].
    + eapply exec_bind; [apply check_integrity_run; [reflexivity|exact Hrec]|reflexivity].
    + reflexivity.
  - intros [sig Hsig]. split; [|intros k; apply lru_peek_demote].
    rewrite decide_True, Hst, Hsig by done. open_node s.
    eapply exec_with_mut; [reflexivity|rewrite run_bind_lift_ok|].
    + eapply exec_bind; [apply check_integrity_run; [reflexivity|exact Hrec]|exec].
    + reflexivity.
Qed.

(** *** Reverts *)

Lemma revert_run now tx reason s
    (Hq : quiet s) (Hcap : (0 < lru_cap (cache s))%nat)
    (Hst : is_reverted (status tx) = false) (Hroom : has_room 1 (user_channel s)) :
  let reverted := set_status (Reverted (default "Intended receiver not met" reason)) tx in
  ∃ s' w, revert_transaction now (Ok tx) reason s = (Ok (), s') ∧ quiet s' ∧
    user_channel s' = chan_push reverted (user_channel s) ∧
    lru_peek (tx_nonce tx) (cache s') = Some w ∧ get_value w = reverted.
Proof.
  cbv zeta. unfold revert_transaction. rewrite run_bind_lift_ok, Hst. cbv zeta.
  destruct (lru_peek (tx_nonce tx) (cache s)) as [w|] eqn:Hw; open_node s.
  - do 2 eexists. split_and!; [exec|done|done| |].
    + simpl. apply lru_peek_push. by rewrite lru_get_mut_cap.
    + done.
  - do 2 eexists. split_and!; [exec|done|done| |].
    + simpl. apply lru_peek_push. by rewrite lru_get_mut_cap.
    + done.
Qed.

(** a user's revert is final for the network: once the revert has returned, no
    response for that transaction, at whatever version, changes the node. *)
Theorem reverted_ignores_responses now tx reason resp now' s
    (Hq : quiet s) (Hcap : (0 < lru_cap (cache s))%nat)
    (Hst : is_reverted (status tx) = false) (Hroom : has_room 1 (user_channel s))
    (Hresp : tx_nonce resp = tx_nonce tx) :
  ∃ s', revert_transaction now (Ok tx) reason s = (Ok (), s') ∧
    queue (user_channel s') = queue (user_channel s) ++
      [set_status (Reverted (default "Intended receiver not met" reason)) tx] ∧
    handle_swarm_message now' (inl (WasmResponse resp)) s' = (Ok (), s').
Proof.
  destruct (revert_run now tx reason s Hq Hcap Hst Hroom) as (s' & w & Hrun & Hq' & Hu & Hw & Hv).
  exists s'. split_and!; [done|by rewrite Hu|].
  unfold handle_swarm_message, handle_wasm_response.
  erewrite run_bind_ok; [|apply peek_run; by rewrite Hq']. rewrite Hresp, Hw.
  unfold dropped_response. by rewrite Hv.
Qed.

(** *** Fetches and cache maintenance *)

Lemma pop_all_iter keys c :
  lru_iter (pop_all keys c) = filter (λ kv, kv.1 ∉ keys) (lru_iter c).
Proof.
  unfold pop_all. revert c. induction keys as [|k keys IH]; intros c; simpl.
  - induction (lru_iter c) as [|kv l IHl]; [done|].
    rewrite list.filter_cons_True by apply not_elem_of_nil. by rewrite <-IHl.
  - rewrite IH, lru_pop_iter. unfold without. rewrite list_filter_filter.
    apply list_filter_iff. intros kv. rewrite not_elem_of_cons. tauto.
Qed.

(** The entry outlived its 40 minutes. *)
Definition expired (now : N) (kv : N * TtlWrapper TxStateMachine) : Prop := ttl kv.2 + 2400 < now.
#[local] Instance expired_dec now kv : Decision (expired now kv) := N.lt_dec _ _.

Lemma expired_keys_run now (l : list (N * TtlWrapper TxStateMachine)) :
  (∀ kv, kv ∈ l → fits 32 (ttl kv.2 + 2400)) →
  expired_keys now 2400 l = Ok (filter (expired now) l).*1.
Proof.
  induction l as [|[k v] l IH]; intros Hfit; [done|]. simpl.
  unfold TtlWrapper_is_expired. rewrite add_u_small by (apply (Hfit (k, v)); by left).
  simpl. rewrite IH by (intros kv Hkv; apply Hfit; by right). simpl.
  destruct (N.ltb_spec (ttl v + 2400) now) as [Hlt|Hge].
  - by rewrite list.filter_cons_True.
  - rewrite list.filter_cons_False; [done|]. unfold expired. simpl. lia.
Qed.

Lemma remember_run txs s :
  ∃ integ, for_each (λ tx, modify (remember_integrity tx)) txs s =
      (Ok (), with_tx_integrity (λ _, integ) s) ∧
    (NoDup (tx_nonce <$> txs) →
     ∀ tx, tx ∈ txs → integ !! tx_nonce tx = Some (compute_tx_integrity_hash tx)) ∧
    (∀ k, k ∉ tx_nonce <$> txs → integ !! k = tx_integrity s !! k).
Proof.
  revert s. induction txs as [|tx txs IH]; intros s.
  { exists (tx_integrity s). split_and!; [by destruct s| |done].
    intros _ tx Htx. by apply not_elem_of_nil in Htx. }
  destruct (IH (remember_integrity tx s)) as (integ & Hrun & Hin & Hout).
  exists integ. split_and!.
  - simpl. rewrite run_bind_modify, Hrun. by destruct s.
  - intros [Hfresh Hn]%list.NoDup_cons tx' [->|Htx']%elem_of_cons; [|by apply Hin].
    rewrite Hout by done. apply lookup_insert_eq.
  - intros k [Hne Hk]%not_elem_of_cons. rewrite Hout by done. by apply lookup_insert_ne.
Qed.

Lemma collect_run now s
    (Hq : quiet s)
    (Hkeyed : ∀ k w, (k, w) ∈ lru_iter (cache s) → tx_nonce (get_value w) = k)
    (Hfit : ∀ kv, kv ∈ lru_iter (cache s) → fits 32 (ttl kv.2 + 2400)) :
  let live := filter (λ kv, ¬ expired now kv) (lru_iter (cache s)) in
  ∃ s', collect_pending now s = (Ok (get_value <$> live.*2), s') ∧
    lru_iter (cache s') = live ∧
    ∀ tx, tx ∈ get_value <$> live.*2 →
      tx_integrity s' !! tx_nonce tx = Some (compute_tx_integrity_hash tx).
Proof.
  cbv zeta. set (live := filter (λ kv, ¬ expired now kv) (lru_iter (cache s))).
  set (keys := (filter (expired now) (lru_iter (cache s))).*1).
  assert (lru_iter (pop_all keys (cache s)) = live) as Hlive.
  { rewrite pop_all_iter. apply filter_not_keys, lru_nodup. }
  assert (NoDup (tx_nonce <$> (get_value <$> live.*2))) as Hnodup.
  { replace (tx_nonce <$> (get_value <$> live.*2)) with live.*1.
    - rewrite <-Hlive. apply lru_nodup.
    - rewrite <-!list_fmap_compose. apply list_fmap_ext. intros i [k w] Hi. simpl.
      symmetry. apply Hkeyed. apply list_elem_of_lookup_2 in Hi.
      by apply list_elem_of_filter in Hi as [_ ?]. }
  pose proof (expired_keys_run now _ Hfit) as Hkeys. fold keys in Hkeys.
  unfold collect_pending. cbv zeta. change (60 * 40) with 2400. open_node s.
  set (s1 := {| node_db := db; cache := pop_all keys ca; rpc_channel := rpc;
    user_channel := user; p2p_commands := cmds; p2p_event_notif := notif; tx_integrity := integ;
    host_calls := hc; borrows := no_borrows |}).
  destruct (remember_run (get_value <$> live.*2)
    (with_borrows (set_borrow IntegrityCell Exclusive)
       (with_borrows (set_borrow CacheCell (Shared 1)) s1))) as (integ' & Hrun & Hin & _).
  exists (with_tx_integrity (λ _, integ') s1). split_and!; [|done|by apply Hin].
  eapply exec_bind.
  { eapply exec_with_ref; [reflexivity|rewrite run_bind_gets; simpl; rewrite Hkeys|]; reflexivity. }
  eapply exec_bind; [exec|]. eapply exec_with_ref; [reflexivity| |].
  { eapply exec_with_mut; [reflexivity| |].
    - rewrite run_bind_gets. simpl cache. rewrite Hlive.
      eapply exec_bind; [exact Hrun|reflexivity].
    - reflexivity. }
  reflexivity.
Qed.

(** C30: what a fetch returns, once the answer has come: the cached transactions that
    are at most forty minutes old, the most recently used first, and no other; the
    expired ones leave the cache, and each one returned can be confirmed (its
    integrity hash is recorded). *)
Theorem fetch_returns_live_transactions now s
    (Hq : quiet s)
    (Hkeyed : ∀ k w, (k, w) ∈ lru_iter (cache s) → tx_nonce (get_value w) = k)
    (Hfit : ∀ kv, kv ∈ lru_iter (cache s) → fits 32 (ttl kv.2 + 2400)) :
  let live := filter (λ kv, ¬ expired now kv) (lru_iter (cache s)) in
  ∃ s', collect_pending now s = (Ok (get_value <$> live.*2), s') ∧
    lru_iter (cache s') = live ∧
    ∀ tx, tx ∈ get_value <$> live.*2 →
      tx_integrity s' !! tx_nonce tx = Some (compute_tx_integrity_hash tx).
Proof. by apply collect_run. Qed.

(** A transaction reverted twice is forgotten by the next fetch: the second revert
    files it with the time stamp 600, a duration where the cache expects a date, so
    any fetch after the first hour of 1970 treats it as expired. *)
Theorem second_revert_is_forgotten now tx reason now' s
    (Hq : quiet s) (Hcap : (0 < lru_cap (cache s))%nat)
    (Hst : is_reverted (status tx) = true) (Hroom : has_room 1 (user_channel s))
    (Hkeyed : ∀ k w, (k, w) ∈ lru_iter (cache s) → tx_nonce (get_value w) = k)
    (Hfit : ∀ kv, kv ∈ lru_iter (cache s) → fits 32 (ttl kv.2 + 2400))
    (Hnow : 3000 < now') :
  ∃ s' txs s'', revert_transaction now (Ok tx) reason s = (Ok (), s') ∧
    lru_peek (tx_nonce tx) (cache s') = Some (TtlWrapper_new tx 600) ∧
    collect_pending now' s' = (Ok txs, s'') ∧ tx_nonce tx ∉ tx_nonce <$> txs.
Proof.
  set (s' := with_user_channel (chan_push tx)
    (with_cache (lru_push (tx_nonce tx) (TtlWrapper_new tx 600)) s)).
  assert (∀ k w, (k, w) ∈ lru_iter (cache s') →
    (k = tx_nonce tx ∧ w = TtlWrapper_new tx 600) ∨ ((k, w) ∈ lru_iter (cache s) ∧ k ≠ tx_nonce tx))
    as Hentries.
  { intros k w Hin. simpl in Hin. rewrite lru_push_iter in Hin by done.
    eapply elem_of_sublist in Hin; [|apply sublist_take].
    apply elem_of_cons in Hin as [[= -> ->]|Hin%elem_of_without]; auto. }
  destruct (collect_run now' s') as (s'' & Hrun & _).
  - exact Hq.
  - intros k w [[-> ->]|[Hin _]]%Hentries; [done|by apply Hkeyed].
  - intros [k w] [[-> ->]|[Hin _]]%Hentries; [done|]. by apply Hfit.
  - exists s'. eexists _, s''. split_and!; [|by apply lru_peek_push|exact Hrun|].
    { unfold revert_transaction. rewrite run_bind_lift_ok, Hst. open_node s. exec. }
    intros Hin. rewrite <-!list_fmap_compose in Hin.
    apply list_elem_of_fmap in Hin as ([k w] & Hk & [Hlive Hin]%list_elem_of_filter).
    simpl in Hk. apply Hentries in Hin as [[-> ->]|[Hin Hne]].
    + apply Hlive. unfold expired. simpl. lia.
    + apply Hne. rewrite Hk. symmetry. by apply Hkeyed.
Qed.

(** *** Cache maintenance *)

Lemma clear_where_run f s :
  quiet s →
  ∃ c, clear_where f s = (Ok (), with_cache (λ _, c) s) ∧
    lru_iter c = filter (λ kv, ¬ f (get_value kv.2)) (lru_iter (cache s)).
Proof.
  intros Hq. exists (pop_all (keys_where f (lru_iter (cache s))) (cache s)). split.
  - unfold clear_where. open_node s.
    eapply exec_bind; [eapply exec_with_ref; reflexivity|].
    eapply exec_with_mut; reflexivity.
  - rewrite pop_all_iter. unfold keys_where. apply (filter_not_keys _ _ (lru_nodup (cache s))).
Qed.

(** Clearing finalised transactions removes exactly the reverted and the
    submitted ones from the cache, and nothing else changes. *)
Theorem clear_finalized_keeps_the_rest s (Hq : quiet s) :
  ∃ c, clear_finalized_from_cache s = (Ok (), with_cache (λ _, c) s) ∧
    (∀ k w, (k, w) ∈ lru_iter c ↔
       (k, w) ∈ lru_iter (cache s) ∧
       (∀ reason, status (get_value w) ≠ Reverted reason) ∧
       (∀ hash, status (get_value w) ≠ TxSubmissionPassed hash)).
Proof.
  destruct (clear_where_run (λ tx, is_finalized (status tx)) s Hq) as (c & Hrun & Hc).
  exists c. split; [exact Hrun|]. intros k w. rewrite Hc, list_elem_of_filter. simpl.
  destruct (status (get_value w)); simpl; naive_solver.
Qed.
End props.

Section witnesses.
#[local] Existing Instance good_host.

(** Alice's node, with [tx] cached and recorded. *)
Definition recorded_node (tx : TxStateMachine) : Node AbsDb :=
  remember_integrity tx (alice_node [tx]).

Lemma initiated_transaction_reaches_backend_witness :
  ∃ tx s1 s2, initiate_transaction 100 "alice" "bob" 1000 Token_default "vane" Ethereum Ethereum
      (alice_node []) = (Ok tx, s1) ∧
    handle_public_interface_tx_updates 101 1 s1 = (Parked, s2) ∧
    queue (p2p_commands s2) = [WasmSendRequest tx] ∧
    lru_peek 1 (cache s2) = Some (TtlWrapper_new tx 100).
Proof.
  destruct (initiated_transaction_reaches_backend (DB := AbsDb_interface) (CR := sample_crypto) 100 "alice" "bob" 1000
    Token_default "vane" Ethereum 101 (alice_node []) 0
    (abs_set_nonce 1 (abs_set_user alice_account AbsDb_new)) alice_account
    eq_refl ltac:(vm_compute; reflexivity) ltac:(vm_compute; reflexivity)
    ltac:(vm_compute; reflexivity) ltac:(vm_compute; reflexivity)
    ltac:(vm_compute; reflexivity) ltac:(vm_compute; reflexivity) eq_refl
    ltac:(split; [reflexivity|vm_compute; lia]) ltac:(split; [reflexivity|vm_compute; lia])
    ltac:(vm_compute; lia)) as (s1 & s2 & Hrun & _ & _ & _ & _ & Hloop).
  destruct Hloop as (Hl & Hc & _ & _ & Hk & _); [vm_compute; reflexivity|].
  eexists _, s1, s2. split_and!; [exact Hrun|exact Hl|exact Hc|exact Hk].
Defined.

Lemma confirmations_are_of_the_recorded_witness :
  (sender_confirm (Ok (fully_signed RecvAddrConfirmationPassed))
     (recorded_node (alice_to_bob Genesis))).1 = Ok () ∧
  (integrity_fields (fully_signed RecvAddrConfirmationPassed) =
     integrity_fields (alice_to_bob Genesis) ∨ ∃ x y, x ≠ y ∧ blake2_256 x = blake2_256 y).
Proof.
  assert ((sender_confirm (Ok (fully_signed RecvAddrConfirmationPassed))
     (recorded_node (alice_to_bob Genesis))).1 = Ok ()) as Hok by (vm_compute; reflexivity).
  split; [exact Hok|].
  apply (confirmations_are_of_the_recorded _ _ (recorded_node (alice_to_bob Genesis)));
    [vm_compute; reflexivity|left; exact Hok].
Defined.

Lemma sender_confirmation_witness :
  sender_confirm (Ok (alice_to_bob Genesis)) (recorded_node (alice_to_bob Genesis)) =
    (Err "Wait for Receiver to confirm or sender should confirm",
     recorded_node (alice_to_bob Genesis)) ∧
  sender_confirm (Ok (fully_signed (Reverted "no"))) (recorded_node (fully_signed Genesis)) =
    (Err "Transaction already reverted", recorded_node (fully_signed Genesis)) ∧
  sender_confirm (Ok (fully_signed Genesis)) (recorded_node (fully_signed Genesis)) =
    (Ok (), sent_confirmation (fully_signed Genesis) (TtlWrapper_new (fully_signed Genesis) 100)
              (recorded_node (fully_signed Genesis))).
Proof.
  assert (∀ tx, has_room 1 (user_channel (recorded_node tx))) as Hroom
    by (intros tx; split; [reflexivity|vm_compute; lia]).
  split_and!.
  - apply (sender_confirmation (alice_to_bob Genesis)); try (vm_compute; reflexivity); [done|].
    intros [[sig Hsig]|Hst]; [discriminate Hsig|discriminate Hst].
  - apply (sender_confirmation (fully_signed (Reverted "no")));
      try (vm_compute; reflexivity). done.
  - apply (sender_confirmation (fully_signed Genesis)); try (vm_compute; reflexivity); [done|].
    left. by eexists.
Defined.

Lemma receiver_confirmation_witness :
  receiver_confirm (Ok (alice_to_bob Genesis)) (recorded_node (alice_to_bob Genesis)) =
    (Err "Receiver did not confirm", recorded_node (alice_to_bob Genesis)) ∧
  receiver_confirm (Ok (confirmed Genesis)) (recorded_node (confirmed Genesis)) =
    (Ok (), receiver_confirmed (confirmed Genesis) (recorded_node (confirmed Genesis))).
Proof.
  split.
  - apply (receiver_confirmation (alice_to_bob Genesis)); try (vm_compute; reflexivity).
    split; [reflexivity|vm_compute; lia].
  - apply (receiver_confirmation (confirmed Genesis)); try (vm_compute; reflexivity);
      [split; [reflexivity|vm_compute; lia]|by eexists].
Defined.

Lemma reverted_ignores_responses_witness :
  ∃ s', revert_transaction 100 (Ok (alice_to_bob Genesis)) (Some "changed my mind")
      (alice_node [alice_to_bob Genesis]) = (Ok (), s') ∧
    handle_swarm_message 200 (inl (WasmResponse (confirmed RecvAddrConfirmed))) s' = (Ok (), s').
Proof.
  destruct (reverted_ignores_responses 100 (alice_to_bob Genesis) (Some "changed my mind")
    (confirmed RecvAddrConfirmed) 200 (alice_node [alice_to_bob Genesis]) eq_refl
    ltac:(vm_compute; lia) eq_refl ltac:(split; [reflexivity|vm_compute; lia]) eq_refl)
    as (s' & Hrun & _ & Hresp).
  exists s'. split; [exact Hrun|exact Hresp].
Defined.

Lemma one_entry_keyed : ∀ k w,
  (k, w) ∈ lru_iter (cache (alice_node [alice_to_bob Genesis])) → tx_nonce (get_value w) = k.
Proof. intros k w Hin. vm_compute in Hin. apply list_elem_of_singleton in Hin. by simplify_eq. Qed.
Lemma one_entry_fits : ∀ kv,
  kv ∈ lru_iter (cache (alice_node [alice_to_bob Genesis])) → fits 32 (ttl kv.2 + 2400).
Proof. intros kv Hin. vm_compute in Hin. apply list_elem_of_singleton in Hin. by subst. Qed.

Lemma fetch_returns_live_transactions_witness :
  (∃ s', collect_pending 200 (alice_node [alice_to_bob Genesis]) =
     (Ok [alice_to_bob Genesis], s')) ∧
  (∃ s', collect_pending 9000 (alice_node [alice_to_bob Genesis]) = (Ok [], s')).
Proof.
  split.
  - destruct (fetch_returns_live_transactions 200 (alice_node [alice_to_bob Genesis]) eq_refl
      one_entry_keyed one_entry_fits) as (s' & Hrun & _). exists s'. exact Hrun.
  - destruct (fetch_returns_live_transactions 9000 (alice_node [alice_to_bob Genesis]) eq_refl
      one_entry_keyed one_entry_fits) as (s' & Hrun & _). exists s'. exact Hrun.
Defined.

Lemma second_revert_is_forgotten_witness :
  ∃ s' txs s'', revert_transaction 100 (Ok (alice_to_bob (Reverted "twice"))) None
      (alice_node [alice_to_bob Genesis]) = (Ok (), s') ∧
    collect_pending 1750000000 s' = (Ok txs, s'') ∧ 1 ∉ tx_nonce <$> txs.
Proof.
  destruct (second_revert_is_forgotten 100 (alice_to_bob (Reverted "twice")) None 1750000000
    (alice_node [alice_to_bob Genesis]) eq_refl ltac:(vm_compute; lia) eq_refl
    ltac:(split; [reflexivity|vm_compute; lia]) one_entry_keyed one_entry_fits
    ltac:(vm_compute; reflexivity)) as (s' & txs & s'' & Hrun & _ & Hfetch & Hnot).
  exists s', txs, s''. split_and!; [exact Hrun|exact Hfetch|exact Hnot].
Defined.

Lemma clear_finalized_keeps_the_rest_witness :
  ∃ c, clear_finalized_from_cache (alice_node [alice_to_bob (Reverted "changed my mind")]) =
      (Ok (), with_cache (λ _, c) (alice_node [alice_to_bob (Reverted "changed my mind")])).
Proof.
  destruct (clear_finalized_keeps_the_rest (alice_node [alice_to_bob (Reverted "changed my mind")])
    eq_refl) as (c & Hrun & _). by exists c.
Defined.
End witnesses.
