(* ===== verification/Nonces.v ===== *)
(** The nonces a node gives to the transfers its user initiates: over a whole session they
    grow strictly, whatever else the node does, until the 32-bit counter of the database is
    exhausted; and what happens then.

    [NonceStore] states what the node needs of the database's counter; the abstract database
    and the in-memory worker, which is the one a node is given, implement it. *)

From Stdlib Require Import Sorting.Sorted.
From S2P Require Import Prelude DataStructure Codec DbInterface DbTables InMemoryDb Lru.
From S2P Require Import TxProcessing Node NodeLogic MainService NodeSamples Interface Session.
Open Scope N_scope.

(** ** The counter *)

(** [m] leaves the counter alone, whatever its outcome. *)
Definition counter_kept {D A} (nonce_of : D → N) (m : M D A) : Prop :=
  ∀ d, nonce_of (m d).2 = nonce_of d.

Class NonceStore (D : Type) `{DbWorkerInterface D, BuildProfile} := {
  nonce_of : D → N;
  nonce_read d : get_nonce d = (Ok (nonce_of d), d);
  nonce_increment d : match add_u 32 (nonce_of d) 1 with
    | Ok n => (db_increment_nonce d).1 = Ok () ∧ nonce_of (db_increment_nonce d).2 = n
    | _ => nonce_of (db_increment_nonce d).2 = nonce_of d
    end;
  kept_update_user_account a n : counter_kept nonce_of (update_user_account a n);
  kept_get_user_account : counter_kept nonce_of get_user_account;
  kept_update_success_tx tx : counter_kept nonce_of (update_success_tx tx);
  kept_update_failed_tx tx : counter_kept nonce_of (update_failed_tx tx);
  kept_get_success_txs : counter_kept nonce_of get_success_txs;
  kept_get_failed_txs : counter_kept nonce_of get_failed_txs
}.

Lemma kept_bind {D A B} (nonce_of : D → N) (m : M D A) (f : A → M D B) :
  counter_kept nonce_of m → (∀ a, counter_kept nonce_of (f a)) → counter_kept nonce_of (m ≫= f).
Proof.
  intros Hm Hf d. specialize (Hm d). unfold mbind, M_bind.
  destruct (m d) as [[a| | |] d']; simpl in *; [|done..]. by rewrite Hf.
Qed.

(** The counter of a database that is made of reads and of writes of other parts. *)
Ltac counter :=
  repeat first
    [ by intros ?
    | apply kept_bind; [|intros ?]
    | match goal with |- counter_kept _ (if ?x then _ else _) => destruct x end ].

#[export] Instance AbsDb_nonce_store `{BuildProfile} : NonceStore AbsDb.
Proof.
  refine {| nonce_of d := default 0 (abs_nonce d) |}; [done| |intros; simpl; counter..].
  intros d. simpl. unfold mbind, M_bind, gets, lift, modify.
  by destruct (add_u _ _ _).
Defined.

#[export] Instance InMemory_nonce_store `{DbCodecs, BuildProfile} :
  NonceStore InMemoryDbWorker.
Proof.
  refine {| nonce_of w := default 0 (nonces w !! NONCE_KEY) |}; [done| |intros; simpl..].
  - intros w. simpl. unfold mem_increment_nonce, mem_get_nonce.
    unfold mbind, M_bind, gets, lift, modify.
    destruct (add_u _ _ _); [|done..]. simpl. by rewrite lookup_insert_eq.
  - unfold mem_update_user_account, mem_get_user_account. counter.
  - unfold mem_get_user_account. counter.
  - unfold mem_update_success_tx, mem_push_tx, mem_totals. cbv zeta. counter.
  - unfold mem_update_failed_tx, mem_push_tx, mem_totals. cbv zeta. counter.
  - unfold mem_get_success_txs, mem_get_txs. counter.
  - unfold mem_get_failed_txs, mem_get_txs. counter.
Defined.

(** ** The steps that leave the counter alone *)

Section nonces.
Context {BP : BuildProfile} {P2P : P2pTypes} {LRU : LruCache N (TtlWrapper TxStateMachine)}.
Context {D : Type} {DB : DbWorkerInterface D} {NS : NonceStore D} {CR : Crypto} {HO : Host}.
Context {COD : Codec IntegrityFields}.
Abbreviation NodeM := (M (Node D)).
#[local] Hint Resolve any_intro : core.

Definition node_nonce (s : Node D) : N := nonce_of (node_db s).

Section kept.
Context (n : N).
Definition at_nonce (s : Node D) : Prop := node_nonce s = n.
Abbreviation kept := (keeps at_nonce).
#[local] Instance at_nonce_blind : BorrowBlind at_nonce.
Proof. by intros f s. Qed.

Lemma same_db {A} (m : NodeM A) : (∀ s, node_db (m s).2 = node_db s) → kept m any.
Proof. intros Hm. apply keeps_pure. unfold at_nonce, node_nonce. intros s. by rewrite Hm. Qed.
Lemma nonce_kept_on_db {A} (m : M D A) : counter_kept nonce_of m → kept (on_db m) any.
Proof.
  intros Hm. apply keeps_pure. unfold at_nonce, node_nonce, on_db. intros s <-.
  rewrite <-(Hm (node_db s)). by destruct (m (node_db s)).
Qed.
Lemma kept_read : kept (on_db get_nonce) any.
Proof.
  apply same_db. intros s. unfold on_db. by rewrite nonce_read.
Qed.
Lemma nonce_kept_attempt {A} (m : NodeM A) : kept m any → kept (attempt m) any.
Proof. intros Hm. by eapply keeps_any, keeps_attempt. Qed.

Ltac kept_step :=
  match goal with
  | |- keeps _ (mbind _ _) _ => eapply (keeps_bind _ _ _ any); [|intros ? _]
  | |- keeps _ (on_db get_nonce) _ => apply kept_read
  | |- keeps _ (on_db _) _ =>
      apply nonce_kept_on_db;
      first [ apply kept_update_user_account | apply kept_get_user_account
            | apply kept_update_success_tx | apply kept_update_failed_tx
            | apply kept_get_success_txs | apply kept_get_failed_txs ]
  | |- keeps _ (with_mut _ _) _ => apply keeps_with_mut; [apply _|]
  | |- keeps _ (with_ref _ _) _ => apply keeps_with_ref; [apply _|]
  | |- keeps _ (attempt _) _ => apply nonce_kept_attempt
  | |- keeps _ (for_each _ _) _ =>
      apply (keeps_for_each _ _ any); [intros ? _|by apply list.Forall_forall]
  | |- keeps _ (match ?x with _ => _ end) _ => destruct x
  | |- keeps _ (if ?x then _ else _) _ => destruct x
  | |- keeps _ _ _ => by apply same_db
  end.
Ltac kept := cbv zeta; repeat kept_step.

Lemma kept_tx_update now tx : kept (handle_tx_update now tx) any.
Proof.
  unfold handle_tx_update, handle_genesis_tx_state, handle_recv_addr_confirmed_tx_state,
    handle_sender_confirmed_tx_state, handle_reverted_tx_state, local_confirmed,
    response_refused, sender_refused, submit_and_record, parties_mismatch, update_push_send,
    update_send, wasm_send_request, wasm_send_response, create_tx, submit_tx, command_send,
    rpc_send, rpc_try_send, cache_push, cache_get, cache_get_mut. kept.
Qed.

Lemma kept_update_loop now turns : kept (handle_public_interface_tx_updates now turns) any.
Proof.
  induction turns as [|turns IH]; simpl; [by apply same_db|].
  eapply (keeps_bind _ _ _ any); [unfold recv_update; kept|]. intros [txn|] _; [|kept].
  eapply (keeps_bind _ _ _ any); [apply kept_tx_update|done].
Qed.

Lemma kept_swarm_message now msg : kept (handle_swarm_message now msg) any.
Proof.
  unfold handle_swarm_message, handle_wasm_request, handle_wasm_response, response_confirmed,
    response_refused, cache_pending, update_push_send, create_tx, rpc_send, rpc_try_send,
    cache_push, cache_get_mut. kept.
Qed.

Lemma kept_activity a : kept (service_step a) any.
Proof.
  destruct a; simpl; [|kept|apply kept_update_loop].
  eapply (keeps_bind _ _ _ any); [apply nonce_kept_attempt, kept_swarm_message|intros _ _; kept].
Qed.

Lemma kept_run l s : at_nonce s → at_nonce (service_run l s).
Proof.
  unfold service_run. revert s. induction l as [|a l IH]; intros s Hs; [done|]. simpl.
  by apply IH, kept_activity.
Qed.

(** The calls that initiate a transfer. *)
Definition initiates (x : session_step) : bool :=
  match x with PageCalls (InitiateTransaction _ _ _ _ _ _ _ _) => true | _ => false end.

Lemma kept_session_step x : initiates x = false → kept (run_session_step x) any.
Proof.
  intros Hx. destruct x as [c|a| |]; [|apply kept_activity|simpl; kept|by apply same_db].
  destruct c as [| | | |account meanwhile now| | | | |]; [done|..];
    cbn [run_session_step run_user_call].
  4: { eapply (keeps_bind _ _ _ any); [|intros ? _; kept].
       unfold fetch_pending_tx_updates, request_pending, collect_pending. cbv zeta.
       eapply (keeps_bind _ _ _ any); [kept|intros _ _].
       eapply (keeps_bind _ _ _ any); [|intros _ _; kept].
       apply keeps_modify. intros s. apply kept_run. }
  all: unfold sender_confirm, receiver_confirm, revert_transaction,
    add_account, export_storage, as_option, or_default, delete_tx_in_cache,
    clear_reverted_from_cache, clear_finalized_from_cache, clear_where, update_queue,
    check_integrity, cache_push, cache_get, cache_get_mut.
  all: kept.
Qed.

(** The last part of a call that initiates [tx]. *)
Lemma kept_record msg now tx :
  keeps at_nonce (with_mut UserSenderCell (
    with_mut IntegrityCell (modify (remember_integrity tx));;
    update_queue msg tx;;
    cache_push (tx_nonce tx) (TtlWrapper_new tx now);;
    mret tx)) (λ tx', tx' = tx).
Proof.
  apply keeps_with_mut; [apply _|]. unfold update_queue, cache_push.
  do 3 (eapply (keeps_bind _ _ _ any); [kept|intros _ _]). by apply keeps_ret.
Qed.
End kept.

(** ** Initiating *)

(** A call either leaves the counter alone and issues nothing, or advances it by one (the
    sum taken as the build takes it), and what it issues has the new value as its nonce. *)
Lemma initiate_counts now sender receiver amount token code_word sn rn s :
  let r := initiate_transaction now sender receiver amount token code_word sn rn s in
  (node_nonce r.2 = node_nonce s ∧ ∀ tx, r.1 ≠ Ok tx) ∨
  (add_u 32 (node_nonce s) 1 = Ok (node_nonce r.2) ∧
   ∀ tx, r.1 = Ok tx → tx_nonce tx = node_nonce r.2).
Proof.
  cbv zeta. unfold initiate_transaction.
  destruct (verify_public_bytes sender token sn) as [?| | |]; try by left.
  rewrite run_bind_lift_ok.
  destruct (verify_public_bytes receiver token rn) as [?| | |]; try by left.
  rewrite run_bind_lift_ok.
  destruct (verify_route sn rn) as [?| | |]; try by left.
  rewrite run_bind_lift_ok.
  assert (on_db get_nonce s = (Ok (node_nonce s), s)) as Hread
    by (unfold on_db; rewrite nonce_read; by destruct s).
  rewrite (run_bind_ok _ _ _ _ _ Hread).
  pose proof (nonce_increment (node_db s)) as Hinc. fold (node_nonce s) in Hinc.
  destruct (add_u 32 (node_nonce s) 1) as [n|e|p|] eqn:Hadd; try by left.
  rewrite run_bind_lift_ok. destruct Hinc as [Hok Hn].
  assert (on_db db_increment_nonce s =
    (Ok (), with_node_db (λ _, (db_increment_nonce (node_db s)).2) s)) as Hstep
    by (unfold on_db; destruct (db_increment_nonce _); simpl in *; by subst).
  rewrite (run_bind_ok _ _ _ _ _ Hstep). cbv zeta.
  set (tx := new_transaction _ _ _ _ _ _ _ _).
  destruct (kept_record n "failed to send initial tx state to sender channel" now tx
    (with_node_db (λ _, (db_increment_nonce (node_db s)).2) s) Hn) as [Hs Htx].
  right. unfold at_nonce in Hs. rewrite Hs. split; [done|]. intros tx' Hr.
  by rewrite (Htx tx' Hr).
Qed.

(** The nonce a step of a session issues, if it issues one. *)
Definition issued_by (x : session_step) (s : Node D) : list N :=
  match x with
  | PageCalls (InitiateTransaction now sender receiver amount (Ok token) code_word (Ok sn) (Ok rn)) =>
      match (initiate_transaction now sender receiver amount token code_word sn rn s).1 with
      | Ok tx => [tx_nonce tx]
      | _ => []
      end
  | _ => []
  end.
Fixpoint issued (l : list session_step) (s : Node D) : list N :=
  match l with
  | [] => []
  | x :: l => issued_by x s ++ issued l (run_session_step x s).2
  end.

Lemma step_counts x s :
  let n' := node_nonce (run_session_step x s).2 in
  (n' = node_nonce s ∧ issued_by x s = []) ∨
  (initiates x = true ∧ add_u 32 (node_nonce s) 1 = Ok n' ∧
   (issued_by x s = [] ∨ issued_by x s = [n'])).
Proof.
  cbv zeta. destruct (initiates x) eqn:Hx.
  2: { left. split.
       - by apply (kept_session_step (node_nonce s) x Hx s).
       - destruct x as [[]|?| |]; done. }
  destruct x as [[now sender receiver amount token code_word sn rn| | | | | | | | |]| | |];
    try discriminate Hx. cbn [run_session_step run_user_call issued_by].
  destruct token as [token| | |]; try by left. rewrite run_bind_lift_ok.
  destruct sn as [sn| | |]; try by left. rewrite run_bind_lift_ok.
  destruct rn as [rn| | |]; try by left. rewrite run_bind_lift_ok.
  pose proof (initiate_counts now sender receiver amount token code_word sn rn s) as Hcount.
  cbv zeta in Hcount. rewrite run_bind.
  destruct (initiate_transaction _ _ _ _ _ _ _ _ s) as [[tx|e|p|] s'];
    cbn [fst snd] in *; destruct Hcount as [[Hn Hno]|[Hadd Htx]];
    try (by left); try (by right; auto); [by destruct (Hno tx)|].
  right. split_and!; [done|done|right]. by rewrite (Htx tx eq_refl).
Qed.

(** The nonces issued in a session that does not exhaust the counter. *)
Lemma issued_increase l s :
  node_nonce s + N.of_nat (length (filter (λ x, initiates x = true) l)) < 2 ^ 32 →
  StronglySorted N.lt (issued l s) ∧
  Forall (λ k, node_nonce s < k ∧ k ≤ node_nonce (session_run l s)) (issued l s) ∧
  node_nonce s ≤ node_nonce (session_run l s).
Proof.
  revert s. induction l as [|x l IH]; intros s Hl.
  { split_and!; [constructor|constructor|simpl; lia]. }
  cbn [issued]. change (session_run (x :: l) s) with (session_run l (run_session_step x s).2).
  pose proof (step_counts x s) as Hstep. cbv zeta in Hstep.
  set (s' := (run_session_step x s).2) in *. clearbody s'.
  assert (node_nonce s ≤ node_nonce s' ∧ (issued_by x s = [] ∨
    issued_by x s = [node_nonce s'] ∧ node_nonce s < node_nonce s') ∧
    node_nonce s' + N.of_nat (length (filter (λ x, initiates x = true) l)) < 2 ^ 32)
    as (Hle & Hx & Hl').
  { rewrite filter_cons in Hl. destruct Hstep as [[Hn Hi]|(Hx & Hadd & Hi)].
    - rewrite Hn. split_and!; [lia|by left|]. case_decide; simpl in Hl; lia.
    - rewrite decide_True in Hl by done. simpl in Hl.
      rewrite add_u_small in Hadd by (unfold fits; lia). injection Hadd as Hadd.
      rewrite <-Hadd in *. split_and!; [lia| |lia].
      destruct Hi as [Hi|Hi]; [by left|right; split; [done|lia]]. }
  destruct (IH s' Hl') as (Hsort & Hall & Hend).
  split_and!; [| |lia]; destruct Hx as [->|[-> Hlt]]; simpl.
  - done.
  - constructor; [done|]. eapply list.Forall_impl; [exact Hall|]. intros k Hk. simpl in Hk. lia.
  - eapply list.Forall_impl; [exact Hall|]. intros k Hk. simpl in *. lia.
  - constructor; [lia|]. eapply list.Forall_impl; [exact Hall|]. intros k Hk. simpl in *. lia.
Qed.

(** C6: no two transfers a user initiates in a session get the same nonce, whatever else the
    page calls and however the other tasks take turns: the nonces issued grow strictly,
    above the one the database had and up to the one it has afterwards, as long as the
    transfers initiated do not exhaust the 32 bits of the counter.  At the last nonce a
    build that checks overflows issues none at all, for good, and leaves the counter where
    it is; a release build issues the nonce zero and starts over. *)
Theorem nonces_are_fresh (l : list session_step) (s : Node D) :
  (node_nonce s + N.of_nat (length (filter (λ x, initiates x = true) l)) < 2 ^ 32 →
     StronglySorted N.lt (issued l s) ∧
     Forall (λ k, node_nonce s < k ∧ k ≤ node_nonce (session_run l s)) (issued l s)) ∧
  (node_nonce s = 2 ^ 32 - 1 →
     (overflow_checks = true →
        issued l s = [] ∧ node_nonce (session_run l s) = 2 ^ 32 - 1) ∧
     (overflow_checks = false → ∀ x,
        issued_by x s = [] ∨
        issued_by x s = [0] ∧ node_nonce (run_session_step x s).2 = 0)).
Proof.
  split; [intros Hl; by destruct (issued_increase l s Hl) as (? & ? & _)|].
  intros Hlast. split; intros Hchecks.
  - revert s Hlast. induction l as [|x l IH]; intros s Hlast; [done|]. cbn [issued].
    change (session_run (x :: l) s) with (session_run l (run_session_step x s).2).
    destruct (step_counts x s) as [[Hn ->]|(_ & Hadd & _)].
    + apply IH. by rewrite Hn.
    + rewrite Hlast in Hadd. unfold add_u in Hadd. by rewrite Hchecks in Hadd.
  - intros x. destruct (step_counts x s) as [[_ ->]|(_ & Hadd & Hi)]; [by left|].
    rewrite Hlast in Hadd. unfold add_u in Hadd. rewrite Hchecks in Hadd.
    injection Hadd as Hadd. rewrite <-Hadd in *. destruct Hi as [Hi|Hi]; rewrite Hi; [by left|by right].
Qed.
End nonces.

(** ** Witness *)

Section witness.
#[local] Existing Instance good_host.

Definition initiate_to_bob : session_step :=
  PageCalls (InitiateTransaction 100 "alice" "bob" 1000 (Ok Token_default) "vane"
    (Ok Ethereum) (Ok Ethereum)).
(** Alice initiates two transfers, and her node works in between. *)
Definition two_transfers : list session_step :=
  [initiate_to_bob; ServiceActs (UpdateTaskRuns 101 2); NetworkTakes; initiate_to_bob].
Definition alice_at (n : N) : Node AbsDb :=
  with_node_db (abs_set_nonce n) (alice_node []).

(** The builds wrap in the samples: at the last nonce Alice's node issues zero. *)
Lemma nonces_are_fresh_witness :
  issued two_transfers (alice_at 5) = [6; 7] ∧
  StronglySorted N.lt (issued two_transfers (alice_at 5)) ∧
  issued [initiate_to_bob] (alice_at (2 ^ 32 - 1)) = [0] ∧
  node_nonce (run_session_step initiate_to_bob (alice_at (2 ^ 32 - 1))).2 = 0.
Proof.
  split; [vm_compute; reflexivity|]. split.
  - apply (nonces_are_fresh two_transfers (alice_at 5)). vm_compute. reflexivity.
  - split; [vm_compute; reflexivity|].
    destruct (nonces_are_fresh [] (alice_at (2 ^ 32 - 1))) as [_ Hlast].
    destruct (Hlast eq_refl) as [_ Hwrap].
    destruct (Hwrap eq_refl initiate_to_bob) as [Hno|[_ Hn]]; [|exact Hn].
    vm_compute in Hno. discriminate Hno.
Defined.
End witness.
