(* ===== verification/Watchers.v ===== *)
(** The user's watchers ([watch_tx_updates], [watch_p2p_notifications] and their
    background tasks in [node/wasm/src/interface.rs]).

    A callback is a number and a call of it is recorded.  A callback that calls back
    into the interface while it runs is not modelled. *)

From S2P Require Import Prelude DataStructure Codec Samples DbInterface Lru TxProcessing.
From S2P Require Import Node MainService NodeRun NodeSamples Interface.
Open Scope N_scope.

Definition callback : Type := N.

(** One kind of watcher: the flag, the callbacks, the tasks spawned that have not
    started, and the calls made. *)
Record Watch (E : Type) := {
  watcher_active : bool;
  callbacks : list callback;
  spawned : nat;
  delivered : list (callback * E)
}.
Arguments Build_Watch {E} _ _ _ _.
Arguments watcher_active {E} _.
Arguments callbacks {E} _.
Arguments spawned {E} _.
Arguments delivered {E} _.

Section watch.
Context {E : Type}.
Implicit Types (w : Watch E).

Definition watch_new : Watch E :=
  {| watcher_active := false; callbacks := []; spawned := 0; delivered := [] |}.
Definition add_callback (cb : callback) w : Watch E :=
  {| watcher_active := watcher_active w; callbacks := callbacks w ++ [cb];
     spawned := spawned w; delivered := delivered w |}.
(** [start_background_watcher], [start_p2p_notifications_watcher] *)
Definition start_watcher w : Watch E :=
  if watcher_active w then w
  else {| watcher_active := true; callbacks := callbacks w;
          spawned := S (spawned w); delivered := delivered w |}.
Definition started w : Watch E :=
  {| watcher_active := watcher_active w; callbacks := callbacks w;
     spawned := pred (spawned w); delivered := delivered w |}.
Definition unsubscribed w : Watch E :=
  {| watcher_active := false; callbacks := []; spawned := spawned w; delivered := delivered w |}.
Definition deliver (e : E) w : Watch E :=
  {| watcher_active := watcher_active w; callbacks := callbacks w; spawned := spawned w;
     delivered := delivered w ++ ((λ cb, (cb, e)) <$> callbacks w) |}.
Definition inactive w : Watch E :=
  {| watcher_active := false; callbacks := callbacks w; spawned := spawned w;
     delivered := delivered w |}.
Definition subscribe (cb : callback) w : Watch E :=
  let w := add_callback cb w in if watcher_active w then w else start_watcher w.
End watch.

Section client.
Context {P2P : P2pTypes} {LRU : LruCache N (TtlWrapper TxStateMachine)} {D : Type}.
Context {CR : Crypto} {COD : Codec IntegrityFields}.

Record Client := {
  client_node : Node D;
  tx_watch : Watch TxStateMachine;
  p2p_watch : Watch BackendEvent
}.

Definition with_client_node f (c : Client) : Client :=
  {| client_node := f (client_node c); tx_watch := tx_watch c; p2p_watch := p2p_watch c |}.
Definition with_tx_watch f (c : Client) : Client :=
  {| client_node := client_node c; tx_watch := f (tx_watch c); p2p_watch := p2p_watch c |}.
Definition with_p2p_watch f (c : Client) : Client :=
  {| client_node := client_node c; tx_watch := tx_watch c; p2p_watch := f (p2p_watch c) |}.

Definition on_client {A} (m : M (Node D) A) : M Client A := λ s,
  let (o, n) := m (client_node s) in (o, with_client_node (λ _, n) s).

Definition watch_tx_updates (cb : callback) : M Client unit := modify (with_tx_watch (subscribe cb)).
Definition watch_p2p_notifications (cb : callback) : M Client unit :=
  modify (with_p2p_watch (subscribe cb)).
Definition unsubscribe_watch_tx_updates : M Client unit := modify (with_tx_watch unsubscribed).
Definition unsubscribe_watch_p2p_notifications : M Client unit :=
  modify (with_p2p_watch unsubscribed).

(** A spawned task starts: it takes the receiver for good. *)
Definition take_cell (c : cell) : M Client unit := λ s,
  match get_borrow c (borrows (client_node s)) with
  | Free => (Ok (), with_client_node (with_borrows (set_borrow c Exclusive)) s)
  | _ => (Panic BorrowMutError, s)
  end.
Definition tx_watcher_starts : M Client unit :=
  modify (with_tx_watch started);; take_cell RpcRecvCell.
Definition p2p_watcher_starts : M Client unit :=
  modify (with_p2p_watch started);; take_cell NotifRecvCell.

(** One turn of a running task's loop. *)
Definition tx_watcher_turn : M Client unit :=
  ch ← gets (λ s, rpc_channel (client_node s));
  match queue ch with
  | tx_update :: _ =>
      modify (with_client_node (with_rpc_channel chan_pop));;
      on_client (with_mut IntegrityCell (modify (remember_integrity tx_update)));;
      modify (with_tx_watch (deliver tx_update))
  | [] =>
      if closed ch then
        modify (with_tx_watch inactive);;
        modify (with_client_node (with_borrows (set_borrow RpcRecvCell Free)))
      else lift Parked
  end.
Definition p2p_watcher_turn : M Client unit :=
  ch ← gets (λ s, p2p_event_notif (client_node s));
  match queue ch with
  | event :: _ =>
      modify (with_client_node (with_p2p_event_notif chan_pop));;
      modify (with_p2p_watch (deliver event))
  | [] =>
      if closed ch then
        modify (with_p2p_watch inactive);;
        modify (with_client_node (with_borrows (set_borrow NotifRecvCell Free)))
      else lift Parked
  end.
Fixpoint tx_watcher_turns (n : nat) : M Client unit :=
  match n with O => skip | S n => tx_watcher_turn;; tx_watcher_turns n end.

(** ** What a watcher sees *)

Lemma remember_client_run tx (c : Client) :
  get_borrow IntegrityCell (borrows (client_node c)) = Free →
  on_client (with_mut IntegrityCell (modify (remember_integrity tx))) c =
    (Ok (), with_client_node (remember_integrity tx) c).
Proof.
  intros Hb. unfold on_client.
  rewrite (with_mut_run _ _ _ _ _ Hb (run_modify _ _)).
  by destruct c as [[? ? ? ? ? ? ? ? []] ? ?]; simpl in *; subst.
Qed.

(** The integrity table after the updates [txs], in order. *)
Definition record_all (txs : list TxStateMachine) (t : gmap N bytes) : gmap N bytes :=
  foldl (λ t tx, <[tx_nonce tx := compute_tx_integrity_hash tx]> t) t txs.

Lemma record_all_other k txs t : k ∉ tx_nonce <$> txs → record_all txs t !! k = t !! k.
Proof.
  revert t. induction txs as [|tx txs IH]; intros t Hk; [done|]. simpl in *.
  apply not_elem_of_cons in Hk as [Hne Hk]. rewrite IH by done. by apply lookup_insert_ne.
Qed.
Lemma record_all_last pre tx post t :
  tx_nonce tx ∉ tx_nonce <$> post →
  record_all (pre ++ tx :: post) t !! tx_nonce tx = Some (compute_tx_integrity_hash tx).
Proof.
  intros Hpost. unfold record_all. rewrite foldl_app. simpl.
  fold (record_all post). etrans; [by apply record_all_other|]. apply lookup_insert_eq.
Qed.

Lemma watcher_turns_run txs rest (c : Client) :
  get_borrow IntegrityCell (borrows (client_node c)) = Free →
  queue (rpc_channel (client_node c)) = txs ++ rest →
  ∃ c', tx_watcher_turns (length txs) c = (Ok (), c') ∧
    queue (rpc_channel (client_node c')) = rest ∧
    callbacks (tx_watch c') = callbacks (tx_watch c) ∧
    delivered (tx_watch c') = delivered (tx_watch c) ++
      (txs ≫= λ tx, (λ cb, (cb, tx)) <$> callbacks (tx_watch c)) ∧
    tx_integrity (client_node c') = record_all txs (tx_integrity (client_node c)).
Proof.
  revert c. induction txs as [|tx txs IH]; intros c Hb Hq.
  { exists c. split_and!; [done|done|done|by rewrite app_nil_r|done]. }
  set (c1 := with_tx_watch (deliver tx) (with_client_node (remember_integrity tx)
    (with_client_node (with_rpc_channel chan_pop) c))).
  destruct (IH c1) as (c' & Hrun & Hrest & Hcb & Hdel & Hint); [done|by simpl; rewrite Hq|].
  exists c'. split_and!; [|done|done| |done].
  - simpl. rewrite (run_bind_ok _ _ _ c1 ()); [exact Hrun|].
    unfold tx_watcher_turn. rewrite run_bind_gets, Hq. simpl. rewrite run_bind_modify.
    by erewrite run_bind_ok; [|by apply remember_client_run].
  - rewrite Hdel. simpl. by rewrite app_assoc.
Qed.

(** C37: the update task hands every update the service reports to every callback
    registered, in order.  It records the integrity hash of each update under its nonce, the
    later ones over the earlier: afterwards a nonce that was updated has the hash of its
    last update, and the other nonces keep theirs. *)
Theorem watcher_delivers_every_update (c : Client)
    (Hb : get_borrow IntegrityCell (borrows (client_node c)) = Free) :
  let txs := queue (rpc_channel (client_node c)) in
  ∃ c', tx_watcher_turns (length txs) c = (Ok (), c') ∧
    queue (rpc_channel (client_node c')) = [] ∧
    delivered (tx_watch c') = delivered (tx_watch c) ++
      (txs ≫= λ tx, (λ cb, (cb, tx)) <$> callbacks (tx_watch c)) ∧
    (∀ pre tx post, txs = pre ++ tx :: post → tx_nonce tx ∉ tx_nonce <$> post →
       tx_integrity (client_node c') !! tx_nonce tx = Some (compute_tx_integrity_hash tx)) ∧
    (∀ k, k ∉ tx_nonce <$> txs →
       tx_integrity (client_node c') !! k = tx_integrity (client_node c) !! k).
Proof.
  cbv zeta. destruct (watcher_turns_run (queue (rpc_channel (client_node c))) [] c)
    as (c' & Hrun & Hrest & _ & Hdel & Hint); [done|by rewrite app_nil_r|].
  exists c'. split_and!; [done..| |]; rewrite Hint.
  - intros pre tx post ->. apply record_all_last.
  - intros k. apply record_all_other.
Qed.

(** Unsubscribing does not stop the task: after watching, unsubscribing and watching
    again, the new task dies on the receiver the first one never gives back, and it is
    the first one that serves the new callback. *)
Theorem resubscription_dies (cb cb' : callback) (c : Client)
    (Hfresh : tx_watch c = watch_new)
    (Hb : get_borrow RpcRecvCell (borrows (client_node c)) = Free)
    (Hi : get_borrow IntegrityCell (borrows (client_node c)) = Free) :
  ∃ c', (watch_tx_updates cb;; tx_watcher_starts;; unsubscribe_watch_tx_updates;;
         watch_tx_updates cb') c = (Ok (), c') ∧
    callbacks (tx_watch c') = [cb'] ∧ spawned (tx_watch c') = 1%nat ∧
    (tx_watcher_starts c').1 = Panic BorrowMutError ∧
    ∀ tx rest, queue (rpc_channel (client_node c)) = tx :: rest →
      delivered (tx_watch (tx_watcher_turn (tx_watcher_starts c').2).2) = [(cb', tx)].
Proof.
  destruct c as [[db ca rpc user cmds notif integ hc bs] wt wp]. simpl in *. subst wt.
  eexists. split.
  - unfold watch_tx_updates, tx_watcher_starts, unsubscribe_watch_tx_updates.
    rewrite run_bind_modify, run_bind_bind, run_bind_modify.
    erewrite run_bind_ok; [|unfold take_cell; simpl; rewrite Hb; reflexivity].
    rewrite run_bind_modify. reflexivity.
  - split_and!; [done|done| |].
    + unfold tx_watcher_starts. by rewrite run_bind_modify.
    + intros tx rest Hq. unfold tx_watcher_starts. rewrite run_bind_modify. simpl.
      unfold tx_watcher_turn. rewrite run_bind_gets. simpl. rewrite Hq, run_bind_modify.
      by erewrite run_bind_ok; [|by apply remember_client_run].
Qed.
End client.
Arguments Client {_ _} D.

Section witnesses.
Definition client_of (n : Node AbsDb) : Client AbsDb :=
  {| client_node := n; tx_watch := watch_new; p2p_watch := watch_new |}.
(** Alice's client, with one update waiting. *)
Definition updated_client : Client AbsDb :=
  client_of (with_rpc_channel (chan_push (alice_to_bob Genesis)) (alice_node [])).

Lemma watcher_delivers_every_update_witness :
  ∃ c', tx_watcher_turns 1 (with_tx_watch (subscribe 5) updated_client) = (Ok (), c') ∧
    delivered (tx_watch c') = [(5, alice_to_bob Genesis)].
Proof.
  destruct (watcher_delivers_every_update (with_tx_watch (subscribe 5) updated_client) eq_refl)
    as (c' & Hrun & _ & Hdel & _). exists c'. split; [exact Hrun|exact Hdel].
Defined.

Lemma resubscription_dies_witness :
  ∃ c', (watch_tx_updates 5;; tx_watcher_starts;; unsubscribe_watch_tx_updates;;
         watch_tx_updates 6) updated_client = (Ok (), c') ∧
    (tx_watcher_starts c').1 = Panic BorrowMutError.
Proof.
  destruct (resubscription_dies 5 6 updated_client eq_refl eq_refl eq_refl)
    as (c' & Hrun & _ & _ & Hpanic & _). exists c'. split; [exact Hrun|exact Hpanic].
Defined.
End witnesses.
