(* ===== verification/StorageProps.v ===== *)
(** The storage round trip: what [export_storage] ([node/wasm/src/interface.rs])
    takes out of one node, [WasmMainServiceWorker::new] ([node/wasm/src/lib.rs])
    puts into another, whatever database workers the two have. *)

From S2P Require Import Prelude DataStructure Codec Samples DbInterface DbTables InMemoryDb DbWorker.
From S2P Require Import Lru.
From S2P Require Import TxProcessing Node MainService NodeRun NodeSamples Interface.
Open Scope N_scope.

(** ** Importing into the abstract database *)

Section import.
Context {BP : BuildProfile}.

Definition pushed_success (tx : DbTxStateMachine) (d : AbsDb) : AbsDb :=
  abs_set_totals {| success_value := success_value (totals d) + Z.of_N (db_amount tx);
                    failed_value := failed_value (totals d) |}
    (abs_set_success (default [] (abs_success d) ++ [tx]) d).
Definition pushed_failed (tx : DbTxStateMachine) (d : AbsDb) : AbsDb :=
  abs_set_totals {| success_value := success_value (totals d);
                    failed_value := failed_value (totals d) + Z.of_N (db_amount tx) |}
    (abs_set_failed (default [] (abs_failed d) ++ [tx]) d).

Lemma update_success_small tx (d : AbsDb) :
  (0 ≤ success_value (totals d))%Z →
  (success_value (totals d) + Z.of_N (db_amount tx) < 2 ^ 63)%Z →
  update_success_tx tx d = (Ok (), pushed_success tx d).
Proof.
  intros H0 Hlt. cbn -[mbind add_success]. rewrite run_bind_bind, run_bind_gets.
  unfold add_success. rewrite as_i64_small by lia.
  by rewrite add_i64_small by (unfold i64_fits; lia).
Qed.
Lemma update_failed_small tx (d : AbsDb) :
  (0 ≤ failed_value (totals d))%Z →
  (failed_value (totals d) + Z.of_N (db_amount tx) < 2 ^ 63)%Z →
  update_failed_tx tx d = (Ok (), pushed_failed tx d).
Proof.
  intros H0 Hlt. cbn -[mbind add_failed]. rewrite run_bind_bind, run_bind_gets.
  unfold add_failed. rewrite as_i64_small by lia.
  by rewrite add_i64_small by (unfold i64_fits; lia).
Qed.

(** [d'] is [d] with more successful transfers. *)
Record more_success (txs : list DbTxStateMachine) (d d' : AbsDb) : Prop := {
  ms_user : abs_user d' = abs_user d;
  ms_nonce : abs_nonce d' = abs_nonce d;
  ms_failed : abs_failed d' = abs_failed d;
  ms_success : default [] (abs_success d') = default [] (abs_success d) ++ txs;
  ms_total : success_value (totals d') = (success_value (totals d) + Z.of_N (sum_amounts txs))%Z;
  ms_other : failed_value (totals d') = failed_value (totals d)
}.
Record more_failed (txs : list DbTxStateMachine) (d d' : AbsDb) : Prop := {
  mf_user : abs_user d' = abs_user d;
  mf_nonce : abs_nonce d' = abs_nonce d;
  mf_success : abs_success d' = abs_success d;
  mf_failed : default [] (abs_failed d') = default [] (abs_failed d) ++ txs;
  mf_total : failed_value (totals d') = (failed_value (totals d) + Z.of_N (sum_amounts txs))%Z;
  mf_other : success_value (totals d') = success_value (totals d)
}.

Lemma import_success txs (d : AbsDb) :
  (0 ≤ success_value (totals d))%Z →
  (success_value (totals d) + Z.of_N (sum_amounts txs) < 2 ^ 63)%Z →
  ∃ d', for_each update_success_tx txs d = (Ok (), d') ∧ more_success txs d d'.
Proof.
  revert d. induction txs as [|tx txs IH]; intros d H0 Hlt; simpl in Hlt.
  { exists d. split; [done|]. split; simpl; [done..|by rewrite app_nil_r|lia|done]. }
  destruct (IH (pushed_success tx d)) as (d' & Hrun & Hd'); [simpl; lia..|].
  exists d'. split.
  - simpl. erewrite run_bind_ok; [exact Hrun|]. apply update_success_small; lia.
  - destruct Hd'. simpl in *.
    split; [done..|by rewrite ms_success0, <-app_assoc|rewrite ms_total0; simpl; lia|done].
Qed.
Lemma import_failed txs (d : AbsDb) :
  (0 ≤ failed_value (totals d))%Z →
  (failed_value (totals d) + Z.of_N (sum_amounts txs) < 2 ^ 63)%Z →
  ∃ d', for_each update_failed_tx txs d = (Ok (), d') ∧ more_failed txs d d'.
Proof.
  revert d. induction txs as [|tx txs IH]; intros d H0 Hlt; simpl in Hlt.
  { exists d. split; [done|]. split; simpl; [done..|by rewrite app_nil_r|lia|done]. }
  destruct (IH (pushed_failed tx d)) as (d' & Hrun & Hd'); [simpl; lia..|].
  exists d'. split.
  - simpl. erewrite run_bind_ok; [exact Hrun|]. apply update_failed_small; lia.
  - destruct Hd'. simpl in *.
    split; [done..|by rewrite mf_failed0, <-app_assoc|rewrite mf_total0; simpl; lia|done].
Qed.
End import.

(** ** The round trip *)

Section round_trip.
Context {BP : BuildProfile} {P2P : P2pTypes} {LRU : LruCache N (TtlWrapper TxStateMachine)}.
Context {D : Type} {DB : DbWorkerInterface D} (R : D → AbsDb → Prop) {HR : DbRefines R}.

(** What the database holds, as an export. *)
Definition abs_export (d : AbsDb) : StorageExport := {|
  se_user_account := abs_user d;
  se_nonce := default 0 (abs_nonce d);
  success_transactions := default [] (abs_success d);
  failed_transactions := default [] (abs_failed d) |}.

Lemma read_run {A} (m : M D A) (m' : M AbsDb A) (s : Node D) d :
  R (node_db s) d → refines R m m' → (m' d).2 = d → panics (m' d).1 = false →
  ∃ s1, on_db m s = ((m' d).1, s1) ∧ R (node_db s1) d.
Proof.
  intros HRs Hm Hd Hp. destruct (Hm _ _ HRs) as [Ho Hs]. unfold on_db.
  destruct (m (node_db s)) as [o db'] eqn:Hrun. simpl in *. subst o.
  eexists. split; [done|]. rewrite Hd in Hs. by apply Hs.
Qed.

Lemma as_option_run {A} (m : M (Node D) A) s (o : outcome A) s1 :
  m s = (o, s1) → panics o = false → o ≠ Parked →
  as_option m s = (Ok (match o with Ok a => Some a | _ => None end), s1).
Proof. intros Hm Hp Hk. unfold as_option, attempt, mbind, M_bind. rewrite Hm. by destruct o. Qed.
Lemma or_default_run {A} x (m : M (Node D) A) s a s1 :
  m s = (Ok a, s1) → or_default x m s = (Ok a, s1).
Proof. intros Hm. unfold or_default, attempt, mbind, M_bind. by rewrite Hm. Qed.

Lemma export_run s d : R (node_db s) d → ∃ s', export_storage s = (Ok (abs_export d), s').
Proof.
  intros HRs. unfold export_storage.
  destruct (read_run get_user_account get_user_account s d) as (s1 & Hu & HR1);
    [done|apply refines_get_user_account|simpl; by destruct (abs_user d)..|].
  destruct (read_run get_nonce get_nonce s1 d) as (s2 & Hn & HR2);
    [done|apply refines_get_nonce|done..|].
  destruct (read_run get_success_txs get_success_txs s2 d) as (s3 & Hs & HR3);
    [done|apply refines_get_success_txs|done..|].
  destruct (read_run get_failed_txs get_failed_txs s3 d) as (s4 & Hf & HR4);
    [done|apply refines_get_failed_txs|done..|].
  exists s4. apply as_option_run in Hu; [|simpl; by destruct (abs_user d)..].
  erewrite run_bind_ok; [|exact Hu].
  erewrite run_bind_ok; [|by apply (or_default_run 0) in Hn].
  erewrite run_bind_ok; [|by apply (or_default_run []) in Hs].
  erewrite run_bind_ok; [|by apply (or_default_run []) in Hf].
  unfold abs_export. simpl. by destruct (abs_user d).
Qed.

Lemma apply_export_refines e : refines R (apply_storage_export e) (apply_storage_export e).
Proof.
  unfold apply_storage_export. apply refines_bind; [|intros _].
  - destruct (se_user_account e); [apply refines_set_user_account|apply refines_ret].
  - apply refines_bind; [apply refines_set_nonce|intros _].
    apply refines_bind; [|intros _]; apply refines_for_each; auto using
      refines_update_success_tx, refines_update_failed_tx.
Qed.

Lemma apply_export_run e d :
  totals d = TransactionsData_zero → default [] (abs_success d) = [] →
  default [] (abs_failed d) = [] →
  sum_amounts (success_transactions e) < 2 ^ 63 → sum_amounts (failed_transactions e) < 2 ^ 63 →
  ∃ d', apply_storage_export e d = (Ok (), d') ∧
    abs_user d' = match se_user_account e with Some u => Some u | None => abs_user d end ∧
    default 0 (abs_nonce d') = se_nonce e ∧
    default [] (abs_success d') = success_transactions e ∧
    default [] (abs_failed d') = failed_transactions e ∧
    totals d' = {| success_value := Z.of_N (sum_amounts (success_transactions e));
                   failed_value := Z.of_N (sum_amounts (failed_transactions e)) |}.
Proof.
  intros Ht Hs Hf Hss Hsf. unfold apply_storage_export.
  set (d1 := abs_set_nonce (se_nonce e)
    match se_user_account e with Some u => abs_set_user u d | None => d end).
  assert (totals d1 = TransactionsData_zero ∧ default [] (abs_success d1) = [] ∧
          default [] (abs_failed d1) = []) as (Ht1 & Hs1 & Hf1)
    by (by subst d1; destruct (se_user_account e)).
  destruct (import_success (success_transactions e) d1) as (d2 & Hrun2 & [Hu2 Hn2 Hff2 Hs2 Hv2 Hw2]);
    [rewrite Ht1; simpl; lia..|]. rewrite Ht1 in Hv2, Hw2.
  destruct (import_failed (failed_transactions e) d2) as (d3 & Hrun3 & [Hu3 Hn3 Hss3 Hf3 Hv3 Hw3]);
    [rewrite Hw2; simpl; lia..|]. exists d3. split_and!.
  - rewrite (run_bind_ok _ _ _
      (match se_user_account e with Some u => abs_set_user u d | None => d end) ())
      by (by destruct (se_user_account e)).
    rewrite (run_bind_ok _ _ _ d1 ()) by done.
    rewrite (run_bind_ok _ _ _ _ _ Hrun2). exact Hrun3.
  - rewrite Hu3, Hu2. by subst d1; destruct (se_user_account e).
  - by rewrite Hn3, Hn2.
  - by rewrite Hss3, Hs2, Hs1.
  - by rewrite Hf3, Hff2, Hf1.
  - destruct (totals d3) as [v w]. simpl in *. f_equal; lia.
Qed.

(** C31: a node exports its storage and another one starts from it, on databases that
    implement the interface, the second one empty: unless a total of the exported
    amounts reaches 2^63, start-up succeeds, and the new node has the exported nonce,
    transfers (in order) and the exact totals; its account is the exported one, the
    account it was started with being kept only when none was exported. *)
Theorem storage_round_trip (old : Node D) d db0 relay account network
    (Hold : R (node_db old) d) (Hnew : R db0 AbsDb_new)
    (Hs : sum_amounts (default [] (abs_success d)) < 2 ^ 63)
    (Hf : sum_amounts (default [] (abs_failed d)) < 2 ^ 63) :
  ∃ e s', (export_storage old).1 = Ok e ∧
    WasmMainServiceWorker_new db0 relay account network (Some e) = (Ok (), s') ∧
    (get_user_account (node_db s')).1 = Ok (default
       {| multi_addr := relay; accounts := [(account, ChainSupported_from_str network)] |}
       (abs_user d)) ∧
    (get_nonce (node_db s')).1 = (get_nonce (node_db old)).1 ∧
    (get_success_txs (node_db s')).1 = (get_success_txs (node_db old)).1 ∧
    (get_failed_txs (node_db s')).1 = (get_failed_txs (node_db old)).1 ∧
    (get_total_value_success (node_db s')).1 =
      Ok (sum_amounts (default [] (abs_success d))) ∧
    (get_total_value_failed (node_db s')).1 = Ok (sum_amounts (default [] (abs_failed d))).
Proof.
  destruct (export_run old d Hold) as [old' Hexp]. exists (abs_export d).
  set (u := {| multi_addr := relay; accounts := [(account, ChainSupported_from_str network)] |}).
  destruct (apply_export_run (abs_export d) (abs_set_user u AbsDb_new) eq_refl eq_refl eq_refl Hs Hf)
    as (d' & Hrun & Hu & Hn & Hss & Hff & Ht).
  destruct (refines_set_user_account u db0 AbsDb_new Hnew) as [Ho1 Hs1].
  destruct (set_user_account u db0) as [o1 db1] eqn:Hset. simpl in Ho1, Hs1. subst o1.
  specialize (Hs1 eq_refl).
  destruct (apply_export_refines (abs_export d) db1 _ Hs1) as [Ho2 Hs2].
  rewrite Hrun in Ho2, Hs2.
  destruct (apply_storage_export (abs_export d) db1) as [o2 db2] eqn:Happ. simpl in Ho2, Hs2.
  subst o2. specialize (Hs2 eq_refl).
  exists (with_node_db (λ _, db2) (initial_node db0)).
  split; [by rewrite Hexp|]. split.
  { unfold WasmMainServiceWorker_new.
    erewrite run_bind_ok; [|by apply on_db_run]. unfold on_db. simpl. by rewrite Happ. }
  simpl. destruct (refines_get_user_account db2 d' Hs2) as [-> _].
  destruct (refines_get_nonce db2 d' Hs2) as [-> _].
  destruct (refines_get_nonce (node_db old) d Hold) as [-> _].
  destruct (refines_get_success_txs db2 d' Hs2) as [-> _].
  destruct (refines_get_success_txs (node_db old) d Hold) as [-> _].
  destruct (refines_get_failed_txs db2 d' Hs2) as [-> _].
  destruct (refines_get_failed_txs (node_db old) d Hold) as [-> _].
  destruct (refines_get_total_value_success db2 d' Hs2) as [-> _].
  destruct (refines_get_total_value_failed db2 d' Hs2) as [-> _].
  change (get_user_account d').1 with (ok_or (abs_user d') no_user).
  change (get_nonce d').1 with (Ok (default 0 (abs_nonce d'))).
  change (get_success_txs d').1 with (Ok (default [] (abs_success d'))).
  change (get_failed_txs d').1 with (Ok (default [] (abs_failed d'))).
  change (get_total_value_success d').1 with (Ok (i64_as_u128 (success_value (totals d')))).
  change (get_total_value_failed d').1 with (Ok (i64_as_u128 (failed_value (totals d')))).
  rewrite Hu, Hn, Hss, Hff, Ht. simpl in *.
  rewrite !i64_as_u128_nonneg, !N2Z.id by lia. split_and!; try done. by destruct (abs_user d).
Qed.
End round_trip.

Section witness.
#[local] Existing Instances good_host sample_codecs sample_codecs_laws.

(** A used database: one transfer of each kind, and a nonce. *)
Definition use_db {D} `{DbWorkerInterface D} : M D unit :=
  set_user_account alice_account;;
  update_success_tx (db_record [Byte.xaa] true (alice_to_bob Genesis));;
  update_failed_tx (db_record [] false (alice_to_bob Genesis));;
  set_nonce 7.

Lemma used_memory_abs : mem_abs (use_db empty_memory).2 (use_db AbsDb_new).2.
Proof.
  assert (refines mem_abs use_db use_db) as Huse.
  { unfold use_db. apply refines_bind; [apply refines_set_user_account|intros _].
    apply refines_bind; [apply refines_update_success_tx|intros _].
    apply refines_bind; [apply refines_update_failed_tx|intros _]. apply refines_set_nonce. }
  destruct (Huse empty_memory AbsDb_new empty_memory_abs) as [_ Hr]. apply Hr.
  vm_compute. reflexivity.
Qed.

Lemma storage_round_trip_witness :
  ∃ e s', (export_storage (initial_node (use_db empty_memory).2)).1 = Ok e ∧
    WasmMainServiceWorker_new empty_memory "backend" "carol" "Solana" (Some e) = (Ok (), s') ∧
    (get_user_account (node_db s')).1 = Ok alice_account ∧
    (get_total_value_success (node_db s')).1 = Ok 1000.
Proof.
  destruct (storage_round_trip mem_abs (initial_node (use_db empty_memory).2)
    (use_db AbsDb_new).2 empty_memory "backend" "carol" "Solana" used_memory_abs empty_memory_abs
    eq_refl eq_refl) as (e & s' & He & Hnew & Hu & _ & _ & _ & Ht & _).
  exists e, s'. split_and!; [exact He|exact Hnew|exact Hu|exact Ht].
Defined.
End witness.
