(* ===== verification/Startup.v ===== *)
(** Starting a node: the entry point of the page ([start_vane_web3]) and
    [WasmMainServiceWorker::run] in [node/wasm/src/lib.rs], with the conversion of the
    values the page passes; and what can happen on a node after it, by the tasks that
    were started.

    The conversion of a JavaScript value to data is [serde_wasm_bindgen]'s; the logging
    that is set up first is in [Logging.v]. *)

From S2P Require Import Prelude DataStructure Codec DbInterface Lru TxProcessing.
From S2P Require Import Node NodeLogic MainService NodeSamples Interface Session.
From S2P Require Import MainServiceSafety.
Open Scope N_scope.

(** ** Values of the page *)

(** A JavaScript value, and [serde_wasm_bindgen::from_value] at the types the node reads;
    an error is given as it is shown. *)
Class SerdeWasm `{P2pTypes} := {
  JsValue : Type;
  is_undefined : JsValue → bool;
  is_null : JsValue → bool;
  tx_from_value : JsValue → outcome TxStateMachine;
  token_from_value : JsValue → outcome Token;
  chain_from_value : JsValue → outcome ChainSupported;
  storage_from_value : JsValue → outcome StorageExport
}.

Section conversions.
Context `{SerdeWasm}.

Definition TxStateMachine_from_js_value (value : JsValue) : outcome TxStateMachine :=
  context "Failed to deserialize TxStateMachine: " (tx_from_value value).
Definition Token_from_js_value (value : JsValue) : outcome Token :=
  context "Failed to deserialize Token: " (token_from_value value).
Definition ChainSupported_from_js_value (value : JsValue) : outcome ChainSupported :=
  context "Failed to deserialize ChainSupported: " (chain_from_value value).
Definition StorageExport_from_js_value (value : JsValue) : outcome StorageExport :=
  context "Failed to deserialize StorageExport: " (storage_from_value value).
End conversions.

(** ** Start-up *)

(** The tasks of a node: the loop over the user's updates, and the swarm handler with
    the connection to the backend. *)
Inductive task := TxUpdateTask | SwarmHandlerTask.
#[export] Instance task_eq_decision : EqDecision task.
Proof. solve_decision. Defined.

Section startup.
Context {BP : BuildProfile} {P2P : P2pTypes} {LRU : LruCache N (TtlWrapper TxStateMachine)}.
Context {D : Type} {DB : DbWorkerInterface D} {CR : Crypto} {HO : Host}.
Context {COD : Codec IntegrityFields} {SW : SerdeWasm}.
Abbreviation NodeM := (M (Node D)).

(** [WasmMainServiceWorker::run]: the new node and the tasks that are spawned. *)
Definition run (db : D) (relay_node_multi_addr account network : string) (self_node : bool)
    (storage : option StorageExport) : outcome (list task) * Node D :=
  match WasmMainServiceWorker_new db relay_node_multi_addr account network storage with
  | (Ok _, s) => (Ok (TxUpdateTask :: if self_node then [] else [SwarmHandlerTask]), s)
  | (Err e, s) => (Err e, s)
  | (Panic p, s) => (Panic p, s)
  | (Parked, s) => (Parked, s)
  end.

Definition start_vane_web3 (db : D) (relay_node_multi_addr account network : string)
    (self_node : bool) (storage : JsValue) : outcome (list task) * Node D :=
  match (if is_undefined storage || is_null storage then Ok None
         else storage ← StorageExport_from_js_value storage; Ok (Some storage)) with
  | Ok storage =>
      let '(r, s) := run db relay_node_multi_addr account network self_node storage in
      (context "Failed to start WASM node: " r, s)
  | Err e => (Err e, initial_node db)
  | Panic p => (Panic p, initial_node db)
  | Parked => (Parked, initial_node db)
  end.

(** The steps that the tasks of a node can make: the page may always call and the
    watcher take; only the swarm handler brings messages and takes commands. *)
Definition activity_of (ts : list task) (a : activity) : bool :=
  match a with
  | SwarmMessageArrives _ _ => bool_decide (SwarmHandlerTask ∈ ts)
  | UserQueues _ => true
  | UpdateTaskRuns _ _ => bool_decide (TxUpdateTask ∈ ts)
  end.

Definition step_of (ts : list task) (x : session_step) : bool :=
  match x with
  | PageCalls (FetchPendingTxUpdates _ meanwhile _) => forallb (activity_of ts) meanwhile
  | PageCalls _ | WatcherTakes => true
  | ServiceActs a => activity_of ts a
  | NetworkTakes => bool_decide (SwarmHandlerTask ∈ ts)
  end.

(** ** What a started node is *)

Lemma on_db_only {A} (m : M D A) db : ∃ db', (on_db m (initial_node db)).2 = initial_node db'.
Proof. unfold on_db. simpl. destruct (m db) as [o db']. by exists db'. Qed.

Lemma new_only_writes_db db relay account network storage :
  ∃ db', (WasmMainServiceWorker_new db relay account network storage).2 = initial_node db'.
Proof.
  unfold WasmMainServiceWorker_new. rewrite run_bind.
  set (m := set_user_account _). destruct (on_db_only m db) as [db' Hdb].
  destruct (on_db m (initial_node db)) as [[[]| | |] s]; simpl in Hdb; subst;
    try by exists db'.
  destruct storage as [e|]; [apply on_db_only|by exists db'].
Qed.

Lemma started_node db relay account network self_node storage ts s :
  start_vane_web3 db relay account network self_node storage = (Ok ts, s) →
  (∃ db', s = initial_node db') ∧
  ts = TxUpdateTask :: if self_node then [] else [SwarmHandlerTask].
Proof.
  unfold start_vane_web3, run. destruct (if is_undefined _ || _ then _ else _) as [o| | |];
    [|done..]. destruct (new_only_writes_db db relay account network o) as [db' Hdb].
  destruct (WasmMainServiceWorker_new _ _ _ _ _) as [[[]| | |] s']; simpl in Hdb; subst;
    simpl; [|done..]. intros [= <- <-]. split; [by exists db'|done].
Qed.

(** ** A node without a connection *)

(** The commands queued so far stay queued, in their order, at most ten. *)
Definition commands_kept (q : list NetworkCommand) (s : Node D) : Prop :=
  q `prefix_of` queue (p2p_commands s) ∧
  (length (queue (p2p_commands s)) ≤ 10)%nat ∧ capacity (p2p_commands s) = 10%nat ∧
  closed (p2p_commands s) = false.

Section kept.
Context (q : list NetworkCommand).
Abbreviation kept := (keeps (commands_kept q)).
#[local] Hint Resolve any_intro : core.
#[local] Instance commands_kept_blind : BorrowBlind (commands_kept q).
Proof. by intros f s. Qed.

Lemma stays_same {A} (m : NodeM A) :
  (∀ s, p2p_commands (m s).2 = p2p_commands s) → kept m any.
Proof. intros Hm. apply keeps_pure. unfold commands_kept. intros s Hs. by rewrite Hm. Qed.
Lemma stays_on_db {A} (m : M D A) : kept (on_db m) any.
Proof. apply stays_same. intros s. unfold on_db. by destruct (m (node_db s)). Qed.
Lemma stays_attempt {A} (m : NodeM A) : kept m any → kept (attempt m) any.
Proof. intros Hm. by eapply keeps_any, keeps_attempt. Qed.

(** A command is queued behind those that wait. *)
Lemma stays_queue (f : outcome (Chan NetworkCommand) → outcome (Chan NetworkCommand)) cmd :
  (∀ o ch, f o = Ok ch → o = Ok ch) →
  kept (ch ← gets p2p_commands; ch ← lift (f (chan_send cmd ch));
        modify (with_p2p_commands (λ _, ch))) any.
Proof.
  intros Hf. apply keeps_pure. intros s (Hpre & Hlen & Hcap & Hcl). rewrite run_bind_gets.
  destruct (f _) as [ch| | |] eqn:Hsend; [|done..]. apply Hf in Hsend. revert Hsend.
  unfold chan_send, chan_full. rewrite Hcl.
  case_bool_decide as Hfull; [done|]. intros [= <-]. rewrite Hcap in Hfull.
  split_and!; simpl; [by apply prefix_app_r|rewrite length_app; simpl; lia|done|done].
Qed.

Lemma context_ok {A} msg (o : outcome A) a : context msg o = Ok a → o = Ok a.
Proof. by destruct o. Qed.

Ltac kept_step :=
  match goal with
  | |- keeps _ (ch ← gets p2p_commands; _) _ =>
      first [ apply (stays_queue id); done | apply stays_queue; intros ? ?; apply context_ok ]
  | |- keeps _ (mbind _ _) _ => eapply (keeps_bind _ _ _ any); [|intros ? _]
  | |- keeps _ (on_db _) _ => apply stays_on_db
  | |- keeps _ (with_mut _ _) _ => apply keeps_with_mut; [apply _|]
  | |- keeps _ (with_ref _ _) _ => apply keeps_with_ref; [apply _|]
  | |- keeps _ (attempt _) _ => apply stays_attempt
  | |- keeps _ (for_each _ _) _ =>
      apply (keeps_for_each _ _ any); [intros ? _|by apply list.Forall_forall]
  | |- keeps _ (match ?x with _ => _ end) _ => destruct x
  | |- keeps _ (if ?x then _ else _) _ => destruct x
  | |- keeps _ _ _ => by apply stays_same
  end.
Ltac kept := cbv zeta; repeat kept_step.

Lemma stays_tx_update now tx : kept (handle_tx_update now tx) any.
Proof.
  unfold handle_tx_update, handle_genesis_tx_state, handle_recv_addr_confirmed_tx_state,
    handle_sender_confirmed_tx_state, handle_reverted_tx_state, local_confirmed,
    response_refused, sender_refused, submit_and_record, parties_mismatch, update_push_send,
    update_send, wasm_send_request, wasm_send_response, create_tx, submit_tx, command_send,
    rpc_send, rpc_try_send, cache_push, cache_get, cache_get_mut. kept.
Qed.

Lemma stays_update_loop now turns : kept (handle_public_interface_tx_updates now turns) any.
Proof.
  induction turns as [|turns IH]; simpl; [by apply stays_same|].
  eapply (keeps_bind _ _ _ any); [unfold recv_update; kept|]. intros [txn|] _; [|kept].
  eapply (keeps_bind _ _ _ any); [apply stays_tx_update|done].
Qed.

Lemma stays_activity a : activity_of [TxUpdateTask] a = true → kept (service_step a) any.
Proof. destruct a; simpl; [done|intros _; kept|intros _; apply stays_update_loop]. Qed.

Lemma stays_run l s :
  forallb (activity_of [TxUpdateTask]) l = true → commands_kept q s →
  commands_kept q (service_run l s).
Proof.
  unfold service_run. revert s. induction l as [|a l IH]; intros s; [done|]. simpl.
  intros [Ha Hl]%andb_prop Hs. apply IH; [done|]. by apply stays_activity.
Qed.

Lemma stays_user_call c :
  step_of [TxUpdateTask] (PageCalls c) = true → kept (run_user_call c) any.
Proof.
  destruct c as [| | | |account meanwhile now| | | | |]; intros Hc; cbn [run_user_call].
  5: { eapply (keeps_bind _ _ _ any); [|intros ? _; kept].
       unfold fetch_pending_tx_updates, request_pending, collect_pending. cbv zeta.
       eapply (keeps_bind _ _ _ any); [kept|intros _ _].
       eapply (keeps_bind _ _ _ any); [|intros _ _; kept].
       apply keeps_modify. intros s. by apply stays_run. }
  all: unfold initiate_transaction, sender_confirm, receiver_confirm, revert_transaction,
    add_account, export_storage, as_option, or_default, delete_tx_in_cache,
    clear_reverted_from_cache, clear_finalized_from_cache, clear_where, update_queue,
    check_integrity, cache_push, cache_get, cache_get_mut.
  all: kept.
Qed.

Lemma stays_step x : step_of [TxUpdateTask] x = true → kept (run_session_step x) any.
Proof.
  destruct x as [c|a| |]; [apply stays_user_call|apply stays_activity|intros _; simpl; kept|done].
Qed.
End kept.

Lemma stays_session q l s :
  Forall (λ x, step_of [TxUpdateTask] x = true) l → commands_kept q s →
  commands_kept q (session_run l s).
Proof.
  unfold session_run. intros Hl. revert s. induction Hl as [|x l Hx _ IH]; intros s Hs; [done|].
  simpl. apply IH. by apply stays_step.
Qed.

Lemma prefix_full {A} (q l : list A) : q `prefix_of` l → (length l ≤ length q)%nat → l = q.
Proof. intros [k ->]. rewrite length_app. destruct k; simpl; [by rewrite app_nil_r|lia]. Qed.

(** A node started for transfers to oneself ([self_node]) reaches nobody: whatever its
    page calls and its task does, a command once queued for the network stays queued, and
    when ten are, the queue stays as it is for ever and whoever sends the next one,
    the update task above all, waits for ever. *)
Theorem self_node_commands_accumulate db relay account network storage ts (s : Node D)
    (l l' : list session_step)
    (Hstart : start_vane_web3 db relay account network true storage = (Ok ts, s))
    (Hl : Forall (λ x, step_of ts x = true) (l ++ l')) :
  let q := queue (p2p_commands (session_run l s)) in
  let ch := p2p_commands (session_run (l ++ l') s) in
  q `prefix_of` queue ch ∧ (length (queue ch) ≤ 10)%nat ∧
  (length q = 10%nat → queue ch = q ∧ ∀ cmd, chan_send cmd ch = Parked).
Proof.
  apply started_node in Hstart as [[db' ->] ->]. apply Forall_app in Hl as [Hl Hl']. cbv zeta.
  set (s1 := session_run l _). replace (session_run (l ++ l') _) with (session_run l' s1)
    by (unfold s1, session_run; by rewrite foldl_app).
  assert (commands_kept [] s1) as (_ & Hlen & Hcap & Hcl).
  { apply stays_session; [done|]. split_and!; [apply prefix_nil|simpl; lia|done..]. }
  destruct (stays_session (queue (p2p_commands s1)) l' s1) as (Hpre & Hlen' & Hcap' & Hcl');
    [done|by split_and!|]. split_and!; [done..|]. intros Hfull. split.
  - apply prefix_full; [done|]. lia.
  - intros cmd. unfold chan_send, chan_full. rewrite Hcl', bool_decide_eq_true_2; [done|].
    apply prefix_length in Hpre. lia.
Qed.
End startup.

(** ** Witness *)

Section witness.
#[local] Existing Instance good_host.

(** The page's values: none, or one that is not a storage. *)
#[local] Instance sample_values : SerdeWasm := {|
  JsValue := option unit; is_undefined v := bool_decide (v = None); is_null _ := false;
  tx_from_value _ := Err "missing field"; token_from_value _ := Err "missing field";
  chain_from_value _ := Err "missing field"; storage_from_value _ := Err "missing field" |}.

Definition no_value : @JsValue _ sample_values := None.
Definition bad_value : @JsValue _ sample_values := Some tt.

(** Alice, on a node for herself, asks twelve times for what is pending. *)
Definition asks : session_step := PageCalls (FetchPendingTxUpdates "alice" [] 100).

Definition self_started : outcome (list task) * Node AbsDb :=
  start_vane_web3 AbsDb_new "backend" "alice" "Ethereum" true no_value.

Lemma self_node_commands_accumulate_witness :
  self_started.1 = Ok [TxUpdateTask] ∧
  queue (p2p_commands (session_run (replicate 12 asks) self_started.2)) =
    replicate 10 (FetchPendingTransactions "alice") ∧
  chan_send (FetchPendingTransactions "alice")
    (p2p_commands (session_run (replicate 12 asks) self_started.2)) = Parked.
Proof.
  destruct (self_node_commands_accumulate (DB := AbsDb_interface) AbsDb_new "backend" "alice"
    "Ethereum" no_value [TxUpdateTask] self_started.2 (replicate 10 asks) (replicate 2 asks)
    ltac:(vm_compute; reflexivity) ltac:(repeat constructor)) as (_ & _ & Hfull).
  split_and!; [vm_compute; reflexivity..|].
  apply Hfull. vm_compute. reflexivity.
Defined.

(** A value that is not a storage is refused before anything is written. *)
Example malformed_storage_refused :
  start_vane_web3 AbsDb_new "backend" "alice" "Ethereum" true bad_value =
    (Err "Failed to deserialize StorageExport: missing field", initial_node AbsDb_new).
Proof. reflexivity. Qed.
End witness.
