(* ===== verification/P2p.v ===== *)
(** The node's connection to the backend ([WasmP2pWorker] in
    [node/wasm/src/p2p.rs]): commands become JSON-RPC requests, the events of the
    subscription become messages for the main service.  The backend's side of a
    request is [BackendRpcHandler] in [node/vane-backend/src/server.rs].

    The transport (the WebSocket, JSON-RPC framing, reconnection) is left out: a
    request is a call of the backend's handler, made by a task of its own, an
    answer is only logged, and a subscription delivers a sequence of events. *)

From S2P Require Import Prelude DataStructure Codec Server DbInterface Lru TxProcessing.
From S2P Require Import Node MainService.
Open Scope N_scope.

(** ** Requests *)

Inductive rpc_call :=
  | RpcSenderRequest (address : string) (data : bytes)
  | RpcReceiverResponse (address : string) (data : bytes)
  | RpcFetchPendingTransactions (address : string)
  | RpcSenderConfirmation (address : string) (data : bytes)
  | RpcTxSubmissionUpdates (address : string) (data : bytes)
  | RpcDisconnectPeer (account_id : string) (data : bytes)
  | RpcSenderRevertation (address : string) (data : bytes).

Section transport.
Context {JSON : TxJson} {P2P : P2pTypes}.

(** [serde_json::to_vec(&data).unwrap_or_default()] *)
Definition to_vec_or_default (tx : TxStateMachine) : bytes := default [] (to_vec tx).

(** The request of a command; a request or response that cannot be serialised, an
    error response and the other commands send nothing. *)
Definition command_rpc (cmd : NetworkCommand) : option rpc_call :=
  match cmd with
  | WasmSendRequest request =>
      data ← to_vec request; mret (RpcSenderRequest (sender_address request) data)
  | WasmSendResponse (inl tx_state) =>
      data ← to_vec tx_state; mret (RpcReceiverResponse (receiver_address tx_state) data)
  | FetchPendingTransactions account_id => Some (RpcFetchPendingTransactions account_id)
  | ConfirmTransaction account_id data =>
      Some (RpcSenderConfirmation account_id (to_vec_or_default data))
  | TxSubmissionUpdate account_id data =>
      Some (RpcTxSubmissionUpdates account_id (to_vec_or_default data))
  | Close account_id data => Some (RpcDisconnectPeer account_id (to_vec_or_default data))
  | RevertTransaction account_id data =>
      Some (RpcSenderRevertation account_id (to_vec_or_default data))
  | _ => None
  end.

(** The message of an event, for the node of [user_account_id]. *)
Definition event_message (user_account_id : string) (event : BackendEvent) :
    option SwarmMessage :=
  match event with
  | SenderRequestHandled _ data =>
      match from_slice data with
      | Some tx_state =>
          if decide (receiver_address tx_state = user_account_id)
          then Some (WasmRequest tx_state) else None
      | None => None
      end
  | ReceiverResponseHandled _ data =>
      match from_slice data with
      | Some tx_state =>
          if decide (sender_address tx_state = user_account_id)
          then Some (WasmResponse tx_state) else None
      | None => None
      end
  | PendingTransactionsFetched address transactions =>
      Some (SwarmPendingTransactionsFetched address transactions)
  | _ => None
  end.

(** The backend's handler of a request ([order] as for [disconnect_peer]). *)
Definition backend_rpc `{Hex} `{BuildProfile} (clk : nat → N) (order : list string)
    (call : rpc_call) : M VaneSwarmServer unit :=
  match call with
  | RpcSenderRequest address data => handle_sender_request clk address data
  | RpcReceiverResponse address data => handle_receiver_response clk address data
  | RpcFetchPendingTransactions address => rpc_fetch_pending_transactions address
  | RpcSenderConfirmation address data => handle_sender_confirmation clk address data
  | RpcTxSubmissionUpdates address data => handle_tx_submission_updates clk address data
  | RpcDisconnectPeer account_id data =>
      disconnect_peer order (clk 0%nat) (clk 1%nat) account_id data
  | RpcSenderRevertation address data => handle_sender_revertation clk address data
  end.
End transport.

(** ** The worker *)

Section worker.
Context {JSON : TxJson} {P2P : P2pTypes} {LRU : LruCache N (TtlWrapper TxStateMachine)}.
Context {D : Type} {DB : DbWorkerInterface D} {CR : Crypto} {HO : Host}.

(** A node with its connection: the channel to the swarm handler (of 256 messages) and
    the requests sent. *)
Record Peer := {
  peer_node : Node D;
  user_account_id : string;
  swarm_channel : Chan (SwarmMessage + string);
  rpc_calls : list rpc_call
}.

Definition with_peer_node f (p : Peer) : Peer := {|
  peer_node := f (peer_node p); user_account_id := user_account_id p;
  swarm_channel := swarm_channel p; rpc_calls := rpc_calls p |}.
Definition with_swarm_channel f (p : Peer) : Peer := {|
  peer_node := peer_node p; user_account_id := user_account_id p;
  swarm_channel := f (swarm_channel p); rpc_calls := rpc_calls p |}.
Definition with_rpc_calls f (p : Peer) : Peer := {|
  peer_node := peer_node p; user_account_id := user_account_id p;
  swarm_channel := swarm_channel p; rpc_calls := f (rpc_calls p) |}.

Definition on_node {A} (m : M (Node D) A) : M Peer A := λ p,
  let (o, n) := m (peer_node p) in (o, with_peer_node (λ _, n) p).

(** The address a node connects to ([WasmP2pWorker::new]). *)
Definition ws_url (relay_node_url : string) : string :=
  if String.prefix "ws://" relay_node_url || String.prefix "wss://" relay_node_url
  then relay_node_url else "ws://" +:+ relay_node_url.

(** [p2p_event_notif.sender.borrow_mut().send(event.clone()).await] *)
Definition notify (event : BackendEvent) : M (Node D) unit :=
  with_mut NotifSenderCell (
    ch ← gets p2p_event_notif;
    ch ← lift (chan_send event ch);
    modify (with_p2p_event_notif (λ _, ch))).

Definition swarm_send (msg : SwarmMessage) : M Peer unit :=
  ch ← gets swarm_channel;
  ch ← lift (chan_send (inl msg) ch);
  modify (with_swarm_channel (λ _, ch)).

Definition handle_backend_event (event : BackendEvent) : M Peer unit :=
  attempt (on_node (notify event));;
  user ← gets user_account_id;
  match event_message user event with
  | Some msg => attempt (swarm_send msg);; skip
  | None => skip
  end.

Definition handle_command (cmd : NetworkCommand) : M Peer unit :=
  match command_rpc cmd with
  | Some call => modify (with_rpc_calls (λ l, l ++ [call]))
  | None => skip
  end.

(** One turn of the loop: an event from the subscription (or an error, which is logged
    and followed by a pause), the next command, or the end of the subscription, which
    ends the loop and drops the only sender of the swarm handler's channel. *)
Inductive p2p_turn :=
  | TurnEvent (event : BackendEvent)
  | TurnEventError (e : string)
  | TurnCommand
  | TurnEnded.

Definition close_swarm_channel : M Peer unit := modify (with_swarm_channel chan_close).

Definition run_turn (t : p2p_turn) : M Peer unit :=
  match t with
  | TurnEvent event => handle_backend_event event
  | TurnEventError _ => skip
  | TurnCommand =>
      ch ← gets (λ p, p2p_commands (peer_node p));
      match queue ch with
      | cmd :: _ => on_node (modify (with_p2p_commands chan_pop));; handle_command cmd
      | [] => skip
      end
  | TurnEnded => close_swarm_channel
  end.

Definition loop_goes_on (t : p2p_turn) : bool :=
  match t with TurnEnded => false | _ => true end.

Fixpoint p2p_loop (ts : list p2p_turn) : M Peer unit :=
  match ts with
  | [] => skip
  | t :: ts => run_turn t;; if loop_goes_on t then p2p_loop ts else skip
  end.

(** [WasmP2pWorker::start], in the task that owns the sender: the connection and the
    subscription can fail; else the loop runs. *)
Definition start_p2p (build subscribe : outcome unit) (ts : list p2p_turn) : M Peer unit :=
  started ← attempt (lift (context "Failed to create JSON-RPC client: " build);;
                     lift (context "Failed to subscribe to events: " subscribe));
  match started with
  | inl _ => p2p_loop ts
  | inr _ => close_swarm_channel
  end.

(** A turn of the swarm handler: it takes the next message, or waits for one.  When the
    channel is closed the inner loop ends and the outer one asks again at once. *)
Definition swarm_turn (now : N) : M Peer unit :=
  ch ← gets swarm_channel;
  match queue ch with
  | msg :: _ =>
      modify (with_swarm_channel chan_pop);;
      attempt (on_node (handle_swarm_message now msg));; skip
  | [] => if closed ch then skip else lift Parked
  end.

Fixpoint swarm_loop (now : N) (turns : nat) : M Peer unit :=
  match turns with
  | O => skip
  | S turns => swarm_turn now;; swarm_loop now turns
  end.
End worker.
Arguments Peer {_ _} D.
