(* ===== verification/Logging.v ===== *)
(** The logs of a node in the browser ([node/wasm/src/logging.rs]): the logger that forwards
    records to the page, what it forwards, and how the start of a node chooses the level
    ([start_vane_web3] in [lib.rs]).

    The [log] crate, which keeps the logger and the level of the program, is a third
    party's ([LogFacade], [LogLaws]), and so is the hook that shows panics; the functions
    of the page that take the records ([hostFunctions.hostLogging]) are recorded as calls. *)

From S2P Require Import Prelude.
From Stdlib Require Import String.
Open Scope N_scope.

(** ** The [log] crate *)

Inductive Level := Error | Warn | Info | Debug | Trace.
#[export] Instance Level_eq_decision : EqDecision Level.
Proof. solve_decision. Defined.

(** The numbers of the levels, in [log] itself and in the two matches of the code. *)
Definition level_num (l : Level) : N :=
  match l with Error => 1 | Warn => 2 | Info => 3 | Debug => 4 | Trace => 5 end.

(** [level <= filter]; no filter is [LevelFilter::Off]. *)
Definition admits (filter : option Level) (l : Level) : bool :=
  match filter with Some f => level_num l <=? level_num f | None => false end.

Record Metadata := { level : Level; target : string }.
Record LogRecord := {
  metadata : Metadata;
  args : string;
  module_path : option string;
  file : option string;
  line : option N
}.

Class LogFacade := {
  facade : Type;
  facade_new : facade;
  set_logger : facade → outcome unit * facade;
  set_max_level : Level → facade → facade;
  logger_set : facade → bool;
  max_level : facade → option Level
}.

(** A logger is set once; until [set_max_level] no record passes. *)
Class LogLaws `{LogFacade} := {
  new_without_logger : logger_set facade_new = false;
  new_is_off : max_level facade_new = None;
  first_logger f : logger_set f = false →
    ∃ f', set_logger f = (Ok (), f') ∧ logger_set f' = true ∧ max_level f' = max_level f;
  second_logger f : logger_set f = true → ∃ e, set_logger f = (Err e, f);
  max_level_set l f : max_level (set_max_level l f) = Some l;
  max_level_logger l f : logger_set (set_max_level l f) = logger_set f
}.

(** ** The logger *)

(** The functions of [hostLogging]. *)
Inductive js_call :=
  | JsLog (level : N) (target message : string)
      (module_path file : option string) (line : option N)
  | JsSetLogLevel (level : N).

(** [str::starts_with] and [str::contains] *)
Definition starts_with (s p : string) : bool := String.prefix p s.
Fixpoint str_contains (s p : string) : bool :=
  starts_with s p || match s with String _ s => str_contains s p | EmptyString => false end.

(** [WasmLogger::enabled] *)
Definition WasmLogger_enabled (m : Metadata) : bool :=
  let target := target m in
  match level m with
  | Error => true
  | Warn =>
      starts_with target "wasm_node" || starts_with target "p2p"
      || starts_with target "vane" || starts_with target "MainServiceWorker"
      || starts_with target "WasmTxProcessingWorker" || starts_with target "interface"
      || str_contains target "connection" || str_contains target "failed"
  | Info =>
      starts_with target "wasm_node" || starts_with target "p2p"
      || starts_with target "vane" || starts_with target "MainServiceWorker"
      || starts_with target "WasmTxProcessingWorker" || starts_with target "interface"
      || str_contains target "connection" || str_contains target "established"
      || str_contains target "dial"
  | Debug | Trace =>
      starts_with target "wasm_node" || starts_with target "p2p"
      || starts_with target "vane" || starts_with target "MainServiceWorker"
      || starts_with target "WasmTxProcessingWorker" || starts_with target "interface"
  end.

Section logger.
Context `{LF : LogFacade}.

Record Logs := {
  log_facade : facade;
  (** whether [console_error_panic_hook] is set: panics are shown in the console *)
  panic_hook : bool;
  js_calls : list js_call
}.

Definition Logs_new : Logs :=
  {| log_facade := facade_new; panic_hook := false; js_calls := [] |}.

Definition with_facade (f : facade → facade) (s : Logs) : Logs :=
  {| log_facade := f (log_facade s); panic_hook := panic_hook s; js_calls := js_calls s |}.
Definition call_js (c : js_call) : M Logs () :=
  modify (λ s, {| log_facade := log_facade s; panic_hook := panic_hook s;
                  js_calls := js_calls s ++ [c] |}).
Definition set_panic_hook : M Logs () :=
  modify (λ s, {| log_facade := log_facade s; panic_hook := true; js_calls := js_calls s |}).
Definition on_facade (f : facade → outcome unit * facade) : M Logs () := λ s,
  let '(r, f') := f (log_facade s) in (r, with_facade (λ _, f') s).

(** [WasmLogger::log] *)
Definition WasmLogger_log (r : LogRecord) : M Logs () :=
  if WasmLogger_enabled (metadata r) then
    let level_num := level_num (level (metadata r)) in
    call_js (JsLog level_num (target (metadata r)) (args r) (module_path r) (file r) (line r))
  else skip.

(** [log::error!] and the other macros, which [wasm_log_error!] and its like expand to: the
    level is compared first, and the logger asked then; without a logger nothing happens. *)
Definition log_macro (r : LogRecord) : M Logs () :=
  s ← gets id;
  if admits (max_level (log_facade s)) (level (metadata r)) then
    if logger_set (log_facade s) then WasmLogger_log r else skip
  else skip.

(** [WasmLogger::init] *)
Definition WasmLogger_init : M Logs () :=
  on_facade set_logger;;
  modify (with_facade (set_max_level Info)).

(** [WasmLogger::init_debug] *)
Definition WasmLogger_init_debug : M Logs () :=
  on_facade set_logger;;
  modify (with_facade (set_max_level Debug)).

(** [WasmLogger::set_log_level]: only the page is told. *)
Definition WasmLogger_set_log_level (l : Level) : M Logs () :=
  let level_num := level_num l in
  call_js (JsSetLogLevel level_num).

Definition init_wasm_logging : M Logs () := WasmLogger_init.
Definition init_clean_logging : M Logs () := set_panic_hook;; WasmLogger_init.
Definition init_debug_logging : M Logs () := set_panic_hook;; WasmLogger_init_debug.
Definition set_wasm_log_level (l : Level) : M Logs () := WasmLogger_set_log_level l.

(** [let _ = result]: an error is dropped. *)
Definition ignore (m : M Logs ()) : M Logs () := λ s,
  match m s with
  | (Err _, s) => (Ok (), s)
  | r => r
  end.

(** The logging of [start_vane_web3]. *)
Definition start_logging (live : bool) : M Logs () :=
  if live then ignore init_wasm_logging else ignore init_debug_logging.

(** ** What a program logs *)

Inductive log_step :=
  | StartNode (live : bool)
  | EmitRecord (r : LogRecord)
  | SetLevel (l : Level).

Definition run_log_step (x : log_step) : M Logs () :=
  match x with
  | StartNode live => start_logging live
  | EmitRecord r => log_macro r
  | SetLevel l => set_wasm_log_level l
  end.

Definition run_log (l : list log_step) (s : Logs) : Logs :=
  foldl (λ s x, (run_log_step x s).2) s l.

(** The level a start chooses. *)
Definition chosen_level (live : bool) : Level := if live then Info else Debug.

(** What the page is told at a step, by the level chosen before. *)
Definition forwarded (filter : option Level) (x : log_step) : option js_call :=
  match x with
  | StartNode _ => None
  | EmitRecord r =>
      if admits filter (level (metadata r)) && WasmLogger_enabled (metadata r) then
        Some (JsLog (level_num (level (metadata r))) (target (metadata r)) (args r)
                (module_path r) (file r) (line r))
      else None
  | SetLevel l => Some (JsSetLogLevel (level_num l))
  end.

Definition is_start (x : log_step) : bool :=
  match x with StartNode _ => true | _ => false end.

(** The state in which [filter] has been chosen, or nothing yet. *)
Definition logging_at (filter : option Level) (s : Logs) : Prop :=
  max_level (log_facade s) = filter ∧
  logger_set (log_facade s) = bool_decide (is_Some filter).

Context {LL : LogLaws}.

Lemma logging_at_new : logging_at None Logs_new.
Proof. split; [apply new_is_off|apply new_without_logger]. Qed.

(** A step other than a first start keeps the level, and tells the page what
    [forwarded] says. *)
Lemma log_step_forwards filter x s : logging_at filter s →
  (is_start x = true → is_Some filter) →
  logging_at filter (run_log_step x s).2 ∧
  js_calls (run_log_step x s).2 = js_calls s ++ option_list (forwarded filter x) ∧
  (run_log_step x s).1 = Ok ().
Proof.
  intros [Hmax Hset] Hstart. destruct x as [live|r|l]; simpl.
  - rewrite bool_decide_eq_true_2 in Hset by auto.
    unfold start_logging, ignore, init_wasm_logging, init_debug_logging, WasmLogger_init,
      WasmLogger_init_debug, set_panic_hook, on_facade, modify, mbind, M_bind.
    destruct (second_logger _ Hset) as [e He].
    destruct live; simpl; rewrite He; simpl; rewrite app_nil_r;
      (split_and!; [split; simpl; [done|by rewrite bool_decide_eq_true_2 by auto]|done|done]).
  - unfold log_macro, gets, mbind, M_bind. simpl. rewrite Hmax, Hset. unfold WasmLogger_log.
    destruct filter as [f|]; simpl; [|by rewrite app_nil_r].
    destruct (level_num _ <=? _); simpl; [|by rewrite app_nil_r].
    destruct (WasmLogger_enabled _); simpl; [done|by rewrite app_nil_r].
  - done.
Qed.

Lemma first_start_chooses live s : logging_at None s →
  logging_at (Some (chosen_level live)) (run_log_step (StartNode live) s).2 ∧
  js_calls (run_log_step (StartNode live) s).2 = js_calls s ∧
  panic_hook (run_log_step (StartNode live) s).2 = panic_hook s || negb live.
Proof.
  intros [Hmax Hset]. destruct (first_logger _ Hset) as (f' & Hf & Hset' & _).
  simpl. unfold start_logging, ignore, init_wasm_logging, init_debug_logging,
    WasmLogger_init, WasmLogger_init_debug, set_panic_hook, on_facade, modify, mbind, M_bind.
  unfold logging_at.
  destruct live; simpl; rewrite Hf; simpl; rewrite max_level_set, max_level_logger, Hset';
    by rewrite ?orb_false_r, ?orb_true_r.
Qed.

Lemma run_log_forwards filter l s : logging_at filter s →
  Forall (λ x, is_start x = true → is_Some filter) l →
  logging_at filter (run_log l s) ∧
  js_calls (run_log l s) = js_calls s ++ omap (forwarded filter) l.
Proof.
  intros Hat Hl. revert s Hat. induction Hl as [|x l Hx Hl IH]; intros s Hat; simpl.
  - by rewrite app_nil_r.
  - destruct (log_step_forwards filter x s Hat Hx) as (Hat' & Hcalls & _).
    destruct (IH _ Hat') as [? ->]. split; [done|]. rewrite Hcalls, <-app_assoc.
    by destruct (forwarded filter x).
Qed.

(** C33: The first node a page starts chooses what its program logs, for good: nothing is
    forwarded before; after it a record is forwarded if its level passes [Info] for a
    live node, [Debug] for another, and its target is one the logger shows; later starts
    and the level set by [set_wasm_log_level], which only the page learns, change
    nothing.  No start fails for it. *)
Theorem first_start_decides_the_logs (before after : list log_step) (live : bool) :
  Forall (λ x, is_start x = false) before →
  let s := run_log (before ++ StartNode live :: after) Logs_new in
  js_calls s = omap (forwarded None) before ++
               omap (forwarded (Some (chosen_level live))) after ∧
  ∀ again, (start_logging again s).1 = Ok ().
Proof.
  intros Hbefore. cbv zeta. unfold run_log. rewrite foldl_app. simpl.
  destruct (run_log_forwards None before Logs_new logging_at_new) as [Hat Hcalls].
  { revert Hbefore. apply Forall_impl. simpl. congruence. }
  destruct (first_start_chooses live _ Hat) as (Hat' & Hcalls' & _).
  destruct (run_log_forwards (Some (chosen_level live)) after _ Hat') as [Hat'' Hcalls''].
  { apply Forall_true. intros. eauto. }
  unfold run_log in *. simpl in *. rewrite Hcalls'', Hcalls', Hcalls. split; [done|].
  intros again. eapply (log_step_forwards _ (StartNode again)); [exact Hat''|eauto].
Qed.

(** Panics are shown in the console of a node that is not live; a live node is silent. *)
Theorem live_node_shows_no_panic live :
  panic_hook (run_log [StartNode live] Logs_new) = negb live.
Proof. apply (first_start_chooses live _ logging_at_new). Qed.
End logger.

(** ** The filter on targets *)

(** An error is always shown; what is shown at [Debug] is shown at every level; the words
    that let other targets through differ between [Warn] and [Info]. *)
Theorem logger_shows_targets (t : string) :
  WasmLogger_enabled {| level := Error; target := t |} = true ∧
  (WasmLogger_enabled {| level := Debug; target := t |} = true →
   ∀ l, WasmLogger_enabled {| level := l; target := t |} = true) ∧
  (∀ l, WasmLogger_enabled {| level := l; target := "test" |} = bool_decide (l = Error)).
Proof.
  split_and!; [done| |by intros []].
  unfold WasmLogger_enabled. simpl. intros Hd []; by rewrite ?Hd.
Qed.

(** ** Witnesses *)

Section witness.
#[local] Instance OneLogger : LogFacade := {|
  facade := bool * option Level;
  facade_new := (false, None);
  set_logger := λ f, if f.1 then (Err "attempted to set a logger after it was already set", f)
                     else (Ok (), (true, f.2));
  set_max_level := λ l f, (f.1, Some l);
  logger_set := fst;
  max_level := snd
|}.
#[local] Instance OneLogger_laws : LogLaws.
Proof.
  split; try done.
  - intros [b l]. simpl. intros ->. by eexists.
  - intros [b l]. simpl. intros ->. by eexists.
Qed.

Definition sample_log (l : Level) (t : string) : log_step :=
  EmitRecord {| metadata := {| level := l; target := t |}; args := "message";
                module_path := None; file := None; line := None |}.

Lemma first_start_decides_the_logs_witness :
  js_calls (run_log [sample_log Error "p2p"; StartNode true; sample_log Info "p2p";
                     sample_log Info "db_wasm"; StartNode false; SetLevel Trace;
                     sample_log Debug "p2p"; sample_log Error "db_wasm"] Logs_new) =
  [JsLog 3 "p2p" "message" None None None; JsSetLogLevel 5;
   JsLog 1 "db_wasm" "message" None None None].
Proof.
  exact (proj1 (first_start_decides_the_logs [sample_log Error "p2p"]
    [sample_log Info "p2p"; sample_log Info "db_wasm"; StartNode false; SetLevel Trace;
     sample_log Debug "p2p"; sample_log Error "db_wasm"] true
    ltac:(repeat constructor))).
Defined.
End witness.
