(* ===== verification/P2pProps.v ===== *)
(** The protocol across the network: what one node's command makes of the backend
    and of the other node. *)

From S2P Require Import Prelude DataStructure Codec Samples Server ServerInvariant.
From S2P Require Import ServerRequests ServerProperties DbInterface Lru TxProcessing.
From S2P Require Import Node MainService NodeRun NodeSamples P2p.
Open Scope N_scope.

Section props.
Context {JSON : TxJson} {JSONL : TxJsonLaws} {HEX : Hex} {BP : BuildProfile}.
Context {P2P : P2pTypes} {LRU : LruCache N (TtlWrapper TxStateMachine)}.
Context {LAWS : @LruLaws N (TtlWrapper TxStateMachine) _ LRU}.
Context {D : Type} {DB : DbWorkerInterface D} {CR : Crypto} {HO : Host}.
Implicit Types (p : Peer D).

Lemma notify_run ev (s : Node D) :
  quiet s → has_room 1 (p2p_event_notif s) →
  notify ev s = (Ok (), with_p2p_event_notif (chan_push ev) s).
Proof.
  intros Hq Hroom. destruct (chan_send_room ev _ _ Hroom) as [Hsend _]. unfold notify.
  destruct s as [db ca rpc user cmds notif integ hc bs]. unfold quiet in Hq. simpl in *. subst.
  eapply exec_with_mut; [reflexivity|rewrite run_bind_gets; simpl; rewrite Hsend|]; reflexivity.
Qed.

(** The peer after an event that is passed on as [msg]. *)
Definition delivered (ev : BackendEvent) (msg : SwarmMessage) p : Peer D :=
  with_swarm_channel (chan_push (inl msg))
    (with_peer_node (with_p2p_event_notif (chan_push ev)) p).

Lemma event_delivered ev msg p :
  quiet (peer_node p) → has_room 1 (p2p_event_notif (peer_node p)) →
  has_room 1 (swarm_channel p) → event_message (user_account_id p) ev = Some msg →
  handle_backend_event ev p = (Ok (), delivered ev msg p).
Proof.
  intros Hq Hn Hs Hmsg. destruct (chan_send_room (inl msg) _ _ Hs) as [Hsend _].
  unfold handle_backend_event.
  assert (attempt (on_node (notify ev)) p =
    (Ok (inl ()), with_peer_node (with_p2p_event_notif (chan_push ev)) p)) as Hnotify.
  { unfold attempt, on_node. by rewrite (notify_run _ _ Hq Hn). }
  erewrite run_bind_ok; [|exact Hnotify]. rewrite run_bind_gets. simpl. rewrite Hmsg.
  unfold attempt, swarm_send. by erewrite run_bind_ok; [|rewrite run_bind_gets; simpl; rewrite Hsend].
Qed.

(** An event that concerns only the user's watchers. *)
Definition noticed (ev : BackendEvent) p : Peer D :=
  with_peer_node (with_p2p_event_notif (chan_push ev)) p.

Lemma event_noticed ev p :
  quiet (peer_node p) → has_room 1 (p2p_event_notif (peer_node p)) →
  event_message (user_account_id p) ev = None →
  handle_backend_event ev p = (Ok (), noticed ev p).
Proof.
  intros Hq Hn Hmsg. unfold handle_backend_event.
  assert (attempt (on_node (notify ev)) p = (Ok (inl ()), noticed ev p)) as Hnotify.
  { unfold attempt, on_node. by rewrite (notify_run _ _ Hq Hn). }
  erewrite run_bind_ok; [|exact Hnotify]. rewrite run_bind_gets. simpl. by rewrite Hmsg.
Qed.

(** A run of events, all but the last only noticed. *)
Lemma events_run evs ev msg p :
  quiet (peer_node p) → has_room (S (length evs)) (p2p_event_notif (peer_node p)) →
  has_room 1 (swarm_channel p) →
  Forall (λ ev, event_message (user_account_id p) ev = None) evs →
  event_message (user_account_id p) ev = Some msg →
  ∃ n, p2p_loop (TurnEvent <$> evs ++ [ev]) p =
      (Ok (), with_swarm_channel (chan_push (inl msg))
                (with_peer_node (with_p2p_event_notif (λ _, n)) p)).
Proof.
  intros Hq Hn Hs Hev Hmsg. revert p Hq Hn Hs Hev Hmsg.
  induction evs as [|ev0 evs IH]; intros p Hq Hn Hs Hev Hmsg.
  - eexists. unfold p2p_loop. simpl. erewrite run_bind_ok; [|by apply event_delivered]. done.
  - apply list.Forall_cons in Hev as [Hev0 Hev].
    destruct (chan_send_room ev0 _ _ Hn) as [_ Hn'].
    destruct (IH (noticed ev0 p)) as [n Hrun]; [done..|]. exists n.
    unfold p2p_loop in *. simpl. rewrite (run_bind_ok _ _ _ (noticed ev0 p) ()).
    + etrans; [exact Hrun|done].
    + apply event_noticed; [done| |done]. eapply has_room_le; [|exact Hn]. simpl. lia.
Qed.

(** The turn that takes a command from the channel. *)
Lemma command_turn_run cmd rest call p :
  queue (p2p_commands (peer_node p)) = cmd :: rest → command_rpc cmd = Some call →
  run_turn TurnCommand p =
    (Ok (), with_rpc_calls (λ l, l ++ [call])
              (with_peer_node (with_p2p_commands chan_pop) p)).
Proof.
  intros Hc Hcall. simpl. rewrite run_bind_gets, Hc.
  erewrite run_bind_ok; [|reflexivity]. unfold handle_command. by rewrite Hcall.
Qed.

(** The swarm handler's turn on a request, the first message it has. *)
Lemma swarm_request_run now tx p :
  quiet (peer_node p) → queue (swarm_channel p) = [inl (WasmRequest tx)] →
  has_room 1 (rpc_channel (peer_node p)) → (0 < lru_cap (cache (peer_node p)))%nat →
  ∃ p', swarm_turn now p = (Ok (), p') ∧
    queue (rpc_channel (peer_node p')) = queue (rpc_channel (peer_node p)) ++ [tx] ∧
    lru_peek (tx_nonce tx) (cache (peer_node p')) = Some (TtlWrapper_new tx now).
Proof.
  intros Hq Hc Hroom Hcap. unfold swarm_turn. rewrite run_bind_gets, Hc, run_bind_modify.
  destruct p as [s uid ch calls]. simpl in *.
  assert (handle_swarm_message now (inl (WasmRequest tx)) s =
    (Ok (), with_cache (lru_push (tx_nonce tx) (TtlWrapper_new tx now))
              (with_rpc_channel (chan_push tx) s))) as Hhandle.
  { unfold handle_swarm_message, handle_wasm_request. open_node s. exec. }
  assert (∀ p0, peer_node p0 = s →
    attempt (on_node (handle_swarm_message now (inl (WasmRequest tx)))) p0 =
      (Ok (inl ()), with_peer_node (λ _,
         with_cache (lru_push (tx_nonce tx) (TtlWrapper_new tx now))
           (with_rpc_channel (chan_push tx) s)) p0)) as Hattempt.
  { intros p0 <-. unfold attempt, on_node. by rewrite Hhandle. }
  erewrite run_bind_ok; [|by apply Hattempt]. eexists. split_and!; [done|done|].
  by apply lru_peek_push.
Qed.

Lemma matches_party subscriber data tx :
  from_slice data = Some tx → is_reverted (status tx) = false →
  subscriber = sender_address tx ∨ subscriber = receiver_address tx →
  matches_tx subscriber data = true.
Proof.
  intros Htx Hr Hparty. unfold matches_tx. rewrite Htx, Hr. apply orb_true_iff.
  rewrite !bool_decide_eq_true. naive_solver.
Qed.

(** What the server emitted since [before]. *)
Definition emitted (before after : VaneSwarmServer) : list BackendEvent :=
  drop (length (event_sender before)) (event_sender after).

(** C19: a request crosses the network: the sender's queued request becomes one call of
    the backend, which accepts it (its counter has room and no index entry expires
    meanwhile); the receiver's subscription delivers what its node needs, and once
    the swarm handler has its turn the receiver's user has the transaction, which is
    in the cache under its nonce. *)
Theorem request_travels clk lo hi order now tx data rest (sender receiver : Peer D) server
    (Hclk : ∀ i, lo ≤ clk i ∧ clk i ≤ hi) (Hspan : hi ≤ lo + REQUEST_TTL_SECONDS)
    (Hcmd : queue (p2p_commands (peer_node sender)) = WasmSendRequest tx :: rest)
    (Hdata : to_vec tx = Some data) (Hwidths : tx_fits tx) (Hfees : fees_amount tx = 0)
    (Hlive : is_reverted (status tx) = false)
    (Hfits : counter_fits (sender_address tx) (receiver_address tx) server)
    (Hfs : fresh_list hi (sender_requests server) (sender_address tx))
    (Hfr : fresh_list hi (receiver_requests server) (receiver_address tx))
    (Huser : user_account_id receiver = receiver_address tx)
    (Hq : quiet (peer_node receiver)) (Hsw : queue (swarm_channel receiver) = [])
    (Hroom : has_room 1 (swarm_channel receiver))
    (Hnotif : has_room 2 (p2p_event_notif (peer_node receiver)))
    (Hrpc : has_room 1 (rpc_channel (peer_node receiver)))
    (Hcap : (0 < lru_cap (cache (peer_node receiver)))%nat) :
  ∃ sender' call server' receiver1 receiver2,
    run_turn TurnCommand sender = (Ok (), sender') ∧
    rpc_calls sender' = rpc_calls sender ++ [call] ∧
    backend_rpc clk order call server = (Ok (), server') ∧
    p2p_loop (TurnEvent <$> subscription (receiver_address tx) (emitted server server')) receiver
      = (Ok (), receiver1) ∧
    swarm_turn now receiver1 = (Ok (), receiver2) ∧
    queue (rpc_channel (peer_node receiver2)) =
      queue (rpc_channel (peer_node receiver)) ++ [tx] ∧
    lru_peek (tx_nonce tx) (cache (peer_node receiver2)) = Some (TtlWrapper_new tx now).
Proof.
  assert (from_slice data = Some tx) as Htx by (by apply from_slice_to_vec).
  destruct (handle_sender_request_run clk lo hi (sender_address tx) data tx server)
    as (server' & Hserver & (Hev & _)); [done..|].
  set (ev := SenderRequestHandled (receiver_address tx) data).
  set (ev0 := SenderRequestReceived (sender_address tx) data).
  assert (subscription (receiver_address tx) (emitted server server') = [ev0; ev]) as Hsub.
  { unfold emitted. rewrite Hev, drop_app_length. unfold subscription.
    rewrite !list.filter_cons_True; [done|..]; simpl;
      rewrite (matches_party _ data tx) by auto; apply orb_true_r. }
  destruct (events_run [ev0] ev (WasmRequest tx) receiver) as [n Hrun]; [done..| | |].
  { by apply list.Forall_singleton. }
  { simpl. by rewrite Htx, Huser, decide_True. }
  set (receiver1 := with_swarm_channel _ _) in Hrun.
  destruct (swarm_request_run now tx receiver1) as (receiver2 & Hturn & Hgot & Hcached);
    [done|simpl; by rewrite Hsw|done..|].
  eexists _, (RpcSenderRequest (sender_address tx) data), server', receiver1, receiver2.
  split_and!; [eapply command_turn_run; [exact Hcmd|simpl; by rewrite Hdata]|done|exact Hserver
              |by rewrite Hsub|done..].
Qed.

(** *** Responses *)

Lemma update_request_emits t0 t1 t2 k data s :
  ∃ updated s' evs, update_request t0 t1 t2 k data s = (Ok updated, s') ∧
    event_sender s' = event_sender s ++ evs ∧
    (evs = [] ∨ ∃ d, evs = [DataExpired k d]).
Proof.
  unfold update_request, cleanup_expired_requests, cleanup_expired_sender_receiver_requests.
  run.
  destruct (_ !! k) as [e|].
  - destruct (RequestEntry_is_expired _ _ e).
    + do 2 eexists. exists [DataExpired k (re_data e)]. split_and!; [done|done|right; by eexists].
    + do 2 eexists. exists []. split_and!; [done|simpl; by rewrite app_nil_r|by left].
  - do 2 eexists. exists [DataExpired k []]. split_and!; [done|done|right; by eexists].
Qed.

Lemma receiver_response_emits clk address data tx s :
  from_slice data = Some tx →
  ∃ s' evs, handle_receiver_response clk address data s = (Ok (), s') ∧
    event_sender s' = event_sender s ++ ReceiverResponseReceived address data :: evs ++
      [ReceiverResponseHandled address data] ∧
    (evs = [] ∨ ∃ d, evs = [DataExpired (hex_encode (multi_id tx)) d]).
Proof.
  intros Htx. unfold handle_receiver_response, decode_tx. rewrite Htx. simpl ok_or.
  rewrite run_bind_lift_ok. cbv zeta.
  rewrite (run_bind_ok _ _ _ (with_events (λ l, l ++ [ReceiverResponseReceived address data]) s) ())
    by done.
  set (s1 := with_events _ s).
  destruct (update_request_emits (clk 0%nat) (clk 1%nat) (clk 2%nat)
    (hex_encode (multi_id tx)) data s1) as (updated & s2 & evs & Hrun & Hev & Hevs).
  erewrite run_bind_ok; [|exact Hrun].
  destruct updated; (eexists; exists evs; split; [reflexivity|]); simpl;
    (split; [by rewrite Hev; simpl; rewrite <-!app_assoc|]);
    (destruct Hevs as [->|[d ->]]; [by left|right; by eexists]).
Qed.

(** The end of [handle_receiver_response] keeps an entry that is not expired. *)
Lemma response_tail_keeps clk k e address data s :
  requests s !! k = Some e → clk 6%nat ≤ re_created_at e + REQUEST_TTL_SECONDS →
  requests ((modify (with_metrics metrics_receiver_response);;
             update_metrics (clk 6%nat) (clk 7%nat);;
             try_send_notification (RequestProcessed address);;
             send_event (ReceiverResponseHandled address data)) s).2 !! k = Some e.
Proof. intros He Hlive. exact (proj2 (purged_lookup (clk 6%nat) s k e) (conj He Hlive)). Qed.

(** What the response makes of the request: a live one gets the new data and keeps the
    time it was filed, one that is gone is filed anew at the time of the call. *)
Lemma receiver_response_stores clk lo hi address data tx s :
  let k := hex_encode (multi_id tx) in
  let s' := (handle_receiver_response clk address data s).2 in
  from_slice data = Some tx →
  (∀ i, lo ≤ clk i ∧ clk i ≤ hi) → hi ≤ lo + REQUEST_TTL_SECONDS →
  (∀ e, requests s !! k = Some e → hi ≤ re_created_at e + REQUEST_TTL_SECONDS →
     requests s' !! k = Some (RequestEntry_update_data data e)) ∧
  ((∀ e, requests s !! k = Some e → re_created_at e + REQUEST_TTL_SECONDS < lo) →
     requests s' !! k = Some (RequestEntry_new (clk 5%nat) data)).
Proof.
  intros k s' Htx Hclk Hspan. unfold s', handle_receiver_response, decode_tx.
  rewrite Htx. simpl ok_or. rewrite run_bind_lift_ok. cbv zeta. fold k.
  rewrite (run_bind_ok _ _ _ (with_events (λ l, l ++ [ReceiverResponseReceived address data]) s) ())
    by done.
  set (s1 := with_events _ s). pose proof (Hclk 0%nat). pose proof (Hclk 2%nat).
  pose proof (Hclk 5%nat). pose proof (Hclk 6%nat). split.
  - intros e He Hlive.
    rewrite (run_bind_ok _ _ _ _ _ (update_request_live (clk 0%nat) (clk 1%nat) (clk 2%nat)
      k data s1 e He ltac:(lia) ltac:(lia))). simpl negb. cbv iota. rewrite run_bind_skip.
    apply response_tail_keeps; [apply lookup_insert_eq|simpl; lia].
  - intros Hgone.
    assert (∃ s2, update_request (clk 0%nat) (clk 1%nat) (clk 2%nat) k data s1 = (Ok false, s2))
      as [s2 Hupd].
    { destruct (requests s1 !! k) as [e|] eqn:He.
      - eexists. apply (update_request_expired _ _ _ _ _ _ e He). specialize (Hgone e He). lia.
      - eexists. by apply update_request_absent. }
    rewrite (run_bind_ok _ _ _ _ _ Hupd). simpl negb. cbv iota.
    rewrite (run_bind_ok _ _ _ (insert_request (clk 3%nat) (clk 4%nat) (clk 5%nat) k data s2).2 ())
      by done.
    apply response_tail_keeps; [apply lookup_insert_eq|simpl; lia].
Qed.

(** C20: a response, which carries no fee yet, crosses the network back: the receiver's
    queued response becomes one call of the backend, which always accepts it.  A request that is live throughout the
    call gets the response as its data and keeps the time it was filed; one that was gone
    before is filed anew at the time of the call.  The backend emits that the response
    arrived, possibly that the request's data expired, and that the response was handled;
    the sender's subscription delivers the last of them after at most two events that make
    no message of its node, and its connection then gives the response to the swarm handler. *)
Theorem response_travels clk order tx data rest (receiver sender : Peer D) server
    (Hcmd : queue (p2p_commands (peer_node receiver)) = WasmSendResponse (inl tx) :: rest)
    (Hdata : to_vec tx = Some data) (Hwidths : tx_fits tx) (Hfees : fees_amount tx = 0)
    (Hlive : is_reverted (status tx) = false)
    (Huser : user_account_id sender = sender_address tx)
    (Hq : quiet (peer_node sender)) (Hroom : has_room 1 (swarm_channel sender))
    (Hnotif : has_room 3 (p2p_event_notif (peer_node sender))) :
  let k := hex_encode (multi_id tx) in
  let received := ReceiverResponseReceived (receiver_address tx) data in
  let handled := ReceiverResponseHandled (receiver_address tx) data in
  ∃ receiver' call server' sender' evs mid,
    run_turn TurnCommand receiver = (Ok (), receiver') ∧
    rpc_calls receiver' = rpc_calls receiver ++ [call] ∧
    backend_rpc clk order call server = (Ok (), server') ∧
    (∀ lo hi, (∀ i, lo ≤ clk i ∧ clk i ≤ hi) → hi ≤ lo + REQUEST_TTL_SECONDS →
       (∀ e, requests server !! k = Some e → hi ≤ re_created_at e + REQUEST_TTL_SECONDS →
          requests server' !! k = Some (RequestEntry_update_data data e)) ∧
       ((∀ e, requests server !! k = Some e → re_created_at e + REQUEST_TTL_SECONDS < lo) →
          requests server' !! k = Some (RequestEntry_new (clk 5%nat) data))) ∧
    emitted server server' = received :: evs ++ [handled] ∧
    (evs = [] ∨ ∃ d, evs = [DataExpired k d]) ∧
    subscription (sender_address tx) (emitted server server') = mid ++ [handled] ∧
    (length mid ≤ 2)%nat ∧
    Forall (λ ev, event_message (user_account_id sender) ev = None) mid ∧
    p2p_loop (TurnEvent <$> subscription (sender_address tx) (emitted server server')) sender
      = (Ok (), sender') ∧
    queue (swarm_channel sender') = queue (swarm_channel sender) ++ [inl (WasmResponse tx)].
Proof.
  intros k received handled.
  assert (from_slice data = Some tx) as Htx by (by apply from_slice_to_vec).
  destruct (receiver_response_emits clk (receiver_address tx) data tx server Htx)
    as (server' & evs & Hserver & Hev & Hevs). fold received handled k in Hev, Hevs.
  assert (emitted server server' = received :: evs ++ [handled]) as Hemit
    by (unfold emitted; by rewrite Hev, drop_app_length).
  set (mid := subscription (sender_address tx) evs).
  assert (subscription (sender_address tx) (emitted server server') =
    (received :: mid) ++ [handled]) as Hsub.
  { rewrite Hemit. unfold subscription. rewrite list.filter_cons_True.
    2: { simpl. rewrite (matches_party _ data tx) by auto. apply orb_true_r. }
    rewrite list.filter_app, list.filter_cons_True; [done|].
    simpl. rewrite (matches_party _ data tx) by auto. apply orb_true_r. }
  assert ((length mid ≤ 1)%nat ∧
          Forall (λ ev, event_message (user_account_id sender) ev = None) mid) as [Hlen Hmid].
  { subst mid. unfold subscription. destruct Hevs as [->|(d & ->)]; [by split; [simpl; lia|]|].
    destruct (decide (should_send (sender_address tx) (DataExpired k d) = true)).
    - rewrite list.filter_cons_True by done. split; [simpl; lia|by repeat constructor].
    - rewrite list.filter_cons_False by done. by split; [simpl; lia|]. }
  destruct (events_run (received :: mid) handled (WasmResponse tx) sender) as [n Hrun];
    [done| |done| | |].
  { eapply has_room_le; [|exact Hnotif]. simpl. lia. }
  { by constructor. }
  { simpl. by rewrite Htx, Huser, decide_True. }
  eexists _, (RpcReceiverResponse (receiver_address tx) data), server', _, evs, (received :: mid).
  split; [eapply command_turn_run; [exact Hcmd|simpl; by rewrite Hdata]|].
  split; [done|]. split; [exact Hserver|]. split.
  { intros lo hi Hclk Hspan.
    pose proof (receiver_response_stores clk lo hi (receiver_address tx) data tx server
      Htx Hclk Hspan) as Hstores. by rewrite Hserver in Hstores. }
  split_and!; [done|done|done|simpl; lia|by constructor|rewrite Hsub; exact Hrun|done].
Qed.

(** A node whose user does not watch the notifications stops talking to the
    backend: with twenty events waiting, the next one parks the only loop, and
    neither the commands nor the events behind it are processed while it is parked. *)
Theorem unwatched_notifications_block ev ts (p : Peer D)
    (Hq : quiet (peer_node p)) (Hcap : capacity (p2p_event_notif (peer_node p)) = 20%nat)
    (Hopen : closed (p2p_event_notif (peer_node p)) = false)
    (Hfull : length (queue (p2p_event_notif (peer_node p))) = 20%nat) :
  ∃ p', p2p_loop (TurnEvent ev :: ts) p = (Parked, p') ∧
    rpc_calls p' = rpc_calls p ∧ swarm_channel p' = swarm_channel p ∧
    p2p_commands (peer_node p') = p2p_commands (peer_node p).
Proof.
  eexists. split.
  - simpl p2p_loop. apply run_bind_parked.
    unfold handle_backend_event. apply run_bind_parked. unfold attempt, on_node, notify, with_mut.
    rewrite Hq. simpl. rewrite run_bind_gets. simpl. unfold chan_send, chan_full.
    rewrite Hopen, bool_decide_eq_true_2 by (rewrite Hcap, Hfull; lia). reflexivity.
  - done.
Qed.

(** *** The end of the connection *)

Lemma p2p_loop_closes ts p p' :
  p2p_loop ts p = (Ok (), p') → TurnEnded ∈ ts → closed (swarm_channel p') = true.
Proof.
  revert p. induction ts as [|t ts IH]; intros p Hrun Hin; [by apply not_elem_of_nil in Hin|].
  simpl in Hrun. rewrite run_bind in Hrun.
  destruct (run_turn t p) as [[[]| | |] p1] eqn:Hturn; [|done..].
  destruct t; simpl in Hrun, Hturn;
    try (apply elem_of_cons in Hin as [[=]|Hin]; by eapply IH).
  unfold close_swarm_channel, modify in Hturn. unfold skip, mret, M_ret in Hrun. by simplify_eq/=.
Qed.

Lemma swarm_turn_takes now msg l p o p' :
  queue (swarm_channel p) = msg :: l → swarm_turn now p = (o, p') →
  swarm_channel p' = chan_pop (swarm_channel p).
Proof.
  intros Hq. unfold swarm_turn. rewrite run_bind_gets, Hq, run_bind_modify, run_bind.
  unfold attempt, on_node. by destruct (handle_swarm_message _ _ _) as [[] n]; intros [= <- <-].
Qed.

(** A turn at a closed channel with nothing left in it comes back at once. *)
Lemma drained_turns now turns p :
  closed (swarm_channel p) = true → queue (swarm_channel p) = [] →
  swarm_loop now turns p = (Ok (), p).
Proof.
  intros Hc Hq. induction turns as [|turns IH]; [done|]. simpl. rewrite run_bind.
  unfold swarm_turn at 1. by rewrite run_bind_gets, Hq, Hc.
Qed.

Lemma closed_turns now p p' :
  closed (swarm_channel p) = true →
  swarm_loop now (length (queue (swarm_channel p))) p = (Ok (), p') →
  closed (swarm_channel p') = true ∧ queue (swarm_channel p') = [].
Proof.
  remember (length (queue (swarm_channel p))) as n eqn:Hn. revert p Hn.
  induction n as [|n IH]; intros p Hn Hc Hrun; simpl in Hrun.
  - unfold skip, mret, M_ret in Hrun. simplify_eq. split; [done|]. by apply nil_length_inv.
  - rewrite run_bind in Hrun. destruct (swarm_turn now p) as [[[]| | |] p1] eqn:Hturn; [|done..].
    destruct (queue (swarm_channel p)) as [|msg l] eqn:Hq; [done|].
    apply (swarm_turn_takes _ _ _ _ _ _ Hq) in Hturn as Hp1.
    apply IH in Hrun; [done| |]; rewrite Hp1; simpl; [by rewrite Hq; simpl in *; lia|done].
Qed.

(** C28: a lost connection freezes the page: when the backend cannot be reached, or the
    subscription ends, the task that owns the only sender of the swarm handler's channel
    is gone; once the handler has taken the messages that are left, every further turn
    of its loop comes back at once with nothing done, so the task never waits and the
    browser's only thread runs nothing else. *)
Theorem lost_connection_spins build subscribe ts now (p0 p : Peer D)
    (Hend : start_p2p build subscribe ts p0 = (Ok (), p))
    (Hlost : TurnEnded ∈ ts ∨ (∃ e, build = Err e) ∨ ∃ e, subscribe = Err e) :
  closed (swarm_channel p) = true ∧
  ∀ p', swarm_loop now (length (queue (swarm_channel p))) p = (Ok (), p') →
    ∀ turns, swarm_loop now turns p' = (Ok (), p').
Proof.
  assert (closed (swarm_channel p) = true) as Hc.
  { unfold start_p2p in Hend. rewrite run_bind in Hend. unfold attempt in Hend.
    rewrite run_bind in Hend. unfold lift, close_swarm_channel, modify in Hend.
    destruct build as [[]|e| |]; simpl in Hend; [|by injection Hend as <-|done..].
    destruct subscribe as [[]|e| |]; simpl in Hend; [|by injection Hend as <-|done..]. destruct Hlost as [Hin|[[e He]|[e He]]]; [|done..].
    by eapply p2p_loop_closes. }
  split; [done|]. intros p' Hrun turns. apply closed_turns in Hrun as [Hc' Hq']; [|done].
  by apply drained_turns.
Qed.
End props.

Section witnesses.
#[local] Existing Instances sample_json sample_json_laws sample_hex good_host.

Definition peer_of (user : string) (n : Node AbsDb) : Peer AbsDb := {|
  peer_node := n; user_account_id := user; swarm_channel := chan_new 256; rpc_calls := [] |}.
(** A node of [user] with one command queued. *)
Definition commanding (user : string) (cmd : NetworkCommand) : Peer AbsDb :=
  peer_of user (with_p2p_commands (chan_push cmd) (alice_node [])).

Lemma request_travels_witness :
  ∃ sender' call server' receiver1 receiver2,
    run_turn TurnCommand (commanding "alice" (WasmSendRequest (alice_to_bob Genesis))) =
      (Ok (), sender') ∧
    rpc_calls sender' = [call] ∧
    backend_rpc (at_time 20) [] call VaneSwarmServer_new = (Ok (), server') ∧
    p2p_loop (TurnEvent <$> subscription "bob" (emitted VaneSwarmServer_new server'))
      (peer_of "bob" (alice_node [])) = (Ok (), receiver1) ∧
    swarm_turn 30 receiver1 = (Ok (), receiver2) ∧
    queue (rpc_channel (peer_node receiver2)) = [alice_to_bob Genesis].
Proof.
  destruct (request_travels (at_time 20) 20 20 [] 30 (alice_to_bob Genesis)
    (json_of (alice_to_bob Genesis)) []
    (commanding "alice" (WasmSendRequest (alice_to_bob Genesis)))
    (peer_of "bob" (alice_node [])) VaneSwarmServer_new
    ltac:(intros i; unfold at_time; lia) ltac:(lia) eq_refl eq_refl
    ltac:(constructor; vm_compute; done) eq_refl eq_refl
    ltac:(intros targets p Ht; discriminate Ht) ltac:(intros e He; discriminate He)
    ltac:(intros e He; discriminate He) eq_refl eq_refl eq_refl
    ltac:(split; [reflexivity|vm_compute; lia]) ltac:(split; [reflexivity|vm_compute; lia])
    ltac:(split; [reflexivity|vm_compute; lia]) ltac:(vm_compute; lia))
    as (s1 & call & sv & r1 & r2 & H1 & H2 & H3 & H4 & H5 & H6 & _).
  exists s1, call, sv, r1, r2. split_and!; [exact H1|exact H2|exact H3|exact H4|exact H5|exact H6].
Defined.

Lemma response_travels_witness :
  ∃ receiver' call server' sender',
    run_turn TurnCommand
      (commanding "bob" (WasmSendResponse (inl (confirmed RecvAddrConfirmed)))) =
      (Ok (), receiver') ∧
    rpc_calls receiver' = [call] ∧
    backend_rpc (at_time 20) [] call VaneSwarmServer_new = (Ok (), server') ∧
    p2p_loop (TurnEvent <$> subscription "alice" (emitted VaneSwarmServer_new server'))
      (peer_of "alice" (alice_node [])) = (Ok (), sender') ∧
    queue (swarm_channel sender') = [inl (WasmResponse (confirmed RecvAddrConfirmed))] ∧
    requests server' !! hex_encode (multi_id (confirmed RecvAddrConfirmed)) =
      Some (RequestEntry_new 20 (json_of (confirmed RecvAddrConfirmed))).
Proof.
  destruct (response_travels (JSON := sample_json) (at_time 20) [] (confirmed RecvAddrConfirmed)
    (json_of (confirmed RecvAddrConfirmed)) []
    (commanding "bob" (WasmSendResponse (inl (confirmed RecvAddrConfirmed))))
    (peer_of "alice" (alice_node [])) VaneSwarmServer_new eq_refl eq_refl
    ltac:(constructor; vm_compute; done) eq_refl eq_refl eq_refl eq_refl
    ltac:(split; [reflexivity|vm_compute; lia]) ltac:(split; [reflexivity|vm_compute; lia]))
    as (r1 & call & sv & s1 & evs & mid & H1 & H2 & H3 & Hst & _ & _ & _ & _ & _ & H4 & H5).
  exists r1, call, sv, s1. split_and!; [exact H1|exact H2|exact H3|exact H4|exact H5|].
  apply (Hst 20 20); [intros i; unfold at_time; lia|vm_compute; discriminate|done].
Defined.

(** Twenty notifications wait. *)
Definition unwatched_peer : Peer AbsDb :=
  peer_of "alice" (with_p2p_event_notif (λ ch, Nat.iter 20 (chan_push (PeerDisconnected "bob")) ch)
                     (alice_node [])).

Lemma unwatched_notifications_block_witness :
  (p2p_loop [TurnEvent (PeerDisconnected "bob"); TurnCommand] unwatched_peer).1 = Parked.
Proof.
  destruct (unwatched_notifications_block (PeerDisconnected "bob") [TurnCommand] unwatched_peer
    eq_refl eq_refl eq_refl eq_refl) as (p' & Hrun & _). by rewrite Hrun.
Defined.

(** The backend disconnects Alice's node after one event. *)
Lemma lost_connection_spins_witness :
  (start_p2p (Ok ()) (Ok ()) [TurnEvent (PeerDisconnected "bob"); TurnEnded]
     (peer_of "alice" (alice_node []))).1 = Ok () ∧
  (swarm_loop 200 1000 (start_p2p (Ok ()) (Ok ()) [TurnEvent (PeerDisconnected "bob"); TurnEnded]
     (peer_of "alice" (alice_node []))).2).1 = Ok ().
Proof.
  split; [vm_compute; reflexivity|].
  destruct (lost_connection_spins (Ok ()) (Ok ()) [TurnEvent (PeerDisconnected "bob"); TurnEnded]
    200 (peer_of "alice" (alice_node []))
    (start_p2p (Ok ()) (Ok ()) [TurnEvent (PeerDisconnected "bob"); TurnEnded]
       (peer_of "alice" (alice_node []))).2) as [_ Hspin];
    [vm_compute; reflexivity|left; right; by left|].
  by rewrite (Hspin _ eq_refl 1000%nat).
Defined.
End witnesses.

(** The address a node connects to always has a scheme, and normalising it again changes
    nothing; an [http] address is not recognised, and becomes one with two schemes. *)
Theorem ws_url_normal (s : string) :
  ws_url (ws_url s) = ws_url s ∧
  (String.prefix "ws://" (ws_url s) = true ∨ String.prefix "wss://" (ws_url s) = true) ∧
  ws_url "http://localhost:9947" = "ws://http://localhost:9947".
Proof.
  assert (String.prefix "ws://" (ws_url s) = true ∨ String.prefix "wss://" (ws_url s) = true) as Hs.
  { unfold ws_url. destruct (String.prefix "ws://" s) eqn:E1; [by left|].
    destruct (String.prefix "wss://" s) eqn:E2; [by right|]. left. simpl. by destruct s. }
  split_and!; [|done|done]. unfold ws_url at 1. destruct Hs as [-> | ->]; [done|].
  by rewrite orb_true_r.
Qed.
