(* ===== verification/World.v ===== *)
(** The whole system: the backend and any number of nodes, each with its subscription.
    The step relation lets everything happen in any order: anyone, a node or not, calls
    the backend with anything; a node receives the next event of its subscription, sends
    a command, loses its connection, handles a message, or runs a step of its session.
    A session step may also hand the main service a message from nowhere: the safety of
    submissions and of the cache does not depend on where a message comes from. *)

From S2P Require Import Prelude DataStructure Codec Samples Server ServerInvariant.
From S2P Require Import ServerProperties DbInterface Lru TxProcessing.
From S2P Require Import Node NodeLogic MainService NodeSamples Interface Session.
From S2P Require Import MainServiceSafety P2p.
Open Scope N_scope.

Section world.
Context {JSON : TxJson} {HEX : Hex} {BP : BuildProfile} {COD : Codec IntegrityFields}.
Context {P2P : P2pTypes} {LRU : LruCache N (TtlWrapper TxStateMachine)}.
Context {LAWS : @LruLaws N (TtlWrapper TxStateMachine) _ LRU}.
Context {D : Type} {DB : DbWorkerInterface D} {CR : Crypto} {HO : Host}.
Abbreviation NodeM := (M (Node D)).

(** A node, and how many of the backend's events its subscription has seen. *)
Record Member := { member_peer : Peer D; cursor : nat }.

Record World := { backend : VaneSwarmServer; members : gmap string Member }.

Definition with_backend f (w : World) : World := {|
  backend := f (backend w); members := members w |}.
Definition with_member a (p : Member) (w : World) : World := {|
  backend := backend w; members := <[a := p]> (members w) |}.
Definition on_member f (e : Member) : Member := {|
  member_peer := f (member_peer e); cursor := cursor e |}.

(** A node as it starts, for the user [a]. *)
Definition new_peer (a : string) (db : D) : Peer D := {|
  peer_node := initial_node db; user_account_id := a;
  swarm_channel := chan_new 256; rpc_calls := [] |}.

(** The next event of a subscription, which is filtered for the subscriber. *)
Definition receive (a : string) (ev : BackendEvent) (e : Member) : Member := {|
  member_peer := if should_send a ev then (run_turn (TurnEvent ev) (member_peer e)).2
                 else member_peer e;
  cursor := S (cursor e) |}.

Inductive world_step : World → World → Prop :=
  | StepJoins a db w :
      members w !! a = None →
      world_step w (with_member a {| member_peer := new_peer a db;
                                     cursor := length (event_sender (backend w)) |} w)
  | StepAnyoneCalls c w : world_step w (with_backend (λ s, (run_call c s).2) w)
  | StepRequestArrives a e clk order call w :
      members w !! a = Some e → call ∈ rpc_calls (member_peer e) →
      world_step w (with_backend (λ s, (backend_rpc clk order call s).2) w)
  | StepEventArrives a e ev w :
      members w !! a = Some e → event_sender (backend w) !! cursor e = Some ev →
      world_step w (with_member a (receive a ev e) w)
  | StepPeerTurn a e t w :
      members w !! a = Some e → (∀ ev, t ≠ TurnEvent ev) →
      world_step w (with_member a (on_member (λ p, (run_turn t p).2) e) w)
  | StepSwarmTurn a e now w :
      members w !! a = Some e →
      world_step w (with_member a (on_member (λ p, (swarm_turn now p).2) e) w)
  | StepSession a e x w :
      members w !! a = Some e →
      world_step w (with_member a (on_member (λ p, (on_node (run_session_step x) p).2) e) w).

Definition world_new : World := {| backend := VaneSwarmServer_new; members := ∅ |}.

Inductive world_reachable : World → Prop :=
  | world_start : world_reachable world_new
  | world_next w w' : world_reachable w → world_step w w' → world_reachable w'.

(** *** Executing the system *)

(** A step by what it chooses; [RequestArrives] is a request the member has sent, by its
    position. *)
Inductive action :=
  | Joins (a : string) (db : D)
  | AnyoneCalls (c : server_call)
  | RequestArrives (a : string) (clk : nat → N) (order : list string) (n : nat)
  | EventArrives (a : string)
  | PeerTurn (a : string) (t : p2p_turn)
  | SwarmTurn (a : string) (now : N)
  | SessionStep (a : string) (x : session_step).

Definition act (x : action) (w : World) : option World :=
  match x with
  | Joins a db =>
      match members w !! a with
      | Some _ => None
      | None => Some (with_member a {| member_peer := new_peer a db;
                                       cursor := length (event_sender (backend w)) |} w)
      end
  | AnyoneCalls c => Some (with_backend (λ s, (run_call c s).2) w)
  | RequestArrives a clk order n =>
      e ← members w !! a; call ← rpc_calls (member_peer e) !! n;
      Some (with_backend (λ s, (backend_rpc clk order call s).2) w)
  | EventArrives a =>
      e ← members w !! a; ev ← event_sender (backend w) !! cursor e;
      Some (with_member a (receive a ev e) w)
  | PeerTurn a t =>
      e ← members w !! a;
      match t with
      | TurnEvent _ => None
      | _ => Some (with_member a (on_member (λ p, (run_turn t p).2) e) w)
      end
  | SwarmTurn a now =>
      e ← members w !! a;
      Some (with_member a (on_member (λ p, (swarm_turn now p).2) e) w)
  | SessionStep a x =>
      e ← members w !! a;
      Some (with_member a (on_member (λ p, (on_node (run_session_step x) p).2) e) w)
  end.

Fixpoint act_all (l : list action) (w : World) : option World :=
  match l with
  | [] => Some w
  | x :: l => w' ← act x w; act_all l w'
  end.

Lemma act_step x w w' : act x w = Some w' → world_step w w'.
Proof.
  destruct x as [a db|c|a clk order n|a|a t|a now|a x]; simpl.
  - destruct (members w !! a) eqn:Ha; [done|]. intros [= <-]. by apply StepJoins.
  - intros [= <-]. apply StepAnyoneCalls.
  - intros (e & He & (call & Hcall & [= <-])%bind_Some)%bind_Some.
    eapply StepRequestArrives; [exact He|]. by eapply list_elem_of_lookup_2.
  - intros (e & He & (ev & Hev & [= <-])%bind_Some)%bind_Some. by apply StepEventArrives.
  - intros (e & He & Hw)%bind_Some. destruct t; simplify_eq; by apply StepPeerTurn.
  - intros (e & He & [= <-])%bind_Some. by apply StepSwarmTurn.
  - intros (e & He & [= <-])%bind_Some. by apply StepSession.
Qed.

Lemma act_all_reachable l w w' :
  world_reachable w → act_all l w = Some w' → world_reachable w'.
Proof.
  revert w. induction l as [|x l IH]; intros w Hw; simpl; [by intros [= <-]|].
  intros (w1 & Hact & Hrest)%bind_Some. eapply IH; [|exact Hrest].
  eapply world_next; [exact Hw|by eapply act_step].
Qed.

(** *** The invariant *)

(** A message for the user [a]: a request addressed to them, a response to a transfer of
    theirs, or an answer to their own question. *)
Definition message_for (a : string) (msg : SwarmMessage + string) : Prop :=
  match msg with
  | inl (WasmRequest tx) => receiver_address tx = a
  | inl (WasmResponse tx) => sender_address tx = a
  | inl (SwarmPendingTransactionsFetched address _) => address = a
  | _ => True
  end.

Record peer_ok (a : string) (p : Peer D) : Prop := {
  ok_user : user_account_id p = a;
  ok_messages : Forall (message_for a) (queue (swarm_channel p));
  ok_layout : cache_layout (peer_node p);
  ok_calls : Forall allowed_call (host_calls (peer_node p))
}.

Lemma preserves_attempt {S} (I : S → Prop) {A} (m : M S A) :
  preserves I m → preserves I (attempt m).
Proof. intros Hm s Hs. specialize (Hm s Hs). unfold attempt. by destruct (m s) as [[] ?]. Qed.

Lemma on_node_ok a {A} (m : NodeM A) Q :
  keeps cache_layout m Q → calls_only allowed_call m → preserves (peer_ok a) (on_node m).
Proof.
  intros Hl Hc p []. unfold on_node.
  pose proof (proj1 (Hl (peer_node p) ok_layout0)) as Hl'.
  destruct (Hc (peer_node p)) as (l & Heq & Hall).
  destruct (m (peer_node p)) as [o n]. simpl in *. constructor; simpl; try done.
  rewrite Heq. by apply Forall_app.
Qed.

Lemma modify_ok a f :
  (∀ p, user_account_id (f p) = user_account_id p) →
  (∀ p, peer_node (f p) = peer_node p) →
  (∀ p, Forall (message_for a) (queue (swarm_channel p)) →
     Forall (message_for a) (queue (swarm_channel (f p)))) →
  preserves (peer_ok a) (modify f).
Proof.
  intros Hu Hn Hq. apply preserves_modify. intros p [].
  constructor; rewrite ?Hu, ?Hn; auto.
Qed.

Lemma notify_keeps ev : keeps cache_layout (notify ev : NodeM unit) any.
Proof.
  apply keeps_pure. intros s Hs. unfold notify, with_mut.
  destruct (get_borrow _ _); [|done..]. rewrite run_bind_gets. simpl.
  by destruct (chan_send ev _).
Qed.
Lemma notify_calls P ev : calls_only P (notify ev : NodeM unit).
Proof.
  apply calls_none. intros s. unfold notify, with_mut.
  destruct (get_borrow _ _); [|done..]. rewrite run_bind_gets. simpl.
  by destruct (chan_send ev _).
Qed.

(** What the backend delivers to [a] and the node passes on is a message for [a]. *)
Lemma event_message_for a ev msg :
  should_send a ev = true → event_message a ev = Some msg → message_for a (inl msg).
Proof.
  intros Hsend Hmsg. destruct ev; simpl in Hmsg; try done;
    repeat case_match; simplify_eq/=; try done.
  by apply bool_decide_eq_true in Hsend.
Qed.

Lemma event_turn_ok a ev :
  should_send a ev = true → preserves (peer_ok a) (run_turn (TurnEvent ev)).
Proof.
  intros Hsend. simpl. unfold handle_backend_event. apply preserves_bind.
  { apply preserves_attempt. eapply on_node_ok; [apply notify_keeps|apply notify_calls]. }
  intros _ p Hp. rewrite run_bind_gets.
  destruct (event_message (user_account_id p) ev) as [msg|] eqn:Hmsg; [|done].
  rewrite (ok_user _ _ Hp) in Hmsg. apply event_message_for in Hmsg; [|done]. revert p Hp.
  change (preserves (peer_ok a) (attempt (swarm_send msg);; skip)).
  apply preserves_bind; [|intros; apply preserves_skip]. apply preserves_attempt.
  intros p Hp. unfold swarm_send. rewrite run_bind_gets, run_bind. unfold lift.
  destruct (chan_send (inl msg) (swarm_channel p)) as [ch| | |] eqn:Hch; [|done..].
  destruct Hp. constructor; try done. simpl. unfold chan_send in Hch.
  destruct (closed _); [done|]. destruct (chan_full _); [done|]. injection Hch as <-. simpl.
  apply Forall_app. auto.
Qed.

Lemma other_turn_ok a t :
  (∀ ev, t ≠ TurnEvent ev) → preserves (peer_ok a) (run_turn t).
Proof.
  intros Ht. destruct t as [ev|e| |]; simpl.
  - by destruct (Ht ev).
  - apply preserves_skip.
  - intros p Hp. rewrite run_bind_gets. destruct (queue _) as [|cmd l]; [done|]. revert p Hp.
    change (preserves (peer_ok a)
      (on_node (modify (with_p2p_commands chan_pop));; handle_command cmd)).
    apply preserves_bind; [|intros _].
    + eapply on_node_ok; [by apply keeps_modify; intros s|by apply calls_none].
    + unfold handle_command. destruct (command_rpc cmd); [by apply modify_ok|apply preserves_skip].
  - by apply modify_ok.
Qed.

Lemma swarm_turn_ok a now : preserves (peer_ok a) (swarm_turn now).
Proof.
  intros p Hp. unfold swarm_turn. rewrite run_bind_gets.
  destruct (queue (swarm_channel p)) as [|msg l] eqn:Hq; [by destruct (closed _)|]. revert p Hp Hq.
  assert (preserves (peer_ok a) (modify (with_swarm_channel chan_pop);;
    (attempt (on_node (handle_swarm_message now msg)) : M (Peer D) _);; skip)) as Hpres;
    [|intros p Hp _; by apply Hpres].
  apply preserves_bind; [|intros _].
  - apply modify_ok; [done..|]. intros p Hall. simpl. by destruct Hall.
  - apply preserves_bind; [|intros; apply preserves_skip]. apply preserves_attempt.
    eapply on_node_ok; [apply keeps_swarm_message|apply handle_swarm_message_calls].
Qed.

Lemma session_turn_ok a x : preserves (peer_ok a) (on_node (run_session_step x)).
Proof. eapply on_node_ok; [apply keeps_session_step|apply session_step_calls]. Qed.

Lemma new_peer_ok a db : peer_ok a (new_peer a db).
Proof. constructor; simpl; [done|constructor|apply initial_layout|constructor]. Qed.

(** A node's request is one of the calls anyone could make. *)
Lemma backend_rpc_call clk order call s :
  ∃ c, backend_rpc clk order call s = run_call c s.
Proof.
  destruct call as [address data|address data|address|address data|address data|account data
                   |address data]; simpl.
  - by exists (CallSenderRequest clk address data).
  - by exists (CallReceiverResponse clk address data).
  - by exists (CallFetchPending address).
  - by exists (CallSenderConfirmation clk address data).
  - by exists (CallTxSubmissionUpdates clk address data).
  - by exists (CallDisconnect order (clk 0%nat) (clk 1%nat) account data).
  - by exists (CallSenderRevertation clk address data).
Qed.

Definition world_ok (w : World) : Prop :=
  reachable (backend w) ∧ ∀ a e, members w !! a = Some e → peer_ok a (member_peer e).

Lemma with_member_ok a e w :
  world_ok w → peer_ok a (member_peer e) → world_ok (with_member a e w).
Proof.
  intros [Hb Hm] He. split; [done|]. intros a' e'. simpl.
  intros [[<- <-]|[_ Ha]]%lookup_insert_Some; [done|by apply Hm].
Qed.

Lemma world_step_ok w w' : world_ok w → world_step w w' → world_ok w'.
Proof.
  intros Hw Hstep. pose proof Hw as [Hb Hm].
  destruct Hstep as [a db w Ha|c w|a e clk order call w Ha _|a e ev w Ha Hev|a e t w Ha Ht
                    |a e now w Ha|a e x w Ha];
    try (apply with_member_ok; [done|]; specialize (Hm _ _ Ha)); simpl.
  - apply with_member_ok; [done|]. apply new_peer_ok.
  - split; [by apply reachable_call|done].
  - split; [|done]. simpl. destruct (backend_rpc_call clk order call (backend w)) as [c ->].
    by apply reachable_call.
  - destruct (should_send a ev) eqn:Hsend; [by apply event_turn_ok|done].
  - by apply other_turn_ok.
  - by apply swarm_turn_ok.
  - by apply session_turn_ok.
Qed.

(** C4: the system as a whole is safe in every state it can reach, whoever calls the
    backend with whatever data: the backend keeps its invariant; a node's main service
    is only given requests addressed to its own user, responses to its user's own
    transfers and answers to its user's own questions; every transaction a node submits
    was authorised by both parties; and every node's cache is bounded and filed by nonce. *)
Theorem world_is_safe (w : World) (Hw : world_reachable w) :
  server_inv (backend w) ∧
  ∀ a e, members w !! a = Some e →
    (∀ msg, msg ∈ queue (swarm_channel (member_peer e)) → message_for a msg) ∧
    (∀ tx, HostSubmit tx ∈ host_calls (peer_node (member_peer e)) → authorised tx) ∧
    (length (lru_iter (cache (peer_node (member_peer e)))) ≤ 10)%nat ∧
    (∀ k c, (k, c) ∈ lru_iter (cache (peer_node (member_peer e))) → tx_nonce (get_value c) = k).
Proof.
  assert (world_ok w) as [Hb Hm].
  { induction Hw as [|w w' _ IH Hstep]; [|by eapply world_step_ok].
    split; [apply reachable_new|]. intros a e Ha. simpl in Ha. by rewrite lookup_empty in Ha. }
  split; [by apply reachable_server_inv|]. intros a e [_ Hmsg [Hcap Hk] Hcalls]%Hm.
  rewrite list.Forall_forall in Hmsg. rewrite list.Forall_forall in Hcalls.
  split_and!; [exact Hmsg| | |exact Hk].
  - intros tx Htx. exact (Hcalls _ Htx).
  - rewrite <-Hcap. apply lru_bounded.
Qed.
End world.

(** ** A complete transfer

    Alice announces a transfer to Bob, his node receives it, he confirms with his
    signature, her node has the transaction created, she signs, her node submits. *)

#[local] Existing Instances sample_json sample_json_laws sample_hex good_host.

Definition bob_account : UserAccount :=
  {| multi_addr := "backend"; accounts := [("bob", Ethereum)] |}.
Definition database_of (user : UserAccount) : AbsDb :=
  abs_set_nonce 0 (abs_set_user user AbsDb_new).

Definition transfer : list (action (D := AbsDb)) := [
  Joins "alice" (database_of alice_account); Joins "bob" (database_of bob_account);
  SessionStep "alice" (PageCalls (InitiateTransaction 100 "alice" "bob" 1000 (Ok Token_default)
    "vane" (Ok Ethereum) (Ok Ethereum)));
  SessionStep "alice" (ServiceActs (UpdateTaskRuns 101 1));
  PeerTurn "alice" TurnCommand; RequestArrives "alice" (at_time 102) [] 0;
  EventArrives "bob"; EventArrives "bob"; SwarmTurn "bob" 103;
  SessionStep "bob" WatcherTakes;
  SessionStep "bob" (PageCalls (ReceiverConfirm (Ok (confirmed Genesis))));
  SessionStep "bob" (ServiceActs (UpdateTaskRuns 104 1));
  PeerTurn "bob" TurnCommand; RequestArrives "bob" (at_time 105) [] 0;
  EventArrives "alice"; EventArrives "alice"; EventArrives "alice"; EventArrives "alice";
  SwarmTurn "alice" 106; SessionStep "alice" WatcherTakes; SessionStep "alice" WatcherTakes;
  SessionStep "alice" (PageCalls (SenderConfirm (Ok (fully_signed RecvAddrConfirmationPassed))));
  SessionStep "alice" (ServiceActs (UpdateTaskRuns 107 1))].

Definition transferred : World :=
  match act_all transfer world_new with Some w => w | None => world_new end.

Definition calls_of (a : string) (w : World (D := AbsDb)) : list host_call :=
  match members w !! a with Some e => host_calls (peer_node (member_peer e)) | None => [] end.
(** What Alice signed, as her node submits it. *)
Definition signed_transfer : TxStateMachine :=
  confirmed_by_sender (fully_signed RecvAddrConfirmationPassed).

Lemma transfer_runs : act_all transfer world_new = Some transferred.
Proof.
  unfold transferred. assert (is_Some (act_all transfer world_new)) as [w Hw]; [|by rewrite Hw].
  apply (bool_decide_eq_true (is_Some (act_all transfer world_new))). vm_compute. reflexivity.
Qed.
Lemma transfer_submits :
  calls_of "alice" transferred =
    [HostCreate (increment_version (recv_confirmation_passed (increment_version
       (recv_confirmed (confirmed Genesis))))); HostSubmit signed_transfer].
Proof. vm_compute. reflexivity. Qed.

Lemma world_is_safe_witness :
  world_reachable transferred ∧
  HostSubmit signed_transfer ∈ calls_of "alice" transferred ∧ authorised signed_transfer.
Proof.
  assert (world_reachable transferred) as Hreach
    by exact (act_all_reachable transfer _ _ world_start transfer_runs).
  assert (HostSubmit signed_transfer ∈ calls_of "alice" transferred) as Hin
    by (rewrite transfer_submits; right; by left).
  split_and!; [exact Hreach|exact Hin|]. revert Hreach Hin.
  generalize transferred. generalize signed_transfer. intros tx w Hreach Hin.
  destruct (world_is_safe w Hreach) as [_ Hmembers]. unfold calls_of in Hin.
  destruct (members w !! "alice") as [e|] eqn:He; [|by apply not_elem_of_nil in Hin].
  destruct (Hmembers "alice" e He) as (_ & Hcalls & _). exact (Hcalls _ Hin).
Defined.
