(* ===== verification/Transfer.v ===== *)
(** A transfer from the page of the sender to its chain, in the whole system: the steps of
    the two nodes and of the backend, composed for any two users, hosts and databases. *)

From S2P Require Import Prelude DataStructure Codec Samples Server ServerInvariant ServerRequests.
From S2P Require Import ServerProperties DbInterface Lru TxProcessing.
From S2P Require Import Node NodeLogic MainService NodeRun NodeSamples Interface Session.
From S2P Require Import MainServiceSafety MainServiceProps InterfaceProps P2p P2pProps World.
Open Scope N_scope.

(** ** Steps of one node *)

Section node.
Context {BP : BuildProfile} {P2P : P2pTypes} {LRU : LruCache N (TtlWrapper TxStateMachine)}.
Context {LAWS : @LruLaws N (TtlWrapper TxStateMachine) _ LRU}.
Context {D : Type} {DB : DbWorkerInterface D} {CR : Crypto} {HO : Host}.
Context {COD : Codec IntegrityFields}.
Implicit Types (s : Node D) (tx : TxStateMachine).

(** A turn of the update task that handles the one update there is, and waits. *)
Lemma update_turn now tx s s' :
  quiet s → queue (user_channel s) = [tx] →
  handle_tx_update now tx (with_user_channel chan_pop s) = (Ok (), s') →
  (run_session_step (ServiceActs (UpdateTaskRuns now 1)) s).2 = s'.
Proof.
  intros Hq Hu Hrun. simpl.
  erewrite run_bind_ok; [|eapply (recv_update_run tx []); [by rewrite Hq|exact Hu]].
  cbv beta iota. by erewrite run_bind_ok; [|exact Hrun].
Qed.

Lemma recv_confirmed_remote_run now tx s prof :
  status tx = RecvAddrConfirmed → quiet s →
  get_user_account (node_db s) = (Ok prof, node_db s) →
  both_in_profile tx prof = false → has_room 1 (p2p_commands s) →
  handle_tx_update now tx s = (Ok (), with_p2p_commands (chan_push (WasmSendResponse (inl tx))) s).
Proof.
  intros Hst Hq Hprof Hb Hroom. unfold handle_tx_update. rewrite Hst.
  unfold handle_recv_addr_confirmed_tx_state.
  erewrite run_bind_ok; [|by apply profile_run]. rewrite Hb. open_node s. exec.
Qed.

Lemma watcher_takes_run tx rest s :
  quiet s → queue (rpc_channel s) = tx :: rest →
  (run_session_step WatcherTakes s).2 =
    with_tx_integrity <[tx_nonce tx := compute_tx_integrity_hash tx]> (with_rpc_channel chan_pop s).
Proof.
  intros Hq Hr. simpl. rewrite run_bind_gets, Hr, run_bind_modify.
  destruct s as [db ca rpc user cmds notif integ hc bs]. unfold quiet in Hq. simpl in *. subst.
  by erewrite with_mut_run; [|reflexivity|reflexivity].
Qed.

Lemma request_handled now tx s :
  quiet s → has_room 1 (rpc_channel s) →
  handle_swarm_message now (inl (WasmRequest tx)) s =
    (Ok (), with_cache (lru_push (tx_nonce tx) (TtlWrapper_new tx now))
              (with_rpc_channel (chan_push tx) s)).
Proof.
  intros Hq Hroom. unfold handle_swarm_message, handle_wasm_request. open_node s. exec.
Qed.

Lemma receiver_confirms tx sig s :
  quiet s → has_room 1 (user_channel s) → status tx = Genesis → recv_signature tx = Some sig →
  tx_integrity s !! tx_nonce tx = Some (compute_tx_integrity_hash tx) →
  receiver_confirm (Ok tx) s = (Ok (), receiver_confirmed tx s).
Proof.
  intros Hq Hroom Hst Hsig Hrec. unfold receiver_confirm. rewrite run_bind_lift_ok.
  rewrite decide_True, Hst, Hsig by done. open_node s.
  eapply exec_with_mut; [reflexivity|rewrite run_bind_lift_ok|].
  - eapply exec_bind; [apply check_integrity_run; [reflexivity|exact Hrec]|exec].
  - reflexivity.
Qed.

Lemma sender_confirms tx w s :
  quiet s → has_room 1 (user_channel s) → status tx = RecvAddrConfirmationPassed →
  tx_integrity s !! tx_nonce tx = Some (compute_tx_integrity_hash tx) →
  lru_peek (tx_nonce tx) (cache s) = Some w →
  sender_confirm (Ok tx) s = (Ok (), sent_confirmation tx w s).
Proof.
  intros Hq Hroom Hst Hrec Hw. unfold sender_confirm. rewrite run_bind_lift_ok.
  erewrite run_bind_ok; [|apply check_integrity_run; [by rewrite Hq|done]].
  rewrite Hst. cbv zeta.
  rewrite confirmed_by_sender_state. change (tx_nonce (confirmed_state tx)) with (tx_nonce tx).
  rewrite (bool_decide_eq_false_2 (RecvAddrConfirmationPassed ≠ RecvAddrConfirmationPassed))
    by (by intros Hne). rewrite andb_false_r. open_node s. exec.
Qed.

Lemma submission_handled now tx s prof hash d' w :
  status tx = SenderConfirmed → authorised tx → quiet s →
  get_user_account (node_db s) = (Ok prof, node_db s) →
  submit_tx_js (host_calls s) tx = Ok hash →
  update_success_tx (db_record hash true tx) (node_db s) = (Ok (), d') →
  has_room 1 (p2p_commands s) → has_room 1 (rpc_channel s) →
  lru_peek (tx_nonce tx) (cache s) = Some w →
  handle_tx_update now tx s = (Ok (), submitted hash tx d' s).
Proof.
  intros Hst (Hr & Hs & Hm) Hq Hprof Hsub Hdb Hcmd Hrpc Hcached. unfold handle_tx_update. rewrite Hst.
  unfold handle_sender_confirmed_tx_state, submit_and_record, update_send.
  rewrite Hst, Hr, Hs, Hm. open_node s. exec.
Qed.

(** A turn of the swarm handler on the one message it has. *)
Lemma swarm_turn_run now msg (p : Peer D) s' :
  queue (swarm_channel p) = [inl msg] →
  handle_swarm_message now (inl msg) (peer_node p) = (Ok (), s') →
  (swarm_turn now p).2 = with_peer_node (λ _, s') (with_swarm_channel chan_pop p).
Proof.
  intros Hq Hrun. destruct p as [s u ch calls]. simpl in Hq, Hrun.
  unfold swarm_turn. rewrite run_bind_gets. simpl. rewrite Hq, run_bind_modify.
  erewrite run_bind_ok; [|unfold attempt, on_node; simpl; rewrite Hrun; reflexivity]. done.
Qed.
End node.

(** ** Two members of the world *)

Section pair.
Context {JSON : TxJson} {JSONL : TxJsonLaws} {HEX : Hex} {BP : BuildProfile}.
Context {COD : Codec IntegrityFields} {P2P : P2pTypes}.
Context {LRU : LruCache N (TtlWrapper TxStateMachine)}.
Context {LAWS : @LruLaws N (TtlWrapper TxStateMachine) _ LRU}.
Context {D : Type} {DB : DbWorkerInterface D} {CR : Crypto} {HO : Host}.
Implicit Types (w : World (D := D)) (e : Member (D := D)) (p : Peer D) (server : VaneSwarmServer).

(** The sender [a] and the receiver [b], besides the other members of [ms]. *)
Context (a b : string) (Hab : a ≠ b) (ms : gmap string (Member (D := D))).

Definition two server ea eb : World (D := D) :=
  {| backend := server; members := <[a := ea]> (<[b := eb]> ms) |}.
Definition member p (k : nat) : Member (D := D) := {| member_peer := p; cursor := k |}.

Lemma two_a server ea eb : members (two server ea eb) !! a = Some ea.
Proof. apply lookup_insert_eq. Qed.
Lemma two_b server ea eb : members (two server ea eb) !! b = Some eb.
Proof. simpl. rewrite lookup_insert_ne by done. apply lookup_insert_eq. Qed.
Lemma with_a server ea eb ea' : with_member a ea' (two server ea eb) = two server ea' eb.
Proof. unfold with_member, two. simpl. by rewrite insert_insert_eq. Qed.
Lemma with_b server ea eb eb' : with_member b eb' (two server ea eb) = two server ea eb'.
Proof.
  unfold with_member, two. simpl. by rewrite insert_insert_ne, insert_insert_eq.
Qed.

(** A member of either side takes a step of its own. *)
Inductive own_step : Member (D := D) → Member (D := D) → Prop :=
  | own_turn p k t : (∀ ev, t ≠ TurnEvent ev) → own_step (member p k) (member (run_turn t p).2 k)
  | own_swarm p k now : own_step (member p k) (member (swarm_turn now p).2 k)
  | own_session p k x :
      own_step (member p k) (member (on_node (run_session_step x) p).2 k).

Lemma own_step_world c e e' w :
  own_step e e' → members w !! c = Some e → world_step w (with_member c e' w).
Proof.
  intros Hs Hc. destruct Hs as [p k t Ht|p k now|p k x].
  - exact (StepPeerTurn c _ t w Hc Ht).
  - exact (StepSwarmTurn c _ now w Hc).
  - exact (StepSession c _ x w Hc).
Qed.

Lemma a_steps server ea ea' eb :
  rtc own_step ea ea' → rtc world_step (two server ea eb) (two server ea' eb).
Proof.
  induction 1 as [|ea e1 ea' Hs _ IH]; [done|]. eapply rtc_l; [|exact IH].
  rewrite <-(with_a server ea eb e1). eapply own_step_world; [exact Hs|apply two_a].
Qed.
Lemma b_steps server ea eb eb' :
  rtc own_step eb eb' → rtc world_step (two server ea eb) (two server ea eb').
Proof.
  induction 1 as [|eb e1 eb' Hs _ IH]; [done|]. eapply rtc_l; [|exact IH].
  rewrite <-(with_b server ea eb e1). eapply own_step_world; [exact Hs|apply two_b].
Qed.

(** A session step whose effect on the node is known. *)
Lemma session_to x p k s' :
  (run_session_step x (peer_node p)).2 = s' →
  own_step (member p k) (member (with_peer_node (λ _, s') p) k).
Proof.
  intros Hx. assert ((on_node (run_session_step x) p).2 = with_peer_node (λ _, s') p) as <-.
  { unfold on_node. by destruct (run_session_step x (peer_node p)) as [o n]; simpl in *; subst. }
  apply own_session.
Qed.

(** A request that a member has sent arrives at the backend. *)
Lemma request_arrives c e clk order call server server' ea eb :
  members (two server ea eb) !! c = Some e → call ∈ rpc_calls (member_peer e) →
  backend_rpc clk order call server = (Ok (), server') →
  world_step (two server ea eb) (two server' ea eb).
Proof.
  intros Hc Hin Hrun.
  pose proof (StepRequestArrives c e clk order call (two server ea eb) Hc Hin) as Hs.
  unfold with_backend, two in Hs. simpl in Hs. rewrite Hrun in Hs. exact Hs.
Qed.

(** The events a subscription has not seen arrive, one after the other. *)
Lemma loop_events evs p p' :
  p2p_loop (TurnEvent <$> evs) p = (Ok (), p') →
  foldl (λ p ev, (run_turn (TurnEvent ev) p).2) p evs = p'.
Proof.
  revert p. induction evs as [|ev evs IH]; intros p Hrun; [by injection Hrun as ->|].
  simpl in Hrun. rewrite run_bind in Hrun. simpl.
  destruct (handle_backend_event ev p) as [[[]| | |] p1]; [|done..]. by apply IH.
Qed.

Lemma filtered_events c evs p k :
  (foldl (λ e ev, receive c ev e) (member p k) evs) =
  member (foldl (λ p ev, (run_turn (TurnEvent ev) p).2) p (subscription c evs)) (k + length evs).
Proof.
  revert p k. induction evs as [|ev evs IH]; intros p k; simpl; [by rewrite Nat.add_0_r|].
  unfold receive at 2. simpl. unfold subscription in *.
  destruct (should_send c ev) eqn:Es.
  - rewrite list.filter_cons_True by done. etrans; [apply (IH _ (S k))|]. simpl.
    f_equal. lia.
  - rewrite list.filter_cons_False by (by rewrite Es). etrans; [apply (IH _ (S k))|].
    f_equal. lia.
Qed.

Lemma events_arrive c evs before server e (to : Member (D := D) → World (D := D)) :
  (∀ e1 e2, with_member c e2 (to e1) = to e2) → (∀ e1, members (to e1) !! c = Some e1) →
  (∀ e1, backend (to e1) = server) → event_sender server = before ++ evs →
  cursor e = length before →
  rtc world_step (to e) (to (foldl (λ e ev, receive c ev e) e evs)).
Proof.
  intros Hw Hm Hb. revert before e. induction evs as [|ev evs IH]; intros before e Hev Hcur; [done|].
  simpl. apply (rtc_l _ _ (to (receive c ev e))).
  - rewrite <-(Hw e (receive c ev e)). apply StepEventArrives; [apply Hm|].
    rewrite Hb, Hev, Hcur. by apply list_lookup_middle.
  - apply (IH (before ++ [ev])).
    + by rewrite Hev, <-app_assoc.
    + unfold receive. simpl. rewrite Hcur, length_app. simpl. lia.
Qed.

Lemma a_receives before evs server p p' eb :
  event_sender server = before ++ evs →
  p2p_loop (TurnEvent <$> subscription a evs) p = (Ok (), p') →
  rtc world_step (two server (member p (length before)) eb)
    (two server (member p' (length (event_sender server))) eb).
Proof.
  intros Hev Hrun. assert (member p' (length (event_sender server)) =
    foldl (λ e ev, receive a ev e) (member p (length before)) evs) as ->.
  { rewrite filtered_events, (loop_events _ _ _ Hrun), Hev, length_app. done. }
  apply (events_arrive a evs before server _ (λ e, two server e eb)); try done.
  - intros. apply with_a.
  - intros. apply two_a.
Qed.
Lemma b_receives before evs server p p' ea :
  event_sender server = before ++ evs →
  p2p_loop (TurnEvent <$> subscription b evs) p = (Ok (), p') →
  rtc world_step (two server ea (member p (length before)))
    (two server ea (member p' (length (event_sender server)))).
Proof.
  intros Hev Hrun. assert (member p' (length (event_sender server)) =
    foldl (λ e ev, receive b ev e) (member p (length before)) evs) as ->.
  { rewrite filtered_events, (loop_events _ _ _ Hrun), Hev, length_app. done. }
  apply (events_arrive b evs before server _ (λ e, two server ea e)); try done.
  - intros. apply with_b.
  - intros. apply two_b.
Qed.
End pair.

(** ** The transfer *)

Section transfer.
Context {JSON : TxJson} {JSONL : TxJsonLaws} {HEX : Hex} {BP : BuildProfile}.
Context {COD : Codec IntegrityFields} {P2P : P2pTypes}.
Context {LRU : LruCache N (TtlWrapper TxStateMachine)}.
Context {LAWS : @LruLaws N (TtlWrapper TxStateMachine) _ LRU}.
Context {D : Type} {DB : DbWorkerInterface D} {CR : Crypto} {HO : Host}.

(** What is transferred, and how the parties' transactions look on the way: [a] initiates,
    [b] signs, the host of [a] creates, [a] signs. *)
Record Transfer := {
  from : string; recipient : string; transferred_amount : N; transferred_token : Token;
  memo : string; on_chain : ChainSupported; nonce_before : N; receiver_sig : bytes;
  created_tx : TxStateMachine; sender_signed : TxStateMachine; chain_hash : bytes
}.

Definition announced (t : Transfer) : TxStateMachine :=
  new_transaction (from t) (recipient t) (transferred_amount t) (transferred_token t) (memo t)
    (on_chain t) (on_chain t) (nonce_before t + 1).
Definition receiver_signed (t : Transfer) : TxStateMachine :=
  signed_by (Some (receiver_sig t)) (announced t).
Definition answer_sent (t : Transfer) : TxStateMachine :=
  increment_version (recv_confirmed (receiver_signed t)).
Definition to_create (t : Transfer) : TxStateMachine :=
  increment_version (recv_confirmation_passed (answer_sent t)).
Definition to_submit (t : Transfer) : TxStateMachine := confirmed_state (sender_signed t).

(** The transfer is a valid one: the addresses are of the chain, the messages can be
    written and have the widths of their types, the signatures are good, and the host
    creates and submits. *)
Record valid_transfer (t : Transfer) : Prop := {
  two_parties : from t ≠ recipient t;
  sender_valid :
    is_ok (verify_public_bytes (from t) (transferred_token t) (on_chain t)) = true;
  recipient_valid :
    is_ok (verify_public_bytes (recipient t) (transferred_token t) (on_chain t)) = true;
  nonce_fits : fits 32 (nonce_before t + 1);
  announced_fits : tx_fits (announced t) ∧ is_Some (to_vec (announced t));
  answer_fits : tx_fits (answer_sent t) ∧ is_Some (to_vec (answer_sent t));
  answer_valid : validate_receiver_and_sender_address (answer_sent t) "Receiver" = Ok ();
  host_creates : create_tx_js [] (to_create t) = Ok (created_tx t);
  same_nonce : tx_nonce (created_tx t) = nonce_before t + 1;
  signs_created : tx_nonce (sender_signed t) = nonce_before t + 1 ∧
    status (sender_signed t) = RecvAddrConfirmationPassed ∧
    compute_tx_integrity_hash (sender_signed t) = compute_tx_integrity_hash (created_tx t);
  both_signed : authorised (to_submit t);
  host_submits : submit_tx_js [HostCreate (to_create t)] (to_submit t) = Ok (chain_hash t)
}.

(** The databases of the two nodes: nonces count, the profiles can be read and do not hold
    both accounts, and the submission can be recorded. *)
Record databases_ready (t : Transfer) (da da1 da2 db : D) : Prop := {
  nonce_read : get_nonce da = (Ok (nonce_before t), da);
  nonce_stored : db_increment_nonce da = (Ok (), da1);
  sender_profile : ∃ prof, get_user_account da1 = (Ok prof, da1) ∧
    both_in_profile (announced t) prof = false;
  recipient_profile : ∃ prof, get_user_account db = (Ok prof, db) ∧
    both_in_profile (answer_sent t) prof = false;
  success_stored : update_success_tx (db_record (chain_hash t) true (to_submit t)) da1 = (Ok (), da2)
}.

(** The backend can take a request of the parties: its counter has room, and no index
    list of theirs expires meanwhile. *)
Definition backend_ready (t : Transfer) (hi : N) (server : VaneSwarmServer) : Prop :=
  counter_fits (from t) (recipient t) server ∧
  fresh_list hi (sender_requests server) (from t) ∧
  fresh_list hi (receiver_requests server) (recipient t).

Context (t : Transfer) (Ht : valid_transfer t) (da da1 da2 db : D).
Context (Hdb : databases_ready t da da1 da2 db).

Ltac room := split; [reflexivity|simpl; lia].

(** *** The sender announces *)

Definition sender_announced (now : N) (data : bytes) : Peer D := {|
  peer_node := {|
    node_db := da1;
    cache := lru_push (nonce_before t + 1) (TtlWrapper_new (announced t) now) (lru_new 10);
    rpc_channel := chan_new 10; user_channel := chan_new 10; p2p_commands := chan_new 10;
    p2p_event_notif := chan_new 20;
    tx_integrity := <[nonce_before t + 1 := compute_tx_integrity_hash (announced t)]> ∅;
    host_calls := []; borrows := no_borrows |};
  user_account_id := from t; swarm_channel := chan_new 256;
  rpc_calls := [RpcSenderRequest (from t) data] |}.

Lemma own_turn_to p k tn p' :
  run_turn tn p = (Ok (), p') → (∀ ev, tn ≠ TurnEvent ev) →
  own_step (member (D := D) p k) (member p' k).
Proof. intros Hrun Hne. replace p' with (run_turn tn p).2 by (by rewrite Hrun). by apply own_turn. Qed.
Lemma own_swarm_to p k now p' :
  (swarm_turn now p).2 = p' → own_step (member (D := D) p k) (member p' k).
Proof. intros <-. apply own_swarm. Qed.

Lemma sender_announces now data k :
  to_vec (announced t) = Some data →
  rtc own_step (member (new_peer (from t) da) k) (member (sender_announced now data) k).
Proof.
  intros Hdata. destruct Ht, Hdb. destruct sender_profile0 as (prof & Hprof & Hremote).
  eapply rtc_l.
  { apply (session_to (PageCalls (InitiateTransaction now (from t) (recipient t)
      (transferred_amount t) (Ok (transferred_token t)) (memo t) (Ok (on_chain t))
      (Ok (on_chain t))))).
    simpl. rewrite !run_bind_lift_ok.
    erewrite run_bind_ok; [reflexivity|].
    apply (initiate_run now _ _ _ _ _ _ _ (nonce_before t) da1); (done || room). }
  eapply rtc_l.
  { eapply session_to, update_turn; [reflexivity|reflexivity|].
    eapply (genesis_remote_run now _ _ prof); [reflexivity|reflexivity|exact Hprof|exact Hremote|room]. }
  eapply rtc_l.
  { eapply (own_turn_to _ _ TurnCommand); [|done].
    eapply command_turn_run; [reflexivity|]. simpl. unfold announced in Hdata. by rewrite Hdata. }
  reflexivity.
Qed.

(** *** The receiver is shown the transfer, and answers *)

Definition receiver_notified (nn : Chan BackendEvent) : Peer D :=
  with_swarm_channel (chan_push (inl (WasmRequest (announced t))))
    (with_peer_node (with_p2p_event_notif (λ _, nn)) (new_peer (recipient t) db)).

Lemma receiver_answers (now : N) nn data k :
  to_vec (answer_sent t) = Some data →
  ∃ p1 p2, rtc own_step (member (receiver_notified nn) k) (member p1 k) ∧
    queue (rpc_channel (peer_node p1)) = [announced t] ∧
    rtc own_step (member p1 k) (member p2 k) ∧
    rpc_calls p2 = [RpcReceiverResponse (recipient t) data].
Proof.
  intros Hdata. destruct Hdb. destruct recipient_profile0 as (prof & Hprof & Hremote).
  do 2 eexists. split_and!.
  - eapply rtc_l; [|reflexivity]. eapply own_swarm_to.
    eapply (swarm_turn_run now); [reflexivity|apply request_handled; [reflexivity|room]].
  - reflexivity.
  - eapply rtc_l.
    { eapply session_to, watcher_takes_run; reflexivity. }
    eapply rtc_l.
    { eapply (session_to (PageCalls (ReceiverConfirm (Ok (receiver_signed t))))). simpl.
      erewrite (receiver_confirms (receiver_signed t) (receiver_sig t));
        [reflexivity|reflexivity|room|reflexivity|reflexivity|]. apply lookup_insert_eq. }
    eapply rtc_l.
    { eapply session_to, (update_turn now (answer_sent t)); [reflexivity|reflexivity|].
      eapply (recv_confirmed_remote_run now _ _ prof); [reflexivity|reflexivity|exact Hprof|exact Hremote|room]. }
    eapply rtc_l; [|reflexivity].
    eapply (own_turn_to _ _ TurnCommand); [|done].
    apply (command_turn_run (WasmSendResponse (inl (answer_sent t))) []
      (RpcReceiverResponse (recipient t) data)); [reflexivity|]. cbn [command_rpc]. by rewrite Hdata.
  - reflexivity.
Qed.

(** *** The sender is shown the answer, confirms and submits *)

Definition sender_notified (now : N) (data : bytes) (nn : Chan BackendEvent) : Peer D :=
  with_swarm_channel (chan_push (inl (WasmResponse (answer_sent t))))
    (with_peer_node (with_p2p_event_notif (λ _, nn)) (sender_announced now data)).

Lemma sender_submits (now : N) data nn k :
  ∃ p1 p2, rtc own_step (member (sender_notified now data nn) k) (member p1 k) ∧
    queue (rpc_channel (peer_node p1)) = [created_tx t] ∧
    rtc own_step (member p1 k) (member p2 k) ∧
    host_calls (peer_node p2) = [HostCreate (to_create t); HostSubmit (to_submit t)] ∧
    node_db (peer_node p2) = da2.
Proof.
  destruct Hdb, Ht, signs_created0 as (Hn & Hst & Hh).
  destruct sender_profile0 as (prof & Hprof & _).
  assert (Hpeek : lru_peek (nonce_before t + 1) (lru_push (nonce_before t + 1)
    (TtlWrapper_new (announced t) now) (lru_new 10)) = Some (TtlWrapper_new (announced t) now))
    by (apply lru_peek_push; rewrite lru_new_cap; lia).
  do 2 eexists. split_and!.
  - eapply rtc_l; [|reflexivity]. eapply own_swarm_to.
    eapply (swarm_turn_run now); [reflexivity|].
    eapply (response_accepted now (answer_sent t) (created_tx t)).
    + reflexivity.
    + simpl. by rewrite Hpeek.
    + done.
    + exact host_creates0.
    + room.
    + simpl. rewrite same_nonce0. exact Hpeek.
  - reflexivity.
  - eapply rtc_l.
    { eapply session_to, watcher_takes_run; reflexivity. }
    eapply rtc_l.
    { eapply (session_to (PageCalls (SenderConfirm (Ok (sender_signed t))))). simpl.
      erewrite (sender_confirms (sender_signed t)); [reflexivity|reflexivity|room|exact Hst| |].
      - simpl. rewrite Hn, same_nonce0, Hh. apply lookup_insert_eq.
      - simpl. unfold MainServiceProps.filed. rewrite Hn, same_nonce0. apply lru_peek_push.
        rewrite lru_get_mut_cap, lru_push_cap, lru_new_cap. lia. }
    eapply rtc_l; [|reflexivity].
    eapply session_to, (update_turn now (to_submit t)); [reflexivity|reflexivity|].
    eapply (submission_handled now _ _ prof (chain_hash t) da2).
    + simpl. by rewrite Hst.
    + done.
    + reflexivity.
    + exact Hprof.
    + exact host_submits0.
    + exact success_stored0.
    + room.
    + room.
    + simpl. rewrite Hn. apply lru_peek_push. rewrite lru_get_cap. unfold MainServiceProps.filed.
      rewrite lru_push_cap, lru_get_mut_cap, lru_push_cap, lru_new_cap. lia.
  - reflexivity.
  - reflexivity.
Qed.

(** *** The events on the way *)

Lemma announced_live c data : from_slice data = Some (announced t) →
  c = from t ∨ c = recipient t → matches_tx c data = true.
Proof. intros Hd Hc. by apply (matches_party c data (announced t)). Qed.
Lemma answer_live c data : from_slice data = Some (answer_sent t) →
  c = from t ∨ c = recipient t → matches_tx c data = true.
Proof. intros Hd Hc. by apply (matches_party c data (answer_sent t)). Qed.

(** The receiver's subscription delivers the request. *)
Lemma request_delivered data :
  from_slice data = Some (announced t) →
  ∃ nn, p2p_loop (TurnEvent <$> subscription (recipient t)
      [SenderRequestReceived (from t) data; SenderRequestHandled (recipient t) data])
    (new_peer (recipient t) db) = (Ok (), receiver_notified nn).
Proof.
  intros Hd. unfold subscription.
  rewrite !list.filter_cons_True by (simpl; rewrite (announced_live _ data) by auto;
    try done; apply orb_true_r).
  apply (events_run [SenderRequestReceived (from t) data]); [done|room|room| |].
  - by apply list.Forall_singleton.
  - simpl. by rewrite Hd, decide_True.
Qed.

(** The sender's subscription delivers the answer, after the events of the request. *)
Lemma answer_delivered now sent data evs :
  from_slice sent = Some (announced t) → from_slice data = Some (answer_sent t) →
  evs = [] ∨ (∃ k d, evs = [DataExpired k d]) →
  ∃ nn, p2p_loop (TurnEvent <$> subscription (from t)
      ([SenderRequestReceived (from t) sent; SenderRequestHandled (recipient t) sent] ++
       ReceiverResponseReceived (recipient t) data :: evs ++
         [ReceiverResponseHandled (recipient t) data]))
    (sender_announced now sent) = (Ok (), sender_notified now sent nn).
Proof.
  intros Hs Hd Hevs. pose proof (two_parties t Ht) as Hne.
  set (mid := subscription (from t) evs).
  assert ((length mid ≤ 1)%nat ∧
    Forall (λ ev, event_message (from t) ev = None) mid) as [Hlen Hmid].
  { subst mid. unfold subscription. destruct Hevs as [->|(k & d & ->)]; [by split; [simpl; lia|]|].
    destruct (decide (should_send (from t) (DataExpired k d) = true)).
    - rewrite list.filter_cons_True by done. split; [simpl; lia|by repeat constructor].
    - rewrite list.filter_cons_False by done. by split; [simpl; lia|]. }
  assert (subscription (from t)
      ([SenderRequestReceived (from t) sent; SenderRequestHandled (recipient t) sent] ++
       ReceiverResponseReceived (recipient t) data :: evs ++
         [ReceiverResponseHandled (recipient t) data]) =
    ([SenderRequestReceived (from t) sent; SenderRequestHandled (recipient t) sent;
      ReceiverResponseReceived (recipient t) data] ++ mid) ++
      [ReceiverResponseHandled (recipient t) data]) as ->.
  { unfold subscription. simpl app.
    rewrite !list.filter_cons_True by (simpl; rewrite ?(announced_live _ sent), ?(answer_live _ data)
      by auto; try done; apply orb_true_r).
    rewrite list.filter_app, list.filter_cons_True; [done|].
    simpl. rewrite (answer_live _ data) by auto. apply orb_true_r. }
  apply events_run; [done| |room| |].
  - split; [done|]. rewrite length_app. simpl. lia.
  - apply list.Forall_app. split; [|exact Hmid]. repeat constructor. simpl. rewrite Hs.
    rewrite decide_False; [done|]. by apply not_eq_sym.
  - simpl. by rewrite Hd, decide_True.
Qed.

(** *** The whole transfer *)

(** A member that has just joined, for the user [c]. *)
Definition joined (c : string) (d : D) (w : World (D := D)) : Member (D := D) :=
  member (new_peer c d) (length (event_sender (backend w))).

(** C5: A transfer can be completed.  In any state of the whole system, whatever the other
    members have done, when the nodes of two users have joined and the backend
    has room for the request, there are steps of the system after which the receiver's
    user is shown exactly the transfer the sender's page announced; then steps after which
    the sender's user is shown what its host created from the receiver's answer; and then
    steps after which the sender's node has called its host twice, to create this and to
    submit what both have signed, and has recorded the success. *)
Theorem transfer_completes (now lo hi : N) (clk clk' : nat → N) (w : World (D := D)) :
  (∀ i, lo ≤ clk i ∧ clk i ≤ hi) → hi ≤ lo + REQUEST_TTL_SECONDS →
  members w !! from t = Some (joined (from t) da w) →
  members w !! recipient t = Some (joined (recipient t) db w) →
  backend_ready t hi (backend w) →
  ∃ w1 w2 w3 e1 e2 e3,
    rtc world_step w w1 ∧ members w1 !! recipient t = Some e1 ∧
    queue (rpc_channel (peer_node (member_peer e1))) = [announced t] ∧
    rtc world_step w1 w2 ∧ members w2 !! from t = Some e2 ∧
    queue (rpc_channel (peer_node (member_peer e2))) = [created_tx t] ∧
    rtc world_step w2 w3 ∧ members w3 !! from t = Some e3 ∧
    host_calls (peer_node (member_peer e3)) = [HostCreate (to_create t); HostSubmit (to_submit t)] ∧
    node_db (peer_node (member_peer e3)) = da2.
Proof.
  intros Hclk Hspan Ha Hb (Hcount & Hfs & Hfr).
  pose proof (two_parties t Ht) as Hab.
  destruct (announced_fits t Ht) as [Hf0 [data0 Hd0]], (answer_fits t Ht) as [Hf1 [data1 Hd1]].
  assert (from_slice data0 = Some (announced t)) as Hs0 by (by apply from_slice_to_vec).
  assert (from_slice data1 = Some (answer_sent t)) as Hs1 by (by apply from_slice_to_vec).
  destruct (handle_sender_request_run clk lo hi (from t) data0 (announced t) (backend w))
    as (server1 & Hrun1 & (Hev1 & _)); [done..|]. simpl receiver_address in Hev1.
  destruct (receiver_response_emits clk' (recipient t) data1 (answer_sent t) server1 Hs1)
    as (server2 & evs & Hrun2 & Hev2 & Hevs).
  destruct (request_delivered data0 Hs0) as [nn1 Hdeliver1].
  destruct (answer_delivered now data0 data1 evs Hs0 Hs1
    ltac:(destruct Hevs as [Hevs|[d Hevs]]; [by left|right; by eexists _, d])) as [nn2 Hdeliver2].
  set (k0 := length (event_sender (backend w))) in *.
  set (k1 := length (event_sender server1)). set (k2 := length (event_sender server2)).
  destruct (receiver_answers now nn1 data1 k1 Hd1) as (pb1 & pb2 & Hb1 & Hshown & Hb2 & Hcalls).
  destruct (sender_submits now data0 nn2 k2) as (pa1 & pa2 & Ha1 & Hcreated & Ha2 & Hhost & Hdb2).
  set (W := two (D := D) (from t) (recipient t) (members w)).
  set (pa := sender_announced now data0).
  exists (W server1 (member pa k0) (member pb1 k1)), (W server2 (member pa1 k2) (member pb2 k1)),
    (W server2 (member pa2 k2) (member pb2 k1)), (member pb1 k1), (member pa1 k2), (member pa2 k2).
  assert (w = W (backend w) (joined (from t) da w) (joined (recipient t) db w)) as Hw.
  { destruct w as [sv mb]. unfold W, two. simpl in *. by rewrite (insert_id _ _ _ Hb), insert_id. }
  split_and!; try done; try apply two_a; try (by apply two_b).
  - rewrite Hw at 1. etrans; [by apply a_steps, (sender_announces now data0)|].
    etrans.
    { eapply rtc_once, (request_arrives _ _ _ _ _ clk []); [apply two_a|by left|exact Hrun1]. }
    etrans; [by apply (b_receives _ _ Hab _ _ _ server1 _ _ _ Hev1 Hdeliver1)|].
    by apply b_steps.
  - etrans; [by apply b_steps|]. etrans.
    { eapply rtc_once, (request_arrives _ _ _ _ _ clk' []); [by apply two_b|simpl; rewrite Hcalls; by left|exact Hrun2]. }
    etrans; [|by apply a_steps].
    eapply (a_receives _ _ _ (event_sender (backend w)) _ server2); [|exact Hdeliver2].
    by rewrite Hev2, Hev1, <-app_assoc.
  - by apply a_steps.
Qed.
End transfer.

(** ** Witness *)

Section witness.
#[local] Existing Instances sample_json sample_json_laws sample_hex sample_crypto good_host.
#[local] Existing Instance release_profile.

(** Alice's transfer to Bob, signed by both. *)
Definition sample_announced : TxStateMachine :=
  new_transaction "alice" "bob" 1000 Token_default "vane" Ethereum Ethereum 1.
Definition sample_created : TxStateMachine :=
  set_call_payload (Some sample_payload) (increment_version (recv_confirmation_passed
    (increment_version (recv_confirmed (signed_by (Some bob_signature) sample_announced))))).
Definition alice_transfer : Transfer := {|
  from := "alice"; recipient := "bob"; transferred_amount := 1000;
  transferred_token := Token_default; memo := "vane"; on_chain := Ethereum; nonce_before := 0;
  receiver_sig := bob_signature; created_tx := sample_created;
  sender_signed := with_sender_signature (Some alice_signature) sample_created;
  chain_hash := [Byte.xaa] |}.

Lemma alice_transfer_valid : valid_transfer alice_transfer.
Proof.
  split; try (vm_compute; reflexivity); try done.
Qed.

Definition both_joined : World (D := AbsDb) :=
  with_member "bob" (member (new_peer "bob" (database_of bob_account)) 0)
    (with_member "alice" (member (new_peer "alice" (database_of alice_account)) 0) world_new).

Lemma transfer_completes_witness :
  ∃ w3 e3, rtc world_step both_joined w3 ∧ members w3 !! "alice" = Some e3 ∧
    host_calls (peer_node (member_peer e3)) =
      [HostCreate (to_create alice_transfer); HostSubmit (to_submit alice_transfer)].
Proof.
  destruct (transfer_completes alice_transfer alice_transfer_valid (database_of alice_account)
    (abs_set_nonce 1 (database_of alice_account))
    (update_success_tx (db_record [Byte.xaa] true (to_submit alice_transfer))
      (abs_set_nonce 1 (database_of alice_account))).2
    (database_of bob_account)) with (now := 100) (lo := 100) (hi := 100) (clk := at_time 100)
    (clk' := at_time 101) (w := both_joined)
    as (w1 & w2 & w3 & e1 & e2 & e3 & Hs1 & _ & _ & Hs2 & _ & _ & Hs3 & He3 & Hcalls & _).
  - split; try (vm_compute; reflexivity); eexists; split; vm_compute; reflexivity.
  - intros i. unfold at_time. lia.
  - vm_compute. by intros.
  - reflexivity.
  - reflexivity.
  - split_and!; intros ? ?; try done.
  - exists w3, e3. split_and!; [|exact He3|exact Hcalls]. by do 2 (etrans; [eassumption|]).
Defined.
End witness.
