(* ===== verification/ClientMetrics.v ===== *)
(** The backend's record of its clients ([ClientMetricsStore] in
    [node/vane-backend/src/server.rs]), fed by the storage exports clients post.

    The success rate is computed on [f64]s, here IEEE 754 double precision
    ([SpecFloat]).  Counters are unbounded. *)

From Stdlib Require Import Floats.SpecFloat.
From S2P Require Import Prelude DataStructure Samples MainService NodeSamples.
Open Scope N_scope.

(** ** [f64] arithmetic *)

Definition f64_of_u64 (n : N) : spec_float := binary_normalize 53 1024 (Z.of_N n) 0 false.
Definition f64_div : spec_float → spec_float → spec_float := SFdiv 53 1024.
Definition f64_mul : spec_float → spec_float → spec_float := SFmul 53 1024.
(** [x.round() as i64], for a magnitude below 2^63: half away from zero; NaN is 0. *)
Definition f64_round (x : spec_float) : Z :=
  match x with
  | S754_finite s m e =>
      let n := if (0 <=? e)%Z then (Z.pos m * 2 ^ e)%Z
               else ((2 * Z.pos m + 2 ^ (- e)) / (2 * 2 ^ (- e)))%Z in
      if s then (- n)%Z else n
  | _ => 0%Z
  end.

(** [((a as f64 / t as f64) * 100.0).round() as i64] *)
Definition percent (a t : N) : Z :=
  f64_round (f64_mul (f64_div (f64_of_u64 a) (f64_of_u64 t)) (f64_of_u64 100)).

(** ** The store *)

Record ClientMetricsPayload := {
  cmp_peer_id : string;
  client_type : string;
  cmp_timestamp : N;
  storage_export : StorageExport
}.

Record ClientSnapshot := {
  cs_account_id : string;
  success_txs : N;
  failed_txs : N;
  cs_failed_transactions : list DbTxStateMachine
}.

Record ClientMetricsStore := {
  last_update_times : gmap string N;
  last_totals : gmap string (N * N);
  total_success_txs : N;
  total_failed_txs : N;
  tx_success_rate_percent : Z;
  per_client : gmap string ClientSnapshot
}.

Definition ClientMetricsStore_new : ClientMetricsStore := {|
  last_update_times := ∅; last_totals := ∅; total_success_txs := 0; total_failed_txs := 0;
  tx_success_rate_percent := 0; per_client := ∅ |}.

(** The account a payload is filed under. *)
Definition payload_account (payload : ClientMetricsPayload) : string :=
  match se_user_account (storage_export payload) with
  | Some ua => match accounts ua with (acc, _) :: _ => acc | [] => "unknown" end
  | None => "unknown"
  end.

(** The loop over the payload's failed transactions. *)
Fixpoint push_new_failed (existing : list DbTxStateMachine) (new : list DbTxStateMachine) :
    list DbTxStateMachine :=
  match new with
  | [] => existing
  | new_tx :: new =>
      let is_duplicate :=
        existsb (λ existing_tx, bool_decide (db_tx_hash existing_tx = db_tx_hash new_tx))
          existing in
      push_new_failed (if is_duplicate then existing else existing ++ [new_tx]) new
  end.

Definition update_aggregated_metrics (account_id : string) (storage : StorageExport)
    (m : ClientMetricsStore) : ClientMetricsStore :=
  let current := (N.of_nat (length (success_transactions storage)),
                  N.of_nat (length (failed_transactions storage))) in
  let last := default (0, 0) (last_totals m !! account_id) in
  let delta_success := saturating_sub current.1 last.1 in
  let delta_failed := saturating_sub current.2 last.2 in
  let total_tx := current.1 + current.2 in
  let existing_snapshot := default
    {| cs_account_id := account_id; success_txs := 0; failed_txs := 0;
       cs_failed_transactions := [] |} (per_client m !! account_id) in {|
  last_update_times := last_update_times m;
  last_totals := <[account_id := current]> (last_totals m);
  total_success_txs := total_success_txs m + delta_success;
  total_failed_txs := total_failed_txs m + delta_failed;
  tx_success_rate_percent :=
    if 0 <? total_tx then percent current.1 total_tx else tx_success_rate_percent m;
  per_client := <[account_id := {|
    cs_account_id := cs_account_id existing_snapshot;
    success_txs := current.1;
    failed_txs := current.2;
    cs_failed_transactions :=
      push_new_failed (cs_failed_transactions existing_snapshot) (failed_transactions storage)
  |}]> (per_client m) |}.

Definition update_from_exported_storage (now : N) (payload : ClientMetricsPayload)
    (m : ClientMetricsStore) : ClientMetricsStore :=
  let account_id := payload_account payload in
  update_aggregated_metrics account_id (storage_export payload)
    {| last_update_times := <[account_id := now]> (last_update_times m);
       last_totals := last_totals m; total_success_txs := total_success_txs m;
       total_failed_txs := total_failed_txs m;
       tx_success_rate_percent := tx_success_rate_percent m; per_client := per_client m |}.

(** The store after a sequence of posts. *)
Definition store_after (posts : list (N * ClientMetricsPayload)) : ClientMetricsStore :=
  foldl (λ m post, update_from_exported_storage post.1 post.2 m) ClientMetricsStore_new posts.

(** ** One failure per hash *)

Definition distinct_hashes (l : list DbTxStateMachine) : Prop := NoDup (db_tx_hash <$> l).

Lemma push_new_failed_distinct new existing :
  distinct_hashes existing → distinct_hashes (push_new_failed existing new).
Proof.
  revert existing. induction new as [|tx new IH]; intros existing Hd; simpl; [done|].
  apply IH. destruct (existsb _ existing) eqn:He; [done|].
  unfold distinct_hashes. rewrite fmap_app. apply list.NoDup_app. split_and!; [done| |].
  - intros h Hin Hh. simpl in Hh. apply list_elem_of_singleton in Hh. subst h.
    apply list_elem_of_fmap in Hin as (tx' & Heq & Hin).
    apply not_true_iff_false in He. apply He, existsb_exists. exists tx'.
    split; [by apply list_elem_of_In|]. by apply bool_decide_eq_true.
  - apply NoDup_singleton.
Qed.

Definition store_ok (m : ClientMetricsStore) : Prop :=
  ∀ account snapshot, per_client m !! account = Some snapshot →
    distinct_hashes (cs_failed_transactions snapshot).

Lemma update_store_ok now payload m :
  store_ok m → store_ok (update_from_exported_storage now payload m).
Proof.
  intros Hm account snapshot Hs. simpl in Hs.
  apply lookup_insert_Some in Hs as [[<- <-]|[_ Hs]]; [|by eapply Hm].
  apply push_new_failed_distinct.
  destruct (per_client m !! payload_account payload) as [s|] eqn:He; [by eapply Hm|].
  apply NoDup_nil_2.
Qed.

Lemma store_after_ok posts : store_ok (store_after posts).
Proof.
  unfold store_after. induction posts as [|post posts IH] using rev_ind.
  - intros account snapshot Hs. done.
  - rewrite foldl_app. by apply update_store_ok.
Qed.

(** However many failures a client reports, and in however many posts, the backend
    keeps at most one that has no hash; a node records all its failures without one
    ([db_record []]), so the backend's list of a client's failures never has two of
    them while [failed_txs] counts them all. *)
Theorem failures_collapse posts account snapshot tx tx'
    (Hs : per_client (store_after posts) !! account = Some snapshot)
    (Htx : tx ∈ cs_failed_transactions snapshot) (Htx' : tx' ∈ cs_failed_transactions snapshot)
    (Hh : db_tx_hash tx = []) (Hh' : db_tx_hash tx' = []) :
  tx = tx'.
Proof.
  apply store_after_ok in Hs. unfold distinct_hashes in Hs.
  apply list_elem_of_lookup in Htx as [i Hi], Htx' as [j Hj].
  assert (i = j) as ->; [|by simplify_eq].
  eapply NoDup_lookup; [exact Hs|..]; rewrite list_lookup_fmap.
  - by rewrite Hi; simpl; rewrite Hh.
  - by rewrite Hj; simpl; rewrite Hh'.
Qed.

Definition two_failures : ClientMetricsPayload := {|
  cmp_peer_id := "alice"; client_type := "wasm"; cmp_timestamp := 100;
  storage_export := {|
    se_user_account := Some alice_account; se_nonce := 3;
    success_transactions := [db_record [Byte.xaa] true (tx_ab Genesis)];
    failed_transactions := [db_record [] false (tx_ab Genesis); db_record [] false (tx_ac Genesis)]
  |} |}.

Lemma failures_collapse_witness :
  ∃ snapshot, per_client (store_after [(100, two_failures)]) !! "alice" = Some snapshot ∧
    failed_txs snapshot = 2 ∧ length (cs_failed_transactions snapshot) = 1%nat ∧
    tx_success_rate_percent (store_after [(100, two_failures)]) = 33%Z ∧
    ∀ tx, tx ∈ cs_failed_transactions snapshot → db_tx_hash tx = [] →
      tx = db_record [] false (tx_ab Genesis).
Proof.
  eexists. split; [vm_compute; reflexivity|]. split_and!; [vm_compute; reflexivity..|].
  intros tx Htx Hh.
  apply (failures_collapse [(100, two_failures)] "alice" _ tx _ ltac:(vm_compute; reflexivity) Htx);
    [by left|exact Hh|reflexivity].
Defined.

(** ** The totals and what they stand for *)

Definition post_counts (payload : ClientMetricsPayload) : N * N :=
  (N.of_nat (length (success_transactions (storage_export payload))),
   N.of_nat (length (failed_transactions (storage_export payload)))).

Definition report (m : gmap string (N * N)) (post : N * ClientMetricsPayload) :
    gmap string (N * N) :=
  <[payload_account post.2 := post_counts post.2]> m.
(** The last counts of each account. *)
Definition last_reports : list (N * ClientMetricsPayload) → gmap string (N * N) :=
  foldl report ∅.

Definition add_counts (a b : N * N) : N * N := (a.1 + b.1, a.2 + b.2).
(** The counts of all accounts together. *)
Definition summed : gmap string (N * N) → N * N := map_fold (λ _, add_counts) (0, 0).

(** By how much the counts fell from one report of an account to its next. *)
Fixpoint lost (m : gmap string (N * N)) (posts : list (N * ClientMetricsPayload)) : N * N :=
  match posts with
  | [] => (0, 0)
  | post :: posts =>
      let before := default (0, 0) (m !! payload_account post.2) in
      let now := post_counts post.2 in
      add_counts (before.1 - now.1, before.2 - now.2) (lost (report m post) posts)
  end.

Lemma summed_delete m k :
  summed m = add_counts (default (0, 0) (m !! k)) (summed (delete k m)).
Proof.
  destruct (m !! k) as [c|] eqn:Hk; simpl.
  - unfold summed. apply (map_fold_delete_L (λ _, add_counts)); [|done].
    intros j1 j2 z1 z2 y _ _ _. unfold add_counts. simpl. f_equal; lia.
  - rewrite delete_id by done. by destruct (summed m).
Qed.
Lemma summed_insert m k c :
  add_counts (summed (<[k := c]> m)) (default (0, 0) (m !! k)) = add_counts (summed m) c.
Proof.
  rewrite (summed_delete (<[k := c]> m) k), (summed_delete m k), lookup_insert_eq, delete_insert_eq.
  unfold add_counts. simpl. f_equal; lia.
Qed.

Definition store_totals (m : ClientMetricsStore) : N * N :=
  (total_success_txs m, total_failed_txs m).

Lemma totals_from m posts :
  let m' := foldl (λ m post, update_from_exported_storage post.1 post.2 m) m posts in
  last_totals m' = foldl report (last_totals m) posts ∧
  add_counts (store_totals m') (summed (last_totals m)) =
    add_counts (store_totals m)
      (add_counts (summed (last_totals m')) (lost (last_totals m) posts)).
Proof.
  revert m. induction posts as [|post posts IH]; intros m; simpl.
  - split; [done|]. unfold add_counts, store_totals. simpl. f_equal; lia.
  - destruct (IH (update_from_exported_storage post.1 post.2 m)) as [Hlast Hsum].
    split; [exact Hlast|]. revert Hsum. rewrite Hlast. clear.
    change (last_totals (update_from_exported_storage post.1 post.2 m))
      with (report (last_totals m) post).
    pose proof (summed_insert (last_totals m) (payload_account post.2) (post_counts post.2))
      as Hins.
    change (<[payload_account post.2 := post_counts post.2]> (last_totals m))
      with (report (last_totals m) post) in Hins.
    revert Hins. generalize (summed (report (last_totals m) post)).
    generalize (lost (report (last_totals m) post) posts).
    generalize (summed (foldl report (report (last_totals m) post) posts)).
    generalize (store_totals
      (foldl (λ m post, update_from_exported_storage post.1 post.2 m)
         (update_from_exported_storage post.1 post.2 m) posts)).
    intros total' sum' lost' sum Hins Hsum. unfold add_counts, store_totals in *.
    injection Hins as Hins1 Hins2. simpl in *. unfold saturating_sub in Hsum.
    injection Hsum as Hsum1 Hsum2. simpl in *. f_equal; lia.
Qed.

(** C39: the totals of successes and failures, kept incrementally from differences, are
    those of a direct definition over the whole history of posts: the sum over the
    accounts of their last counts, plus every count by which a report of an account
    fell behind its previous one.  So nothing is counted twice as long as the counts of
    an account never fall, and a client whose storage was cleared is counted again. *)
Theorem totals_of_the_history posts :
  store_totals (store_after posts) = add_counts (summed (last_reports posts)) (lost ∅ posts).
Proof.
  destruct (totals_from ClientMetricsStore_new posts) as [Hlast Hsum]. simpl in Hlast.
  fold (store_after posts) in Hlast, Hsum. rewrite Hlast in Hsum.
  change (summed (last_totals ClientMetricsStore_new)) with ((0, 0) : N * N) in Hsum.
  change (store_totals ClientMetricsStore_new) with ((0, 0) : N * N) in Hsum.
  change (last_totals ClientMetricsStore_new) with (∅ : gmap string (N * N)) in Hsum.
  unfold last_reports. unfold add_counts in *. simpl in Hsum.
  injection Hsum as H1 H2. apply injective_projections; simpl; lia.
Qed.

(** A client reports one success and two failures, then an emptied storage, then the
    same again. *)
Definition emptied (payload : ClientMetricsPayload) : ClientMetricsPayload := {|
  cmp_peer_id := cmp_peer_id payload; client_type := client_type payload;
  cmp_timestamp := cmp_timestamp payload;
  storage_export := {|
    se_user_account := se_user_account (storage_export payload); se_nonce := 0;
    success_transactions := []; failed_transactions := [] |} |}.

Example cleared_storage_counts_twice :
  let posts := [(1, two_failures); (2, emptied two_failures); (3, two_failures)] in
  summed (last_reports posts) = (1, 2) ∧ store_totals (store_after posts) = (2, 4).
Proof. vm_compute. done. Qed.
