(* ===== verification/RelayMetrics.v ===== *)
(** The relay ([node/relay/src/p2p.rs], [node/relay/src/metric_server.rs]): what it
    records of the events of its swarm, and the store of client metrics it keeps with
    code of its own.

    The libp2p swarm is a third party's: its events are arguments, with the text of a
    peer identifier and of an error as parameters.  Counters are unbounded. *)

From S2P Require Import Prelude DataStructure MainService NodeSamples ClientMetrics.
Open Scope N_scope.

(** ** What is recorded *)

Record PeerPair := { pp_src_peer_id : string; pp_dst_peer_id : string }.
Record CircuitClosedDetail := {
  cc_src_peer_id : string; cc_dst_peer_id : string; cc_error : option string }.
Record CircuitDeniedDetail := {
  cd_src_peer_id : string; cd_dst_peer_id : string; cd_status : string }.
Record ReservationDeniedDetail := { rd_src_peer_id : string; rd_status : string }.

Record RelayMetrics := {
  circuits_accepted_total : N;
  circuits_closed_total : N;
  circuits_denied_total : N;
  reservations_accepted_total : N;
  reservations_closed_total : N;
  reservations_denied_total : N;
  reservations_timed_out_total : N;
  connections_total : N;
  reservation_accepted_peers : gset string;
  reservation_closed_peers : gset string;
  circuit_accepted_pairs : list PeerPair;
  circuit_closed_pairs : list CircuitClosedDetail;
  circuit_denied : list CircuitDeniedDetail;
  reservation_denied : list ReservationDeniedDetail;
  reservation_timed_out_peers : list string
}.

Definition RelayMetrics_new : RelayMetrics := {|
  circuits_accepted_total := 0;
  circuits_closed_total := 0;
  circuits_denied_total := 0;
  reservations_accepted_total := 0;
  reservations_closed_total := 0;
  reservations_denied_total := 0;
  reservations_timed_out_total := 0;
  connections_total := 0;
  reservation_accepted_peers := ∅;
  reservation_closed_peers := ∅;
  circuit_accepted_pairs := [];
  circuit_closed_pairs := [];
  circuit_denied := [];
  reservation_denied := [];
  reservation_timed_out_peers := []
|}.

Definition with_circuits_accepted_total f (m : RelayMetrics) : RelayMetrics :=
  Build_RelayMetrics (f (circuits_accepted_total m)) (circuits_closed_total m)
    (circuits_denied_total m) (reservations_accepted_total m) (reservations_closed_total m)
    (reservations_denied_total m) (reservations_timed_out_total m) (connections_total m)
    (reservation_accepted_peers m) (reservation_closed_peers m) (circuit_accepted_pairs m)
    (circuit_closed_pairs m) (circuit_denied m) (reservation_denied m)
    (reservation_timed_out_peers m).
Definition with_circuits_closed_total f (m : RelayMetrics) : RelayMetrics :=
  Build_RelayMetrics (circuits_accepted_total m) (f (circuits_closed_total m))
    (circuits_denied_total m) (reservations_accepted_total m) (reservations_closed_total m)
    (reservations_denied_total m) (reservations_timed_out_total m) (connections_total m)
    (reservation_accepted_peers m) (reservation_closed_peers m) (circuit_accepted_pairs m)
    (circuit_closed_pairs m) (circuit_denied m) (reservation_denied m)
    (reservation_timed_out_peers m).
Definition with_circuits_denied_total f (m : RelayMetrics) : RelayMetrics :=
  Build_RelayMetrics (circuits_accepted_total m) (circuits_closed_total m) (f
    (circuits_denied_total m)) (reservations_accepted_total m) (reservations_closed_total m)
    (reservations_denied_total m) (reservations_timed_out_total m) (connections_total m)
    (reservation_accepted_peers m) (reservation_closed_peers m) (circuit_accepted_pairs m)
    (circuit_closed_pairs m) (circuit_denied m) (reservation_denied m)
    (reservation_timed_out_peers m).
Definition with_reservations_accepted_total f (m : RelayMetrics) : RelayMetrics :=
  Build_RelayMetrics (circuits_accepted_total m) (circuits_closed_total m)
    (circuits_denied_total m) (f (reservations_accepted_total m)) (reservations_closed_total m)
    (reservations_denied_total m) (reservations_timed_out_total m) (connections_total m)
    (reservation_accepted_peers m) (reservation_closed_peers m) (circuit_accepted_pairs m)
    (circuit_closed_pairs m) (circuit_denied m) (reservation_denied m)
    (reservation_timed_out_peers m).
Definition with_reservations_closed_total f (m : RelayMetrics) : RelayMetrics :=
  Build_RelayMetrics (circuits_accepted_total m) (circuits_closed_total m)
    (circuits_denied_total m) (reservations_accepted_total m) (f (reservations_closed_total m))
    (reservations_denied_total m) (reservations_timed_out_total m) (connections_total m)
    (reservation_accepted_peers m) (reservation_closed_peers m) (circuit_accepted_pairs m)
    (circuit_closed_pairs m) (circuit_denied m) (reservation_denied m)
    (reservation_timed_out_peers m).
Definition with_connections_total f (m : RelayMetrics) : RelayMetrics :=
  Build_RelayMetrics (circuits_accepted_total m) (circuits_closed_total m)
    (circuits_denied_total m) (reservations_accepted_total m) (reservations_closed_total m)
    (reservations_denied_total m) (reservations_timed_out_total m) (f (connections_total m))
    (reservation_accepted_peers m) (reservation_closed_peers m) (circuit_accepted_pairs m)
    (circuit_closed_pairs m) (circuit_denied m) (reservation_denied m)
    (reservation_timed_out_peers m).
Definition with_reservation_accepted_peers f (m : RelayMetrics) : RelayMetrics :=
  Build_RelayMetrics (circuits_accepted_total m) (circuits_closed_total m)
    (circuits_denied_total m) (reservations_accepted_total m) (reservations_closed_total m)
    (reservations_denied_total m) (reservations_timed_out_total m) (connections_total m) (f
    (reservation_accepted_peers m)) (reservation_closed_peers m) (circuit_accepted_pairs m)
    (circuit_closed_pairs m) (circuit_denied m) (reservation_denied m)
    (reservation_timed_out_peers m).
Definition with_reservation_closed_peers f (m : RelayMetrics) : RelayMetrics :=
  Build_RelayMetrics (circuits_accepted_total m) (circuits_closed_total m)
    (circuits_denied_total m) (reservations_accepted_total m) (reservations_closed_total m)
    (reservations_denied_total m) (reservations_timed_out_total m) (connections_total m)
    (reservation_accepted_peers m) (f (reservation_closed_peers m)) (circuit_accepted_pairs m)
    (circuit_closed_pairs m) (circuit_denied m) (reservation_denied m)
    (reservation_timed_out_peers m).
Definition with_circuit_accepted_pairs f (m : RelayMetrics) : RelayMetrics :=
  Build_RelayMetrics (circuits_accepted_total m) (circuits_closed_total m)
    (circuits_denied_total m) (reservations_accepted_total m) (reservations_closed_total m)
    (reservations_denied_total m) (reservations_timed_out_total m) (connections_total m)
    (reservation_accepted_peers m) (reservation_closed_peers m) (f (circuit_accepted_pairs m))
    (circuit_closed_pairs m) (circuit_denied m) (reservation_denied m)
    (reservation_timed_out_peers m).
Definition with_circuit_closed_pairs f (m : RelayMetrics) : RelayMetrics :=
  Build_RelayMetrics (circuits_accepted_total m) (circuits_closed_total m)
    (circuits_denied_total m) (reservations_accepted_total m) (reservations_closed_total m)
    (reservations_denied_total m) (reservations_timed_out_total m) (connections_total m)
    (reservation_accepted_peers m) (reservation_closed_peers m) (circuit_accepted_pairs m) (f
    (circuit_closed_pairs m)) (circuit_denied m) (reservation_denied m)
    (reservation_timed_out_peers m).
Definition with_circuit_denied f (m : RelayMetrics) : RelayMetrics :=
  Build_RelayMetrics (circuits_accepted_total m) (circuits_closed_total m)
    (circuits_denied_total m) (reservations_accepted_total m) (reservations_closed_total m)
    (reservations_denied_total m) (reservations_timed_out_total m) (connections_total m)
    (reservation_accepted_peers m) (reservation_closed_peers m) (circuit_accepted_pairs m)
    (circuit_closed_pairs m) (f (circuit_denied m)) (reservation_denied m)
    (reservation_timed_out_peers m).

(** *** The recorders of [MetricService], under the lock *)

Definition inc (n : N) : N := n + 1.

Definition record_circuit_event (event_type : string) (m : RelayMetrics) : RelayMetrics :=
  if String.eqb event_type "accepted" then with_circuits_accepted_total inc m
  else if String.eqb event_type "closed" then with_circuits_closed_total inc m
  else m.

Definition record_reservation_event (event_type : string) (m : RelayMetrics) : RelayMetrics :=
  if String.eqb event_type "accepted" then with_reservations_accepted_total inc m
  else if String.eqb event_type "closed" then with_reservations_closed_total inc m
  else m.

Definition record_connection_event (event_type : string) (m : RelayMetrics) : RelayMetrics :=
  with_connections_total inc m.

Definition record_reservation_event_peer (event_type peer_id : string) (m : RelayMetrics) :
    RelayMetrics :=
  if String.eqb event_type "accepted" then
    with_reservation_accepted_peers (λ s, {[peer_id]} ∪ s)
      (with_reservations_accepted_total inc m)
  else if String.eqb event_type "closed" then
    with_reservation_closed_peers (λ s, {[peer_id]} ∪ s) (with_reservations_closed_total inc m)
  else m.

Definition record_circuit_event_pair (event_type src_peer_id dst_peer_id : string)
    (error : option string) (m : RelayMetrics) : RelayMetrics :=
  if String.eqb event_type "accepted" then
    with_circuit_accepted_pairs (λ l, l ++ [Build_PeerPair src_peer_id dst_peer_id])
      (with_circuits_accepted_total inc m)
  else if String.eqb event_type "closed" then
    with_circuit_closed_pairs
      (λ l, l ++ [Build_CircuitClosedDetail src_peer_id dst_peer_id error])
      (with_circuits_closed_total inc m)
  else if String.eqb event_type "denied" then
    with_circuit_denied
      (λ l, l ++ [Build_CircuitDeniedDetail src_peer_id dst_peer_id (default "" error)])
      (with_circuits_denied_total inc m)
  else m.

(** *** The events of the swarm *)

(** [libp2p]'s identifiers and errors, and how they are shown. *)
Class RelayTypes := {
  RelayPeer : Type;
  peer_to_string : RelayPeer → string;
  CircuitError : Type;
  error_debug : CircuitError → string;
  DeniedStatus : Type
}.

Section relay.
Context {RT : RelayTypes}.

Inductive RelayServerEvent :=
  | CircuitClosed (src_peer_id dst_peer_id : RelayPeer) (error : option CircuitError)
  | CircuitReqAccepted (src_peer_id dst_peer_id : RelayPeer)
  | CircuitReqDenied (src_peer_id dst_peer_id : RelayPeer) (status : DeniedStatus)
  | ReservationReqAccepted (src_peer_id : RelayPeer) (renewed : bool)
  | ReservationReqDenied (src_peer_id : RelayPeer) (status : DeniedStatus)
  | ReservationTimedOut (src_peer_id : RelayPeer)
  | ReservationClosed (src_peer_id : RelayPeer)
  | OtherRelayEvent.

(** The events of the loop that are only logged are [OtherSwarmEvent]. *)
Inductive SwarmEvent :=
  | RelayBehaviour (relay_event : RelayServerEvent)
  | ConnectionEstablished (peer_id : RelayPeer)
  | ConnectionClosed (peer_id : RelayPeer)
  | Dialing (peer_id : option RelayPeer)
  | OtherSwarmEvent.

Definition handle_relay_event (event : RelayServerEvent) (m : RelayMetrics) : RelayMetrics :=
  match event with
  | CircuitClosed src dst error =>
      record_circuit_event_pair "closed" (peer_to_string src) (peer_to_string dst)
        (error_debug <$> error) m
  | CircuitReqAccepted src dst =>
      record_circuit_event_pair "accepted" (peer_to_string src) (peer_to_string dst) None m
  | CircuitReqDenied _ _ _ => record_circuit_event "denied" m
  | ReservationReqAccepted src _ =>
      record_reservation_event_peer "accepted" (peer_to_string src) m
  | ReservationReqDenied _ _ => record_reservation_event "denied" m
  | ReservationTimedOut _ => record_reservation_event "timed_out" m
  | ReservationClosed src => record_reservation_event_peer "closed" (peer_to_string src) m
  | OtherRelayEvent => m
  end.

(** One turn of [start_swarm]. *)
Definition handle_swarm_event (event : SwarmEvent) (m : RelayMetrics) : RelayMetrics :=
  match event with
  | RelayBehaviour relay_event => handle_relay_event relay_event m
  | ConnectionEstablished _ => record_connection_event "established" m
  | ConnectionClosed _ => record_connection_event "closed" m
  | Dialing (Some _) => record_connection_event "dialing" m
  | Dialing None | OtherSwarmEvent => m
  end.
End relay.

(** ** The relay's store of client metrics *)

(** Steps that are empty bodies in the source. *)
Definition process_basic_metrics (peer_id account_id client_type : string)
    (storage : StorageExport) (m : ClientMetricsStore) : ClientMetricsStore := m.
Definition process_transaction_metrics (peer_id account_id client_type : string)
    (storage : StorageExport) (m : ClientMetricsStore) : ClientMetricsStore := m.
Definition process_value_metrics (peer_id account_id client_type : string)
    (storage : StorageExport) (m : ClientMetricsStore) : ClientMetricsStore := m.
Definition process_peer_network_metrics (peer_id client_type : string)
    (storage : StorageExport) (m : ClientMetricsStore) : ClientMetricsStore := m.

Definition with_last_update_times f (m : ClientMetricsStore) := Build_ClientMetricsStore
  (f (last_update_times m)) (last_totals m) (total_success_txs m) (total_failed_txs m)
  (tx_success_rate_percent m) (per_client m).
Definition with_last_totals f (m : ClientMetricsStore) := Build_ClientMetricsStore
  (last_update_times m) (f (last_totals m)) (total_success_txs m) (total_failed_txs m)
  (tx_success_rate_percent m) (per_client m).
Definition with_total_success f (m : ClientMetricsStore) := Build_ClientMetricsStore
  (last_update_times m) (last_totals m) (f (total_success_txs m)) (total_failed_txs m)
  (tx_success_rate_percent m) (per_client m).
Definition with_total_failed f (m : ClientMetricsStore) := Build_ClientMetricsStore
  (last_update_times m) (last_totals m) (total_success_txs m) (f (total_failed_txs m))
  (tx_success_rate_percent m) (per_client m).
Definition with_success_rate f (m : ClientMetricsStore) := Build_ClientMetricsStore
  (last_update_times m) (last_totals m) (total_success_txs m) (total_failed_txs m)
  (f (tx_success_rate_percent m)) (per_client m).
Definition with_per_client f (m : ClientMetricsStore) := Build_ClientMetricsStore
  (last_update_times m) (last_totals m) (total_success_txs m) (total_failed_txs m)
  (tx_success_rate_percent m) (f (per_client m)).

Definition snapshot_with (current : N * N) (c : ClientSnapshot) : ClientSnapshot := {|
  cs_account_id := cs_account_id c;
  success_txs := current.1;
  failed_txs := current.2;
  cs_failed_transactions := cs_failed_transactions c |}.
Definition push_failed (new_tx : DbTxStateMachine) (c : ClientSnapshot) : ClientSnapshot := {|
  cs_account_id := cs_account_id c;
  success_txs := success_txs c;
  failed_txs := failed_txs c;
  cs_failed_transactions := cs_failed_transactions c ++ [new_tx] |}.

(** One turn of the loop over the failed transactions. *)
Definition merge_failed (new_tx : DbTxStateMachine) (c : ClientSnapshot) : ClientSnapshot :=
  let is_duplicate :=
    existsb (λ existing_tx, bool_decide (db_tx_hash existing_tx = db_tx_hash new_tx))
      (cs_failed_transactions c) in
  if negb is_duplicate then push_failed new_tx c else c.

(** [entry(k).or_insert_with(..)], and what is done through the reference. *)
Definition entry_or_insert (k : string) (d : ClientSnapshot) (f : ClientSnapshot → ClientSnapshot)
    (m : gmap string ClientSnapshot) : gmap string ClientSnapshot :=
  match m !! k with Some c => <[k := f c]> m | None => <[k := f d]> (<[k := d]> m) end.

Definition relay_update_aggregated_metrics (account_id : string) (storage : StorageExport)
    (m : ClientMetricsStore) : ClientMetricsStore :=
  let current := (N.of_nat (length (success_transactions storage)),
                  N.of_nat (length (failed_transactions storage))) in
  let last := default (0, 0) (last_totals m !! account_id) in
  let delta_success := saturating_sub current.1 last.1 in
  let delta_failed := saturating_sub current.2 last.2 in
  let m := if 0 <? delta_success then with_total_success (N.add delta_success) m else m in
  let m := if 0 <? delta_failed then with_total_failed (N.add delta_failed) m else m in
  let total_tx := current.1 + current.2 in
  let m := if 0 <? total_tx then with_success_rate (λ _, percent current.1 total_tx) m else m in
  let m := with_last_totals <[account_id := current]> m in
  let new_snapshot := {| cs_account_id := account_id; success_txs := 0; failed_txs := 0;
                         cs_failed_transactions := [] |} in
  with_per_client (entry_or_insert account_id new_snapshot (λ existing_snapshot,
    foldl (λ c new_tx, merge_failed new_tx c) (snapshot_with current existing_snapshot)
      (failed_transactions storage))) m.

Definition relay_update_from_exported_storage (now : N) (payload : ClientMetricsPayload)
    (m : ClientMetricsStore) : ClientMetricsStore :=
  let peer_id := cmp_peer_id payload in
  let kind := client_type payload in
  let storage := storage_export payload in
  let account_id :=
    default "unknown" (fst <$> (se_user_account storage ≫= λ ua, head (accounts ua))) in
  let m := with_last_update_times <[account_id := now]> m in
  let m := process_basic_metrics peer_id account_id kind storage m in
  let m := process_transaction_metrics peer_id account_id kind storage m in
  let m := process_value_metrics peer_id account_id kind storage m in
  let m := process_peer_network_metrics peer_id kind storage m in
  relay_update_aggregated_metrics account_id storage m.

(** ** The counters and the history of events *)

Section history.
Context {RT : RelayTypes}.

(** The relay events among those of the swarm. *)
Definition relay_events : list SwarmEvent → list RelayServerEvent :=
  omap (λ e, match e with RelayBehaviour ev => Some ev | _ => None end).

Definition accepted_circuits : list SwarmEvent → list PeerPair := λ l,
  omap (λ ev, match ev with
              | CircuitReqAccepted src dst =>
                  Some (Build_PeerPair (peer_to_string src) (peer_to_string dst))
              | _ => None
              end) (relay_events l).
Definition closed_circuits : list SwarmEvent → list CircuitClosedDetail := λ l,
  omap (λ ev, match ev with
              | CircuitClosed src dst error =>
                  Some (Build_CircuitClosedDetail (peer_to_string src) (peer_to_string dst)
                          (error_debug <$> error))
              | _ => None
              end) (relay_events l).
Definition accepted_reservations : list SwarmEvent → list string := λ l,
  omap (λ ev, match ev with
              | ReservationReqAccepted src _ => Some (peer_to_string src)
              | _ => None
              end) (relay_events l).
Definition closed_reservations : list SwarmEvent → list string := λ l,
  omap (λ ev, match ev with
              | ReservationClosed src => Some (peer_to_string src)
              | _ => None
              end) (relay_events l).
Definition connections : list SwarmEvent → list unit :=
  omap (λ e, match e with
             | ConnectionEstablished _ | ConnectionClosed _ | Dialing (Some _) => Some ()
             | _ => None
             end).

Definition total {A} (l : list A) : N := N.of_nat (length l).
Arguments total : simpl never.

(** What the metrics must be after the events [l]: no circuit and no reservation is ever
    counted as denied or timed out. *)
Definition history (l : list SwarmEvent) : RelayMetrics := {|
  circuits_accepted_total := total (accepted_circuits l);
  circuits_closed_total := total (closed_circuits l);
  circuits_denied_total := 0;
  reservations_accepted_total := total (accepted_reservations l);
  reservations_closed_total := total (closed_reservations l);
  reservations_denied_total := 0;
  reservations_timed_out_total := 0;
  connections_total := total (connections l);
  reservation_accepted_peers := list_to_set (accepted_reservations l);
  reservation_closed_peers := list_to_set (closed_reservations l);
  circuit_accepted_pairs := accepted_circuits l;
  circuit_closed_pairs := closed_circuits l;
  circuit_denied := [];
  reservation_denied := [];
  reservation_timed_out_peers := []
|}.

Lemma total_snoc {A} (l : list A) x : total (l ++ [x]) = inc (total l).
Proof. unfold total, inc. rewrite length_app. simpl. lia. Qed.
Lemma set_snoc (l : list string) x :
  list_to_set (l ++ [x]) = ({[x]} ∪ list_to_set l : gset string).
Proof. set_solver. Qed.

(** One more event extends the history as the handler does. *)
Lemma history_snoc l e : history (l ++ [e]) = handle_swarm_event e (history l).
Proof.
  unfold history, accepted_circuits, closed_circuits, accepted_reservations,
    closed_reservations, connections, relay_events.
  rewrite !omap_app. destruct e as [ev| | |[p|]|]; [destruct ev|..]; simpl;
    rewrite ?app_nil_r, ?total_snoc, ?set_snoc; reflexivity.
Qed.

Lemma history_run l :
  foldl (λ m e, handle_swarm_event e m) RelayMetrics_new l = history l.
Proof.
  induction l as [|e l IH] using rev_ind; [done|].
  by rewrite foldl_app, IH, history_snoc.
Qed.
End history.

(** ** The two stores *)

Lemma merge_failed_loop l c :
  foldl (λ c new_tx, merge_failed new_tx c) c l = {|
    cs_account_id := cs_account_id c;
    success_txs := success_txs c;
    failed_txs := failed_txs c;
    cs_failed_transactions := push_new_failed (cs_failed_transactions c) l |}.
Proof.
  revert c. induction l as [|tx l IH]; intros c; simpl; [by destruct c|].
  rewrite IH. unfold merge_failed. by destruct (existsb _ _).
Qed.

Lemma relay_update_agrees now payload m :
  relay_update_from_exported_storage now payload m = update_from_exported_storage now payload m.
Proof.
  unfold relay_update_from_exported_storage, update_from_exported_storage.
  replace (default "unknown" _) with (payload_account payload)
    by (unfold payload_account; destruct (se_user_account _) as [ua|]; [|done];
        simpl; by destruct (accounts ua) as [|[] ?]).
  unfold relay_update_aggregated_metrics, update_aggregated_metrics, entry_or_insert. simpl.
  unfold process_peer_network_metrics, process_value_metrics, process_transaction_metrics,
    process_basic_metrics. simpl.
  set (ds := saturating_sub _ (default _ _).1). set (df := saturating_sub _ (default _ _).2).
  destruct m as [times totals ts tf rate clients]. simpl in *.
  destruct (N.ltb_spec 0 ds), (N.ltb_spec 0 df);
    simpl; destruct (N.ltb_spec 0 (N.of_nat (length (success_transactions (storage_export payload)))
                               + N.of_nat (length (failed_transactions (storage_export payload)))));
    unfold with_per_client; simpl; f_equal; try lia;
    destruct (clients !! payload_account payload); rewrite merge_failed_loop, ?insert_insert_eq; done.
Qed.

(** the relay's own code for client metrics, which updates a snapshot in place and
    skips zero differences, computes what the backend's does: after the same posts the
    two stores are equal. *)
Theorem relay_store_agrees posts :
  foldl (λ m post, relay_update_from_exported_storage post.1 post.2 m) ClientMetricsStore_new
    posts = store_after posts.
Proof.
  unfold store_after. generalize ClientMetricsStore_new.
  induction posts as [|post posts IH]; intros m; [done|]. simpl.
  by rewrite relay_update_agrees.
Qed.
