(* ===== verification/MetricsHttp.v ===== *)
(** The metrics pages of the relay ([node/relay/src/metric_server.rs]) and of the backend
    ([MetricsServer] in [node/vane-backend/src/server.rs]).

    A response is a status and a JSON document.  The relay's stores are behind [std]
    mutexes, which a panic poisons; the backend's behind [tokio]'s, which it does not.
    A page that lists a [HashMap] or a [HashSet] has the order of its iteration as an
    argument ([HashOrder]), which may differ at every request.  The routes and the
    relay's text page are in [RelayPages.v] and [BackendPages.v]; what the [Json] extractor
    makes of a posted body is part of a request. *)

From S2P Require Import Prelude DataStructure Codec Json Server ServerInvariant.
From S2P Require Import ClientMetrics RelayMetrics MainService NodeSamples.
Open Scope N_scope.

(** The order in which one reading visits the values of a map and the members of a set. *)
Record HashOrder := {
  set_order : gset string → list string;
  map_order : gmap string ClientSnapshot → list ClientSnapshot;
  set_order_perm s : set_order s ≡ₚ elements s;
  map_order_perm m : map_order m ≡ₚ (map_to_list m).*2
}.

(** ** JSON values *)

(** [serde_json::to_value] of a [u128]: a [Value] holds the integers of an [u64]. *)
Class JsonNumbers := u128_to_value : N → option json.
Class JsonNumbersLaws `{JsonNumbers} : Prop := {
  u128_small n : fits 64 n → u128_to_value n = Some (se_u n);
  u128_large n : ¬ fits 64 n → u128_to_value n = None
}.

Section values.
Context {JN : JsonNumbers}.

Definition DbTxStateMachine_to_value (tx : DbTxStateMachine) : option json :=
  amount ← u128_to_value (db_amount tx);
  Some (JObject
    [("tx_hash", se_bytes (db_tx_hash tx)); ("amount", amount);
     ("token", Token_serialize (db_token tx)); ("sender", JString (db_sender tx));
     ("receiver", JString (db_receiver tx));
     ("sender_network", ChainSupported_serialize (db_sender_network tx));
     ("receiver_network", ChainSupported_serialize (db_receiver_network tx));
     ("success", JBool (db_success tx))]).

Definition ClientSnapshot_to_value (c : ClientSnapshot) : option json :=
  failed ← mapM DbTxStateMachine_to_value (cs_failed_transactions c);
  Some (JObject
    [("account_id", JString (cs_account_id c)); ("success_txs", se_u (success_txs c));
     ("failed_txs", se_u (failed_txs c)); ("failed_transactions", JArray failed)]).

(** [client_metrics.per_client.values().cloned().collect()] *)
Definition snapshots (ord : HashOrder) (m : ClientMetricsStore) : list ClientSnapshot :=
  map_order ord (per_client m).

(** [json!({"clients": list})], which unwraps the conversion. *)
Definition clients_json (ord : HashOrder) (m : ClientMetricsStore) : outcome json :=
  values ← expect (mapM ClientSnapshot_to_value (snapshots ord m)) "number out of range";
  mret (JObject [("clients", JArray values)]).
End values.

Definition PeerPair_serialize (p : PeerPair) : json :=
  JObject [("src_peer_id", JString (pp_src_peer_id p)); ("dst_peer_id", JString (pp_dst_peer_id p))].
Definition CircuitClosedDetail_serialize (c : CircuitClosedDetail) : json :=
  JObject [("src_peer_id", JString (cc_src_peer_id c)); ("dst_peer_id", JString (cc_dst_peer_id c));
           ("error", se_option JString (cc_error c))].
Definition CircuitDeniedDetail_serialize (c : CircuitDeniedDetail) : json :=
  JObject [("src_peer_id", JString (cd_src_peer_id c)); ("dst_peer_id", JString (cd_dst_peer_id c));
           ("status", JString (cd_status c))].

Record ReservationsSummary := { rs_accepted_peers : list string; rs_closed_peers : list string }.
Record CircuitsSummary := {
  cs_accepted : list PeerPair;
  cs_closed : list CircuitClosedDetail;
  cs_denied : list CircuitDeniedDetail
}.
Record RelayEventsSummary := { reservations : ReservationsSummary; circuits : CircuitsSummary }.

Definition RelayEventsSummary_serialize (s : RelayEventsSummary) : json := JObject
  [("reservations", JObject
      [("accepted_peers", se_list JString (rs_accepted_peers (reservations s)));
       ("closed_peers", se_list JString (rs_closed_peers (reservations s)))]);
   ("circuits", JObject
      [("accepted", se_list PeerPair_serialize (cs_accepted (circuits s)));
       ("closed", se_list CircuitClosedDetail_serialize (cs_closed (circuits s)));
       ("denied", se_list CircuitDeniedDetail_serialize (cs_denied (circuits s)))])].

(** ** The relay's pages *)

Record response := { status_code : N; body : json }.
Definition http_ok (j : json) : response := {| status_code := 200; body := j |}.
Definition http_error (msg : string) : response :=
  {| status_code := 500; body := JObject [("error", JString msg)] |}.

(** A page of text. *)
Record text_response := { text_status : N; content_type : string; text : string }.

(** A request; a posted body is what the [Json] extractor makes of it, or the status with
    which it refuses it.  (A HEAD request is answered as GET is, without the body.) *)
Inductive http_method := GET | POST | OtherMethod.
Record http_request := {
  method : http_method; path : string; posted : ClientMetricsPayload + N }.

Inductive http_reply :=
  | JsonReply (r : response)
  | TextReply (r : text_response)
  | Refused (status : N).

(** A [std::sync::Mutex] between two critical sections. *)
Record Mutex A := mutex { guarded : A; poisoned : bool }.
Arguments mutex {A}.
Arguments guarded {A}.
Arguments poisoned {A}.

Record MetricService := {
  relay_metrics : Mutex RelayMetrics;
  client_metrics : Mutex ClientMetricsStore
}.

Definition MetricService_new : MetricService := {|
  relay_metrics := mutex RelayMetrics_new false;
  client_metrics := mutex ClientMetricsStore_new false
|}.

Definition with_relay_metrics f (s : MetricService) : MetricService := {|
  relay_metrics := f (relay_metrics s); client_metrics := client_metrics s |}.
Definition with_client_metrics f (s : MetricService) : MetricService := {|
  relay_metrics := relay_metrics s; client_metrics := f (client_metrics s) |}.

(** [if let Ok(mut m) = self.relay_metrics.lock()], for a section that cannot panic. *)
Definition if_locked {A} (f : A → A) (mu : Mutex A) : Mutex A :=
  if poisoned mu then mu else mutex (f (guarded mu)) false.

(** [match mu.lock()], for a section that reads and may panic: the guard is dropped
    while the thread unwinds. *)
Definition match_lock {A} (get : MetricService → Mutex A)
    (put : (Mutex A → Mutex A) → MetricService → MetricService)
    (f : A → outcome response) (refused : response) : M MetricService response := λ s,
  if poisoned (get s) then (Ok refused, s)
  else match f (guarded (get s)) with
       | Panic p => (Panic p, put (λ mu, mutex (guarded mu) true) s)
       | o => (o, s)
       end.

Section relay.
Context {RT : RelayTypes} {JN : JsonNumbers}.

Definition relay_handle_client_metrics (now : N) (payload : ClientMetricsPayload) :
    M MetricService response :=
  mu ← gets client_metrics;
  if poisoned mu then mret (http_error "Failed to update metrics")
  else
    modify (with_client_metrics (if_locked (relay_update_from_exported_storage now payload)));;
    mret (http_ok (JObject [("status", JString "success")])).

Definition relay_client_metrics_summary (ord : HashOrder) : M MetricService response :=
  match_lock client_metrics with_client_metrics
    (λ m, list ← clients_json ord m; mret (http_ok list))
    (http_error "Failed to read client metrics").

Definition events_summary (ord : HashOrder) (m : RelayMetrics) : RelayEventsSummary := {|
  reservations := {| rs_accepted_peers := set_order ord (reservation_accepted_peers m);
                     rs_closed_peers := set_order ord (reservation_closed_peers m) |};
  circuits := {| cs_accepted := circuit_accepted_pairs m;
                 cs_closed := circuit_closed_pairs m;
                 cs_denied := circuit_denied m |} |}.

Definition relay_events_summary (ord : HashOrder) : M MetricService response :=
  match_lock relay_metrics with_relay_metrics
    (λ m, mret (http_ok (JObject [("relay", RelayEventsSummary_serialize (events_summary ord m))])))
    (http_error "Failed to read relay events").

(** What happens to a running relay. *)
Inductive relay_step :=
  | SwarmEmits (event : SwarmEvent)
  | PostClientMetrics (now : N) (payload : ClientMetricsPayload)
  | GetClientMetricsSummary (ord : HashOrder)
  | GetRelayEventsSummary (ord : HashOrder).

Definition run_relay_step (x : relay_step) : M MetricService (option response) :=
  match x with
  | SwarmEmits event =>
      modify (with_relay_metrics (if_locked (handle_swarm_event event)));; mret None
  | PostClientMetrics now payload =>
      r ← relay_handle_client_metrics now payload; mret (Some r)
  | GetClientMetricsSummary ord => r ← relay_client_metrics_summary ord; mret (Some r)
  | GetRelayEventsSummary ord => r ← relay_events_summary ord; mret (Some r)
  end.

Definition relay_run (l : list relay_step) (s : MetricService) : MetricService :=
  foldl (λ s x, (run_relay_step x s).2) s l.
End relay.

(** ** The backend's pages *)

(** [g.get() as usize], on a 64-bit target. *)
Definition i64_as_usize (z : Z) : N := Z.to_N (z mod 2 ^ 64).

Definition get_metrics_summary : M BackendMetrics response :=
  metrics ← gets id;
  mret (http_ok (JObject [("backend", JObject
    [("sender_requests_total", se_u (sender_requests_total metrics));
     ("receiver_responses_total", se_u (receiver_responses_total metrics));
     ("receiver_not_found_total", se_u (receiver_not_found_total metrics));
     ("active_peers", se_u (i64_as_usize (active_peers metrics)));
     ("pending_requests", se_u (i64_as_usize (pending_requests metrics)));
     ("new_clients_joined", se_u (new_clients_joined metrics))])])).

Definition backend_handle_client_metrics (now : N) (payload : ClientMetricsPayload) :
    M ClientMetricsStore response :=
  modify (update_from_exported_storage now payload);;
  mret (http_ok (JObject [("status", JString "success")])).

Definition backend_client_metrics_summary `{JsonNumbers} (ord : HashOrder) :
    M ClientMetricsStore response :=
  client_metrics ← gets id;
  list ← lift (clients_json ord client_metrics);
  mret (http_ok list).

(** ** What the relay's pages show *)

Section relay_pages.
Context {RT : RelayTypes} {JN : JsonNumbers}.

Definition swarm_events : list relay_step → list SwarmEvent :=
  omap (λ x, match x with SwarmEmits event => Some event | _ => None end).

Lemma match_lock_keeps {A B} (get : MetricService → Mutex A) put f refused
    (other : MetricService → B) s :
  (∀ g s, other (put g s) = other s) → other (match_lock get put f refused s).2 = other s.
Proof.
  intros Hput. unfold match_lock. destruct (poisoned _); [done|].
  by destruct (f _); simpl.
Qed.

Lemma relay_run_history l :
  relay_metrics (relay_run l MetricService_new) = mutex (history (swarm_events l)) false.
Proof.
  unfold relay_run, swarm_events. induction l as [|x l IH] using rev_ind; [done|].
  rewrite foldl_app, omap_app. set (s := foldl _ _ l) in *. simpl.
  destruct x as [e|now payload|ord|ord]; simpl; rewrite ?app_nil_r.
  - rewrite IH, history_snoc. done.
  - unfold relay_handle_client_metrics. rewrite run_bind_bind, run_bind_gets.
    by destruct (poisoned (client_metrics s)).
  - pose proof (match_lock_keeps client_metrics with_client_metrics
      (λ m, list ← clients_json ord m; mret (http_ok list))
      (http_error "Failed to read client metrics") relay_metrics s (λ _ _, eq_refl)) as Hsame.
    fold (relay_client_metrics_summary ord) in Hsame. rewrite <-IH, <-Hsame.
    unfold mbind, M_bind. by destruct (relay_client_metrics_summary ord s) as [[] ?].
  - unfold relay_events_summary, match_lock, mbind, M_bind. by rewrite !IH.
Qed.

(** A listing of a set built from a history: each member once, in some order. *)
Lemma set_order_history ord (l : list string) :
  NoDup (set_order ord (list_to_set l)) ∧ ∀ x, x ∈ set_order ord (list_to_set l) ↔ x ∈ l.
Proof.
  rewrite (set_order_perm ord (list_to_set l)). split; [apply NoDup_elements|].
  intros x. rewrite (set_order_perm ord (list_to_set l)), elem_of_elements.
  apply elem_of_list_to_set.
Qed.

(** C40: whatever is posted to the relay and asked of it in between, its metrics are those
    of the whole history of its swarm's events.  Each accepted or closed circuit, each
    accepted or closed reservation and each connection event counts once.  The events page
    lists every accepted circuit and every closed circuit, in the order of the events and
    with repetitions; of the reservations it lists the peers that had one accepted and
    those that had one closed, each peer once and in no particular order.  Connection events are
    only counted.  Refused circuits and reservations and those that timed out leave no
    trace: their three totals stay zero and the list of refused circuits stays empty. *)
Theorem relay_pages_show_history (l : list relay_step) (ord : HashOrder) :
  let s := relay_run l MetricService_new in
  let events := swarm_events l in
  relay_metrics s = mutex (history events) false ∧
  ∃ accepted closed,
    relay_events_summary ord s =
      (Ok (http_ok (JObject [("relay", RelayEventsSummary_serialize {|
         reservations := {| rs_accepted_peers := accepted; rs_closed_peers := closed |};
         circuits := {| cs_accepted := accepted_circuits events;
                        cs_closed := closed_circuits events;
                        cs_denied := [] |} |})])), s) ∧
    NoDup accepted ∧ (∀ peer, peer ∈ accepted ↔ peer ∈ accepted_reservations events) ∧
    NoDup closed ∧ (∀ peer, peer ∈ closed ↔ peer ∈ closed_reservations events).
Proof.
  cbv zeta. split; [apply relay_run_history|]. do 2 eexists. split.
  - unfold relay_events_summary, match_lock. by rewrite relay_run_history.
  - destruct (set_order_history ord (accepted_reservations (swarm_events l))).
    destruct (set_order_history ord (closed_reservations (swarm_events l))). done.
Qed.

(** *** A large amount *)

Context {LAWS : JsonNumbersLaws}.

Lemma mapM_none {A B} (f : A → option B) l x : x ∈ l → f x = None → mapM f l = None.
Proof.
  induction l as [|y l IH]; [intros Hin; by apply not_elem_of_nil in Hin|].
  intros [->|Hin]%elem_of_cons Hx; simpl; [by rewrite Hx|].
  destruct (f y); [|done]. simpl. by rewrite IH.
Qed.

Lemma clients_json_large ord m account c tx :
  per_client m !! account = Some c → tx ∈ cs_failed_transactions c → ¬ fits 64 (db_amount tx) →
  clients_json ord m = Panic (ExpectFailed "number out of range").
Proof.
  intros Hc Htx Hbig. unfold clients_json.
  rewrite (mapM_none ClientSnapshot_to_value _ c); [done| |].
  - unfold snapshots. rewrite (map_order_perm ord (per_client m)).
    apply list_elem_of_fmap. exists (account, c). split; [done|].
    by apply elem_of_map_to_list.
  - unfold ClientSnapshot_to_value. rewrite (mapM_none _ _ tx Htx); [done|].
    unfold DbTxStateMachine_to_value. by rewrite u128_large.
Qed.

(** A service whose client store is poisoned. *)
Definition poisoned_with (m : ClientMetricsStore) (s : MetricService) : Prop :=
  client_metrics s = mutex m true.

Lemma poisoned_step m x s : poisoned_with m s → poisoned_with m (run_relay_step x s).2.
Proof.
  unfold poisoned_with. intros Hs. destruct x as [e|now payload|ord|ord]; simpl.
  - done.
  - unfold relay_handle_client_metrics. by rewrite run_bind_bind, run_bind_gets, Hs.
  - unfold relay_client_metrics_summary, match_lock, mbind, M_bind. by rewrite Hs.
  - pose proof (match_lock_keeps relay_metrics with_relay_metrics
      (λ m, mret (http_ok (JObject [("relay", RelayEventsSummary_serialize (events_summary ord m))])))
      (http_error "Failed to read relay events") client_metrics s (λ _ _, eq_refl)) as Hsame.
    fold (relay_events_summary ord) in Hsame. rewrite <-Hs, <-Hsame.
    unfold mbind, M_bind. by destruct (relay_events_summary ord s) as [[] ?].
Qed.

(** one failed transaction of 2^64 base units or more (on Ethereum 18.4 ether) in a
    client's report ends the relay's client metrics: the next reader of the summary
    panics while it holds the lock, and from then on, whatever happens, every report is
    refused with an error, the summary is refused, and the store stays as it is. *)
Theorem large_amount_poisons_the_relay (s : MetricService) ord account c tx
    (Hlock : poisoned (client_metrics s) = false)
    (Hc : per_client (guarded (client_metrics s)) !! account = Some c)
    (Htx : tx ∈ cs_failed_transactions c) (Hbig : ¬ fits 64 (db_amount tx)) :
  (relay_client_metrics_summary ord s).1 = Panic (ExpectFailed "number out of range") ∧
  ∀ l now payload ord', let s' := relay_run l (relay_client_metrics_summary ord s).2 in
    client_metrics s' = mutex (guarded (client_metrics s)) true ∧
    relay_handle_client_metrics now payload s' =
      (Ok (http_error "Failed to update metrics"), s') ∧
    relay_client_metrics_summary ord' s' = (Ok (http_error "Failed to read client metrics"), s').
Proof.
  unfold relay_client_metrics_summary at 1 2. unfold match_lock. rewrite Hlock.
  rewrite (clients_json_large ord _ account c tx) by done. split; [done|].
  intros l now payload ord'.
  cbv zeta. simpl. set (s0 := with_client_metrics _ s).
  assert (poisoned_with (guarded (client_metrics s)) (relay_run l s0)) as Hs'.
  { assert (poisoned_with (guarded (client_metrics s)) s0) as Hs0 by done. revert Hs0.
    generalize s0. unfold relay_run. induction l as [|x l IH]; intros s1 Hs1; [done|].
    simpl. by apply IH, poisoned_step. }
  unfold poisoned_with in Hs'. split_and!; [exact Hs'| |].
  - unfold relay_handle_client_metrics. rewrite run_bind_gets. by rewrite Hs'.
  - unfold relay_client_metrics_summary, match_lock. by rewrite Hs'.
Qed.
End relay_pages.

(** ** What the backend's summary shows *)

Section backend_pages.
Context {JSON : TxJson} {HEX : Hex} {BP : BuildProfile}.

Definition none_not_found (s : VaneSwarmServer) : Prop :=
  receiver_not_found_total (metrics s) = 0.

Ltac untouched :=
  repeat match goal with
  | |- preserves _ (mbind _ _) => apply preserves_bind; [|intros ?]
  | |- preserves _ (modify _) => apply preserves_modify; done
  | |- preserves _ (match ?x with _ => _ end) => destruct x
  | |- preserves _ (if ?x then _ else _) => destruct x
  | |- preserves _ _ => by intros ? ?
  end.

Lemma update_metrics_not_found t0 t1 : preserves none_not_found (update_metrics t0 t1).
Proof. unfold update_metrics, cleanup_expired_requests. untouched. Qed.
Lemma update_request_not_found t0 t1 t2 id data :
  preserves none_not_found (update_request t0 t1 t2 id data).
Proof. unfold update_request, send_event. untouched. Qed.
Lemma insert_request_not_found t0 t1 t2 id data :
  preserves none_not_found (insert_request t0 t1 t2 id data).
Proof. unfold insert_request. untouched. Qed.
#[local] Hint Resolve update_metrics_not_found update_request_not_found
  insert_request_not_found : core.

Lemma run_call_not_found c : preserves none_not_found (run_call c).
Proof.
  destruct c; simpl;
    unfold handle_sender_request, handle_receiver_response, handle_sender_confirmation,
      handle_sender_revertation, handle_tx_submission_updates, disconnect_peer,
      record_target_peer, rpc_fetch_pending_transactions, decode_tx, send_event,
      try_send_notification; cbv zeta;
    repeat first [solve [auto] | progress untouched].
Qed.

(** on every state the backend reaches, the summary page's number of active peers is
    the number of senders in the peer table, read back exactly from a signed gauge; the
    number of receivers not found is always zero, since no handler records one. *)
Theorem backend_summary_exact (s : VaneSwarmServer) (Hs : reachable s)
    (Hsize : (Z.of_nat (size (peers s)) < 2 ^ 63)%Z) :
  ∃ fields, get_metrics_summary (metrics s) =
      (Ok (http_ok (JObject [("backend", JObject fields)])), metrics s) ∧
    map_get "active_peers" fields = Some (JNumber (Z.of_nat (size (peers s)))) ∧
    map_get "receiver_not_found_total" fields = Some (JNumber 0).
Proof.
  assert (none_not_found s) as Hnone.
  { clear Hsize. induction Hs as [|c s Hs IH]; [done|by apply run_call_not_found]. }
  apply reachable_server_inv in Hs as [_ [Hact _]].
  unfold get_metrics_summary. rewrite run_bind_gets. eexists. split; [reflexivity|].
  unfold none_not_found in Hnone. simpl. rewrite Hact, Hnone. split; [|done].
  unfold i64_as_usize, se_u. rewrite Z.mod_small by lia. rewrite Z2N.id by lia. done.
Qed.
End backend_pages.

(** ** Witnesses *)

#[local] Instance sample_numbers : JsonNumbers :=
  λ n, if decide (fits 64 n) then Some (se_u n) else None.
#[local] Instance sample_numbers_laws : JsonNumbersLaws.
Proof. split; intros n Hn; unfold u128_to_value, sample_numbers; by case_decide. Qed.
#[local] Instance sample_relay : RelayTypes :=
  {| RelayPeer := string; peer_to_string := id; CircuitError := string; error_debug := id;
     DeniedStatus := unit |}.

(** A report of one failed transfer of 20 ether, in wei. *)
Definition twenty_ether : DbTxStateMachine := {|
  db_tx_hash := []; db_amount := 20000000000000000000; db_token := Token_default;
  db_sender := "alice"; db_receiver := "bob"; db_sender_network := Ethereum;
  db_receiver_network := Ethereum; db_success := false |}.
Definition large_report : ClientMetricsPayload := {|
  cmp_peer_id := "alice"; client_type := "wasm"; cmp_timestamp := 100;
  storage_export := {|
    se_user_account := Some alice_account; se_nonce := 1;
    success_transactions := []; failed_transactions := [twenty_ether] |} |}.

Definition reported_service : MetricService :=
  relay_run [SwarmEmits (ConnectionEstablished "alice"); PostClientMetrics 100 large_report]
    MetricService_new.

(** The order of the finite map. *)
Definition sample_order : HashOrder := {|
  set_order := elements; map_order m := (map_to_list m).*2;
  set_order_perm s := Permutation_refl _; map_order_perm m := Permutation_refl _ |}.

Lemma large_amount_poisons_the_relay_witness :
  (relay_handle_client_metrics 90 two_failures MetricService_new).1 =
    Ok (http_ok (JObject [("status", JString "success")])) ∧
  (relay_client_metrics_summary sample_order reported_service).1 =
    Panic (ExpectFailed "number out of range") ∧
  (relay_handle_client_metrics 200 two_failures
     (relay_client_metrics_summary sample_order reported_service).2).1 =
    Ok (http_error "Failed to update metrics").
Proof.
  destruct (large_amount_poisons_the_relay reported_service sample_order "alice"
    {| cs_account_id := "alice"; success_txs := 0; failed_txs := 1;
       cs_failed_transactions := [twenty_ether] |} twenty_ether) as [Hfirst Hlater];
    [reflexivity|vm_compute; reflexivity|by left|vm_compute; discriminate|].
  split_and!; [reflexivity|exact Hfirst|].
  destruct (Hlater [] 200 two_failures sample_order) as (_ & Hpost & _).
  exact (f_equal fst Hpost).
Defined.

Lemma backend_summary_exact_witness :
  ∃ fields, get_metrics_summary (metrics sample_server) =
      (Ok (http_ok (JObject [("backend", JObject fields)])), metrics sample_server) ∧
    map_get "active_peers" fields = Some (JNumber 1).
Proof.
  destruct (@backend_summary_exact sample_json sample_hex release_profile sample_server
    sample_server_reachable ltac:(vm_compute; reflexivity)) as (fields & Hrun & Hact & _).
  exists fields. split; [exact Hrun|]. rewrite Hact.
  replace (size (peers sample_server)) with 1%nat by (vm_compute; reflexivity). reflexivity.
Defined.
