(* ===== verification/RelayPages.v ===== *)
(** The relay as a server ([node/relay/src]): the metrics it registers and the OpenMetrics
    page that shows them ([metric_server.rs]), the routes of its pages, its identity and
    addresses ([RelayP2pWorker::new] in [p2p.rs]), and its start ([lib.rs]).

    The text format of OpenMetrics, keys and the listening of a swarm are third parties';
    a registry keeps what is registered in its order, and reads the metrics, which are
    shared counters and not copies, when it is encoded. *)

From S2P Require Import Prelude DataStructure Codec Json TxProcessing MainService NodeSamples.
From S2P Require Import ClientMetrics RelayMetrics MetricsHttp.
Open Scope N_scope.

(** ** The registry *)

Inductive metric_handle :=
  | RelayCounter (read : RelayMetrics → N)
  | ClientCounter (read : ClientMetricsStore → N)
  | ClientGauge (read : ClientMetricsStore → Z).

Inductive metric_value := CounterValue (n : N) | GaugeValue (z : Z).
#[export] Instance metric_value_eq_decision : EqDecision metric_value.
Proof. solve_decision. Defined.

Record registered := { metric_name : string; metric_help : string; handle : metric_handle }.
Abbreviation Registry := (list registered).

Definition register (name help : string) (h : metric_handle) (registry : Registry) : Registry :=
  registry ++ [{| metric_name := name; metric_help := help; handle := h |}].

(** [RelayMetrics::register] *)
Definition relay_register (registry : Registry) : Registry :=
  let registry := register "relay_circuits_accepted_total" "Total circuits accepted"
    (RelayCounter circuits_accepted_total) registry in
  let registry := register "relay_circuits_closed_total" "Total circuits closed"
    (RelayCounter circuits_closed_total) registry in
  let registry := register "relay_circuits_denied_total" "Total circuits denied"
    (RelayCounter circuits_denied_total) registry in
  let registry := register "relay_reservations_accepted_total" "Total reservations accepted"
    (RelayCounter reservations_accepted_total) registry in
  let registry := register "relay_reservations_closed_total" "Total reservations closed"
    (RelayCounter reservations_closed_total) registry in
  let registry := register "relay_reservations_denied_total" "Total reservations denied"
    (RelayCounter reservations_denied_total) registry in
  let registry := register "relay_reservations_timed_out_total" "Total reservations timed out"
    (RelayCounter reservations_timed_out_total) registry in
  register "relay_connections_total" "Total connection events"
    (RelayCounter connections_total) registry.

(** [ClientMetricsStore::register] *)
Definition client_register (registry : Registry) : Registry :=
  let registry := register "total_success_txs" "Total successful transactions"
    (ClientCounter total_success_txs) registry in
  let registry := register "total_failed_txs" "Total failed transactions"
    (ClientCounter total_failed_txs) registry in
  register "tx_success_rate_percent" "Transaction success rate (percent)"
    (ClientGauge tx_success_rate_percent) registry.

(** The registry of [MetricService::new]. *)
Definition service_registry : Mutex Registry :=
  mutex (client_register (relay_register [])) false.

(** A handle reads its metric, whether or not the store's lock is poisoned. *)
Definition read_handle (s : MetricService) (h : metric_handle) : metric_value :=
  match h with
  | RelayCounter read => CounterValue (read (guarded (relay_metrics s)))
  | ClientCounter read => CounterValue (read (guarded (client_metrics s)))
  | ClientGauge read => GaugeValue (read (guarded (client_metrics s)))
  end.

Definition samples (registry : Registry) (s : MetricService) :
    list (string * string * metric_value) :=
  (λ r, (metric_name r, metric_help r, read_handle s (handle r))) <$> registry.

(** [prometheus_client::encoding::text::encode] *)
Class OpenMetrics := encode_text : list (string * string * metric_value) → outcome string.

(** ** Pages *)

Definition METRICS_CONTENT_TYPE : string :=
  "application/openmetrics-text;charset=utf-8;version=1.0.0".

Section pages.
Context {RT : RelayTypes} {JN : JsonNumbers} {OM : OpenMetrics}.

Definition respond_with_metrics (reg : Mutex Registry) (s : MetricService) : outcome text_response :=
  if poisoned reg then Ok {|
    text_status := 500; content_type := "text/plain";
    text := "Failed to acquire registry lock: poisoned lock: another task failed inside" |}
  else match encode_text (samples (guarded reg) s) with
       | Ok sink => Ok {|
           text_status := 200; content_type := METRICS_CONTENT_TYPE; text := sink |}
       | Err e => Ok {|
           text_status := 500; content_type := "text/plain";
           text := "Failed to encode metrics: " +:+ e |}
       | Panic p => Panic p
       | Parked => Parked
       end.

(** [metrics_server]: a path that is not routed is not found, another method refused. *)
Definition metrics_server (ord : HashOrder) (now : N) (req : http_request) :
    M MetricService http_reply :=
  if decide (path req = "/metrics") then
    match method req with
    | GET => s ← gets id; r ← lift (respond_with_metrics service_registry s); mret (TextReply r)
    | _ => mret (Refused 405)
    end
  else if decide (path req = "/client-metrics-summary") then
    match method req with
    | GET => r ← relay_client_metrics_summary ord; mret (JsonReply r)
    | _ => mret (Refused 405)
    end
  else if decide (path req = "/relay-events-summary") then
    match method req with
    | GET => r ← relay_events_summary ord; mret (JsonReply r)
    | _ => mret (Refused 405)
    end
  else if decide (path req = "/client-metrics") then
    match method req with
    | POST =>
        match posted req with
        | inl payload => r ← relay_handle_client_metrics now payload; mret (JsonReply r)
        | inr status => mret (Refused status)
        end
    | _ => mret (Refused 405)
    end
  else mret (Refused 404).

(** What the stores hold, whoever poisoned their locks. *)
Definition contents (s : MetricService) : RelayMetrics * ClientMetricsStore :=
  (guarded (relay_metrics s), guarded (client_metrics s)).

Lemma contents_match_lock {A} (get : MetricService → Mutex A) put f refused s :
  (∀ s, contents (put (λ mu, mutex (guarded mu) true) s) = contents s) →
  contents (match_lock get put f refused s).2 = contents s.
Proof.
  intros Hput. unfold match_lock. destruct (poisoned _); [done|].
  destruct (f _); simpl; [done|done|apply Hput|done].
Qed.

(** Reading changes nothing: of all requests only a report of a client that is accepted
    changes what the relay has recorded, and that only its client metrics. *)
Theorem only_reports_are_recorded ord now req s :
  guarded (relay_metrics (metrics_server ord now req s).2) = guarded (relay_metrics s) ∧
  ((method req ≠ POST ∨ path req ≠ "/client-metrics" ∨ ∃ status, posted req = inr status) →
   contents (metrics_server ord now req s).2 = contents s).
Proof.
  assert (contents (relay_client_metrics_summary ord s).2 = contents s) as Hclients
    by (apply contents_match_lock; by intros [[] []]).
  assert (contents (relay_events_summary ord s).2 = contents s) as Hevents
    by (apply contents_match_lock; by intros [[] []]).
  unfold metrics_server.
  repeat (case_decide; [destruct (method req); try by split|]).
  - rewrite run_bind_gets. by destruct (respond_with_metrics _ _).
  - rewrite run_bind. destruct (relay_client_metrics_summary ord s) as [[] s'];
      simpl in *; (split; [by injection Hclients|done]).
  - rewrite run_bind. destruct (relay_events_summary ord s) as [[] s'];
      simpl in *; (split; [by injection Hevents|done]).
  - destruct (posted req) as [payload|status]; [|by split]. split.
    + unfold relay_handle_client_metrics. rewrite run_bind_bind, run_bind_gets.
      by destruct (poisoned (client_metrics s)).
    + intros [|[|[]]]; done.
  - by split.
Qed.

(** The text page is not hurt by a poisoned lock: after any run of the relay, readers
    that panicked included, it answers with the totals of the whole history of the swarm's
    events and with those of the clients as far as they were recorded. *)
Theorem text_page_shows_history (l : list relay_step) :
  let s := relay_run l MetricService_new in
  let h := history (swarm_events l) in
  (∃ c, samples (guarded service_registry) s =
    [("relay_circuits_accepted_total", "Total circuits accepted",
        CounterValue (circuits_accepted_total h));
     ("relay_circuits_closed_total", "Total circuits closed",
        CounterValue (circuits_closed_total h));
     ("relay_circuits_denied_total", "Total circuits denied", CounterValue 0);
     ("relay_reservations_accepted_total", "Total reservations accepted",
        CounterValue (reservations_accepted_total h));
     ("relay_reservations_closed_total", "Total reservations closed",
        CounterValue (reservations_closed_total h));
     ("relay_reservations_denied_total", "Total reservations denied", CounterValue 0);
     ("relay_reservations_timed_out_total", "Total reservations timed out", CounterValue 0);
     ("relay_connections_total", "Total connection events", CounterValue (connections_total h));
     ("total_success_txs", "Total successful transactions", CounterValue (total_success_txs c));
     ("total_failed_txs", "Total failed transactions", CounterValue (total_failed_txs c));
     ("tx_success_rate_percent", "Transaction success rate (percent)",
        GaugeValue (tx_success_rate_percent c))] ∧
    c = guarded (client_metrics s)) ∧
  (∀ sink, encode_text (samples (guarded service_registry) s) = Ok sink →
   ∀ ord now posted, metrics_server ord now {| method := GET; path := "/metrics"; posted := posted |} s =
     (Ok (TextReply {| text_status := 200; content_type := METRICS_CONTENT_TYPE;
                       text := sink |}), s)).
Proof.
  cbv zeta. split.
  - eexists. split; [|reflexivity]. unfold samples. simpl. by rewrite relay_run_history.
  - intros sink Hsink ord now posted. unfold metrics_server. simpl. rewrite run_bind_gets.
    unfold respond_with_metrics. simpl in *. by rewrite Hsink.
Qed.
End pages.

(** ** The start of the relay *)

(** Keys, the transport and the listening sockets. *)
Class RelaySystem `{RelayTypes} := {
  Keypair : Type;
  (** [hex::decode] *)
  hex_decode : string → outcome bytes;
  ed25519_from_bytes : bytes → outcome Keypair;
  generate_ed25519 : Keypair;
  to_peer_id : Keypair → RelayPeer;
  (** building the swarm with its WebSocket transport *)
  build_swarm : Keypair → outcome unit
}.

(** [private_key_str.strip_prefix("0x").unwrap_or(&private_key_str)] *)
Definition strip_0x (s : string) : string := default s (strip_prefix "0x" s).

Section start.
Context {RT : RelayTypes} {RS : RelaySystem}.

(** The components of an address. *)
Inductive Protocol :=
  | Ip4 (ip : string) | Ip6 (ip : string) | Dns4 (dns : string) | Tcp (port : N)
  | Ws (path : string) | Wss (path : string) | P2p (peer : RelayPeer).
Abbreviation Multiaddr := (list Protocol).

(** [libp2p::relay::Config]; durations in seconds, without rate limiters. *)
Record RelayConfig := {
  max_reservations : N;
  max_reservations_per_peer : N;
  reservation_duration : N;
  max_circuits : N;
  max_circuits_per_peer : N;
  max_circuit_duration : N;
  max_circuit_bytes : N
}.

Definition relay_config : RelayConfig := {|
  max_reservations := 10000;
  max_reservations_per_peer := 1000;
  reservation_duration := 60 * 60;
  max_circuits := 10000;
  max_circuits_per_peer := 100;
  max_circuit_duration := 60 * 20;
  max_circuit_bytes := 128 * 1024
|}.

Record RelayP2pWorker := {
  relay_peer_id : RelayPeer;
  relay_behaviour : RelayConfig;
  external_multi_addr : Multiaddr;
  listening_addr : Multiaddr * Multiaddr
}.

Definition self_keypair (live : bool) (private_key : option string) : outcome Keypair :=
  if live then
    private_key_str ← expect private_key "called `Option::unwrap()` on a `None` value";
    let private_key := strip_0x private_key_str in
    pk ← context "failed to decode hex private key: " (hex_decode private_key);
    context "failed to decode private key: " (ed25519_from_bytes pk)
  else Ok generate_ed25519.

Definition RelayP2pWorker_new (dns : string) (port : N) (live : bool)
    (private_key : option string) : outcome RelayP2pWorker :=
  self_keypair ← self_keypair live private_key;
  let peer_id := to_peer_id self_keypair in
  build_swarm self_keypair;;
  Ok {|
    relay_peer_id := peer_id;
    relay_behaviour := relay_config;
    external_multi_addr := [Dns4 dns; Tcp port; Wss "/"; P2p peer_id];
    listening_addr := ([Ip4 "0.0.0.0"; Tcp port; Ws "/"], [Ip6 "::"; Tcp port; Ws "/"])
  |}.

(** [start_swarm]: listen on both addresses, then handle the events as they come; after
    the last of them the loop waits for another. *)
Definition start_relay_swarm (listen_on : Multiaddr → outcome unit) (worker : RelayP2pWorker)
    (events : list SwarmEvent) : M MetricService unit :=
  lift (listen_on (listening_addr worker).1);;
  lift (listen_on (listening_addr worker).2);;
  for_each (λ e, modify (with_relay_metrics (if_locked (handle_swarm_event e)))) events;;
  lift Parked.

(** [MainRelayServerService::run], which waits for the swarm's task only and logs how
    it ended. *)
Definition MainRelayServerService_run (listen_on : Multiaddr → outcome unit) (dns : string)
    (port : N) (live : bool) (private_key : option string) (events : list SwarmEvent) :
    outcome unit * MetricService :=
  match RelayP2pWorker_new dns port live private_key with
  | Ok p2p_worker =>
      match start_relay_swarm listen_on p2p_worker events MetricService_new with
      | (Parked, s) => (Parked, s)
      | (_, s) => (Ok (), s)
      end
  | Err e => (Err e, MetricService_new)
  | Panic p => (Panic p, MetricService_new)
  | Parked => (Parked, MetricService_new)
  end.

Lemma events_history events :
  for_each (λ e, modify (with_relay_metrics (if_locked (handle_swarm_event e)))) events
    MetricService_new =
  (Ok (), with_relay_metrics (λ _, mutex (history events) false) MetricService_new).
Proof.
  rewrite <-history_run. unfold MetricService_new at 1. generalize RelayMetrics_new as m.
  induction events as [|e events IH]; intros m; [done|]. simpl. rewrite run_bind_modify. apply IH.
Qed.

(** A live relay has the identity of its private key, given with or without [0x]; when it
    listens, its metrics are those of the history of its events for as long as it runs.
    A relay that cannot listen reports success and is gone. *)
Theorem relay_runs_under_its_key listen_on dns port pk kp events
    (Hpk : strip_0x pk = pk) (b : bytes) (Hhex : hex_decode pk = Ok b)
    (Hkey : ed25519_from_bytes b = Ok kp) (Hbuild : build_swarm kp = Ok ()) :
  let run k := MainRelayServerService_run listen_on dns port true (Some k) events in
  (∃ w, RelayP2pWorker_new dns port true (Some pk) = Ok w ∧ relay_peer_id w = to_peer_id kp ∧
     external_multi_addr w = [Dns4 dns; Tcp port; Wss "/"; P2p (to_peer_id kp)]) ∧
  run ("0x" +:+ pk) = run pk ∧
  ((∀ a, listen_on a = Ok ()) →
     (run pk).1 = Parked ∧ relay_metrics (run pk).2 = mutex (history events) false) ∧
  ((∀ a, ∃ e, listen_on a = Err e) → run pk = (Ok (), MetricService_new)).
Proof.
  assert (self_keypair true (Some pk) = Ok kp) as Hself.
  { unfold self_keypair. simpl. rewrite Hpk, Hhex. simpl. by rewrite Hkey. }
  assert (self_keypair true (Some ("0x" +:+ pk)) = Ok kp) as Hself'.
  { unfold self_keypair. cbn [expect mbind outcome_bind]. change (strip_0x ("0x" +:+ pk)) with pk.
    rewrite Hhex. simpl. by rewrite Hkey. }
  cbv zeta. unfold MainRelayServerService_run, RelayP2pWorker_new. rewrite Hself, Hself'.
  simpl. rewrite Hbuild. simpl. split; [by eexists|]. split; [done|]. split.
  - intros Hlisten. unfold start_relay_swarm. simpl. rewrite !Hlisten.
    by rewrite !run_bind_lift_ok, run_bind, events_history.
  - intros Hlisten. unfold start_relay_swarm. simpl.
    destruct (Hlisten [Ip4 "0.0.0.0"; Tcp port; Ws "/"]) as [e He]. by rewrite He.
Qed.
End start.

(** ** Witness *)

Section witness.
#[local] Existing Instance sample_relay.

#[local] Instance sample_system : RelaySystem := {|
  Keypair := bytes; hex_decode s := Ok (as_bytes s); ed25519_from_bytes b := Ok b;
  generate_ed25519 := []; to_peer_id _ := "relay"; build_swarm _ := Ok () |}.

Definition one_connection : list SwarmEvent := [@ConnectionEstablished sample_relay "alice"].

Lemma relay_runs_under_its_key_witness :
  (MainRelayServerService_run (λ _, Ok ()) "relay.vane" 443 true (Some "0xabcd")
     one_connection).1 = Parked ∧
  MainRelayServerService_run (λ _, Ok ()) "relay.vane" 443 true (Some "0xabcd")
    one_connection =
  MainRelayServerService_run (λ _, Ok ()) "relay.vane" 443 true (Some "abcd")
    one_connection.
Proof.
  destruct (relay_runs_under_its_key (RT := sample_relay) (RS := sample_system)
    (λ _, Ok ()) "relay.vane" 443 "abcd" (as_bytes "abcd") one_connection eq_refl
    (as_bytes "abcd") eq_refl eq_refl eq_refl)
    as (_ & Heq & Hrun & _).
  split; [|exact Heq]. change "0xabcd" with ("0x" +:+ "abcd"). rewrite Heq. by apply Hrun.
Defined.
End witness.
