(* ===== verification/BackendPages.v ===== *)
(** The backend as a server ([node/vane-backend/src/server.rs]): the metrics it registers,
    the routes of [MetricsServer], and [VaneSwarmServer::run] with the two servers it
    starts. *)

From stdpp Require Import pretty.
From S2P Require Import Prelude RpcServer DataStructure Codec Json TxProcessing Server.
From S2P Require Import ClientMetrics MetricsHttp.
Open Scope N_scope.

(** ** The metric service *)

Record BackendService := {
  backend_metrics : BackendMetrics;
  backend_clients : ClientMetricsStore
}.

Inductive backend_handle :=
  | BackendCounter (read : BackendMetrics → N)
  | BackendGauge (read : BackendMetrics → Z)
  | BackendClientCounter (read : ClientMetricsStore → N)
  | BackendClientGauge (read : ClientMetricsStore → Z).

(** A name, a help text, a metric. *)
Abbreviation BackendRegistry := (list (string * string * backend_handle)).

(** [BackendMetrics::register] *)
Definition backend_register (registry : BackendRegistry) : BackendRegistry :=
  registry ++
  [("backend_sender_requests_total", "Total sender requests received",
      BackendCounter sender_requests_total);
   ("backend_receiver_responses_total", "Total receiver responses received",
      BackendCounter receiver_responses_total);
   ("backend_receiver_not_found_total", "Total receiver not found events",
      BackendCounter receiver_not_found_total);
   ("backend_peers_added_total", "Total peers added", BackendCounter peers_added_total);
   ("backend_peers_removed_total", "Total peers removed", BackendCounter peers_removed_total);
   ("backend_active_peers", "Current number of active peers", BackendGauge active_peers);
   ("backend_pending_requests", "Current number of pending requests",
      BackendGauge pending_requests);
   ("backend_new_clients_joined", "Total number of new clients that have joined",
      BackendCounter new_clients_joined)].

(** [ClientMetricsStore::register] *)
Definition backend_client_register (registry : BackendRegistry) : BackendRegistry :=
  registry ++
  [("backend_total_success_txs", "Total successful transactions",
      BackendClientCounter total_success_txs);
   ("backend_total_failed_txs", "Total failed transactions",
      BackendClientCounter total_failed_txs);
   ("backend_tx_success_rate_percent", "Transaction success rate (percent)",
      BackendClientGauge tx_success_rate_percent)].

(** [MetricService::new]: the registry is a local of this function, and dropped with it. *)
Definition BackendService_new : BackendService :=
  let registry : BackendRegistry := [] in
  let registry := backend_register registry in
  let registry := backend_client_register registry in
  {| backend_metrics := BackendMetrics_new; backend_clients := ClientMetricsStore_new |}.

(** ** Routes *)

Definition on_backend {A} (m : M BackendMetrics A) : M BackendService A := λ s,
  let '(o, b) := m (backend_metrics s) in
  (o, {| backend_metrics := b; backend_clients := backend_clients s |}).
Definition on_clients {A} (m : M ClientMetricsStore A) : M BackendService A := λ s,
  let '(o, c) := m (backend_clients s) in
  (o, {| backend_metrics := backend_metrics s; backend_clients := c |}).

Section routes.
Context {JN : JsonNumbers}.

(** [MetricsServer::start] *)
Definition MetricsServer_route (ord : HashOrder) (now : N) (req : http_request) :
    M BackendService http_reply :=
  if decide (path req = "/metrics-summary") then
    match method req with
    | GET => r ← on_backend get_metrics_summary; mret (JsonReply r)
    | _ => mret (Refused 405)
    end
  else if decide (path req = "/client-metrics") then
    match method req with
    | POST =>
        match posted req with
        | inl payload =>
            r ← on_clients (backend_handle_client_metrics now payload); mret (JsonReply r)
        | inr status => mret (Refused status)
        end
    | _ => mret (Refused 405)
    end
  else if decide (path req = "/client-metrics-summary") then
    match method req with
    | GET => r ← on_clients (backend_client_metrics_summary ord); mret (JsonReply r)
    | _ => mret (Refused 405)
    end
  else mret (Refused 404).

(** A request that may write: a report of a client whose body was read. *)
Definition reports (req : http_request) : option ClientMetricsPayload :=
  match method req, posted req with
  | POST, inl payload => if decide (path req = "/client-metrics") then Some payload else None
  | _, _ => None
  end.

(** Whatever is asked of the backend's pages, in whatever order, the client metrics are
    those of the reports alone and the backend's own metrics stay as the handlers of the
    RPC server left them; a panic of the summary ends one request and changes nothing. *)
Theorem pages_record_the_reports (reqs : list (HashOrder * N * http_request)) (s : BackendService) :
  let s' := foldl (λ s r, (MetricsServer_route r.1.1 r.1.2 r.2 s).2) s reqs in
  backend_metrics s' = backend_metrics s ∧
  backend_clients s' =
    foldl (λ m post, update_from_exported_storage post.1 post.2 m) (backend_clients s)
      (omap (λ r, payload ← reports r.2; Some (r.1.2, payload)) reqs).
Proof.
  assert (∀ ord now req s,
    backend_metrics (MetricsServer_route ord now req s).2 = backend_metrics s ∧
    backend_clients (MetricsServer_route ord now req s).2 =
      match reports req with
      | Some payload => update_from_exported_storage now payload (backend_clients s)
      | None => backend_clients s
      end) as Hstep.
  { clear. intros ord now [m p b] [bm cm]. unfold MetricsServer_route, reports. simpl.
    repeat case_decide; subst; try done; destruct m; try done; simpl.
    all: try by destruct b.
    unfold backend_client_metrics_summary, on_clients, mbind, M_bind. simpl.
    by destruct (clients_json ord cm), b. }
  cbv zeta. revert s. induction reqs as [|[[ord now] req] reqs IH]; intros s; [done|]. simpl.
  destruct (IH (MetricsServer_route ord now req s).2) as [-> ->].
  destruct (Hstep ord now req s) as [-> ->]. split; [done|]. by destruct (reports req).
Qed.
End routes.

(** ** The two servers *)

(** [MetricsServer::start], on its listener ([bind] and [local_addr]) and [axum::serve],
    which is [Parked] while the pages are served. *)
Definition MetricsServer_start (bind local_addr serve : outcome unit) : outcome unit :=
  bind;;
  local_addr;;
  serve.

(** [VaneSwarmServer::run]: a server that is up is [Parked]; the tasks log an error of
    theirs and end, and the first of the two that ends, ends the backend. *)
Definition server_task (start : outcome unit) : outcome unit :=
  match start with
  | Err _ => Ok ()
  | o => o
  end.

Definition backend_run (logger metrics_server jsonrpc_server : outcome unit) : outcome unit :=
  logger;;
  match server_task metrics_server, server_task jsonrpc_server with
  | Parked, Parked => Parked
  | _, _ => Ok ()
  end.

(** [JsonRpcServer::new] and [start]; a server that was stopped returns its address. *)
Definition JsonRpcServer_new (port : N) : string := "127.0.0.1:" +:+ pretty port.
Definition JsonRpcServer_start `{RpcServerLib} (url : string) : outcome string :=
  server ← rpc_build url;
  address ← context "failed to get address: " (rpc_local_addr server);
  context "rpc handler error: " (rpc_start server);;
  rpc_stopped server;;
  Ok address.

(** The backend runs as long as both of its servers do: when the metrics page cannot be
    started (its port is taken), the backend ends with success, RPC server included. *)
Theorem backend_runs_with_both_servers metrics_server jsonrpc_server :
  (backend_run (Ok ()) metrics_server jsonrpc_server = Parked ↔
     metrics_server = Parked ∧ jsonrpc_server = Parked) ∧
  ∀ e, backend_run (Ok ()) (Err e) jsonrpc_server = Ok ().
Proof.
  split; [|done]. unfold backend_run. simpl.
  destruct metrics_server, jsonrpc_server; simpl; split; (done || by intros [??]).
Qed.

(** With the JSON-RPC server: the backend waits while the server is up, and ends with
    success when its port is taken or it stops, whatever becomes of the pages. *)
Theorem backend_runs_while_rpc_is_up `{RpcServerLib} :
  let rpc : outcome unit := JsonRpcServer_start (JsonRpcServer_new 9947);; Ok () in
  (∀ server address, rpc_build "127.0.0.1:9947" = Ok server →
     rpc_local_addr server = Ok address → rpc_start server = Ok () →
     rpc_stopped server = Parked → backend_run (Ok ()) Parked rpc = Parked) ∧
  (∀ e metrics_server, rpc_build "127.0.0.1:9947" = Err e →
     backend_run (Ok ()) metrics_server rpc = Ok ()).
Proof.
  unfold JsonRpcServer_start. change (JsonRpcServer_new 9947) with "127.0.0.1:9947". split.
  - intros server address Hb Ha Hs Hp. rewrite Hb. simpl. rewrite Ha. simpl. rewrite Hs. simpl.
    by rewrite Hp.
  - intros e metrics_server Hb. rewrite Hb. by destruct metrics_server.
Qed.
