(* ===== verification/Launcher.v ===== *)
(** The program a user starts ([app/src/main.rs]): its command line, its logs, the key of a
    relay, and the relay or the backend it then runs.

    The command line is parsed by [clap], whose result is the value of [Commands]; files
    and loggers are the system's ([LauncherSystem]). *)

From S2P Require Import Prelude RpcServer DataStructure Codec Json TxProcessing Server.
From S2P Require Import ClientMetrics RelayMetrics MetricsHttp RelayPages.
From S2P Require BackendPages Logging.
Open Scope N_scope.

(** ** [str::trim] *)

(** The white space of Unicode, as the bytes of its encoding. *)
Definition white_space : list (list N) :=
  [[9]; [10]; [11]; [12]; [13]; [32]; [194; 133]; [194; 160]; [225; 154; 128]] ++
  ((λ n, [226; 128; n]) <$> [128; 129; 130; 131; 132; 133; 134; 135; 136; 137; 138; 168; 169; 175]) ++
  [[226; 129; 159]; [227; 128; 128]].

Definition is_prefix (p l : list N) : bool := bool_decide (take (length p) l = p).

(** Take white space of [forms] off the front; each round takes a byte or more. *)
Fixpoint strip_white (forms : list (list N)) (fuel : nat) (l : list N) : list N :=
  match fuel with
  | O => l
  | S fuel =>
      match list_find (λ w, is_prefix w l) forms with
      | Some (_, w) => strip_white forms fuel (drop (length w) l)
      | None => l
      end
  end.

Definition trim_start (l : list N) : list N := strip_white white_space (length l) l.
Definition trim_end (l : list N) : list N :=
  reverse (strip_white (reverse <$> white_space) (length l) (reverse l)).

Definition numbers (s : string) : list N := Ascii.N_of_ascii <$> String.list_ascii_of_string s.
Definition of_numbers (l : list N) : string := String.string_of_list_ascii (Ascii.ascii_of_N <$> l).

Definition trim (s : string) : string := of_numbers (trim_end (trim_start (numbers s))).

(** ** The command line *)

Inductive Commands :=
  | RelayNode (dns : string) (port : N) (live : bool) (private_key_file : option string)
      (private_key : option string)
  | VaneBackend.

(** A [relay-node] without options. *)
Definition relay_node_default : Commands := RelayNode "0.0.0.0" 30333 false None None.

(** Files by their paths, and the two loggers. *)
Class LauncherSystem := {
  create_file : string → outcome unit;
  read_to_string : string → outcome string;
  combined_logger_init : Logging.Level → outcome unit;
  simple_logger_init : Logging.Level → outcome unit
}.

Section launcher.
Context {LS : LauncherSystem} {RT : RelayTypes} {RS : RelaySystem} {RL : RpcServerLib}.

(** [result.unwrap()] *)
Definition unwrap {A} (o : outcome A) : outcome A :=
  match o with Err e => Panic (ExpectFailed e) | o => o end.

(** [log_setup]: the terminal and a file, at one level. *)
Definition log_setup (live : bool) : outcome unit :=
  let filter := if live then Logging.Info else Logging.Debug in
  unwrap (create_file "vane.log");;
  unwrap (combined_logger_init filter);;
  Ok ().

Definition resolve_key (cli_key cli_file : option string) : outcome string :=
  match cli_file with
  | Some p => text ← read_to_string p; Ok (trim text)
  | None =>
      match cli_key with
      | Some k => Ok (trim k)
      | None => Err "No private key"
      end
  end.

(** The relay as [main] starts it: whether it may start, and with which key. *)
Definition relay_key (live : bool) (private_key_file private_key : option string) :
    outcome (option string) :=
  log_setup live;;
  (if live && bool_decide (private_key_file = None) && bool_decide (private_key = None)
   then Err "No private key passed in live mode" else Ok ());;
  if live then key ← resolve_key private_key private_key_file; Ok (Some key) else Ok None.

(** [main], by the events of the relay's swarm, and how the pages of the backend end. *)
Definition main (listen_on : list Protocol → outcome unit) (events : list SwarmEvent)
    (metrics_server : outcome unit) (command : Commands) : outcome unit :=
  match command with
  | RelayNode dns port live private_key_file private_key =>
      private_key_opt ← relay_key live private_key_file private_key;
      (MainRelayServerService_run listen_on dns port live private_key_opt events).1;;
      Ok ()
  | VaneBackend =>
      BackendPages.backend_run (simple_logger_init Logging.Info) metrics_server
        (BackendPages.JsonRpcServer_start (BackendPages.JsonRpcServer_new 9947);; Ok ());;
      Ok ()
  end.
End launcher.

(** ** Trimming *)

(** No form of white space begins another, forwards or backwards. *)
Definition prefix_free (forms : list (list N)) : bool :=
  forallb (λ w, forallb (λ w', negb (is_prefix w w') || bool_decide (w = w')) forms) forms.

(** Nothing of [forms] is at the front of [l]. *)
Definition starts_plain (forms : list (list N)) (l : list N) : bool :=
  forallb (λ w, negb (is_prefix w l)) forms.

Lemma is_prefix_spec p l : is_prefix p l = true ↔ p `prefix_of` l.
Proof.
  unfold is_prefix. rewrite bool_decide_eq_true. split.
  - intros <-. apply prefix_take.
  - intros [k ->]. apply take_app_length.
Qed.

Lemma strip_white_plain forms fuel l : starts_plain forms l = true → strip_white forms fuel l = l.
Proof.
  intros Hp. destruct fuel as [|fuel]; [done|]. simpl.
  destruct (list_find _ _) as [[i w]|] eqn:E; [|done].
  apply list_find_Some in E as (Hi & Hw & _). unfold starts_plain in Hp.
  rewrite forallb_forall in Hp. apply list_elem_of_lookup_2, list_elem_of_In in Hi.
  specialize (Hp w Hi). by destruct (is_prefix w l).
Qed.

Lemma strip_white_all forms ws l fuel :
  prefix_free forms = true → [] ∉ forms → Forall (λ w, w ∈ forms) ws →
  starts_plain forms l = true → (length (concat ws ++ l) ≤ fuel)%nat →
  strip_white forms fuel (concat ws ++ l) = l.
Proof.
  intros Hfree Hnil Hws Hl. revert fuel. induction Hws as [|w ws Hw Hws IH]; intros fuel Hf.
  - by apply strip_white_plain.
  - simpl in *. rewrite <-app_assoc in *.
    assert (w ≠ []) as Hne by (intros ->; by destruct Hnil).
    destruct fuel as [|fuel]; [destruct w; simpl in Hf; (done || lia)|]. simpl.
    destruct (list_find _ _) as [[i w']|] eqn:E.
    + apply list_find_Some in E as (Hi & Hw' & _). apply Is_true_eq_true, is_prefix_spec in Hw'.
      assert (w = w') as <-.
      { apply list_elem_of_lookup_2 in Hi.
        unfold prefix_free in Hfree. rewrite forallb_forall in Hfree.
        assert (∀ u v, u ∈ forms → v ∈ forms → u `prefix_of` v → u = v) as Hpf.
        { intros u v Hu Hv Huv. apply list_elem_of_In in Hu, Hv. specialize (Hfree u Hu).
          rewrite forallb_forall in Hfree. specialize (Hfree v Hv).
          rewrite (proj2 (is_prefix_spec u v) Huv) in Hfree. simpl in Hfree.
          by apply bool_decide_eq_true_1 in Hfree. }
        destruct (prefix_weak_total w w' (w ++ concat ws ++ l)) as [?|?];
          [by apply prefix_app_r|done|by apply Hpf|symmetry; by apply Hpf]. }
      rewrite drop_app_length. apply IH. rewrite length_app in Hf.
      destruct w; [done|]. simpl in Hf. lia.
    + apply list_find_None in E. rewrite list.Forall_forall in E. destruct (E w Hw).
      apply Is_true_eq_left, is_prefix_spec. by apply prefix_app_r.
Qed.

(** Bytes of printable text, which no white space starts or ends with. *)
Definition graphic (n : N) : bool := (33 <=? n) && (n <=? 126).
Definition never_graphic (forms : list (list N)) : bool :=
  forallb (λ w, match w with [] => false | b :: _ => negb (graphic b) end) forms.

Lemma graphic_starts_plain forms n l :
  never_graphic forms = true → graphic n = true → starts_plain forms (n :: l) = true.
Proof.
  unfold never_graphic, starts_plain. rewrite !forallb_forall. intros Hf Hn w Hw.
  specialize (Hf w Hw). destruct w as [|b w]; [done|].
  destruct (is_prefix _ _) eqn:E; [|done]. unfold is_prefix in E. simpl in E.
  apply bool_decide_eq_true_1 in E as [= <- _]. by rewrite Hn in Hf.
Qed.

Lemma white_space_ok forms :
  forms = white_space ∨ forms = reverse <$> white_space →
  prefix_free forms = true ∧ never_graphic forms = true ∧ [] ∉ forms.
Proof.
  intros [-> | ->]; (split; [by vm_compute|split; [by vm_compute|]]);
    (refine (bool_decide_unpack _ _); by vm_compute).
Qed.

Lemma reverse_concat (ws : list (list N)) :
  reverse (concat ws) = concat (reverse <$> reverse ws).
Proof.
  induction ws as [|w ws IH]; [done|]. simpl.
  rewrite reverse_app, reverse_cons, fmap_app, concat_app, IH. simpl. by rewrite app_nil_r.
Qed.

Lemma strip_white_graphic forms ws l :
  forms = white_space ∨ forms = reverse <$> white_space →
  Forall (λ w, w ∈ forms) ws → (∃ n k, l = n :: k ∧ graphic n = true) →
  strip_white forms (length (concat ws ++ l)) (concat ws ++ l) = l.
Proof.
  intros Hforms Hws (n & k & -> & Hn). destruct (white_space_ok _ Hforms) as (Hp & Hg & Hnil).
  apply strip_white_all; try done. by apply graphic_starts_plain.
Qed.

Lemma of_numbers_numbers s : of_numbers (numbers s) = s.
Proof.
  unfold of_numbers, numbers. rewrite <-list_fmap_compose.
  rewrite (list_fmap_ext _ id) by (intros; apply Ascii.ascii_N_embedding).
  rewrite list_fmap_id. apply String.string_of_list_ascii_of_string.
Qed.

(** A key is read out of any white space around it. *)
Theorem trim_reads_the_key s key ws ws' :
  numbers s = concat ws ++ numbers key ++ concat ws' →
  Forall (λ w, w ∈ white_space) ws → Forall (λ w, w ∈ white_space) ws' →
  key ≠ "" → Forall (λ n, graphic n = true) (numbers key) → trim s = key.
Proof.
  intros Hs Hws Hws' Hne Hk. unfold trim, trim_start, trim_end. rewrite Hs.
  destruct (numbers key) as [|n k] eqn:Ek.
  { destruct Hne. by rewrite <-(of_numbers_numbers key), Ek. }
  inversion Hk as [|? ? Hn Hk']; subst.
  rewrite strip_white_graphic; [|by left|done|by exists n, (k ++ concat ws')].
  rewrite <-Ek in *. rewrite <-length_reverse, reverse_app, reverse_concat.
  rewrite strip_white_graphic; [by rewrite reverse_involutive, of_numbers_numbers|by right| |].
  - apply Forall_fmap, Forall_reverse. eapply Forall_impl; [|exact Hws'].
    intros w Hw. apply list_elem_of_fmap. by exists w.
  - destruct (reverse (numbers key)) as [|m r] eqn:Er.
    { apply (f_equal reverse) in Er. rewrite reverse_involutive, Ek in Er. done. }
    exists m, r. split; [done|]. apply Forall_reverse in Hk. rewrite Er in Hk. by inversion Hk.
Qed.

(** ** What is started *)

Section started.
Context {LS : LauncherSystem} {RT : RelayTypes} {RS : RelaySystem} {RL : RpcServerLib}.
Context (Hfile : create_file "vane.log" = Ok ()) (Hlogs : ∀ l, combined_logger_init l = Ok ()).

Lemma log_setup_ok live : log_setup live = Ok ().
Proof. unfold log_setup. rewrite Hfile. simpl. by rewrite Hlogs. Qed.

(** A relay that is not live uses no key.  A live one needs a key or a file; the file is
    preferred, also when it cannot be read; either is trimmed. *)
Theorem relay_key_resolved (file key : option string) :
  relay_key false file key = Ok None ∧
  relay_key true None None = Err "No private key passed in live mode" ∧
  (∀ k, relay_key true None (Some k) = Ok (Some (trim k))) ∧
  (∀ p text, read_to_string p = Ok text →
     relay_key true (Some p) key = Ok (Some (trim text))) ∧
  (∀ p e, read_to_string p = Err e → relay_key true (Some p) key = Err e).
Proof.
  unfold relay_key. rewrite !log_setup_ok. simpl. split_and!; try done.
  - by intros p text ->.
  - by intros p e ->.
Qed.

(** A live relay started with a file that holds its key, with or without [0x] and between
    white space of any kind, runs under that key; a relay that cannot listen has exit
    code zero. *)
Theorem relay_runs_under_the_key_of_its_file listen_on dns port path text pre pk key ws ws' kp
    events metrics_server (b : bytes) :
  read_to_string path = Ok text → numbers text = concat ws ++ numbers (pre +:+ pk) ++ concat ws' →
  Forall (λ w, w ∈ white_space) ws → Forall (λ w, w ∈ white_space) ws' →
  pre = "" ∨ pre = "0x" → pre +:+ pk ≠ "" → Forall (λ n, graphic n = true) (numbers (pre +:+ pk)) →
  strip_0x pk = pk → hex_decode pk = Ok b → ed25519_from_bytes b = Ok kp → build_swarm kp = Ok () →
  let start := main listen_on events metrics_server (RelayNode dns port true (Some path) key) in
  (∃ w, RelayP2pWorker_new dns port true (Some pk) = Ok w ∧ relay_peer_id w = to_peer_id kp) ∧
  ((∀ a, listen_on a = Ok ()) → start = Parked) ∧
  ((∀ a, ∃ e, listen_on a = Err e) → start = Ok ()).
Proof.
  intros Hread Htext Hws Hws' Hpre Hne Hk Hpk Hhex Hkey Hbuild. cbv zeta.
  pose proof (trim_reads_the_key _ _ _ _ Htext Hws Hws' Hne Hk) as Htrim.
  unfold main. destruct (relay_key_resolved None key) as (_ & _ & _ & Hf & _).
  rewrite (Hf path text Hread), Htrim. simpl.
  destruct (relay_runs_under_its_key listen_on dns port pk kp events Hpk b Hhex Hkey Hbuild)
    as ((w & Hw & Hid & _) & Heq & Hok & Herr).
  split; [by exists w|].
  assert (MainRelayServerService_run listen_on dns port true (Some (pre +:+ pk)) events =
    MainRelayServerService_run listen_on dns port true (Some pk) events) as ->
    by (by destruct Hpre as [-> | ->]).
  split.
  - intros Hl. by rewrite (proj1 (Hok Hl)).
  - intros Hl. by rewrite (Herr Hl).
Qed.

(** Whatever ends one of the two servers of the backend, its port taken for example, ends
    the program with exit code zero; only a logger that cannot be set is an error. *)
Theorem backend_always_exits_well listen_on events metrics_server :
  (simple_logger_init Logging.Info = Ok () →
   main listen_on events metrics_server VaneBackend = Parked ∨
   main listen_on events metrics_server VaneBackend = Ok ()) ∧
  (∀ e, simple_logger_init Logging.Info = Err e →
   main listen_on events metrics_server VaneBackend = Err e).
Proof.
  assert (∀ m j, BackendPages.backend_run (Ok ()) m j = Parked ∨
    BackendPages.backend_run (Ok ()) m j = Ok ()) as Hrun.
  { intros m j. unfold BackendPages.backend_run. simpl.
    destruct (BackendPages.server_task m), (BackendPages.server_task j); auto. }
  unfold main. split; [|by intros e ->]. intros ->.
  destruct (Hrun metrics_server (BackendPages.JsonRpcServer_start
    (BackendPages.JsonRpcServer_new 9947);; Ok ())) as [-> | ->]; auto.
Qed.
End started.

(** ** Witness *)

Section witness.
#[local] Existing Instances sample_relay sample_system.
#[local] Instance sample_launcher : LauncherSystem := {|
  create_file _ := Ok ();
  read_to_string p := if decide (p = "key.txt") then Ok (" 0xabcd" +:+ of_numbers [13; 10])
                      else Err "No such file or directory";
  combined_logger_init _ := Ok (); simple_logger_init _ := Ok () |}.
#[local] Instance launcher_rpc : RpcServerLib := sample_rpc_server (λ _, true).

Lemma relay_runs_under_the_key_of_its_file_witness :
  main (λ _, Ok ()) [] Parked (RelayNode "relay.vane" 443 true (Some "key.txt") None) = Parked ∧
  main (λ _, Err "in use") [] Parked (RelayNode "relay.vane" 443 true (Some "key.txt") None) = Ok ().
Proof.
  assert (∀ listen_on,
    ((∀ a, listen_on a = Ok ()) →
      main listen_on [] Parked (RelayNode "relay.vane" 443 true (Some "key.txt") None) = Parked) ∧
    ((∀ a, ∃ e, listen_on a = Err e) →
      main listen_on [] Parked (RelayNode "relay.vane" 443 true (Some "key.txt") None) = Ok ())) as H.
  { intros listen_on.
    apply (relay_runs_under_the_key_of_its_file (LS := sample_launcher) (RT := sample_relay)
      (RS := sample_system) (RL := launcher_rpc) eq_refl (λ _, eq_refl) listen_on "relay.vane" 443
      "key.txt" (" 0xabcd" +:+ of_numbers [13; 10]) "0x" "abcd" None [[32]] [[13]; [10]]
      (as_bytes "abcd") [] Parked (as_bytes "abcd")); try reflexivity;
      try (by right); try done; repeat constructor; set_solver. }
  split; [by apply H|]. apply H. intros a. by eexists.
Defined.
End witness.
