(* ===== verification/Prisma.v ===== *)
(** The database client of the SQLite worker, as a parameter: the queries that the
    generated Prisma client ([db/src/db.rs], built from [db/schema.prisma]) offers on
    the tables of the schema.

    [PrismaLaws] states what Prisma and SQLite document: a query sees the rows, a
    [create] checks unique columns and relations and draws the default of its
    identifier ([autoincrement()], [uuid()]), an [update] or a [delete] without a
    matching row is an error, a row another row requires is not deleted (a required
    relation without [onDelete] is [Restrict]), [_transaction] commits all its
    queries or none, the order of the rows is not promised.  Any query may
    fail; [PrismaReliable] says that none does without a reason.  [MemPrisma] is a
    concrete client that satisfies both. *)

From S2P Require Import Prelude.

(** ** The schema *)

Inductive model :=
  | user_account | port | transactions_data | transaction | nonce
  | user_peer_account_info | user_peer | saved_peer_account_info | saved_peers.

#[export] Instance model_eq_decision : EqDecision model.
Proof. solve_decision. Defined.

Record UserAccountData := {
  ua_id : Z; ua_username : string; ua_account_id : string; ua_network_id : string }.
Record PortData := { port_id : Z; port_rpc_port : Z; port_p_2_p_port : Z }.
Record TransactionsDataData := { td_id : Z; td_success_value : Z; td_failed_value : Z }.
Record TransactionData := {
  tx_id : Z; tx_hash_ : bytes; tx_value : Z; tx_network_ : string; tx_status : bool }.
Record NonceData := { nonce_id : Z; nonce_nonce : Z }.
Record UserPeerAccountInfoData := {
  upa_id : string; upa_account_id : string; upa_network : string; upa_user_peer_id : string }.
Record UserPeerData := {
  up_id : string; up_peer_id : string; up_multi_addr : string; up_keypair : bytes }.
Record SavedPeerAccountInfoData := {
  spa_id : string; spa_account_id : string; spa_network : string; spa_saved_peer_id : string }.
Record SavedPeersData := { sp_id : string; sp_node_id : string; sp_multi_addr : string }.

#[export] Instance SavedPeersData_eq_decision : EqDecision SavedPeersData.
Proof. solve_decision. Defined.

Definition Data (m : model) : Type :=
  match m with
  | user_account => UserAccountData
  | port => PortData
  | transactions_data => TransactionsDataData
  | transaction => TransactionData
  | nonce => NonceData
  | user_peer_account_info => UserPeerAccountInfoData
  | user_peer => UserPeerData
  | saved_peer_account_info => SavedPeerAccountInfoData
  | saved_peers => SavedPeersData
  end.

(** Filters ([WhereParam]), a list of which is a conjunction. *)
Inductive UserAccountWhere := UserAccount_NetworkId (s : string).
Inductive TransactionsDataWhere := TransactionsData_Id (z : Z).
Inductive TransactionWhere := Transaction_Status (b : bool).
Inductive UserPeerAccountInfoWhere := UserPeerAccountInfo_AccountId (s : string).
Inductive UserPeerWhere :=
  | UserPeer_AccountsEvery (l : list UserPeerAccountInfoWhere)
  | UserPeer_PeerId (s : string).
Inductive SavedPeerAccountInfoWhere :=
  | SavedPeerAccountInfo_SavedPeerId (s : string)
  | SavedPeerAccountInfo_AccountId (s : string).
Inductive SavedPeersWhere :=
  | SavedPeers_AccountsEvery (l : list SavedPeerAccountInfoWhere)
  | SavedPeers_NodeId (s : string).

Definition Where (m : model) : Type :=
  match m with
  | user_account => UserAccountWhere
  | transactions_data => TransactionsDataWhere
  | transaction => TransactionWhere
  | user_peer_account_info => UserPeerAccountInfoWhere
  | user_peer => UserPeerWhere
  | saved_peer_account_info => SavedPeerAccountInfoWhere
  | saved_peers => SavedPeersWhere
  | port | nonce => Empty_set
  end.

(** Identification of one row ([UniqueWhereParam]). *)
Inductive SavedPeersUnique := SavedPeers_IdEquals (s : string) | SavedPeers_NodeIdEquals (s : string).

Definition Unique (m : model) : Type :=
  match m with
  | user_account | port | transactions_data | transaction | nonce => Z
  | user_peer_account_info | user_peer | saved_peer_account_info => string
  | saved_peers => SavedPeersUnique
  end.

(** The required arguments of [create], in the order of the schema. *)
Definition CreateArgs (m : model) : Type :=
  match m with
  | user_account => string * string * string
  | port => Z * Z
  | transactions_data => Z * Z
  | transaction => bytes * Z * string * bool
  | nonce => Z
  | user_peer_account_info => string * string * Unique user_peer
  | user_peer => string * string * string * bytes
  | saved_peer_account_info => string * string * Unique saved_peers
  | saved_peers => string * string
  end.

(** Assignments of an [update]. *)
Inductive TransactionsDataSet := success_value_increment (z : Z) | failed_value_increment (z : Z).
Inductive NonceSet := nonce_increment (z : Z).
Inductive SavedPeersSet := multi_addr_set (s : string).

Definition SetParam (m : model) : Type :=
  match m with
  | transactions_data => TransactionsDataSet
  | nonce => NonceSet
  | saved_peers => SavedPeersSet
  | _ => Empty_set
  end.

Class PrismaClient := {
  PrismaDb : Type;
  new_client_with_url : string → outcome PrismaDb;
  migrate_deploy : M PrismaDb unit;
  create (m : model) : CreateArgs m → M PrismaDb (Data m);
  find_unique (m : model) : Unique m → M PrismaDb (option (Data m));
  find_first (m : model) : list (Where m) → M PrismaDb (option (Data m));
  find_many (m : model) : list (Where m) → M PrismaDb (list (Data m));
  update (m : model) : Unique m → list (SetParam m) → M PrismaDb (Data m);
  delete (m : model) : Unique m → M PrismaDb (Data m);
  delete_many (m : model) : list (Where m) → M PrismaDb N;
  run_transaction {A} : M PrismaDb A → M PrismaDb A;
  (** the relation fields of a row, absent unless the query fetches them *)
  user_peer_accounts : UserPeerData → option (list UserPeerAccountInfoData);
  saved_peer_accounts : SavedPeersData → option (list SavedPeerAccountInfoData)
}.

(** ** What the queries mean *)

(** The rows of each table and the last identifier drawn by [autoincrement()]. *)
Record Store := { rows : ∀ m, list (Data m); sequence : model → Z }.

Definition empty_store : Store := {| rows := λ _, []; sequence := λ _, 0%Z |}.

Definition set_rows (m : model) (l : list (Data m)) (st : Store) : Store := {|
  rows := λ m', match decide (m = m') with
                | left e => eq_rect m (λ m, list (Data m)) l m' e
                | right _ => rows st m'
                end;
  sequence := sequence st |}.

Definition set_sequence (m : model) (z : Z) (st : Store) : Store :=
  {| rows := rows st; sequence := λ m', if decide (m = m') then z else sequence st m' |}.

Lemma rows_set_same m l st : rows (set_rows m l st) m = l.
Proof. by destruct m. Qed.
Lemma rows_set_other m m' l st : m ≠ m' → rows (set_rows m l st) m' = rows st m'.
Proof. by destruct m, m'. Qed.

Definition spa_matches (w : SavedPeerAccountInfoWhere) (d : SavedPeerAccountInfoData) : bool :=
  match w with
  | SavedPeerAccountInfo_SavedPeerId s => bool_decide (spa_saved_peer_id d = s)
  | SavedPeerAccountInfo_AccountId s => bool_decide (spa_account_id d = s)
  end.
Definition upa_matches (w : UserPeerAccountInfoWhere) (d : UserPeerAccountInfoData) : bool :=
  match w with UserPeerAccountInfo_AccountId s => bool_decide (upa_account_id d = s) end.

(** The rows that a row is related to. *)
Definition accounts_of_saved (st : Store) (d : SavedPeersData) : list SavedPeerAccountInfoData :=
  filter (λ a, spa_saved_peer_id a = sp_id d) (rows st saved_peer_account_info).
Definition accounts_of_user (st : Store) (d : UserPeerData) : list UserPeerAccountInfoData :=
  filter (λ a, upa_user_peer_id a = up_id d) (rows st user_peer_account_info).

(** A filter on a relation, [every]: all related rows match. *)
Definition matches (st : Store) (m : model) : Where m → Data m → bool :=
  match m with
  | user_account => λ '(UserAccount_NetworkId s) d, bool_decide (ua_network_id d = s)
  | transactions_data => λ '(TransactionsData_Id z) d, bool_decide (td_id d = z)
  | transaction => λ '(Transaction_Status b) d, bool_decide (tx_status d = b)
  | user_peer_account_info => upa_matches
  | saved_peer_account_info => spa_matches
  | user_peer => λ w d,
      match w with
      | UserPeer_AccountsEvery l =>
          forallb (λ a, forallb (λ w, upa_matches w a) l) (accounts_of_user st d)
      | UserPeer_PeerId s => bool_decide (up_peer_id d = s)
      end
  | saved_peers => λ w d,
      match w with
      | SavedPeers_AccountsEvery l =>
          forallb (λ a, forallb (λ w, spa_matches w a) l) (accounts_of_saved st d)
      | SavedPeers_NodeId s => bool_decide (sp_node_id d = s)
      end
  | port | nonce => λ w _, match w with end
  end.

Definition matches_all (st : Store) (m : model) (ws : list (Where m)) (d : Data m) : bool :=
  forallb (λ w, matches st m w d) ws.

Definition unique_matches (m : model) : Unique m → Data m → bool :=
  match m with
  | user_account => λ z d, bool_decide (ua_id d = z)
  | port => λ z d, bool_decide (port_id d = z)
  | transactions_data => λ z d, bool_decide (td_id d = z)
  | transaction => λ z d, bool_decide (tx_id d = z)
  | nonce => λ z d, bool_decide (nonce_id d = z)
  | user_peer_account_info => λ s d, bool_decide (upa_id d = s)
  | user_peer => λ s d, bool_decide (up_id d = s)
  | saved_peer_account_info => λ s d, bool_decide (spa_id d = s)
  | saved_peers => λ u d,
      match u with
      | SavedPeers_IdEquals s => bool_decide (sp_id d = s)
      | SavedPeers_NodeIdEquals s => bool_decide (sp_node_id d = s)
      end
  end.

Definition selected (st : Store) (m : model) (u : Unique m) : list (Data m) :=
  filter (λ d, unique_matches m u d = true) (rows st m).

(** Generated identifiers: the next integer, a string no row has, nothing. *)
Definition key (m : model) : Type :=
  match m with
  | user_account | port | transactions_data | transaction | nonce => Z
  | user_peer_account_info | saved_peer_account_info | saved_peers => string
  | user_peer => unit
  end.

Definition key_ok (st : Store) (m : model) : key m → Prop :=
  match m with
  | user_account => λ k, k = (sequence st user_account + 1)%Z
  | port => λ k, k = (sequence st port + 1)%Z
  | transactions_data => λ k, k = (sequence st transactions_data + 1)%Z
  | transaction => λ k, k = (sequence st transaction + 1)%Z
  | nonce => λ k, k = (sequence st nonce + 1)%Z
  | user_peer_account_info => λ k, k ∉ upa_id <$> rows st user_peer_account_info
  | saved_peer_account_info => λ k, k ∉ spa_id <$> rows st saved_peer_account_info
  | saved_peers => λ k, k ∉ sp_id <$> rows st saved_peers
  | user_peer => λ _, True
  end.

(** The row a [create] adds; [None] when it violates a unique column or names a
    row that does not exist. *)
Definition new_row (st : Store) (m : model) : CreateArgs m → key m → option (Data m) :=
  match m with
  | user_account => λ '(name, account, network) k, Some {|
      ua_id := k; ua_username := name; ua_account_id := account; ua_network_id := network |}
  | port => λ '(rpc, p2p) k, Some {| port_id := k; port_rpc_port := rpc; port_p_2_p_port := p2p |}
  | transactions_data => λ '(s, f) k, Some {|
      td_id := k; td_success_value := s; td_failed_value := f |}
  | transaction => λ '(hash, value, network, status) k, Some {|
      tx_id := k; tx_hash_ := hash; tx_value := value; tx_network_ := network;
      tx_status := status |}
  | nonce => λ n k, Some {| nonce_id := k; nonce_nonce := n |}
  | user_peer_account_info => λ '(account, network, peer) k,
      p ← head (selected st user_peer peer);
      Some {| upa_id := k; upa_account_id := account; upa_network := network;
              upa_user_peer_id := up_id p |}
  | user_peer => λ '(id, peer_id, addr, keypair) _,
      if decide (id ∈ up_id <$> rows st user_peer) then None else
      if decide (peer_id ∈ up_peer_id <$> rows st user_peer) then None else
      Some {| up_id := id; up_peer_id := peer_id; up_multi_addr := addr;
              up_keypair := keypair |}
  | saved_peer_account_info => λ '(account, network, peer) k,
      p ← head (selected st saved_peers peer);
      Some {| spa_id := k; spa_account_id := account; spa_network := network;
              spa_saved_peer_id := sp_id p |}
  | saved_peers => λ '(node, addr) k,
      if decide (node ∈ sp_node_id <$> rows st saved_peers) then None else
      Some {| sp_id := k; sp_node_id := node; sp_multi_addr := addr |}
  end.

Definition advance (m : model) (st : Store) : Store :=
  set_sequence m (sequence st m + 1) st.

Definition insert_row (m : model) (d : Data m) (st : Store) : Store :=
  advance m (set_rows m (rows st m ++ [d]) st).

(** An assignment; [None] when the value leaves its column's range ([BigInt] is an
    [i64], [Int] an [i32]). *)
Definition in_i64 (z : Z) : option Z :=
  if bool_decide (- 2 ^ 63 <= z < 2 ^ 63)%Z then Some z else None.
Definition in_i32 (z : Z) : option Z :=
  if bool_decide (- 2 ^ 31 <= z < 2 ^ 31)%Z then Some z else None.

Definition assign (m : model) : SetParam m → Data m → option (Data m) :=
  match m with
  | transactions_data => λ a d,
      match a with
      | success_value_increment z =>
          v ← in_i64 (td_success_value d + z);
          Some {| td_id := td_id d; td_success_value := v;
                  td_failed_value := td_failed_value d |}
      | failed_value_increment z =>
          v ← in_i64 (td_failed_value d + z);
          Some {| td_id := td_id d; td_success_value := td_success_value d;
                  td_failed_value := v |}
      end
  | nonce => λ '(nonce_increment z) d,
      v ← in_i32 (nonce_nonce d + z);
      Some {| nonce_id := nonce_id d; nonce_nonce := v |}
  | saved_peers => λ '(multi_addr_set s) d, Some {|
      sp_id := sp_id d; sp_node_id := sp_node_id d; sp_multi_addr := s |}
  | _ => λ a _, match a with end
  end.

Definition assign_all (m : model) (l : list (SetParam m)) (d : Data m) : option (Data m) :=
  foldl (λ o a, o ≫= assign m a) (Some d) l.

(** Replace the rows that [u] identifies. *)
Definition replace_rows (m : model) (u : Unique m) (d : Data m) (st : Store) : Store :=
  set_rows m ((λ r, if unique_matches m u r then d else r) <$> rows st m) st.

(** A row that others require. *)
Definition referenced (st : Store) (m : model) : Data m → bool :=
  match m with
  | user_peer => λ d, negb (bool_decide (length (accounts_of_user st d) = 0))
  | saved_peers => λ d, negb (bool_decide (length (accounts_of_saved st d) = 0))
  | _ => λ _, false
  end.

Definition remove_rows (m : model) (p : Data m → bool) (st : Store) : Store :=
  set_rows m (filter (λ d, p d = false) (rows st m)) st.

(** ** The laws *)

Class PrismaLaws `{PrismaClient} := {
  view : PrismaDb → Store;
  migrate_view db : let '(o, db') := migrate_deploy db in
    match o with Ok _ | Err _ => view db' = view db | _ => False end;
  create_view m c db : match create m c db with
    | (Ok d, db') => ∃ k, key_ok (view db) m k ∧ new_row (view db) m c k = Some d ∧
        view db' = insert_row m d (view db)
    | (Err _, db') => view db' = view db
    | _ => False
    end;
  find_unique_view m u db : match find_unique m u db with
    | (Ok o, db') => view db' = view db ∧ o = head (selected (view db) m u)
    | (Err _, db') => view db' = view db
    | _ => False
    end;
  find_first_view m ws db : match find_first m ws db with
    | (Ok (Some d), db') => view db' = view db ∧
        d ∈ rows (view db) m ∧ matches_all (view db) m ws d = true
    | (Ok None, db') => view db' = view db ∧
        ∀ d, d ∈ rows (view db) m → matches_all (view db) m ws d = false
    | (Err _, db') => view db' = view db
    | _ => False
    end;
  find_many_view m ws db : match find_many m ws db with
    | (Ok l, db') => view db' = view db ∧
        l ≡ₚ filter (λ d, matches_all (view db) m ws d = true) (rows (view db) m)
    | (Err _, db') => view db' = view db
    | _ => False
    end;
  update_view m u l db :
    (∀ r, r ∈ selected (view db) m u → is_Some (assign_all m l r)) →
    match update m u l db with
    | (Ok d, db') => ∃ r, head (selected (view db) m u) = Some r ∧
        assign_all m l r = Some d ∧ view db' = replace_rows m u d (view db)
    | (Err _, db') => view db' = view db
    | _ => False
    end;
  (** whatever is assigned, an update stays in its table *)
  update_frame m u l db m' : m ≠ m' →
    rows (view (update m u l db).2) m' = rows (view db) m';
  delete_view m u db : match delete m u db with
    | (Ok d, db') => head (selected (view db) m u) = Some d ∧ referenced (view db) m d = false ∧
        view db' = remove_rows m (unique_matches m u) (view db)
    | (Err _, db') => view db' = view db
    | _ => False
    end;
  delete_many_view m ws db : match delete_many m ws db with
    | (Ok _, db') => view db' = remove_rows m (matches_all (view db) m ws) (view db)
    | (Err _, db') => view db' = view db
    | _ => False
    end;
  (** all of the queries of a transaction or none *)
  transaction_view {A} (f : M PrismaDb A) db :
    ((∃ e, (run_transaction f db).1 = Err e) ∧ view (run_transaction f db).2 = view db) ∨
    ((run_transaction f db).1 = (f db).1 ∧
     view (run_transaction f db).2 = if is_ok (f db).1 then view (f db).2 else view db);
  user_peer_accounts_absent d : user_peer_accounts d = None;
  saved_peer_accounts_absent d : saved_peer_accounts d = None
}.

(** No storage fault: a query fails only for a reason the schema gives. *)
Class PrismaReliable `{PrismaLaws} : Prop := {
  migrate_ok db : (migrate_deploy db).1 = Ok ();
  create_ok m c db :
    (∀ k, is_Some (new_row (view db) m c k)) → ∃ d, (create m c db).1 = Ok d;
  find_unique_ok m u db : ∃ o, (find_unique m u db).1 = Ok o;
  find_first_ok m ws db : ∃ o, (find_first m ws db).1 = Ok o;
  find_many_ok m ws db : ∃ l, (find_many m ws db).1 = Ok l;
  update_ok m u l db r :
    head (selected (view db) m u) = Some r → is_Some (assign_all m l r) →
    ∃ d, (update m u l db).1 = Ok d;
  delete_ok m u db r :
    head (selected (view db) m u) = Some r → referenced (view db) m r = false →
    ∃ d, (delete m u db).1 = Ok d;
  delete_many_ok m ws db : ∃ n, (delete_many m ws db).1 = Ok n;
  transaction_ok {A} (f : M PrismaDb A) db : (run_transaction f db).1 = (f db).1
}.

(** ** A concrete client *)

(** An identifier longer than all those in use. *)
Definition new_uuid (used : list string) : string :=
  String.string_of_list_ascii (replicate (S (max_list (String.length <$> used))) (Ascii.ascii_of_nat 97)).

Lemma new_uuid_fresh used : new_uuid used ∉ used.
Proof.
  intros Hin.
  assert (String.length (new_uuid used) ≤ max_list (String.length <$> used))%nat as Hle.
  { apply max_list_elem_of_le. apply list_elem_of_fmap. eauto. }
  revert Hle. unfold new_uuid. generalize (max_list (String.length <$> used)). intros n.
  replace (String.length _) with (S n); [lia|].
  rewrite <- (length_replicate (S n) (Ascii.ascii_of_nat 97)) at 1.
  generalize (replicate (S n) (Ascii.ascii_of_nat 97)). induction l; simpl; auto.
Qed.

Definition mem_key (st : Store) (m : model) : key m :=
  match m with
  | user_account => (sequence st user_account + 1)%Z
  | port => (sequence st port + 1)%Z
  | transactions_data => (sequence st transactions_data + 1)%Z
  | transaction => (sequence st transaction + 1)%Z
  | nonce => (sequence st nonce + 1)%Z
  | user_peer_account_info => new_uuid (upa_id <$> rows st user_peer_account_info)
  | saved_peer_account_info => new_uuid (spa_id <$> rows st saved_peer_account_info)
  | saved_peers => new_uuid (sp_id <$> rows st saved_peers)
  | user_peer => ()
  end.

Lemma mem_key_ok st m : key_ok st m (mem_key st m).
Proof. destruct m; try done; apply new_uuid_fresh. Qed.

Definition on_store {A} (f : Store → option (A * Store)) : M Store A := λ st,
  match f st with
  | Some (a, st') => (Ok a, st')
  | None => (Err "query failed", st)
  end.

Definition mem_transaction {A} (f : M Store A) : M Store A := λ st,
  match f st with
  | (Ok a, st') => (Ok a, st')
  | (o, _) => (o, st)
  end.

Definition MemPrisma (initial : Store) : PrismaClient := {|
  PrismaDb := Store;
  new_client_with_url _ := Ok initial;
  migrate_deploy := skip;
  create m c := on_store (λ st,
    d ← new_row st m c (mem_key st m); Some (d, insert_row m d st));
  find_unique m u := on_store (λ st, Some (head (selected st m u), st));
  find_first m ws := on_store (λ st,
    Some (head (filter (λ d, matches_all st m ws d = true) (rows st m)), st));
  find_many m ws := on_store (λ st,
    Some (filter (λ d, matches_all st m ws d = true) (rows st m), st));
  update m u l := on_store (λ st,
    r ← head (selected st m u); d ← assign_all m l r; Some (d, replace_rows m u d st));
  delete m u := on_store (λ st,
    r ← head (selected st m u);
    if referenced st m r then None
    else Some (r, remove_rows m (unique_matches m u) st));
  delete_many m ws := on_store (λ st,
    Some (N.of_nat (length (filter (λ d, matches_all st m ws d = true) (rows st m))),
          remove_rows m (matches_all st m ws) st));
  run_transaction A := mem_transaction;
  user_peer_accounts _ := None;
  saved_peer_accounts _ := None
|}.

Section mem.
Context (initial : Store).

Lemma MemPrisma_find_first m ws (st : Store) :
  match head (filter (λ d, matches_all st m ws d = true) (rows st m)) with
  | Some d => d ∈ rows st m ∧ matches_all st m ws d = true
  | None => ∀ d, d ∈ rows st m → matches_all st m ws d = false
  end.
Proof.
  destruct (filter _ _) as [|d l] eqn:E; simpl.
  - intros d Hd. apply not_true_is_false. intros Hm.
    assert (d ∈ filter (λ d, matches_all st m ws d = true) (rows st m)) as Hin
      by (apply list_elem_of_filter; auto).
    rewrite E in Hin. by apply not_elem_of_nil in Hin.
  - assert (d ∈ filter (λ d, matches_all st m ws d = true) (rows st m)) as Hin
      by (rewrite E; left).
    apply list_elem_of_filter in Hin. tauto.
Qed.

Definition MemPrisma_laws : @PrismaLaws (MemPrisma initial).
Proof.
  refine {| view := (λ st : @PrismaDb (MemPrisma initial), st : Store) |};
    cbn [create find_unique find_first find_many update delete delete_many run_transaction
         MemPrisma migrate_deploy]; unfold on_store; intros; try done.
  - destruct (new_row _ _ _ _) as [d|] eqn:E; simpl; [|done].
    exists (mem_key db m). split; [apply mem_key_ok|done].
  - pose proof (MemPrisma_find_first m ws db) as Hf. by destruct (head _).
  - destruct (head _) as [r|] eqn:E; simpl; [|done].
    destruct (assign_all m l r) as [d|] eqn:Ea; simpl; [|done]. eauto.
  - destruct (head _) as [r|]; simpl; [|done].
    destruct (assign_all m l r) as [d|]; cbn [mbind option_bind snd]; [|done]. by apply rows_set_other.
  - destruct (head _) as [r|] eqn:E; simpl; [|done]. by destruct (referenced db m r) eqn:Er.
  - right. unfold mem_transaction. by destruct (f db) as [[] ?].
Defined.

Lemma MemPrisma_reliable : @PrismaReliable (MemPrisma initial) MemPrisma_laws.
Proof.
  split; cbn [create find_unique find_first find_many update delete delete_many run_transaction
         MemPrisma migrate_deploy view MemPrisma_laws]; unfold on_store; intros; simpl; eauto.
  - destruct (H (mem_key db m)) as [d ->]. simpl. eauto.
  - rewrite H. destruct H0 as [d Hd]. simpl. rewrite Hd. simpl. eauto.
  - rewrite H. simpl. rewrite H0. simpl. eauto.
  - unfold mem_transaction. by destruct (f db) as [[] ?].
Qed.
End mem.
