(* ===== verification/SqliteDb.v ===== *)
(** The SQLite worker of the native node ([db/src/lib.rs]): every operation of
    [LocalDbWorker] as a program over the queries of [Prisma.v].

    The crate is excluded from the cargo workspace; the records it exchanges with the
    node ([UserAccount], [DbTxStateMachine], [PeerRecord]) are those its own
    conversions build, which differ from the present ones of [DataStructure.v].  Of the
    latter it uses [ChainSupported] with its conversions, [AccountInfo], [Ports] and
    [SavedPeerInfo].  The worker is a handle of the database, so its operations are
    computations on the database. *)

From S2P Require Import Prelude DataStructure Prisma.
Open Scope Z_scope.

Record UserAccount := {
  user_name : string; account_id : string; user_network : ChainSupported }.

Record DbTxStateMachine := {
  tx_hash : bytes; amount : N; tx_network : ChainSupported; success : bool }.

Record PeerRecord := {
  peer_id : option string;
  accounts : list AccountInfo;
  multi_addr : option string;
  keypair : option bytes
}.

(** ** Integer conversions ([as]) *)

Definition as_u16 (z : Z) : N := Z.to_N (z mod 2 ^ 16).
Definition as_u32 (z : Z) : N := Z.to_N (z mod 2 ^ 32).
Definition as_u64 (z : Z) : N := Z.to_N (z mod 2 ^ 64).

(** ** Conversions from rows *)

Definition UserAccount_from (value : UserAccountData) : UserAccount := {|
  user_name := ua_username value;
  account_id := ua_account_id value;
  user_network := ChainSupported_from_str (ua_network_id value) |}.

(** [i64] to [u128], which fails for a negative value. *)
Definition DbTxStateMachine_from (value : TransactionData) : outcome DbTxStateMachine :=
  if tx_value value <? 0 then Panic (ExpectFailed "failed to convert u128 to u64")
  else Ok {| tx_hash := tx_hash_ value;
             amount := Z.to_N (tx_value value);
             tx_network := ChainSupported_from_str (tx_network_ value);
             success := tx_status value |}.

Definition AccountInfo_from_user (data : UserPeerAccountInfoData) : AccountInfo := {|
  account := upa_account_id data;
  network := ChainSupported_from_str (upa_network data) |}.

Definition AccountInfo_from_saved (data : SavedPeerAccountInfoData) : AccountInfo := {|
  account := spa_account_id data;
  network := ChainSupported_from_str (spa_network data) |}.

Definition Ports_from (value : PortData) : Ports := {|
  rpc := as_u16 (port_rpc_port value);
  p_2_p_port := as_u16 (port_p_2_p_port value) |}.

Definition MAIN_USER_ID : string := "MAIN_USER_ID".
Definition SERVER_DATA_ID : Z := 1.

(** The network written for an account, inferred from its form. *)
Definition infer_network (account_id : string) : string :=
  if String.prefix "0x" account_id && (String.length account_id =? 42)%nat then "Ethereum"
  else if (String.length account_id =? 44)%nat then "Solana"
  else if (String.length account_id =? 48)%nat || String.prefix "5" account_id then "Polkadot"
  else if String.prefix "T" account_id then "Tron"
  else "Ethereum".

(** [m] with its error as a value: a [Result] that is matched on. *)
Definition attempt {S A} (m : M S A) : M S (option A) := λ s,
  match m s with
  | (Ok a, s') => (Ok (Some a), s')
  | (Err _, s') => (Ok None, s')
  | (Panic p, s') => (Panic p, s')
  | (Parked, s') => (Parked, s')
  end.

Section worker.
Context `{PrismaClient}.

Definition PeerRecord_from_user (data : UserPeerData) : PeerRecord := {|
  peer_id := Some (up_peer_id data);
  accounts := AccountInfo_from_user <$> default [] (user_peer_accounts data);
  multi_addr := Some (up_multi_addr data);
  keypair := Some (up_keypair data) |}.

Definition PeerRecord_from_saved (data : SavedPeersData) : PeerRecord := {|
  peer_id := Some (sp_node_id data);
  accounts := AccountInfo_from_saved <$> default [] (saved_peer_accounts data);
  multi_addr := Some (sp_multi_addr data);
  keypair := None |}.

(** The part of [initialize_db_client] that queries. *)
Definition initialize_tables : M PrismaDb unit :=
  migrate_deploy ;;
  return_data ← attempt (find_first transactions_data [TransactionsData_Id 1]);
  match return_data with
  | Some (Some _) => skip
  | Some None => create transactions_data (0, 0) ;; skip
  | None => attempt (create transactions_data (0, 0)) ;; skip
  end.

Definition initialize_db_client (file_url : string) : outcome PrismaDb :=
  match new_client_with_url ("file:" +:+ file_url) with
  | Ok client =>
      match initialize_tables client with
      | (Ok _, client) => Ok client
      | (Err e, _) => Err e
      | (Panic p, _) => Panic p
      | (Parked, _) => Parked
      end
  | Err err => Err ("failed to initialize db client, caused by: " +:+ err)
  | o => o
  end.

Definition set_user_account (user : UserAccount) : M PrismaDb unit :=
  create user_account
    (user_name user, account_id user, ChainSupported_into_string (user_network user)) ;;
  skip.

Definition increment_nonce : M PrismaDb unit :=
  update nonce 1 [nonce_increment 1] ;; skip.

Definition get_nonce : M PrismaDb N :=
  nonce_data ← find_unique nonce 1;
  match nonce_data with
  | None => create nonce 0 ;; mret 0%N
  | Some d => mret (as_u32 (nonce_nonce d))
  end.

Definition get_user_accounts (network : ChainSupported) : M PrismaDb (list UserAccount) :=
  accounts ← find_many user_account [UserAccount_NetworkId (ChainSupported_into_string network)];
  mret (UserAccount_from <$> accounts).

Definition record_transaction (tx_state : DbTxStateMachine) : M PrismaDb unit :=
  create transaction
    (tx_hash tx_state, as_i64 (amount tx_state),
     ChainSupported_into_string (tx_network tx_state), success tx_state) ;;
  skip.

Definition update_success_tx (tx_state : DbTxStateMachine) : M PrismaDb unit :=
  record_transaction tx_state ;;
  update transactions_data 1 [success_value_increment (as_i64 (amount tx_state))] ;;
  skip.

Definition update_failed_tx (tx_state : DbTxStateMachine) : M PrismaDb unit :=
  record_transaction tx_state ;;
  update transactions_data 1 [failed_value_increment (as_i64 (amount tx_state))] ;;
  skip.

Definition get_failed_txs : M PrismaDb (list DbTxStateMachine) :=
  failed_txs ← find_many transaction [Transaction_Status false];
  lift (mapM DbTxStateMachine_from failed_txs).

Definition get_success_txs : M PrismaDb (list DbTxStateMachine) :=
  success_txs ← find_many transaction [Transaction_Status true];
  lift (mapM DbTxStateMachine_from success_txs).

Definition main_data : M PrismaDb TransactionsDataData :=
  d ← find_unique transactions_data SERVER_DATA_ID;
  lift (ok_or d "Main Data not found, shouldnt happen must initailize").

Definition get_total_value_success : M PrismaDb N :=
  d ← main_data; mret (as_u64 (td_success_value d)).

Definition get_total_value_failed : M PrismaDb N :=
  d ← main_data; mret (as_u64 (td_failed_value d)).

(** ** The user's own peer *)

Definition add_user_account (account_info : AccountInfo) : M PrismaDb unit :=
  create user_peer_account_info
    (account account_info, ChainSupported_into_string (network account_info), MAIN_USER_ID) ;;
  skip.

Definition record_user_peer_id (peer_record : PeerRecord) : M PrismaDb unit :=
  run_transaction (
    create user_peer
      (MAIN_USER_ID, default "" (peer_id peer_record), default "" (multi_addr peer_record),
       default [] (keypair peer_record)) ;;
    for_each add_user_account (accounts peer_record)).

Definition update_user_peer_id_account_ids (account : AccountInfo) : M PrismaDb unit :=
  add_user_account account.

Definition get_user_peer_id (account_id peer_id : option string) : M PrismaDb PeerRecord :=
  where_param ← lift (match account_id, peer_id with
    | Some acc_id, _ => Ok (UserPeer_AccountsEvery [UserPeerAccountInfo_AccountId acc_id])
    | None, Some pid => Ok (UserPeer_PeerId pid)
    | None, None => Err "Please provide either account ID or peer ID"
    end);
  peer ← find_first user_peer [where_param];
  peer ← lift (ok_or peer "Peer not found in DB");
  mret (PeerRecord_from_user peer).

Definition set_ports (rpc p2p : N) : M PrismaDb unit :=
  create port (Z.of_N rpc, Z.of_N p2p) ;; skip.

Definition get_ports : M PrismaDb (option Ports) :=
  ports ← find_unique port 1;
  mret (Ports_from <$> ports).

(** ** Saved peers *)

Definition find_or_create_peer (multi_addr : string) : M PrismaDb SavedPeersData :=
  found ← find_unique saved_peers (SavedPeers_NodeIdEquals multi_addr);
  match found with
  | Some peer => mret peer
  | None => create saved_peers (multi_addr, multi_addr)
  end.

Definition record_saved_user_peers (account_id multi_addr : string) : M PrismaDb unit :=
  run_transaction (
    saved_peer ← find_or_create_peer multi_addr;
    existing_account ← find_first saved_peer_account_info
      [SavedPeerAccountInfo_SavedPeerId (sp_id saved_peer);
       SavedPeerAccountInfo_AccountId account_id];
    match existing_account with
    | None =>
        create saved_peer_account_info
          (account_id, infer_network account_id, SavedPeers_IdEquals (sp_id saved_peer)) ;;
        skip
    | Some _ => skip
    end).

Definition get_saved_user_peers (account_id : string) : M PrismaDb string :=
  peer_data ← find_first saved_peers
    [SavedPeers_AccountsEvery [SavedPeerAccountInfo_AccountId account_id]];
  peer_data ← lift (ok_or peer_data "Peer Not found in DB");
  mret (sp_multi_addr peer_data).

(** The identifiers of the accounts stored for a peer. *)
Definition account_ids_of (peer : string) : M PrismaDb (list string) :=
  account_infos ← find_many saved_peer_account_info [SavedPeerAccountInfo_SavedPeerId peer];
  mret (spa_account_id <$> account_infos).

Fixpoint same_node_id (first_peer_id : string) (peers : list SavedPeersData) : outcome unit :=
  match peers with
  | [] => Ok ()
  | peer :: peers =>
      if decide (sp_node_id peer = first_peer_id) then same_node_id first_peer_id peers
      else Err ("Inconsistent peer ID mapping: expected " +:+ first_peer_id +:+ ", got " +:+
                sp_node_id peer)
  end.

Definition get_all_saved_peers : M PrismaDb (list string * string) :=
  peers ← find_many saved_peers [];
  match peers with
  | [] => fail "No saved peers found"
  | first :: _ =>
      let first_peer_id := sp_node_id first in
      lift (same_node_id first_peer_id peers) ;;
      all_account_ids ← mapM (λ peer_data, account_ids_of (sp_id peer_data)) peers;
      mret (concat all_account_ids, first_peer_id)
  end.

Definition delete_saved_peer (peer_id : string) : M PrismaDb unit :=
  peer ← find_unique saved_peers (SavedPeers_NodeIdEquals peer_id);
  peer ← lift (ok_or peer ("Peer not found with multi_addr: " +:+ peer_id));
  delete saved_peers (SavedPeers_IdEquals (sp_id peer)) ;;
  skip.

Definition get_saved_peer_by_id (peer_id : string) : M PrismaDb (option string) :=
  peer ← find_first saved_peers [SavedPeers_NodeId peer_id];
  mret (sp_node_id <$> peer).

Definition update_saved_peer (peer_record : PeerRecord) : M PrismaDb unit :=
  run_transaction (
    peer_id ← lift (ok_or (peer_id peer_record) "PeerRecord must have a peer_id");
    existing_peer ← find_unique saved_peers (SavedPeers_NodeIdEquals peer_id);
    existing_peer ← lift (ok_or existing_peer "Peer not found for update");
    update saved_peers (SavedPeers_IdEquals (sp_id existing_peer))
      [multi_addr_set (default "" (multi_addr peer_record))] ;;
    delete_many saved_peer_account_info
      [SavedPeerAccountInfo_SavedPeerId (sp_id existing_peer)] ;;
    for_each (λ account_info,
      create saved_peer_account_info
        (account account_info, ChainSupported_into_string (network account_info),
         SavedPeers_IdEquals (sp_id existing_peer)) ;;
      skip) (accounts peer_record)).

Definition get_account_ids_by_peer_id (peer_id : string) : M PrismaDb (list string) :=
  peer ← find_first saved_peers [SavedPeers_NodeId peer_id];
  peer ← lift (ok_or peer ("Peer not found with peer_id: " +:+ peer_id));
  account_ids_of (sp_id peer).

Definition get_all_saved_peers_info : M PrismaDb (list SavedPeerInfo) :=
  peers ← find_many saved_peers [];
  mapM (λ peer_data,
    account_ids ← account_ids_of (sp_id peer_data);
    mret {| spi_peer_id := sp_multi_addr peer_data;
            spi_multi_addr := sp_multi_addr peer_data;
            spi_account_ids := account_ids |}) peers.

End worker.
