(* ===== verification/SqliteLogic.v ===== *)
(** Reasoning about programs over the queries of [Prisma.v]: [wp m Q st], what holds
    of the outcome and of the rows after [m] is run on rows [st], with a rule for each
    query.  The rules [wp_q] allow any query to fail; the rules [wp_q_ok] are those of a
    reliable client. *)

From S2P Require Import Prelude DataStructure Prisma SqliteDb.

Section wp.
Context `{PrismaLaws}.

Definition wp {A} (m : M PrismaDb A) (Q : outcome A → Store → Prop) (st : Store) : Prop :=
  ∀ db, view db = st → Q (m db).1 (view (m db).2).

Lemma wp_run {A} (m : M PrismaDb A) (Q : outcome A → Store → Prop) db :
  wp m Q (view db) → Q (m db).1 (view (m db).2).
Proof. intros Hm. by apply Hm. Qed.

Lemma wp_mono {A} (m : M PrismaDb A) (Q Q' : outcome A → Store → Prop) st :
  wp m Q st → (∀ o st', Q o st' → Q' o st') → wp m Q' st.
Proof. intros Hm HQ db Hv. apply HQ, Hm, Hv. Qed.

Lemma wp_ret {A} (a : A) Q st : Q (Ok a) st → wp (mret a) Q st.
Proof. by intros HQ db <-. Qed.
Lemma wp_skip Q st : Q (Ok ()) st → wp skip Q st.
Proof. by intros HQ db <-. Qed.
Lemma wp_lift {A} (o : outcome A) Q st : Q o st → wp (lift o) Q st.
Proof. by intros HQ db <-. Qed.
Lemma wp_fail {A} e (Q : outcome A → Store → Prop) st : Q (Err e) st → wp (fail e) Q st.
Proof. by intros HQ db <-. Qed.

Lemma wp_bind {A B} (m : M PrismaDb A) (f : A → M PrismaDb B) Q st :
  wp m (λ o st', match o with
                 | Ok a => wp (f a) Q st'
                 | Err e => Q (Err e) st'
                 | Panic p => Q (Panic p) st'
                 | Parked => Q Parked st'
                 end) st →
  wp (m ≫= f) Q st.
Proof.
  intros Hm db Hv. specialize (Hm db Hv). unfold mbind, M_bind.
  destruct (m db) as [[] db']; simpl in *; auto.
Qed.

Lemma wp_attempt {A} (m : M PrismaDb A) Q st :
  wp m (λ o st', match o with
                 | Ok a => Q (Ok (Some a)) st'
                 | Err e => Q (Ok None) st'
                 | Panic p => Q (Panic p) st'
                 | Parked => Q Parked st'
                 end) st →
  wp (attempt m) Q st.
Proof.
  intros Hm db Hv. specialize (Hm db Hv). unfold attempt.
  destruct (m db) as [[] db']; simpl in *; auto.
Qed.

Lemma wp_for_each {A} (f : A → M PrismaDb unit) (I : list A → Store → Prop)
    (Q : outcome unit → Store → Prop) l st :
  I l st →
  (∀ x l st, I (x :: l) st →
     wp (f x) (λ o st', match o with Ok () => I l st' | o => Q o st' end) st) →
  (∀ st, I [] st → Q (Ok ()) st) →
  wp (for_each f l) Q st.
Proof.
  intros HI Hf HQ. revert st HI. induction l as [|x l IH]; intros st HI; simpl.
  - apply wp_ret, HQ, HI.
  - apply wp_bind. eapply wp_mono; [apply Hf, HI|]. intros [[]| | |] st'; auto.
Qed.

Lemma wp_mapM {A B} (f : A → M PrismaDb B) (R : A → B → Prop)
    (Q : outcome (list B) → Store → Prop) l st :
  (∀ x, x ∈ l → wp (f x) (λ o st', match o with
     | Ok b => R x b ∧ st' = st
     | Err e => Q (Err e) st'
     | Panic p => Q (Panic p) st'
     | Parked => Q Parked st'
     end) st) →
  (∀ bs, Forall2 R l bs → Q (Ok bs) st) →
  wp (mapM f l) Q st.
Proof.
  revert Q. induction l as [|x l IH]; intros Q Hf HQ; simpl.
  - apply wp_ret, HQ. constructor.
  - apply wp_bind. eapply wp_mono; [apply Hf; left|].
    intros [b| | |] st'; auto. intros [Hb ->]. apply wp_bind. apply IH.
    + intros y Hy. eapply wp_mono; [apply Hf; by right|]. by intros [].
    + intros bs Hbs. apply wp_ret, HQ. by constructor.
Qed.

(** *** Queries that may fail *)

Lemma wp_migrate Q st : (∀ o, Q o st) → wp migrate_deploy Q st.
Proof.
  intros HQ db <-. pose proof (migrate_view db) as Hl.
  destruct (migrate_deploy db) as [[] db']; simpl in *; try done; by rewrite Hl.
Qed.

Lemma wp_create m c Q st :
  (∀ e, Q (Err e) st) →
  (∀ k d, key_ok st m k → new_row st m c k = Some d → Q (Ok d) (insert_row m d st)) →
  wp (create m c) Q st.
Proof.
  intros He HQ db <-. pose proof (create_view m c db) as Hl.
  destruct (create m c db) as [[] db']; simpl in *; try done; [|by rewrite Hl].
  destruct Hl as (k & Hk & Hn & ->). eauto.
Qed.

Lemma wp_find_unique m u Q st :
  (∀ e, Q (Err e) st) → Q (Ok (head (selected st m u))) st → wp (find_unique m u) Q st.
Proof.
  intros He HQ db <-. pose proof (find_unique_view m u db) as Hl.
  destruct (find_unique m u db) as [[] db']; simpl in *; try done; [|by rewrite Hl].
  by destruct Hl as [-> ->].
Qed.

Lemma wp_find_first m ws Q st :
  (∀ e, Q (Err e) st) →
  (∀ d, d ∈ rows st m → matches_all st m ws d = true → Q (Ok (Some d)) st) →
  ((∀ d, d ∈ rows st m → matches_all st m ws d = false) → Q (Ok None) st) →
  wp (find_first m ws) Q st.
Proof.
  intros He HS HN db <-. pose proof (find_first_view m ws db) as Hl.
  destruct (find_first m ws db) as [[[]| | |] db']; simpl in *; try done; [| |by rewrite Hl].
  - destruct Hl as (-> & ? & ?). auto.
  - destruct Hl as (-> & ?). auto.
Qed.

Lemma wp_find_many m ws Q st :
  (∀ e, Q (Err e) st) →
  (∀ l, l ≡ₚ filter (λ d, matches_all st m ws d = true) (rows st m) → Q (Ok l) st) →
  wp (find_many m ws) Q st.
Proof.
  intros He HQ db <-. pose proof (find_many_view m ws db) as Hl.
  destruct (find_many m ws db) as [[] db']; simpl in *; try done; [|by rewrite Hl].
  destruct Hl as [-> ?]. auto.
Qed.

Lemma wp_update m u l Q st :
  (∀ r, r ∈ selected st m u → is_Some (assign_all m l r)) →
  (∀ e, Q (Err e) st) →
  (∀ r d, head (selected st m u) = Some r → assign_all m l r = Some d →
     Q (Ok d) (replace_rows m u d st)) →
  wp (update m u l) Q st.
Proof.
  intros Ha He HQ db <-. pose proof (update_view m u l db Ha) as Hl.
  destruct (update m u l db) as [[] db']; simpl in *; try done; [|by rewrite Hl].
  destruct Hl as (r & ? & ? & ->). eauto.
Qed.

(** Whatever an update assigns, the other tables stay. *)
Lemma wp_update_frame m u l Q st :
  (∀ o st', (∀ m', m ≠ m' → rows st' m' = rows st m') → Q o st') → wp (update m u l) Q st.
Proof. intros HQ db <-. apply HQ. intros m' Hm. by apply update_frame. Qed.

Lemma wp_delete m u Q st :
  (∀ e, Q (Err e) st) →
  (∀ d, head (selected st m u) = Some d → referenced st m d = false →
     Q (Ok d) (remove_rows m (unique_matches m u) st)) →
  wp (delete m u) Q st.
Proof.
  intros He HQ db <-. pose proof (delete_view m u db) as Hl.
  destruct (delete m u db) as [[] db']; simpl in *; try done; [|by rewrite Hl].
  destruct Hl as (? & ? & ->). eauto.
Qed.

Lemma wp_delete_many m ws Q st :
  (∀ e, Q (Err e) st) →
  (∀ n, Q (Ok n) (remove_rows m (matches_all st m ws) st)) →
  wp (delete_many m ws) Q st.
Proof.
  intros He HQ db <-. pose proof (delete_many_view m ws db) as Hl.
  destruct (delete_many m ws db) as [[] db']; simpl in *; try done; rewrite Hl; auto.
Qed.

(** The rows of a transaction that does not return are those before it. *)
Lemma wp_transaction {A} (f : M PrismaDb A) Q st :
  (∀ e, Q (Err e) st) →
  wp f (λ o st', Q o (if is_ok o then st' else st)) st →
  wp (run_transaction f) Q st.
Proof.
  intros He Hf db Hv. specialize (Hf db Hv).
  destruct (transaction_view f db) as [[[e ->] ->]|[-> ->]].
  - rewrite Hv. apply He.
  - rewrite Hv. exact Hf.
Qed.

(** *** Queries of a reliable client *)

Section reliable.
Context `{!PrismaReliable}.

Lemma wp_migrate_ok Q st : Q (Ok ()) st → wp migrate_deploy Q st.
Proof.
  intros HQ db <-. pose proof (migrate_view db) as Hl. pose proof (migrate_ok db) as Ho.
  destruct (migrate_deploy db) as [o db']; simpl in *. subst o. by rewrite Hl.
Qed.

Lemma wp_create_ok m c Q st :
  (∀ k, is_Some (new_row st m c k)) →
  (∀ k d, key_ok st m k → new_row st m c k = Some d → Q (Ok d) (insert_row m d st)) →
  wp (create m c) Q st.
Proof.
  intros Hs HQ db <-. pose proof (create_view m c db) as Hl.
  destruct (create_ok m c db Hs) as [d Ho].
  destruct (create m c db) as [o db']; simpl in *. subst o.
  destruct Hl as (k & Hk & Hn & ->). eauto.
Qed.

Lemma wp_find_unique_ok m u Q st :
  Q (Ok (head (selected st m u))) st → wp (find_unique m u) Q st.
Proof.
  intros HQ db <-. pose proof (find_unique_view m u db) as Hl.
  destruct (find_unique_ok m u db) as [d Ho].
  destruct (find_unique m u db) as [o db']; simpl in *. subst o. by destruct Hl as [-> ->].
Qed.

Lemma wp_find_first_ok m ws Q st :
  (∀ d, d ∈ rows st m → matches_all st m ws d = true → Q (Ok (Some d)) st) →
  ((∀ d, d ∈ rows st m → matches_all st m ws d = false) → Q (Ok None) st) →
  wp (find_first m ws) Q st.
Proof.
  intros HS HN db <-. pose proof (find_first_view m ws db) as Hl.
  destruct (find_first_ok m ws db) as [d Ho].
  destruct (find_first m ws db) as [o db']; simpl in *. subst o. destruct d; simpl.
  - destruct Hl as (-> & ? & ?). auto.
  - destruct Hl as (-> & ?). auto.
Qed.

Lemma wp_find_many_ok m ws Q st :
  (∀ l, l ≡ₚ filter (λ d, matches_all st m ws d = true) (rows st m) → Q (Ok l) st) →
  wp (find_many m ws) Q st.
Proof.
  intros HQ db <-. pose proof (find_many_view m ws db) as Hl.
  destruct (find_many_ok m ws db) as [d Ho].
  destruct (find_many m ws db) as [o db']; simpl in *. subst o. destruct Hl as [-> ?]. auto.
Qed.

Lemma wp_update_ok m u l Q st r d :
  selected st m u = [r] → assign_all m l r = Some d →
  Q (Ok d) (replace_rows m u d st) → wp (update m u l) Q st.
Proof.
  intros Hs Ha HQ db Hv. subst st.
  assert (head (selected (view db) m u) = Some r) as Hh by by rewrite Hs.
  pose proof (update_view m u l db) as Hl.
  destruct (update_ok m u l db r Hh ltac:(eauto)) as [d' Ho].
  destruct (update m u l db) as [o db']; simpl in *. subst o.
  destruct Hl as (r' & Hr & Ha' & ->).
  - intros r' Hr'. rewrite Hs in Hr'. apply list_elem_of_singleton in Hr'. naive_solver.
  - naive_solver.
Qed.

Lemma wp_delete_ok m u Q st r :
  selected st m u = [r] → referenced st m r = false →
  (∀ d st', Q (Ok d) st') → wp (delete m u) Q st.
Proof.
  intros Hs Hr HQ db Hv. subst st.
  assert (head (selected (view db) m u) = Some r) as Hh by by rewrite Hs.
  destruct (delete_ok m u db r Hh Hr) as [d Ho].
  destruct (delete m u db) as [o db']; simpl in *. by subst o.
Qed.

Lemma wp_delete_many_ok m ws Q st :
  (∀ n, Q (Ok n) (remove_rows m (matches_all st m ws) st)) → wp (delete_many m ws) Q st.
Proof.
  intros HQ db <-. pose proof (delete_many_view m ws db) as Hl.
  destruct (delete_many_ok m ws db) as [d Ho].
  destruct (delete_many m ws db) as [o db']; simpl in *. subst o. rewrite Hl. auto.
Qed.

Lemma wp_transaction_ok {A} (f : M PrismaDb A) Q st :
  wp f (λ o st', Q o (if is_ok o then st' else st)) st → wp (run_transaction f) Q st.
Proof.
  intros Hf db Hv. specialize (Hf db Hv). pose proof (transaction_ok f db) as Ho.
  destruct (transaction_view f db) as [[[e He] ->]|[-> ->]]; rewrite Hv; [|exact Hf].
  rewrite He in Ho |- *. by rewrite <- Ho in Hf.
Qed.
End reliable.

End wp.
