(* ===== verification/SqliteProps.v ===== *)
(** What the SQLite worker guarantees: the integrity of its tables over every sequence
    of calls, the address book its two tables of saved peers implement, the totals of
    the recorded transactions, and where lookups and restarts fail. *)

From S2P Require Import Prelude DataStructure Prisma SqliteDb SqliteLogic.

(** ** The tables *)

Definition account_key (a : SavedPeerAccountInfoData) : string * string :=
  (spa_saved_peer_id a, spa_account_id a).

Record Integrity (st : Store) : Prop := {
  saved_ids : NoDup (sp_id <$> rows st saved_peers);
  saved_nodes : NoDup (sp_node_id <$> rows st saved_peers);
  saved_accounts_once : NoDup (account_key <$> rows st saved_peer_account_info);
  saved_accounts_of_peers : ∀ a, a ∈ rows st saved_peer_account_info →
    spa_saved_peer_id a ∈ sp_id <$> rows st saved_peers;
  own_peer_main : ∀ d, d ∈ rows st user_peer → up_id d = MAIN_USER_ID;
  own_peer_once : NoDup (up_id <$> rows st user_peer);
  own_accounts : ∀ a, a ∈ rows st user_peer_account_info →
    upa_user_peer_id a ∈ up_id <$> rows st user_peer
}.

Lemma empty_integrity : Integrity empty_store.
Proof. split; simpl; try constructor; intros ? Hd; by apply not_elem_of_nil in Hd. Qed.

(** The tables [Integrity] speaks of. *)
Definition linked (m : model) : bool :=
  match m with
  | saved_peers | saved_peer_account_info | user_peer | user_peer_account_info => true
  | _ => false
  end.

Lemma integrity_ext st st' :
  (∀ m, linked m = true → rows st' m = rows st m) → Integrity st → Integrity st'.
Proof.
  intros E [H1 H2 H3 H4 H5 H6 H7].
  pose proof (E saved_peers eq_refl) as E1. pose proof (E saved_peer_account_info eq_refl) as E2.
  pose proof (E user_peer eq_refl) as E3. pose proof (E user_peer_account_info eq_refl) as E4.
  split; rewrite ?E1, ?E2, ?E3, ?E4; assumption.
Qed.

(** The accounts of a peer, and the address book: the accounts by node id. *)
Definition saved_accounts (st : Store) (id : string) : gset string :=
  list_to_set (spa_account_id <$>
    filter (λ a, spa_saved_peer_id a = id) (rows st saved_peer_account_info)).

Definition saved_map (st : Store) : gmap string (gset string) :=
  list_to_map ((λ p, (sp_node_id p, saved_accounts st (sp_id p))) <$> rows st saved_peers).

Lemma elem_of_saved_accounts st id a :
  a ∈ saved_accounts st id ↔
  ∃ r, r ∈ rows st saved_peer_account_info ∧ spa_saved_peer_id r = id ∧ spa_account_id r = a.
Proof.
  unfold saved_accounts. rewrite elem_of_list_to_set, list_elem_of_fmap.
  setoid_rewrite list_elem_of_filter. naive_solver.
Qed.

Lemma fst_saved_map st :
  ((λ p, (sp_node_id p, saved_accounts st (sp_id p))) <$> rows st saved_peers).*1 =
  sp_node_id <$> rows st saved_peers.
Proof. rewrite <- list_fmap_compose. by apply list_fmap_ext. Qed.

Lemma saved_map_Some st n s :
  Integrity st →
  saved_map st !! n = Some s ↔
  ∃ p, p ∈ rows st saved_peers ∧ sp_node_id p = n ∧ s = saved_accounts st (sp_id p).
Proof.
  intros HI. unfold saved_map. rewrite <- elem_of_list_to_map.
  - rewrite list_elem_of_fmap. naive_solver.
  - rewrite fst_saved_map. apply HI.
Qed.

Lemma saved_map_None st n :
  saved_map st !! n = None ↔ n ∉ sp_node_id <$> rows st saved_peers.
Proof. unfold saved_map. by rewrite <- not_elem_of_list_to_map, fst_saved_map. Qed.

(** Rows with equal identifiers are equal. *)
Lemma NoDup_fmap_inj {A B} (f : A → B) l x y :
  NoDup (f <$> l) → x ∈ l → y ∈ l → f x = f y → x = y.
Proof.
  intros Hn Hx Hy Hf. apply list_elem_of_lookup in Hx as [i Hi], Hy as [j Hj].
  assert (i = j) as ->; [|congruence].
  eapply NoDup_lookup; [exact Hn| |]; rewrite list_lookup_fmap; [by rewrite Hi|].
  by rewrite Hj, Hf.
Qed.

Lemma NoDup_fmap_snoc {A B} (f : A → B) l x :
  NoDup (f <$> l) → f x ∉ f <$> l → NoDup (f <$> l ++ [x]).
Proof.
  intros Hn Hx. rewrite fmap_app. apply list.NoDup_app. split; [done|]. split.
  - intros y Hy ->%list_elem_of_singleton. done.
  - apply NoDup_singleton.
Qed.

Lemma head_filter {A} (P : A → Prop) `{∀ x, Decision (P x)} l :
  match head (filter P l) with
  | Some x => x ∈ l ∧ P x
  | None => ∀ x, x ∈ l → ¬ P x
  end.
Proof.
  destruct (filter P l) as [|x k] eqn:E; simpl.
  - intros x Hx HP. assert (x ∈ filter P l) as Hin by by apply list_elem_of_filter.
    rewrite E in Hin. by apply not_elem_of_nil in Hin.
  - assert (x ∈ filter P l) as Hin by (rewrite E; left). apply list_elem_of_filter in Hin. tauto.
Qed.

(** Filtering on an identifier finds the one row. *)
Lemma filter_unique {A B} `{EqDecision B} (f : A → B) (P : A → Prop) `{∀ x, Decision (P x)} l r :
  NoDup (f <$> l) → r ∈ l → (∀ x, P x ↔ f x = f r) → filter P l = [r].
Proof.
  intros Hn Hr HP. induction l as [|x l IH]; [by apply not_elem_of_nil in Hr|].
  apply list.NoDup_cons in Hn as [Hx Hn]. apply elem_of_cons in Hr as [<-|Hr].
  - rewrite filter_cons_True by by apply HP. f_equal.
    pose proof (head_filter P l) as Hh. destruct (filter P l) as [|y k]; [done|]; simpl in Hh.
    destruct Hh as [Hy Hf%HP]. destruct Hx. apply list_elem_of_fmap. eauto.
  - rewrite filter_cons_False; [auto|]. intros Hf%HP. destruct Hx. apply list_elem_of_fmap. eauto.
Qed.

Lemma node_selected st n :
  match head (selected st saved_peers (SavedPeers_NodeIdEquals n)) with
  | Some p => p ∈ rows st saved_peers ∧ sp_node_id p = n
  | None => n ∉ sp_node_id <$> rows st saved_peers
  end.
Proof.
  unfold selected. pose proof (head_filter
    (λ d, unique_matches saved_peers (SavedPeers_NodeIdEquals n) d = true) (rows st saved_peers)) as Hh.
  destruct (head _) as [p|]; simpl in Hh.
  - by rewrite bool_decide_eq_true in Hh.
  - intros (p & -> & Hp)%list_elem_of_fmap. by apply (Hh p Hp), bool_decide_eq_true.
Qed.

Lemma peer_selected st p :
  Integrity st → p ∈ rows st saved_peers →
  selected st saved_peers (SavedPeers_IdEquals (sp_id p)) = [p].
Proof.
  intros HI Hp. apply (filter_unique sp_id); [apply HI|done|].
  intros x. simpl. by rewrite bool_decide_eq_true.
Qed.

(** ** Adding rows to the address book *)

Lemma insert_peer_integrity st d :
  Integrity st → sp_id d ∉ sp_id <$> rows st saved_peers →
  sp_node_id d ∉ sp_node_id <$> rows st saved_peers →
  Integrity (insert_row saved_peers d st).
Proof.
  intros [] Hid Hnode. split; simpl; try done.
  - by apply NoDup_fmap_snoc.
  - by apply NoDup_fmap_snoc.
  - intros a Ha. rewrite fmap_app. set_solver.
Qed.

Lemma insert_account_integrity st d :
  Integrity st → spa_saved_peer_id d ∈ sp_id <$> rows st saved_peers →
  account_key d ∉ account_key <$> rows st saved_peer_account_info →
  Integrity (insert_row saved_peer_account_info d st).
Proof.
  intros [] Hp Hk. split; simpl; try done.
  - by apply NoDup_fmap_snoc.
  - intros a Ha. set_solver.
Qed.

Lemma saved_map_insert_peer st d :
  Integrity st → sp_id d ∉ sp_id <$> rows st saved_peers →
  sp_node_id d ∉ sp_node_id <$> rows st saved_peers →
  saved_map (insert_row saved_peers d st) = <[sp_node_id d := ∅]> (saved_map st).
Proof.
  intros HI Hid Hnode. apply map_eq. intros n. apply option_eq. intros s.
  rewrite saved_map_Some by by apply insert_peer_integrity.
  assert (saved_accounts (insert_row saved_peers d st) (sp_id d) = ∅) as Hnone.
  { apply set_eq. intros a. rewrite elem_of_saved_accounts. split; [|set_solver].
    intros (r & Hr & Hi & _). destruct Hid. rewrite <- Hi. by apply HI. }
  simpl. destruct (decide (n = sp_node_id d)) as [->|Hn].
  - rewrite lookup_insert_eq. split.
    + intros (p & [Hp| ->%list_elem_of_singleton]%elem_of_app & Hpn & ->); [|by rewrite Hnone].
      destruct Hnode. rewrite <- Hpn. by apply list_elem_of_fmap_2.
    + intros [= <-]. exists d. set_solver.
  - rewrite lookup_insert_ne, saved_map_Some by done. split.
    + intros (p & [Hp| ->%list_elem_of_singleton]%elem_of_app & Hpn & ->); [|done]. eauto.
    + intros (p & Hp & Hpn & ->). exists p. set_solver.
Qed.

Lemma saved_map_insert_account st d p :
  Integrity st → p ∈ rows st saved_peers → spa_saved_peer_id d = sp_id p →
  account_key d ∉ account_key <$> rows st saved_peer_account_info →
  saved_map (insert_row saved_peer_account_info d st) =
  <[sp_node_id p := {[spa_account_id d]} ∪ saved_accounts st (sp_id p)]> (saved_map st).
Proof.
  intros HI Hp Hd Hk. apply map_eq. intros n. apply option_eq. intros s.
  assert (Integrity (insert_row saved_peer_account_info d st)) as HI'.
  { apply insert_account_integrity; [done| |done]. rewrite Hd. by apply list_elem_of_fmap_2. }
  assert (∀ q, q ∈ rows st saved_peers →
    saved_accounts (insert_row saved_peer_account_info d st) (sp_id q) =
    if decide (q = p) then {[spa_account_id d]} ∪ saved_accounts st (sp_id q)
    else saved_accounts st (sp_id q)) as Hacc.
  { intros q Hq. apply set_eq. intros a. rewrite elem_of_saved_accounts. simpl.
    setoid_rewrite elem_of_app. setoid_rewrite list_elem_of_singleton.
    case_decide as Heq; [subst q; rewrite elem_of_union, elem_of_singleton|];
      rewrite elem_of_saved_accounts; split; try naive_solver.
    intros (r & [Hr| ->] & Hri & <-); [eauto|]. destruct Heq.
    apply (NoDup_fmap_inj sp_id (rows st saved_peers)); [apply HI|done|done|congruence]. }
  rewrite saved_map_Some by done. simpl.
  destruct (decide (n = sp_node_id p)) as [->|Hn].
  - rewrite lookup_insert_eq. split.
    + intros (q & Hq & Hqn & ->). rewrite Hacc by done.
      assert (q = p) as -> by (apply (NoDup_fmap_inj sp_node_id (rows st saved_peers)); [apply HI|..]; done).
      by rewrite decide_True.
    + intros [= <-]. exists p. by rewrite Hacc, decide_True.
  - rewrite lookup_insert_ne, saved_map_Some by done. split.
    + intros (q & Hq & Hqn & ->). exists q. rewrite Hacc, decide_False by naive_solver. done.
    + intros (q & Hq & Hqn & ->). exists q. rewrite Hacc, decide_False by naive_solver. done.
Qed.

(** ** The address book *)

Section book.
Context `{PrismaLaws}.
Implicit Types st : Store.

Lemma default_saved st p :
  Integrity st → p ∈ rows st saved_peers →
  default ∅ (saved_map st !! sp_node_id p) = saved_accounts st (sp_id p).
Proof.
  intros HI Hp. assert (saved_map st !! sp_node_id p = Some (saved_accounts st (sp_id p))) as ->.
  { apply saved_map_Some; eauto. }
  done.
Qed.

Lemma wp_find_or_create addr Q st :
  Integrity st → (∀ e, Q (Err e) st) →
  (∀ p st1, Integrity st1 → p ∈ rows st1 saved_peers → sp_node_id p = addr →
     saved_map st1 = <[addr := default ∅ (saved_map st !! addr)]> (saved_map st) →
     Q (Ok p) st1) →
  wp (find_or_create_peer addr) Q st.
Proof.
  intros HI He HQ. apply wp_bind, wp_find_unique; [done|].
  pose proof (node_selected st addr) as Hs. destruct (head _) as [p|].
  - destruct Hs as [Hp <-]. apply wp_ret, HQ; try done.
    rewrite insert_id; [done|]. rewrite default_saved by done. apply saved_map_Some; eauto.
  - apply (wp_create saved_peers); [done|]. intros k d Hk Hd. simpl in Hk, Hd.
    rewrite decide_False in Hd by done. injection Hd as [= <-].
    assert (saved_map st !! addr = None) as Hno by by apply saved_map_None.
    apply HQ; simpl; [by apply insert_peer_integrity|set_solver|done|].
    by rewrite saved_map_insert_peer, Hno.
Qed.

Lemma find_account_matches st i a d :
  matches_all st saved_peer_account_info
    [SavedPeerAccountInfo_SavedPeerId i; SavedPeerAccountInfo_AccountId a] d = true ↔
  account_key d = (i, a).
Proof.
  unfold matches_all, account_key; simpl. rewrite andb_true_r, andb_true_iff, !bool_decide_eq_true.
  split; [by intros [-> ->]|by intros [= -> ->]].
Qed.

Lemma wp_record_saved a addr st :
  Integrity st →
  wp (record_saved_user_peers a addr) (λ o st', match o with
    | Ok _ => Integrity st' ∧
        saved_map st' = <[addr := {[a]} ∪ default ∅ (saved_map st !! addr)]> (saved_map st)
    | Err _ => st' = st
    | _ => False
    end) st.
Proof.
  intros HI. apply wp_transaction; [done|]. apply wp_bind, wp_find_or_create; [done..|].
  intros p st1 HI1 Hp <- Hm1.
  assert (saved_accounts st1 (sp_id p) = default ∅ (saved_map st !! sp_node_id p)) as Hacc.
  { by rewrite <- default_saved, Hm1, lookup_insert_eq. }
  apply wp_bind, wp_find_first; [done|..].
  - intros d Hd [= Hi Ha]%find_account_matches. apply wp_skip. simpl. split; [done|].
    rewrite <- Hacc. replace ({[a]} ∪ _) with (saved_accounts st1 (sp_id p)); [by rewrite Hacc, Hm1|].
    assert (a ∈ saved_accounts st1 (sp_id p)) by (apply elem_of_saved_accounts; eauto). set_solver.
  - intros Hno. apply wp_bind, (wp_create saved_peer_account_info); [done|]. intros k d Hk Hd. apply wp_skip. simpl.
    simpl in Hd. rewrite (peer_selected st1 p) in Hd by done. injection Hd as <-.
    assert ((sp_id p, a) ∉ account_key <$> rows st1 saved_peer_account_info) as Hnew.
    { intros (x & Hx & Hin)%list_elem_of_fmap. specialize (Hno x Hin).
      by rewrite (proj2 (find_account_matches st1 (sp_id p) a x)) in Hno. }
    split; [apply insert_account_integrity; [done|by apply (list_elem_of_fmap_2 sp_id)|done]|].
    erewrite saved_map_insert_account by done. simpl.
    by rewrite Hm1, insert_insert_eq, Hacc.
Qed.

(** *** Removing a peer *)

Lemma NoDup_fmap_filter {A B} (f : A → B) (P : A → Prop) `{∀ x, Decision (P x)} l :
  NoDup (f <$> l) → NoDup (f <$> filter P l).
Proof.
  intros Hn. eapply sublist_NoDup; [exact Hn|]. apply fmap_sublist, sublist_filter.
Qed.

Lemma elem_of_removed m (p : Data m → bool) st d :
  d ∈ rows (remove_rows m p st) m ↔ d ∈ rows st m ∧ p d = false.
Proof. unfold remove_rows. rewrite rows_set_same, list_elem_of_filter. tauto. Qed.

(** A peer with accounts is not removed, one without is. *)
Lemma wp_delete_saved n st :
  Integrity st →
  wp (delete_saved_peer n) (λ o st', match o with
    | Ok _ => Integrity st' ∧ saved_map st !! n = Some ∅ ∧
        saved_map st' = base.delete n (saved_map st)
    | Err _ => st' = st
    | _ => False
    end) st.
Proof.
  intros HI. apply wp_bind, (wp_find_unique saved_peers); [done|].
  pose proof (node_selected st n) as Hs.
  destruct (head _) as [p|]; [|by apply wp_bind, wp_lift].
  destruct Hs as [Hp <-]. apply wp_bind, wp_lift. simpl.
  apply wp_bind, (wp_delete saved_peers); [done|]. intros d Hd Hr.
  rewrite (peer_selected st p) in Hd by done. injection Hd as <-.
  apply negb_false_iff, bool_decide_eq_true, length_zero_iff_nil in Hr.
  assert (∀ a, a ∈ rows st saved_peer_account_info → spa_saved_peer_id a ≠ sp_id p) as Hno.
  { intros a Ha E. assert (a ∈ accounts_of_saved st p) as Hin by by apply list_elem_of_filter.
    rewrite Hr in Hin. by apply not_elem_of_nil in Hin. }
  set (st' := remove_rows _ _ st).
  assert (∀ q, q ∈ rows st' saved_peers ↔ q ∈ rows st saved_peers ∧ sp_id q ≠ sp_id p) as Hrows.
  { intros q. etrans; [apply (elem_of_removed saved_peers)|]. simpl.
    by rewrite bool_decide_eq_false. }
  assert (Integrity st') as HI'.
  { pose proof HI as []. split; try done.
    - by apply NoDup_fmap_filter.
    - by apply NoDup_fmap_filter.
    - intros a Ha. change (rows st' saved_peer_account_info) with (rows st saved_peer_account_info) in Ha.
      destruct (list_elem_of_fmap sp_id (rows st saved_peers) (spa_saved_peer_id a)) as [Hq _].
      destruct (Hq (saved_accounts_of_peers0 a Ha)) as (q & Eq & Hin).
      rewrite Eq. apply list_elem_of_fmap_2, Hrows. split; [done|]. rewrite <- Eq. by apply Hno. }
  apply wp_skip. split; [done|].
  assert (saved_accounts st (sp_id p) = ∅) as Hempty.
  { apply set_eq. intros a. rewrite elem_of_saved_accounts. split; [|set_solver].
    intros (r & Hin & Hi & _). by destruct (Hno r Hin). }
  split; [apply saved_map_Some; eauto|].
  apply map_eq. intros k. apply option_eq. intros s. rewrite saved_map_Some by done.
  change (saved_accounts st') with (saved_accounts st).
  destruct (decide (k = sp_node_id p)) as [->|Hk].
  - rewrite lookup_delete_eq. split; [|done]. intros (q & [Hq Hid]%Hrows & Hn & _).
    destruct Hid. f_equal. apply (NoDup_fmap_inj sp_node_id (rows st saved_peers)); try done. apply HI.
  - rewrite lookup_delete_ne, saved_map_Some by done. setoid_rewrite Hrows. split.
    + naive_solver.
    + intros (q & Hq & Hn & ->). exists q. split_and!; try done. intros Hid. destruct Hk.
      rewrite <- Hn. f_equal. apply (NoDup_fmap_inj sp_id (rows st saved_peers)); try done. apply HI.
Qed.

(** *** Replacing the accounts of a peer *)

Lemma readdress_rows {B} st p s (f : SavedPeersData → B) :
  Integrity st → p ∈ rows st saved_peers →
  (∀ s, f {| sp_id := sp_id p; sp_node_id := sp_node_id p; sp_multi_addr := s |} = f p) →
  f <$> rows (replace_rows saved_peers (SavedPeers_IdEquals (sp_id p))
    {| sp_id := sp_id p; sp_node_id := sp_node_id p; sp_multi_addr := s |} st) saved_peers =
  f <$> rows st saved_peers.
Proof.
  intros HI Hp Hf. simpl. rewrite <- list_fmap_compose. apply list_fmap_ext.
  intros i q Hq%list_elem_of_lookup_2. simpl. case_bool_decide as E; [|done].
  rewrite Hf. f_equal. symmetry. apply (NoDup_fmap_inj sp_id (rows st saved_peers)); try done.
  apply HI.
Qed.

Lemma readdress st p s :
  Integrity st → p ∈ rows st saved_peers →
  let st' := replace_rows saved_peers (SavedPeers_IdEquals (sp_id p))
    {| sp_id := sp_id p; sp_node_id := sp_node_id p; sp_multi_addr := s |} st in
  Integrity st' ∧ saved_map st' = saved_map st.
Proof.
  intros HI Hp st'. pose proof HI as []. split; [split; try done|].
  - unfold st'. by rewrite readdress_rows.
  - unfold st'. by rewrite readdress_rows.
  - intros a Ha. unfold st'. rewrite readdress_rows by done. auto.
  - unfold saved_map. change (saved_accounts st') with (saved_accounts st). f_equal.
    unfold st'. by rewrite (readdress_rows st p s (λ q, (sp_node_id q, saved_accounts st (sp_id q)))).
Qed.

Lemma clear_accounts st p :
  Integrity st → p ∈ rows st saved_peers →
  let st' := remove_rows saved_peer_account_info (matches_all st saved_peer_account_info
    [SavedPeerAccountInfo_SavedPeerId (sp_id p)]) st in
  Integrity st' ∧ saved_map st' = <[sp_node_id p := ∅]> (saved_map st).
Proof.
  intros HI Hp st'.
  assert (∀ a, a ∈ rows st' saved_peer_account_info ↔
    a ∈ rows st saved_peer_account_info ∧ spa_saved_peer_id a ≠ sp_id p) as Hrows.
  { intros a. etrans; [apply (elem_of_removed saved_peer_account_info)|].
    unfold matches_all; simpl. by rewrite andb_true_r, bool_decide_eq_false. }
  assert (Integrity st') as HI'.
  { pose proof HI as []. split; try done.
    - by apply NoDup_fmap_filter.
    - intros a [Ha _]%Hrows. auto. }
  split; [done|]. apply map_eq. intros n. apply option_eq. intros s. rewrite saved_map_Some by done.
  change (rows st' saved_peers) with (rows st saved_peers).
  assert (∀ q, q ∈ rows st saved_peers →
    saved_accounts st' (sp_id q) = if decide (q = p) then ∅ else saved_accounts st (sp_id q)) as Hacc.
  { intros q Hq. apply set_eq. intros a. rewrite elem_of_saved_accounts. setoid_rewrite Hrows.
    case_decide as Heq; [subst; set_solver|]. rewrite elem_of_saved_accounts.
    split; [naive_solver|]. intros (r & Hr & Hi & Ha). exists r. split_and!; try done.
    rewrite Hi. intros E. destruct Heq.
    apply (NoDup_fmap_inj sp_id (rows st saved_peers)); try done. apply HI. }
  destruct (decide (n = sp_node_id p)) as [->|Hn].
  - rewrite lookup_insert_eq. split.
    + intros (q & Hq & Hqn & ->). rewrite Hacc, decide_True; [done| |done].
      apply (NoDup_fmap_inj sp_node_id (rows st saved_peers)); try done. apply HI.
    + intros [= <-]. exists p. by rewrite Hacc, decide_True.
  - rewrite lookup_insert_ne, saved_map_Some by done. split.
    + intros (q & Hq & Hqn & ->). exists q. rewrite Hacc, decide_False by naive_solver. done.
    + intros (q & Hq & Hqn & ->). exists q. rewrite Hacc, decide_False by naive_solver. done.
Qed.

(** What the loop over the new accounts keeps. *)
Definition relinked (st : Store) (p : SavedPeersData) (all : list AccountInfo)
    (todo : list AccountInfo) (st' : Store) : Prop :=
  Integrity st' ∧ p ∈ rows st' saved_peers ∧
  ∃ added, added ++ (account <$> todo) = account <$> all ∧
    saved_map st' = <[sp_node_id p := list_to_set added]> (saved_map st).

Lemma wp_link st p all x todo st' :
  NoDup (account <$> all) → relinked st p all (x :: todo) st' →
  wp (create saved_peer_account_info
        (account x, ChainSupported_into_string (network x), SavedPeers_IdEquals (sp_id p)) ;; skip)
     (λ o st'', match o with
                | Ok _ => relinked st p all todo st''
                | Err _ => True
                | _ => False
                end) st'.
Proof.
  intros Hn (HI & Hp & added & Hall & Hmap).
  apply wp_bind, (wp_create saved_peer_account_info); [done|]. intros k d _ Hd. apply wp_skip.
  simpl in Hd. rewrite (peer_selected st' p) in Hd by done. injection Hd as <-.
  assert (saved_accounts st' (sp_id p) = list_to_set added) as Hacc.
  { by rewrite <- default_saved, Hmap, lookup_insert_eq. }
  assert ((sp_id p, account x) ∉ account_key <$> rows st' saved_peer_account_info) as Hnew.
  { intros (r & Hr & Hin)%list_elem_of_fmap.
    assert (account x ∈ saved_accounts st' (sp_id p)) as Ha.
    { apply elem_of_saved_accounts. exists r. unfold account_key in Hr. naive_solver. }
    rewrite Hacc, elem_of_list_to_set in Ha. rewrite <- Hall in Hn.
    apply list.NoDup_app in Hn as (_ & Hdis & _). apply (Hdis _ Ha). simpl. left. }
  split; [|split].
  - apply insert_account_integrity; [done| |done]. by apply (list_elem_of_fmap_2 sp_id).
  - done.
  - exists (added ++ [account x]). rewrite <- app_assoc. split; [done|].
    erewrite saved_map_insert_account by done. simpl. rewrite Hmap, insert_insert_eq.
    f_equal. rewrite Hacc, list_to_set_app_L. set_solver.
Qed.

Lemma wp_update_saved r st :
  Integrity st → NoDup (account <$> accounts r) →
  wp (update_saved_peer r) (λ o st', match o with
    | Ok _ => Integrity st' ∧ ∃ n, peer_id r = Some n ∧ is_Some (saved_map st !! n) ∧
        saved_map st' = <[n := list_to_set (account <$> accounts r)]> (saved_map st)
    | Err _ => st' = st
    | _ => False
    end) st.
Proof.
  intros HI Hn. apply wp_transaction; [done|]. apply wp_bind, wp_lift.
  destruct (peer_id r) as [n|]; [|done]. simpl.
  apply wp_bind, (wp_find_unique saved_peers); [done|].
  pose proof (node_selected st n) as Hs.
  destruct (head _) as [p|]; [|by apply wp_bind, wp_lift].
  destruct Hs as [Hp <-]. apply wp_bind, wp_lift. simpl.
  apply wp_bind, (wp_update saved_peers); [by intros; eauto|done|]. intros q d Hq Hd.
  rewrite (peer_selected st p) in Hq by done. injection Hq as <-. injection Hd as <-.
  set (d := {| sp_id := sp_id p; sp_node_id := sp_node_id p; sp_multi_addr := _ |}).
  destruct (readdress st p (default "" (multi_addr r)) HI Hp) as [HI1 Hm1].
  fold d in HI1, Hm1. set (st1 := replace_rows saved_peers _ d st) in *.
  assert (d ∈ rows st1 saved_peers) as Hd1.
  { change (d ∈ (λ r, if unique_matches saved_peers (SavedPeers_IdEquals (sp_id p)) r then d else r)
      <$> rows st saved_peers). apply list_elem_of_fmap. exists p. split; [|done]. simpl.
    by rewrite bool_decide_true. }
  apply wp_bind, (wp_delete_many saved_peer_account_info); [done|]. intros cnt.
  destruct (clear_accounts st1 d HI1 Hd1) as [HI2 Hm2].
  apply (wp_for_each _ (relinked st d (accounts r))).
  - split_and!; [done|done|]. exists []. split; [done|].
    etrans; [apply Hm2|]. by rewrite Hm1.
  - intros x l st' Hrel. eapply wp_mono; [apply (wp_link st d (accounts r) x l st' Hn Hrel)|].
    intros [[]| | |] ?; simpl; tauto.
  - intros st' (HI' & _ & added & Hall & Hmap). simpl. split; [done|].
    rewrite app_nil_r in Hall. subst added. exists (sp_node_id p). split_and!; try done.
    exists (saved_accounts st (sp_id p)). apply saved_map_Some; eauto.
Qed.
End book.

(** ** Every sequence of calls *)

Inductive db_call :=
  | call_initialize
  | call_set_user_account (u : UserAccount)
  | call_increment_nonce
  | call_get_nonce
  | call_get_user_accounts (n : ChainSupported)
  | call_update_success_tx (t : DbTxStateMachine)
  | call_update_failed_tx (t : DbTxStateMachine)
  | call_get_failed_txs
  | call_get_success_txs
  | call_get_total_value_success
  | call_get_total_value_failed
  | call_record_user_peer_id (r : PeerRecord)
  | call_update_user_peer_id_account_ids (a : AccountInfo)
  | call_get_user_peer_id (a p : option string)
  | call_set_ports (rpc p2p : N)
  | call_get_ports
  | call_record_saved_user_peers (a addr : string)
  | call_get_saved_user_peers (a : string)
  | call_get_all_saved_peers
  | call_delete_saved_peer (p : string)
  | call_get_saved_peer_by_id (p : string)
  | call_update_saved_peer (r : PeerRecord)
  | call_get_account_ids_by_peer_id (p : string)
  | call_get_all_saved_peers_info.

(** The record given for a saved peer lists each account once. *)
Definition call_ok (c : db_call) : Prop :=
  match c with
  | call_update_saved_peer r => NoDup (account <$> accounts r)
  | _ => True
  end.

Section calls.
Context `{PrismaLaws}.

Definition run_call (c : db_call) : M PrismaDb unit :=
  match c with
  | call_initialize => initialize_tables
  | call_set_user_account u => set_user_account u
  | call_increment_nonce => increment_nonce
  | call_get_nonce => get_nonce ;; skip
  | call_get_user_accounts n => get_user_accounts n ;; skip
  | call_update_success_tx t => update_success_tx t
  | call_update_failed_tx t => update_failed_tx t
  | call_get_failed_txs => get_failed_txs ;; skip
  | call_get_success_txs => get_success_txs ;; skip
  | call_get_total_value_success => get_total_value_success ;; skip
  | call_get_total_value_failed => get_total_value_failed ;; skip
  | call_record_user_peer_id r => record_user_peer_id r
  | call_update_user_peer_id_account_ids a => update_user_peer_id_account_ids a
  | call_get_user_peer_id a p => get_user_peer_id a p ;; skip
  | call_set_ports r p => set_ports r p
  | call_get_ports => get_ports ;; skip
  | call_record_saved_user_peers a addr => record_saved_user_peers a addr
  | call_get_saved_user_peers a => get_saved_user_peers a ;; skip
  | call_get_all_saved_peers => get_all_saved_peers ;; skip
  | call_delete_saved_peer p => delete_saved_peer p
  | call_get_saved_peer_by_id p => get_saved_peer_by_id p ;; skip
  | call_update_saved_peer r => update_saved_peer r
  | call_get_account_ids_by_peer_id p => get_account_ids_by_peer_id p ;; skip
  | call_get_all_saved_peers_info => get_all_saved_peers_info ;; skip
  end.

(** The calls one after the other, whether they fail or not. *)
Definition run_calls (cs : list db_call) (db : PrismaDb) : PrismaDb :=
  foldl (λ db c, (run_call c db).2) db cs.

(** A property of the rows of some tables, [T]. *)
Definition about (T : model → bool) (P : Store → Prop) : Prop :=
  ∀ st st', (∀ m, T m = true → rows st' m = rows st m) → P st → P st'.

Section frame.
Context (T : model → bool) (P : Store → Prop) (HT : about T P).
Local Abbreviation intact := (λ db : PrismaDb, P (view db)).

Lemma preserves_wp {A} (m : M PrismaDb A) :
  (∀ st, P st → wp m (λ _ st', P st') st) → preserves intact m.
Proof. intros Hm db Hdb. by apply (Hm (view db)). Qed.

Lemma preserves_migrate : preserves intact migrate_deploy.
Proof. apply preserves_wp. intros st HI. by apply wp_migrate. Qed.
Lemma preserves_find_unique m u : preserves intact (find_unique m u).
Proof. apply preserves_wp. intros st HI. by apply wp_find_unique. Qed.
Lemma preserves_find_first m ws : preserves intact (find_first m ws).
Proof. apply preserves_wp. intros st HI. by apply wp_find_first. Qed.
Lemma preserves_find_many m ws : preserves intact (find_many m ws).
Proof. apply preserves_wp. intros st HI. by apply wp_find_many. Qed.
Lemma preserves_update m u l : T m = false → preserves intact (update m u l).
Proof.
  intros Hm. apply preserves_wp. intros st HI. apply wp_update_frame. intros o st' E.
  apply (HT st); [|done]. intros m' Hm'. apply E. congruence.
Qed.
Lemma preserves_create m c : T m = false → preserves intact (create m c).
Proof.
  intros Hm. apply preserves_wp. intros st HI. apply wp_create; [done|]. intros k d _ _.
  apply (HT st); [|done]. intros m' Hm'. apply rows_set_other. congruence.
Qed.
Lemma preserves_tried {A} (m : M PrismaDb A) : preserves intact m → preserves intact (attempt m).
Proof. intros Hm db Hdb. specialize (Hm db Hdb). unfold attempt. by destruct (m db) as [[] ?]. Qed.
Lemma preserves_transaction {A} (f : M PrismaDb A) :
  preserves intact f → preserves intact (run_transaction f).
Proof.
  intros Hf. apply preserves_wp. intros st HI. apply wp_transaction; [done|].
  intros db <-. specialize (Hf db HI). by destruct (f db) as [[] ?].
Qed.
End frame.

(** The calls that write none of the four linked tables. *)
Definition unlinked_call (c : db_call) : bool :=
  match c with
  | call_record_user_peer_id _ | call_update_user_peer_id_account_ids _
  | call_record_saved_user_peers _ _ | call_delete_saved_peer _ | call_update_saved_peer _ => false
  | _ => true
  end.

Ltac frame_step T HT :=
  first
    [ match goal with
      | |- preserves _ (find_unique ?m ?u) => exact (preserves_find_unique _ m u)
      | |- preserves _ (find_first ?m ?ws) => exact (preserves_find_first _ m ws)
      | |- preserves _ (find_many ?m ?ws) => exact (preserves_find_many _ m ws)
      end
    | apply preserves_migrate | apply (preserves_update T _ HT); reflexivity
    | apply (preserves_create T _ HT); reflexivity | apply preserves_tried
    | apply preserves_mapM; intros ? | apply preserves_skip | apply preserves_ret
    | apply preserves_lift | apply preserves_fail
    | apply preserves_bind; [|intros ?]
    | match goal with |- preserves _ (match ?x with _ => _ end) => destruct x end ].

Lemma unlinked_call_frame T P c :
  about T P → (∀ m, T m = true → linked m = true) → unlinked_call c = true →
  preserves (λ db, P (view db)) (run_call c).
Proof.
  intros HT Hsub Hc.
  assert (about linked P) as HL by (intros st st' E; apply HT; intros m Hm; by apply E, Hsub).
  destruct c; try done; simpl;
    unfold initialize_tables, set_user_account, increment_nonce, get_nonce, get_user_accounts,
      update_success_tx, update_failed_tx, record_transaction, get_failed_txs, get_success_txs,
      get_total_value_success, get_total_value_failed, main_data, get_user_peer_id, set_ports,
      get_ports, get_saved_user_peers, get_all_saved_peers, get_saved_peer_by_id,
      get_account_ids_by_peer_id, account_ids_of, get_all_saved_peers_info;
    repeat frame_step linked HL.
Qed.

Local Abbreviation intact := (λ db : PrismaDb, Integrity (view db)).

Lemma preserves_create_own c :
  preserves intact (create user_peer (MAIN_USER_ID, c.1.1, c.1.2, c.2)).
Proof.
  apply preserves_wp. intros st HI. apply (wp_create user_peer); [done|]. intros k d _ Hd.
  simpl in Hd. repeat case_decide; try done. injection Hd as <-. destruct HI. split; simpl; try done.
  - intros d [Hd| ->%list_elem_of_singleton]%elem_of_app; auto.
  - by apply NoDup_fmap_snoc.
  - intros a Ha. rewrite fmap_app. set_solver.
Qed.

Lemma preserves_add_user_account a : preserves intact (add_user_account a).
Proof.
  apply preserves_bind; [|intros ?; apply preserves_skip]. apply preserves_wp. intros st HI.
  apply (wp_create user_peer_account_info); [done|]. intros k d _ Hd. simpl in Hd.
  unfold selected in Hd. pose proof (head_filter
    (λ d, unique_matches user_peer MAIN_USER_ID d = true) (rows st user_peer)) as Hh.
  destruct (head _) as [p|]; [|done]. destruct Hh as [Hp _]. injection Hd as <-.
  destruct HI. split; simpl; try done.
  intros a' [Ha| ->%list_elem_of_singleton]%elem_of_app; [auto|].
  by apply (list_elem_of_fmap_2 up_id).
Qed.

Lemma preserves_record_user_peer_id r : preserves intact (record_user_peer_id r).
Proof.
  apply preserves_transaction, preserves_bind; [apply (preserves_create_own (_, _, _))|].
  intros _. apply preserves_for_each, preserves_add_user_account.
Qed.

Lemma integrity_about : about linked Integrity.
Proof. intros st st' E. by apply integrity_ext. Qed.

Lemma call_integrity c : call_ok c → preserves intact (run_call c).
Proof.
  intros Hok. destruct (unlinked_call c) eqn:Hc;
    [by apply (unlinked_call_frame linked); [apply integrity_about|..]|].
  destruct c; try done; simpl.
  - apply preserves_record_user_peer_id.
  - apply preserves_add_user_account.
  - apply preserves_wp. intros st HI. eapply wp_mono; [by apply wp_record_saved|].
    intros [] st' Hst; naive_solver.
  - apply preserves_wp. intros st HI. eapply wp_mono; [by apply wp_delete_saved|].
    intros [] st' Hst; naive_solver.
  - apply preserves_wp. intros st HI. eapply wp_mono; [by apply wp_update_saved|].
    intros [] st' Hst; naive_solver.
Qed.

(** C11: Whatever a user does with the SQLite worker, and whichever queries fail, its
    tables stay linked: identifiers and node ids of saved peers are unique, a saved
    account belongs to a saved peer and is stored once per peer, there is at most one
    own peer, MAIN_USER_ID, and its accounts belong to it.  (The record given to
    update_saved_peer lists each account once.) *)
Theorem database_integrity (cs : list db_call) (db : PrismaDb) :
  Forall call_ok cs → Integrity (view db) → Integrity (view (run_calls cs db)).
Proof.
  intros Hcs. revert db. induction Hcs as [|c cs Hc Hcs IH]; intros db HI; [done|].
  simpl. apply IH. by apply call_integrity.
Qed.
End calls.

(** ** The abstract address book *)

Definition book := gmap string (gset string).

(** What a successful call does to it. *)
Definition book_call (c : db_call) (b : book) : book :=
  match c with
  | call_record_saved_user_peers a addr => <[addr := {[a]} ∪ default ∅ (b !! addr)]> b
  | call_delete_saved_peer n => base.delete n b
  | call_update_saved_peer r =>
      match peer_id r with
      | Some n => <[n := list_to_set (account <$> accounts r)]> b
      | None => b
      end
  | _ => b
  end.

Definition saved_tables (m : model) : bool :=
  match m with saved_peers | saved_peer_account_info => true | _ => false end.

Lemma saved_tables_linked m : saved_tables m = true → linked m = true.
Proof. by destruct m. Qed.

Lemma saved_map_about (b : book) : about saved_tables (λ st, saved_map st = b).
Proof.
  intros st st' E <-. unfold saved_map, saved_accounts.
  by rewrite (E saved_peers eq_refl : rows st' saved_peers = rows st saved_peers),
    (E saved_peer_account_info eq_refl :
       rows st' saved_peer_account_info = rows st saved_peer_account_info).
Qed.

Section refined.
Context `{PrismaLaws}.

Lemma own_calls_keep_book c b :
  (∃ r, c = call_record_user_peer_id r) ∨ (∃ a, c = call_update_user_peer_id_account_ids a) →
  preserves (λ db, saved_map (view db) = b) (run_call c).
Proof.
  pose proof (saved_map_about b) as HT.
  assert (∀ a, preserves (λ db, saved_map (view db) = b) (add_user_account a)) as Ha.
  { intros a. apply preserves_bind; [|intros ?; apply preserves_skip].
    by apply (preserves_create _ _ HT). }
  intros [[r ->]|[a ->]]; simpl; [|apply Ha].
  apply (preserves_transaction (λ st, saved_map st = b)), preserves_bind.
  - by apply (preserves_create _ _ HT).
  - intros _. by apply preserves_for_each.
Qed.

(** C10: The two tables of saved peers implement an address book, a finite map from
    node ids to sets of accounts: every call of the SQLite worker that succeeds has
    the effect of its abstract operation on that map (recording a peer adds the account
    to the entry of its address, updating replaces an entry, deleting removes it, all
    others leave it), and a call that fails leaves it as it was, also when a query in
    the middle of it fails. *)
Theorem address_book_refined (c : db_call) (db : PrismaDb) :
  Integrity (view db) → call_ok c →
  saved_map (view (run_call c db).2) =
    if is_ok (run_call c db).1 then book_call c (saved_map (view db))
    else saved_map (view db).
Proof.
  intros HI Hok. destruct (unlinked_call c) eqn:Hc.
  { pose proof (unlinked_call_frame saved_tables (λ st, saved_map st = saved_map (view db)) c
      (saved_map_about _) saved_tables_linked Hc db eq_refl) as ->.
    destruct (is_ok _); [|done]. by destruct c. }
  destruct c; try done; simpl in *.
  - pose proof (own_calls_keep_book (call_record_user_peer_id r) (saved_map (view db))
      ltac:(eauto) db eq_refl) as E. simpl in E. rewrite E. by destruct (is_ok _).
  - pose proof (own_calls_keep_book (call_update_user_peer_id_account_ids a) (saved_map (view db))
      ltac:(eauto) db eq_refl) as E. simpl in E. rewrite E. by destruct (is_ok _).
  - pose proof (wp_record_saved a addr _ HI db eq_refl) as Hw.
    destruct (record_saved_user_peers a addr db) as [[] db']; simpl in *; [tauto|by rewrite Hw|done..].
  - pose proof (wp_delete_saved p _ HI db eq_refl) as Hw.
    destruct (delete_saved_peer p db) as [[] db']; simpl in *; [tauto|by rewrite Hw|done..].
  - pose proof (wp_update_saved r _ HI Hok db eq_refl) as Hw.
    destruct (update_saved_peer r db) as [[] db']; simpl in *; [|by rewrite Hw|done..].
    destruct Hw as (_ & n & -> & _ & ->). done.
Qed.

(** *** Reading it *)

Context `{!PrismaReliable}.

Lemma wp_account_ids_of id Q st :
  Integrity st →
  (∀ l, NoDup l → list_to_set l = saved_accounts st id → Q (Ok l) st) →
  wp (account_ids_of id) Q st.
Proof.
  intros HI HQ. apply wp_bind, (wp_find_many_ok saved_peer_account_info). intros l Hl.
  assert (∀ a, a ∈ l ↔ a ∈ rows st saved_peer_account_info ∧ spa_saved_peer_id a = id) as Hin.
  { intros a. rewrite Hl, list_elem_of_filter. unfold matches_all; simpl.
    rewrite andb_true_r, bool_decide_eq_true. tauto. }
  apply wp_ret, HQ.
  - assert (NoDup (account_key <$> l)) as Hn.
    { rewrite Hl. apply NoDup_fmap_filter, HI. }
    replace (account_key <$> l) with ((id,.) <$> (spa_account_id <$> l)) in Hn.
    + by apply NoDup_fmap_1 in Hn.
    + rewrite <- list_fmap_compose. apply list_fmap_ext. intros i a Ha%list_elem_of_lookup_2.
      apply Hin in Ha as [_ <-]. done.
  - apply set_eq. intros a. rewrite elem_of_list_to_set, elem_of_saved_accounts, list_elem_of_fmap.
    setoid_rewrite Hin. naive_solver.
Qed.

Lemma wp_find_node n Q st :
  (∀ p, p ∈ rows st saved_peers → sp_node_id p = n → Q (Ok (Some p)) st) →
  (n ∉ sp_node_id <$> rows st saved_peers → Q (Ok None) st) →
  wp (find_first saved_peers [SavedPeers_NodeId n]) Q st.
Proof.
  intros HS HN. apply (wp_find_first_ok saved_peers); unfold matches_all; simpl.
  - intros p Hp Hm. rewrite andb_true_r, bool_decide_eq_true in Hm. auto.
  - intros Hno. apply HN. intros (p & -> & Hp)%list_elem_of_fmap.
    specialize (Hno p Hp). by rewrite andb_true_r, bool_decide_eq_false in Hno.
Qed.

(** C32: Reading the address book back from the tables, when no query fails: the
    accounts of a node id are those of its entry, each once, an unknown node id is an
    error; a peer is found by its node id exactly when it has an entry; a peer is
    deleted exactly when its entry exists and has no account left. *)
Theorem address_book_read (n : string) (db : PrismaDb) :
  Integrity (view db) →
  match (get_account_ids_by_peer_id n db).1 with
  | Ok l => NoDup l ∧ saved_map (view db) !! n = Some (list_to_set l)
  | Err _ => saved_map (view db) !! n = None
  | _ => False
  end ∧
  (get_saved_peer_by_id n db).1 =
    Ok (match saved_map (view db) !! n with Some _ => Some n | None => None end) ∧
  (is_ok (delete_saved_peer n db).1 = true ↔ saved_map (view db) !! n = Some ∅).
Proof.
  intros HI. split_and!.
  - apply (wp_run (get_account_ids_by_peer_id n) (λ o _, match o with
      | Ok l => NoDup l ∧ saved_map (view db) !! n = Some (list_to_set l)
      | Err _ => saved_map (view db) !! n = None
      | _ => False end)), wp_bind, wp_find_node.
    + intros p Hp <-. apply wp_bind, wp_lift. simpl. apply wp_account_ids_of; [done|].
      intros l Hl E. split; [done|]. apply saved_map_Some; eauto.
    + intros Hno. apply wp_bind, wp_lift. simpl. by apply saved_map_None.
  - apply (wp_run (get_saved_peer_by_id n) (λ o _, o =
      Ok (match saved_map (view db) !! n with Some _ => Some n | None => None end))),
      wp_bind, wp_find_node.
    + intros p Hp <-. apply wp_ret. simpl.
      assert (saved_map (view db) !! sp_node_id p = Some (saved_accounts (view db) (sp_id p))) as ->;
        [|done]. apply saved_map_Some; eauto.
    + intros Hno. apply wp_ret. apply saved_map_None in Hno. by rewrite Hno.
  - split.
    + intros Hd. pose proof (wp_delete_saved n _ HI db eq_refl) as Hw.
      destruct (delete_saved_peer n db) as [[] db']; try done. apply Hw.
    + intros (p & Hp & <- & Hs)%saved_map_Some; [|done].
      apply (wp_run (delete_saved_peer (sp_node_id p)) (λ o _, is_ok o = true)).
      apply wp_bind, (wp_find_unique_ok saved_peers).
      pose proof (node_selected (view db) (sp_node_id p)) as Hh.
      destruct (head _) as [q|]; [|destruct Hh; by apply list_elem_of_fmap_2].
      destruct Hh as [Hq Hn].
      assert (q = p) as -> by (apply (NoDup_fmap_inj sp_node_id (rows (view db) saved_peers));
        try done; apply HI).
      apply wp_bind, wp_lift. simpl. apply wp_bind.
      apply (wp_delete_ok saved_peers _ _ _ p); [by apply peer_selected| |intros; by apply wp_skip].
      apply negb_false_iff, bool_decide_eq_true, length_zero_iff_nil.
      pose proof (head_filter (λ a, spa_saved_peer_id a = sp_id p)
        (rows (view db) saved_peer_account_info)) as Hf. unfold accounts_of_saved.
      destruct (filter _ _) as [|a l]; [done|]. simpl in Hf.
      assert (spa_account_id a ∈ saved_accounts (view db) (sp_id p)) as Ha
        by (apply elem_of_saved_accounts; exists a; tauto).
      rewrite <- Hs in Ha. set_solver.
Qed.
End refined.
