(* ===== verification/SqliteHistory.v ===== *)
(** The SQLite worker over time: the totals and the listing of recorded transactions,
    the nonce, the ports, a second start, and what the lookups by account find. *)

From S2P Require Import Prelude DataStructure Prisma SqliteDb SqliteLogic SqliteProps.

(** ** Recorded transactions *)

(** A transaction is recorded with the operation of its flag, as the node does. *)
Definition record_tx `{PrismaClient} (t : DbTxStateMachine) : M PrismaDb unit :=
  if success t then update_success_tx t else update_failed_tx t.

Definition total (b : bool) (txs : list DbTxStateMachine) : N :=
  foldr (λ t n, if bool_decide (success t = b) then amount t + n else n)%N 0%N txs.

Lemma total_app b txs txs' : total b (txs ++ txs') = (total b txs + total b txs')%N.
Proof. induction txs as [|t txs IH]; simpl; [done|]. rewrite IH. case_bool_decide; lia. Qed.

(** The listing reads a row back without the checks of the conversion. *)
Definition tx_of_row (r : TransactionData) : DbTxStateMachine := {|
  tx_hash := tx_hash_ r; amount := Z.to_N (tx_value r);
  tx_network := ChainSupported_from_str (tx_network_ r); success := tx_status r |}.

Lemma mapM_from l :
  (∀ r, r ∈ l → (0 <= tx_value r)%Z) → mapM DbTxStateMachine_from l = Ok (tx_of_row <$> l).
Proof.
  induction l as [|r l IH]; intros Hl; [done|].
  change (mapM DbTxStateMachine_from (r :: l)) with
    (t ← DbTxStateMachine_from r; k ← mapM DbTxStateMachine_from l; mret (t :: k)).
  rewrite IH by (intros r' Hr'; apply Hl; by right). unfold DbTxStateMachine_from.
  destruct (Z.ltb_spec (tx_value r) 0) as [Hr|Hr]; [|done].
  specialize (Hl r ltac:(left)). lia.
Qed.

Lemma network_round_trip n : ChainSupported_from_str (ChainSupported_into_string n) = n.
Proof. by destruct n. Qed.

Lemma in_i64_small z : (- 2 ^ 63 <= z < 2 ^ 63)%Z → in_i64 z = Some z.
Proof. intros Hz. unfold in_i64. by rewrite bool_decide_true. Qed.

Lemma in_i32_small z : (- 2 ^ 31 <= z < 2 ^ 31)%Z → in_i32 z = Some z.
Proof. intros Hz. unfold in_i32. by rewrite bool_decide_true. Qed.

Section history.
Context `{PrismaReliable}.

(** The tables after [txs] have been recorded. *)
Definition recorded (txs : list DbTxStateMachine) (st : Store) : Prop :=
  rows st transactions_data =
    [{| td_id := 1; td_success_value := Z.of_N (total true txs);
        td_failed_value := Z.of_N (total false txs) |}] ∧
  tx_of_row <$> rows st transaction = txs ∧
  ∀ r, r ∈ rows st transaction → (0 <= tx_value r)%Z.

Definition in_range (txs : list DbTxStateMachine) : Prop :=
  (total true txs < 2 ^ 63 ∧ total false txs < 2 ^ 63)%N.

Lemma in_range_app txs txs' : in_range (txs ++ txs') → in_range txs.
Proof. unfold in_range. rewrite !total_app. lia. Qed.

Lemma wp_initialize Q st :
  rows st transactions_data = [] → rows st transaction = [] →
  sequence st transactions_data = 0%Z →
  (∀ st', recorded [] st' → Q (Ok ()) st') → wp initialize_tables Q st.
Proof.
  intros Htd Htx Hseq HQ. apply wp_bind, wp_migrate_ok, wp_bind, wp_attempt.
  apply (wp_find_first_ok transactions_data); intros d; [rewrite Htd; set_solver|].
  apply wp_bind, (wp_create_ok transactions_data); [by intros k; eexists|].
  intros k r Hk [= <-]. simpl in Hk. rewrite Hseq in Hk. subst k. apply wp_skip, HQ.
  split_and!; simpl; rewrite ?Htd, ?Htx; try done. set_solver.
Qed.

Lemma wp_record_tx t txs Q st :
  recorded txs st → in_range (txs ++ [t]) →
  (∀ st', recorded (txs ++ [t]) st' → Q (Ok ()) st') → wp (record_tx t) Q st.
Proof.
  intros (Htd & Htx & Hpos) [Hs Hf] HQ.
  assert (as_i64 (amount t) = Z.of_N (amount t)) as Hi.
  { apply as_i64_small. rewrite !total_app in Hs, Hf. simpl in Hs, Hf.
    destruct (success t); simpl in Hs, Hf; lia. }
  rewrite !total_app in Hs, Hf. simpl in Hs, Hf.
  unfold record_tx, update_success_tx, update_failed_tx.
  assert (∀ m : M PrismaDb unit, (∀ st1, rows st1 transactions_data = rows st transactions_data →
      tx_of_row <$> rows st1 transaction = txs ++ [t] →
      (∀ r, r ∈ rows st1 transaction → (0 <= tx_value r)%Z) → wp m Q st1) →
    wp (record_transaction t ;; m) Q st) as Hrec.
  { intros m Hm. apply wp_bind, wp_bind, (wp_create_ok transaction); [by intros k; eexists|].
    intros k d _ [= <-]. apply wp_skip, Hm; simpl; [done| |].
    - rewrite fmap_app, Htx. unfold tx_of_row; simpl. rewrite Hi, N2Z.id, network_round_trip.
      by destruct t.
    - intros r [Hr| ->%list_elem_of_singleton]%elem_of_app; [auto|]. simpl. lia. }
  destruct (success t) eqn:Et; simpl in Hs, Hf; apply Hrec; intros st1 E1 E2 E3.
  all: apply wp_bind; apply (wp_update_ok transactions_data _ _ _ _
    {| td_id := 1; td_success_value := Z.of_N (total true txs);
       td_failed_value := Z.of_N (total false txs) |}
    {| td_id := 1; td_success_value := Z.of_N (total true (txs ++ [t]));
       td_failed_value := Z.of_N (total false (txs ++ [t])) |});
    [unfold selected; by rewrite E1, Htd| |apply wp_skip, HQ; split_and!; [|done|done]].
  all: try (simpl; rewrite E1, Htd; reflexivity).
  all: unfold assign_all; simpl; rewrite Hi, in_i64_small by lia; simpl; rewrite !total_app; simpl; rewrite Et;
    simpl; repeat f_equal; lia.
Qed.

Lemma wp_record_txs txs' txs Q st :
  recorded txs st → in_range (txs ++ txs') →
  (∀ st', recorded (txs ++ txs') st' → Q (Ok ()) st') → wp (for_each record_tx txs') Q st.
Proof.
  revert txs st. induction txs' as [|t txs' IH]; intros txs st HR Hr HQ; simpl.
  - apply wp_ret, HQ. by rewrite app_nil_r.
  - rewrite cons_middle, app_assoc in Hr, HQ. apply wp_bind, (wp_record_tx t txs); [done| |].
    + by eapply in_range_app.
    + intros st' HR'. by apply (IH (txs ++ [t])).
Qed.

Lemma wp_listing b txs st (Q : outcome (list DbTxStateMachine) → Store → Prop) :
  recorded txs st →
  (∀ l, l ≡ₚ filter (λ t, success t = b) txs → Q (Ok l) st) →
  wp (l ← find_many transaction [Transaction_Status b]; lift (mapM DbTxStateMachine_from l)) Q st.
Proof.
  intros (_ & Htx & Hpos) HQ. apply wp_bind, (wp_find_many_ok transaction). intros l Hl.
  assert (∀ r, r ∈ l → r ∈ rows st transaction) as Hin.
  { intros r. rewrite Hl, list_elem_of_filter. tauto. }
  rewrite (mapM_from l); [|auto]. apply wp_lift, HQ. rewrite Hl, <- Htx.
  clear l Hl Hin Htx Hpos HQ.
  induction (rows st transaction) as [|r rs IH]; [done|].
  rewrite fmap_cons, !filter_cons.
  assert (matches_all st transaction [Transaction_Status b] r = true ↔
    success (tx_of_row r) = b) as Hm.
  { unfold matches_all; simpl. by rewrite andb_true_r, bool_decide_eq_true. }
  repeat case_decide; try tauto. simpl. by f_equiv.
Qed.

(** C14: On a fresh database, with no query failing: after start-up and any sequence of
    recorded transactions whose two totals stay below 2^63, the totals read back are the
    sums of the amounts of the successful and of the failed ones, and the two listings
    return exactly the successful and the failed transactions, each with its hash,
    amount, network and flag. *)
Theorem recorded_transactions_read_back (txs : list DbTxStateMachine) (db : PrismaDb) :
  rows (view db) transactions_data = [] → rows (view db) transaction = [] →
  sequence (view db) transactions_data = 0%Z → in_range txs →
  let run := (initialize_tables ;; for_each record_tx txs) db in
  run.1 = Ok () ∧
  (get_total_value_success run.2).1 = Ok (total true txs) ∧
  (get_total_value_failed run.2).1 = Ok (total false txs) ∧
  (∃ l, (get_success_txs run.2).1 = Ok l ∧ l ≡ₚ filter (λ t, success t = true) txs) ∧
  (∃ l, (get_failed_txs run.2).1 = Ok l ∧ l ≡ₚ filter (λ t, success t = false) txs).
Proof.
  intros Htd Htx Hseq Hr run.
  assert (run.1 = Ok () ∧ recorded txs (view run.2)) as [Hok HR].
  { apply (wp_run _ (λ o st, o = Ok () ∧ recorded txs st)), wp_bind, wp_initialize; try done.
    intros st HR. by apply (wp_record_txs txs []). }
  split; [done|]. destruct run as [o db']. simpl in *. clear Hok.
  assert (∀ f g, (∀ st, recorded txs st → f (hd {| td_id := 1; td_success_value := 0;
       td_failed_value := 0 |} (rows st transactions_data)) = g) →
    ((d ← main_data; mret (f d)) db').1 = Ok (g : N)) as Hmain.
  { intros f g Hf. apply (wp_run _ (λ o _, o = Ok g)), wp_bind, wp_bind,
      (wp_find_unique_ok transactions_data), wp_lift.
    specialize (Hf _ HR). unfold selected. destruct HR as (E & _). rewrite E in Hf |- *.
    apply wp_ret. simpl in Hf |- *. by rewrite Hf. }
  destruct Hr as [Hs Hf]. split_and!.
  - apply Hmain. intros st (-> & _). simpl. unfold as_u64. rewrite Z.mod_small; lia.
  - apply Hmain. intros st (-> & _). simpl. unfold as_u64. rewrite Z.mod_small; lia.
  - apply (wp_run get_success_txs (λ o _, ∃ l, o = Ok l ∧
      l ≡ₚ filter (λ t, success t = true) txs)), (wp_listing _ txs); eauto.
  - apply (wp_run get_failed_txs (λ o _, ∃ l, o = Ok l ∧
      l ≡ₚ filter (λ t, success t = false) txs)), (wp_listing _ txs); eauto.
Qed.
End history.

(** ** Lookups by account *)

Section lookups.
Context `{PrismaReliable}.

Lemma every_account st p a :
  matches_all st saved_peers [SavedPeers_AccountsEvery [SavedPeerAccountInfo_AccountId a]] p = true ↔
  saved_accounts st (sp_id p) ⊆ {[a]}.
Proof.
  unfold matches_all; simpl. rewrite andb_true_r, forallb_forall. unfold accounts_of_saved.
  setoid_rewrite <- list_elem_of_In. setoid_rewrite list_elem_of_filter.
  setoid_rewrite andb_true_r. setoid_rewrite bool_decide_eq_true.
  split.
  - intros Hall x (r & Hr & Hi & <-)%elem_of_saved_accounts. apply elem_of_singleton. auto.
  - intros Hsub r [Hi Hr]. apply (elem_of_singleton (C := gset string)), Hsub.
    apply elem_of_saved_accounts. eauto.
Qed.

(** A saved peer is found by an account only when it has no other account: the
    lookup answers with the address of some peer all of whose accounts are that one (a
    peer without accounts included), and with an error when every peer has an account
    besides it, so the second account recorded for a peer hides it from both. *)
Theorem lookup_needs_sole_account (a : string) (db : PrismaDb) :
  Integrity (view db) →
  match (get_saved_user_peers a db).1 with
  | Ok m => ∃ p, p ∈ rows (view db) saved_peers ∧ sp_multi_addr p = m ∧
      saved_accounts (view db) (sp_id p) ⊆ {[a]}
  | Err e => e = "Peer Not found in DB" ∧
      ∀ n s, saved_map (view db) !! n = Some s → ¬ s ⊆ {[a]}
  | _ => False
  end.
Proof.
  intros HI. apply (wp_run (get_saved_user_peers a) (λ o _, match o with
    | Ok m => ∃ p, p ∈ rows (view db) saved_peers ∧ sp_multi_addr p = m ∧
        saved_accounts (view db) (sp_id p) ⊆ {[a]}
    | Err e => e = "Peer Not found in DB" ∧
        ∀ n s, saved_map (view db) !! n = Some s → ¬ s ⊆ {[a]}
    | _ => False
    end)), wp_bind, (wp_find_first_ok saved_peers).
  - intros p Hp Hm%every_account. apply wp_bind, wp_lift. simpl. apply wp_ret. eauto.
  - intros Hno. apply wp_bind, wp_lift. simpl. split; [done|].
    intros n s (p & Hp & _ & ->)%saved_map_Some; [|done]. intros Hsub%every_account.
    by rewrite (Hno p Hp) in Hsub.
Qed.

Lemma same_node_id_all n peers :
  is_ok (same_node_id n peers) = true ↔ Forall (λ p, sp_node_id p = n) peers.
Proof.
  induction peers as [|p peers IH]; simpl; [by split|]. rewrite list.Forall_cons.
  case_decide; [tauto|]. split; [done|tauto].
Qed.

(** All saved peers are returned only when there is exactly one. *)
Theorem all_saved_peers_needs_one (db : PrismaDb) :
  Integrity (view db) →
  is_ok (get_all_saved_peers db).1 = true ↔ length (rows (view db) saved_peers) = 1%nat.
Proof.
  intros HI. apply (wp_run get_all_saved_peers (λ o _, is_ok o = true ↔ _)), wp_bind,
    (wp_find_many_ok saved_peers).
  intros l Hl. assert (filter (λ d, matches_all (view db) saved_peers [] d = true)
    (rows (view db) saved_peers) = rows (view db) saved_peers) as Hall.
  { clear. induction (rows (view db) saved_peers) as [|p l IH]; [done|].
    rewrite filter_cons_True by done. by rewrite IH. }
  rewrite Hall in Hl. clear Hall.
  assert (length (rows (view db) saved_peers) = length l) as ->
    by (symmetry; by apply Permutation_length).
  assert (NoDup (sp_node_id <$> l)) as Hn.
  { rewrite (fmap_Permutation sp_node_id _ _ Hl). apply HI. }
  destruct l as [|p l]; [by apply wp_fail|].
  apply wp_bind, wp_lift. pose proof (same_node_id_all (sp_node_id p) (p :: l)) as Hs.
  destruct (same_node_id _ _) as [[]| | |].
  2-4: split; [done|]; destruct l; [|done]; intros _; by apply Hs, list.Forall_singleton.
  destruct Hs as [Hs _]. specialize (Hs eq_refl). apply list.Forall_cons in Hs as [_ Hs].
  destruct l as [|q l].
  - apply wp_bind, (wp_mapM _ (λ _ _, True)); [|by intros; apply wp_ret].
    intros x _. by apply wp_account_ids_of.
  - apply list.Forall_cons in Hs as [E _]. apply list.NoDup_cons in Hn as [Hn _].
    destruct Hn. simpl. rewrite E. left.
Qed.

(** ** The user's own peer *)

Definition own_row (r : PeerRecord) : UserPeerData := {|
  up_id := MAIN_USER_ID; up_peer_id := default "" (peer_id r);
  up_multi_addr := default "" (multi_addr r); up_keypair := default [] (keypair r) |}.

Lemma wp_own_recorded r st :
  Integrity st →
  wp (record_user_peer_id r)
    (λ o st', o = Ok () → rows st' user_peer = [own_row r]) st.
Proof.
  intros HI. apply wp_transaction; [done|].
  apply wp_bind, (wp_create user_peer); [done|]. intros k d _ Hd. simpl in Hd.
  case_decide as Hid; [done|]. case_decide; [done|]. injection Hd as <-.
  assert (rows st user_peer = []) as Hempty.
  { destruct (rows st user_peer) as [|q l] eqn:E; [done|]. destruct Hid.
    assert (up_id q = MAIN_USER_ID) as <- by (apply (own_peer_main _ HI); rewrite E; left).
    left. }
  apply (wp_for_each _ (λ _ st', rows st' user_peer = [own_row r])).
  - change (rows st user_peer ++ [own_row r] = [own_row r]). by rewrite Hempty.
  - intros a l st' E. apply wp_bind, (wp_create user_peer_account_info); [done|].
    intros k' d _ _. by apply wp_skip.
  - done.
Qed.

Lemma wp_own_again r row st :
  rows st user_peer = [row] → up_id row = MAIN_USER_ID →
  wp (record_user_peer_id r) (λ o st', st' = st ∧ ∃ e, o = Err e) st.
Proof.
  intros E Hid. apply wp_transaction; [eauto|].
  apply wp_bind, (wp_create user_peer); [by eauto|]. intros k d _ Hd. simpl in Hd.
  rewrite decide_True in Hd; [done|]. rewrite E. simpl. rewrite Hid. left.
Qed.

(** The own peer of a node can be recorded only once: after a first start has
    recorded it, recording one fails with the tables unchanged, so every later start of
    the node fails; and the record read back by its peer id has no accounts, whatever
    was recorded. *)
Theorem own_peer_recorded_once (r r' : PeerRecord) (db : PrismaDb) :
  Integrity (view db) → (record_user_peer_id r db).1 = Ok () →
  let db' := (record_user_peer_id r db).2 in
  (∃ e, (record_user_peer_id r' db').1 = Err e) ∧
  view (record_user_peer_id r' db').2 = view db' ∧
  ∃ p, (get_user_peer_id None (Some (default "" (peer_id r))) db').1 = Ok p ∧
    peer_id p = Some (default "" (peer_id r)) ∧
    multi_addr p = Some (default "" (multi_addr r)) ∧
    keypair p = Some (default [] (keypair r)) ∧ accounts p = [].
Proof.
  intros HI Hok db'. pose proof (wp_own_recorded r _ HI db eq_refl Hok) as E. fold db' in E.
  destruct (wp_own_again r' _ _ E eq_refl db' eq_refl) as [Hview Herr].
  split_and!; [done|done|].
  apply (wp_run (get_user_peer_id None (Some (default "" (peer_id r))))
    (λ o _, ∃ p, o = Ok p ∧ _ ∧ _ ∧ _ ∧ accounts p = [])), wp_bind, wp_lift. simpl.
  apply wp_bind, (wp_find_first_ok user_peer); rewrite E.
  - intros d ->%list_elem_of_singleton _. apply wp_bind, wp_lift. simpl. apply wp_ret.
    exists (PeerRecord_from_user (own_row r)). split_and!; try done.
    unfold PeerRecord_from_user. simpl. by rewrite user_peer_accounts_absent.
  - intros Hno. specialize (Hno (own_row r) ltac:(left)). unfold matches_all in Hno. simpl in Hno.
    by rewrite bool_decide_true in Hno.
Qed.

(** ** The nonce *)

(** Counting has to begin with a read, which creates the row: before it an increment is
    an error that changes nothing. *)
Theorem sqlite_nonce_counts (k : nat) (db : PrismaDb) :
  rows (view db) nonce = [] → sequence (view db) nonce = 0%Z → (Z.of_nat k < 2 ^ 31)%Z →
  is_ok (increment_nonce db).1 = false ∧
  ((get_nonce ;; for_each (λ _, increment_nonce) (replicate k ()) ;; get_nonce) db).1 =
    Ok (N.of_nat k).
Proof.
  intros E Hseq Hk. split.
  - apply (wp_run increment_nonce (λ o _, is_ok o = false)), wp_bind, (wp_update nonce).
    + unfold selected. rewrite E. intros r Hr. by apply not_elem_of_nil in Hr.
    + done.
    + unfold selected. by rewrite E.
  - assert (∀ n st (Q : outcome N → Store → Prop), (Z.of_nat n < 2 ^ 31)%Z →
      rows st nonce = [{| nonce_id := 1; nonce_nonce := Z.of_nat n |}] →
      Q (Ok (N.of_nat n)) st → wp get_nonce Q st) as Hget.
    { intros n st Q Hn Hrow HQ. apply wp_bind, (wp_find_unique_ok nonce). unfold selected.
      rewrite Hrow. simpl. apply wp_ret. unfold as_u32. simpl.
      replace (Z.to_N _) with (N.of_nat n); [done|]. rewrite Z.mod_small; lia. }
    apply (wp_run _ (λ o _, o = Ok (N.of_nat k))), wp_bind.
    apply wp_bind, (wp_find_unique_ok nonce). unfold selected. rewrite E. simpl.
    apply wp_bind, (wp_create_ok nonce); [by intros i; eexists|]. intros i d Hi [= <-].
    simpl in Hi. rewrite Hseq in Hi. subst i. apply wp_ret, wp_bind.
    apply (wp_for_each _ (λ l st, length l ≤ k ∧ rows st nonce =
      [{| nonce_id := 1; nonce_nonce := Z.of_nat (k - length l) |}])%nat).
    + rewrite length_replicate. simpl. rewrite E, Nat.sub_diag. by split.
    + intros [] l st [Hl Hrow]. simpl in Hl, Hrow.
      apply wp_bind, (wp_update_ok nonce _ _ _ _
        {| nonce_id := 1; nonce_nonce := Z.of_nat (k - S (length l)) |}
        {| nonce_id := 1; nonce_nonce := Z.of_nat (k - length l) |}).
      * unfold selected. by rewrite Hrow.
      * unfold assign_all. simpl. rewrite in_i32_small by lia. simpl. repeat f_equal. lia.
      * apply wp_skip. split; [lia|]. simpl. by rewrite Hrow.
    + intros st [_ Hrow]. apply (Hget k); [done| |done]. simpl in Hrow.
      by rewrite Nat.sub_0_r in Hrow.
Qed.
End lookups.

(** ** On the concrete client *)

Section samples.
#[local] Instance sample_client : PrismaClient := MemPrisma empty_store.
#[local] Instance sample_laws : PrismaLaws := MemPrisma_laws empty_store.
#[local] Instance sample_reliable : PrismaReliable := MemPrisma_reliable empty_store.

Definition sample_record (addr : string) (accs : list string) : PeerRecord := {|
  peer_id := Some addr;
  accounts := (λ a, {| account := a; network := Ethereum |}) <$> accs;
  multi_addr := Some addr; keypair := Some [] |}.

Definition sample_calls : list db_call := [
  call_initialize; call_record_saved_user_peers "0xa" "/p"; call_record_saved_user_peers "0xb" "/p";
  call_record_user_peer_id (sample_record "me" ["0xme"]);
  call_update_saved_peer (sample_record "/p" ["0xb"; "0xc"]); call_delete_saved_peer "/p"].

Definition empty_db : PrismaDb := empty_store.

Lemma empty_db_integrity : Integrity (view empty_db).
Proof. exact empty_integrity. Qed.

Lemma sample_calls_ok : Forall call_ok sample_calls.
Proof.
  repeat (apply list.Forall_cons; split; [|]); [done..| |done|constructor].
  apply (bool_decide_unpack _). by vm_compute.
Qed.

Lemma database_integrity_witness : Integrity (view (run_calls sample_calls empty_db)).
Proof.
  exact (database_integrity sample_calls empty_db
    sample_calls_ok empty_db_integrity).
Defined.

(** Recording a first account on an empty database. *)
Lemma address_book_refined_witness :
  saved_map (view (run_call (call_record_saved_user_peers "0xa" "/p") empty_db).2) =
  {["/p" := {["0xa"]}]}.
Proof.
  refine (eq_trans (address_book_refined (call_record_saved_user_peers "0xa" "/p")
    empty_db empty_db_integrity I) _).
  vm_compute. reflexivity.
Defined.

(** No peer is found on an empty database. *)
Lemma address_book_read_witness :
  is_ok (delete_saved_peer "/p" empty_db).1 = true ↔ saved_map (view empty_db) !! "/p" = Some ∅.
Proof. exact (proj2 (proj2 (address_book_read "/p" empty_db empty_db_integrity))). Defined.

Definition sample_tx (n : N) (ok : bool) : DbTxStateMachine := {|
  tx_hash := []; amount := n; tx_network := Ethereum; success := ok |}.
Definition sample_txs : list DbTxStateMachine :=
  [sample_tx 1000 true; sample_tx 1320 false; sample_tx 1500 true; sample_tx 1600 false].

(** The amounts of [storing_success_n_failed_tx_works] in [db_tests.rs]. *)
Lemma recorded_transactions_read_back_witness :
  let run := (initialize_tables ;; for_each record_tx sample_txs) empty_db in
  (get_total_value_success run.2).1 = Ok 2500%N ∧ (get_total_value_failed run.2).1 = Ok 2920%N.
Proof.
  intros run.
  destruct (recorded_transactions_read_back sample_txs empty_db)
    as (_ & Hs & Hf & _); [done|done|done|by split; vm_compute|].
  split; [exact Hs|exact Hf].
Defined.

(** Once a second account is recorded for a peer, neither is found. *)
Definition two_accounts : PrismaDb :=
  run_calls [call_record_saved_user_peers "0xa" "/p"; call_record_saved_user_peers "0xb" "/p"]
    empty_db.

Example second_account_hides_peer :
  (get_saved_user_peers "0xa" two_accounts).1 = Err "Peer Not found in DB" ∧
  (get_saved_user_peers "0xb" two_accounts).1 = Err "Peer Not found in DB".
Proof. split; vm_compute; reflexivity. Qed.

Lemma lookup_needs_sole_account_witness :
  match (get_saved_user_peers "0xa" empty_db).1 with
  | Ok _ => False
  | _ => ∀ n s, saved_map (view empty_db) !! n = Some s → ¬ s ⊆ {["0xa"]}
  end.
Proof. exact (proj2 (lookup_needs_sole_account "0xa" empty_db empty_db_integrity)). Defined.

Lemma own_peer_recorded_once_witness :
  let db := (record_user_peer_id (sample_record "me" ["0xme"]) empty_db).2 in
  is_ok (record_user_peer_id (sample_record "me" []) db).1 = false.
Proof.
  intros db.
  destruct (own_peer_recorded_once (sample_record "me" ["0xme"]) (sample_record "me" [])
    empty_db empty_db_integrity) as ([e He] & _); [vm_compute; reflexivity|].
  unfold db. rewrite He. reflexivity.
Defined.

Example nonce_counts_sample : (Z.of_nat 3 < 2 ^ 31)%Z ∧
  ((get_nonce ;; for_each (λ _, increment_nonce) (replicate 3 ()) ;; get_nonce)
    empty_db).1 = Ok 3%N.
Proof. split; [lia|]. by apply (sqlite_nonce_counts 3). Defined.
End samples.
