(* ===== verification/NativeCodec.v ===== *)
(** The framing of messages between two native nodes ([GenericCodec] in
    [node/native/src/p2p.rs]): a request or a response is its length, as an unsigned
    varint, followed by its bytes, on a substream that is then closed; an error
    response is a substream closed without anything written.

    [unsigned_varint] is a class with its round trip as a law and the LEB128 code as an
    instance.  A substream is the bytes written on it; the faults of a transport other
    than its end are left out.  [usize] has 64 bits. *)

From stdpp Require Import pretty.
From S2P Require Import Prelude.
Open Scope N_scope.

(** ** Varints *)

(** [unsigned_varint::io::ReadError]: the stream failed, at its end or not, or the
    bytes are not a varint. *)
Inductive read_error := VarintIo (unexpected_eof : bool) | VarintDecode.

Class UnsignedVarint := {
  encode_usize : N → bytes;
  read_usize : bytes → (N * bytes) + read_error
}.

Class VarintLaws `{UnsignedVarint} : Prop := {
  read_encode n rest : fits 64 n → read_usize (encode_usize n ++ rest) = inl (n, rest);
  read_end : read_usize [] = inr (VarintIo true)
}.

(** ** The codec *)

Record GenericCodec := { max_request_size : N; max_response_size : N }.

Definition GenericCodec_default : GenericCodec :=
  {| max_request_size := umax 64; max_response_size := umax 64 |}.

(** [usize::try_from(limit).unwrap_or(usize::MAX)] *)
Definition usize_limit (limit : N) : N := N.min limit (umax 64).

(** [vec![0; length]]: a [Vec] holds at most [isize::MAX] bytes. *)
Definition alloc (length : N) : outcome unit :=
  if length <? 2 ^ 63 then Ok () else Panic (ExpectFailed "capacity overflow").

(** [io.read_exact(&mut buffer)] into [length] bytes. *)
Definition read_exact (length : N) : M bytes bytes := λ io,
  if length <=? N.of_nat (List.length io)
  then (Ok (take (N.to_nat length) io), drop (N.to_nat length) io)
  else (Err "failed to fill whole buffer", []).

Definition exceeds (what : string) (length limit : N) : string :=
  what +:+ " size exceeds limit: " +:+ pretty length +:+ " > " +:+ pretty limit.

(** The payload of an announced length. *)
Definition read_payload (what : string) (limit length : N) : M bytes bytes :=
  if usize_limit limit <? length then fail (exceeds what length limit)
  else lift (alloc length) ;; read_exact length.

Section codec.
Context `{UnsignedVarint}.

Definition read_length : M bytes (N + read_error) := λ io,
  match read_usize io with
  | inl (n, rest) => (Ok (inl n), rest)
  | inr e => (Ok (inr e), [])
  end.

Definition read_request (c : GenericCodec) : M bytes bytes :=
  length ← read_length;
  match length with
  | inl length => read_payload "Request" (max_request_size c) length
  | inr _ => fail "invalid input parameter"
  end.

(** The response, or the error the other side answered with. *)
Definition read_response (c : GenericCodec) : M bytes (bytes + string) :=
  length ← read_length;
  match length with
  | inl length =>
      buffer ← read_payload "Response" (max_response_size c) length; mret (inl buffer)
  | inr (VarintIo true) => mret (inr "failed to get response length")
  | inr _ => fail "invalid input parameter"
  end.

(** A substream being written: its bytes and whether it was closed. *)
Record Sink := { written : bytes; sink_closed : bool }.
Definition Sink_new : Sink := {| written := []; sink_closed := false |}.

Definition write_all (b : bytes) : M Sink unit :=
  modify (λ s, {| written := written s ++ b; sink_closed := sink_closed s |}).
Definition close : M Sink unit :=
  modify (λ s, {| written := written s; sink_closed := true |}).

Definition write_request (req : bytes) : M Sink unit :=
  write_all (encode_usize (N.of_nat (length req))) ;;
  write_all req ;;
  close.

Definition write_response (res : bytes + string) : M Sink unit :=
  match res with
  | inl res => write_all (encode_usize (N.of_nat (length res))) ;; write_all res
  | inr _ => skip
  end ;;
  close.

(** ** Properties *)

Context `{!VarintLaws}.

Lemma read_payload_ok what limit (b rest : bytes) :
  N.of_nat (length b) <= usize_limit limit → N.of_nat (length b) < 2 ^ 63 →
  read_payload what limit (N.of_nat (length b)) (b ++ rest) = (Ok b, rest).
Proof.
  intros Hl Hs. unfold read_payload. destruct (N.ltb_spec (usize_limit limit) (N.of_nat (length b)));
    [lia|].
  unfold alloc. destruct (N.ltb_spec (N.of_nat (length b)) (2 ^ 63)); [|lia].
  rewrite run_bind_lift_ok. unfold read_exact. rewrite length_app.
  destruct (N.leb_spec (N.of_nat (length b)) (N.of_nat (length b + length rest))); [|lia].
  rewrite Nat2N.id. by rewrite take_app_length, drop_app_length.
Qed.

Lemma read_length_encoded n rest :
  fits 64 n → read_length (encode_usize n ++ rest) = (Ok (inl n), rest).
Proof. intros Hn. unfold read_length. by rewrite read_encode. Qed.

(** The limits of a reader admit [n] bytes, and so does a vector. *)
Definition admits (limit : N) (n : nat) : Prop :=
  N.of_nat n <= usize_limit limit ∧ N.of_nat n < 2 ^ 63.

Lemma admits_fits limit n : admits limit n → fits 64 (N.of_nat n).
Proof. unfold admits, fits. lia. Qed.

(** C25: What one native node writes another reads: a request of any content within
    the reader's limit is read back byte for byte, whatever follows on the stream, and
    so is a response; an error response is an empty closed substream, which the reader
    reports as an error of the response, not of the connection. *)
Theorem messages_round_trip (c : GenericCodec) (req res rest : bytes) (e : string) :
  admits (max_request_size c) (length req) → admits (max_response_size c) (length res) →
  (let s := (write_request req Sink_new).2 in
   sink_closed s = true ∧ read_request c (written s ++ rest) = (Ok req, rest)) ∧
  (let s := (write_response (inl res) Sink_new).2 in
   sink_closed s = true ∧ read_response c (written s ++ rest) = (Ok (inl res), rest)) ∧
  (let s := (write_response (inr e) Sink_new).2 in
   sink_closed s = true ∧
   read_response c (written s) = (Ok (inr "failed to get response length"), [])).
Proof.
  intros Hreq Hres. split_and!; split; try done.
  - simpl. rewrite <-app_assoc. unfold read_request.
    rewrite (run_bind_ok _ _ _ _ _ (read_length_encoded _ (req ++ rest) (admits_fits _ _ Hreq))).
    by apply read_payload_ok; apply Hreq.
  - simpl. rewrite <-app_assoc. unfold read_response.
    rewrite (run_bind_ok _ _ _ _ _ (read_length_encoded _ (res ++ rest) (admits_fits _ _ Hres))).
    rewrite (run_bind_ok _ _ _ rest res); [done|]. by apply read_payload_ok; apply Hres.
  - change (read_response c [] = (Ok (inr "failed to get response length"), [])).
    unfold read_response, mbind, M_bind, read_length. by rewrite read_end.
Qed.

(** A length above the limit is refused before anything is allocated. *)
Theorem oversized_request_refused (c : GenericCodec) (n : N) (rest : bytes) :
  fits 64 n → usize_limit (max_request_size c) < n →
  (read_request c (encode_usize n ++ rest)).1 = Err (exceeds "Request" n (max_request_size c)).
Proof.
  intros Hn Hl. unfold read_request.
  rewrite (run_bind_ok _ _ _ _ _ (read_length_encoded n rest Hn)). unfold read_payload.
  by rewrite (proj2 (N.ltb_lt _ _) Hl).
Qed.

(** The default codec has no limit: ten bytes that announce a length of 2^63 or more
    make the reader of a request panic. *)
Theorem announced_length_panics (n : N) (rest : bytes) :
  fits 64 n → 2 ^ 63 <= n →
  (read_request GenericCodec_default (encode_usize n ++ rest)).1 =
    Panic (ExpectFailed "capacity overflow").
Proof.
  intros Hn Hl. unfold read_request.
  rewrite (run_bind_ok _ _ _ _ _ (read_length_encoded n rest Hn)). unfold read_payload.
  simpl. unfold usize_limit, umax. unfold fits in Hn.
  destruct (N.ltb_spec (N.min (2 ^ 64 - 1) (2 ^ 64 - 1)) n); [lia|].
  unfold alloc. by destruct (N.ltb_spec n (2 ^ 63)); [lia|].
Qed.
End codec.

(** ** LEB128 *)

Definition byte_of (n : N) : Byte.byte := default Byte.x00 (Byte.of_N n).

Lemma to_N_byte_of n : n < 256 → Byte.to_N (byte_of n) = n.
Proof.
  intros Hn. unfold byte_of. pose proof (Byte.of_N_None_iff n) as Hnone.
  destruct (Byte.of_N n) as [b|] eqn:E; simpl; [by apply Byte.to_of_N|].
  apply proj1 in Hnone. specialize (Hnone eq_refl). lia.
Qed.

(** Seven bits a byte, the lowest first, the high bit on all bytes but the last. *)
Fixpoint leb_encode (fuel : nat) (n : N) : bytes :=
  match fuel with
  | O => []
  | S fuel =>
      if n <? 128 then [byte_of n]
      else byte_of (128 + n mod 128) :: leb_encode fuel (n / 128)
  end.

Fixpoint leb_read (fuel : nat) (first : bool) (io : bytes) : (N * bytes) + read_error :=
  match fuel with
  | O => inr VarintDecode
  | S fuel =>
      match io with
      | [] => inr (VarintIo true)
      | b :: io =>
          let b := Byte.to_N b in
          if b <? 128 then
            if (b =? 0) && negb first then inr VarintDecode else inl (b, io)
          else match leb_read fuel false io with
               | inl (n, io) => inl (b - 128 + 128 * n, io)
               | inr e => inr e
               end
      end
  end.

(** Ten groups of seven bits hold 64 bits. *)
Definition Leb128 : UnsignedVarint := {|
  encode_usize := leb_encode 10;
  read_usize := leb_read 10 true |}.

Lemma leb_round_trip fuel first n rest :
  n < 128 ^ N.of_nat fuel → (first = false → 0 < n) → (0 < fuel)%nat →
  leb_read fuel first (leb_encode fuel n ++ rest) = inl (n, rest).
Proof.
  revert first n. induction fuel as [|fuel IH]; intros first n Hn Hpos Hf; [lia|]. simpl.
  destruct (N.ltb_spec n 128) as [Hs|Hl].
  - simpl. rewrite to_N_byte_of by lia. rewrite (proj2 (N.ltb_lt n 128) Hs).
    destruct (N.eqb_spec n 0) as [->|]; [|done]. destruct first; [done|]. specialize (Hpos eq_refl). lia.
  - pose proof (N.mod_lt n 128 ltac:(lia)) as Hm. pose proof (N.div_mod n 128 ltac:(lia)) as Hd.
    assert (0 < n / 128) as Hq by (apply N.div_str_pos; lia).
    remember (n mod 128) as m. remember (n / 128) as q. clear Heqm Heqq.
    simpl. rewrite to_N_byte_of by lia.
    destruct (N.ltb_spec (128 + m) 128); [lia|].
    rewrite Nat2N.inj_succ, N.pow_succ_r' in Hn.
    assert (0 < fuel)%nat by (destruct fuel; [change (N.of_nat 0) with 0 in Hn; rewrite N.pow_0_r in Hn; lia|lia]).
    rewrite IH; [repeat f_equal; lia| | |done].
    + lia.
    + done.
Qed.

#[export] Instance Leb128_laws : @VarintLaws Leb128.
Proof.
  split; [|done]. intros n rest Hn. apply leb_round_trip; [|done|lia].
  unfold fits in Hn. apply (N.lt_le_trans _ (2 ^ 64)); [done|]. by vm_compute.
Qed.

Lemma messages_round_trip_witness :
  let c := {| max_request_size := 300; max_response_size := 300 |} in
  let req := repeat Byte.x2a 200 in
  length (written (write_request (H := Leb128) req Sink_new).2) = 202%nat ∧
  read_request (H := Leb128) c (written (write_request (H := Leb128) req Sink_new).2 ++ [Byte.x01])
    = (Ok req, [Byte.x01]).
Proof.
  intros c req. split; [vm_compute; reflexivity|].
  apply (messages_round_trip (H := Leb128) c req [] [Byte.x01] ""); split; vm_compute; by intros.
Defined.

Example announced_length_panics_sample :
  (read_request (H := Leb128) GenericCodec_default (leb_encode 10 (2 ^ 63))).1 =
    Panic (ExpectFailed "capacity overflow").
Proof.
  rewrite <-(app_nil_r (leb_encode _ _)).
  by apply (announced_length_panics (H := Leb128) (2 ^ 63) []).
Qed.
