(* ===== verification/NativeTypes.v ===== *)
(** The data of the native node ([node/native/src]).

    The crate is excluded from the cargo workspace and was written against an earlier
    version of the shared data structures.  The types below are those its own code
    shows: [TxStateMachine] is the struct literal of [initiate_transaction] in [rpc.rs],
    [ChainSupported] and [Token] the arms of its exhaustive matches, [NetworkCommand] and
    [SwarmMessage] the variants it builds and handles, the records of the database those
    it fills.  The states of a transaction are the present [TxStatus], and a state change
    ([recv_confirmed], ...) sets the status and nothing else.  What the crate only calls
    of the earlier version (conversions of names, encodings, the hash of a transaction)
    is the class [Earlier]. *)

From S2P Require Import Prelude DataStructure.
Open Scope N_scope.

Inductive ChainSupported := Polkadot | Ethereum | Bnb | Solana.

#[export] Instance NativeChain_eq_decision : EqDecision ChainSupported.
Proof. solve_decision. Defined.

Inductive Token :=
  | Token_Dot | Token_UsdtDot | Token_Bnb | Token_Sol | Token_UsdcSol | Token_UsdtSol
  | Token_Eth | Token_UsdtEth | Token_UsdcEth.

#[export] Instance NativeToken_eq_decision : EqDecision Token.
Proof. solve_decision. Defined.

Record TxStateMachine := {
  sender_address : string;
  receiver_address : string;
  multi_id : bytes;
  recv_signature : option bytes;
  network : ChainSupported;
  token : Token;
  status : TxStatus;
  code_word : string;
  amount : N;
  signed_call_payload : option bytes;
  call_payload : option bytes;
  inbound_req_id : option N;
  outbound_req_id : option N;
  tx_nonce : N
}.

(** ** State changes and assignments *)

Definition set_status (v : TxStatus) (tx : TxStateMachine) : TxStateMachine := {|
  sender_address := sender_address tx; receiver_address := receiver_address tx;
  multi_id := multi_id tx; recv_signature := recv_signature tx; network := network tx;
  token := token tx; status := v; code_word := code_word tx; amount := amount tx;
  signed_call_payload := signed_call_payload tx; call_payload := call_payload tx;
  inbound_req_id := inbound_req_id tx; outbound_req_id := outbound_req_id tx;
  tx_nonce := tx_nonce tx |}.
Definition set_call_payload (v : option bytes) (tx : TxStateMachine) : TxStateMachine := {|
  sender_address := sender_address tx; receiver_address := receiver_address tx;
  multi_id := multi_id tx; recv_signature := recv_signature tx; network := network tx;
  token := token tx; status := status tx; code_word := code_word tx; amount := amount tx;
  signed_call_payload := signed_call_payload tx; call_payload := v;
  inbound_req_id := inbound_req_id tx; outbound_req_id := outbound_req_id tx;
  tx_nonce := tx_nonce tx |}.
Definition set_inbound_req_id (v : option N) (tx : TxStateMachine) : TxStateMachine := {|
  sender_address := sender_address tx; receiver_address := receiver_address tx;
  multi_id := multi_id tx; recv_signature := recv_signature tx; network := network tx;
  token := token tx; status := status tx; code_word := code_word tx; amount := amount tx;
  signed_call_payload := signed_call_payload tx; call_payload := call_payload tx;
  inbound_req_id := v; outbound_req_id := outbound_req_id tx; tx_nonce := tx_nonce tx |}.
Definition set_outbound_req_id (v : option N) (tx : TxStateMachine) : TxStateMachine := {|
  sender_address := sender_address tx; receiver_address := receiver_address tx;
  multi_id := multi_id tx; recv_signature := recv_signature tx; network := network tx;
  token := token tx; status := status tx; code_word := code_word tx; amount := amount tx;
  signed_call_payload := signed_call_payload tx; call_payload := call_payload tx;
  inbound_req_id := inbound_req_id tx; outbound_req_id := v; tx_nonce := tx_nonce tx |}.

(** ** Records of the databases *)

Record DbTxStateMachine := {
  db_tx_hash : bytes; db_amount : N; db_network : ChainSupported; db_success : bool }.

Record AccountInfo := { account : string; account_network : ChainSupported }.

Record PeerRecord := {
  peer_id : option string; peer_accounts : list AccountInfo;
  peer_multi_addr : option string; peer_keypair : option bytes }.

Record RedisAccountProfile := {
  profile_accounts : list AccountInfo; profile_multi_addr : string;
  profile_peer_id : string; profile_rpc : string }.

(** The local database as the node calls it; a saved peer is returned with its peer id
    and address. *)
Class NativeDb (D : Type) := {
  get_ports : M D (option Ports);
  set_ports : N → N → M D unit;
  record_user_peer_id : PeerRecord → M D unit;
  get_nonce : M D N;
  increment_nonce : M D unit;
  update_success_tx : DbTxStateMachine → M D unit;
  update_failed_tx : DbTxStateMachine → M D unit;
  get_saved_user_peers : string → M D PeerRecord;
  record_saved_user_peers : string → string → M D unit
}.

(** What the node calls of the earlier data structures. *)
Class Earlier := {
  chain_from_str : string → ChainSupported;
  token_from_str : string → Token;
  chain_url : ChainSupported → string;
  encode_tx : TxStateMachine → bytes;
  decode_tx : bytes → option TxStateMachine;
  get_tx_hash : TxStateMachine → bytes
}.

Class EarlierLaws `{Earlier} : Prop := {
  decode_encode_tx tx : decode_tx (encode_tx tx) = Some tx
}.

(** ** Messages *)

Section messages.
Context {P2P : P2pTypes}.

Inductive NetworkCommand :=
  | SendRequest (request : bytes) (peer_id : PeerId) (target_multi_addr : Multiaddr)
  | SendResponse (response : bytes) (channel : ResponseChannel)
  | Dial (target_multi_addr : Multiaddr) (target_peer_id : PeerId)
  | Close (peer_id : PeerId).

Inductive SwarmMessage :=
  | Request (data : bytes) (inbound_id : InboundRequestId)
  | Response (data : bytes) (outbound_id : OutboundRequestId).
End messages.

(** The parsers and hashes of libp2p the node uses. *)
Class NativeP2p `{P2pTypes} := {
  (** [PeerId::from_str] *)
  parse_peer_id : string → outcome PeerId;
  parse_multiaddr : string → outcome Multiaddr;
  (** what [#[derive(Hash)]] feeds a hasher for a request id *)
  inbound_hashed : InboundRequestId → bytes;
  outbound_hashed : OutboundRequestId → bytes;
  (** a default [XxHash64] fed with the bytes *)
  xx_hash64 : bytes → N;
  channel_is_open : ResponseChannel → bool
}.

(** [HashId::get_hash_id] for the identifiers of requests. *)
Definition get_hash_id `{NativeP2p} (hashed : bytes) : N := xx_hash64 hashed.
Definition inbound_hash_id `{NativeP2p} (id : InboundRequestId) : N :=
  get_hash_id (inbound_hashed id).
Definition outbound_hash_id `{NativeP2p} (id : OutboundRequestId) : N :=
  get_hash_id (outbound_hashed id).
