(* ===== verification/NativeTx.v ===== *)
(** Transaction processing in the native node ([node/native/src/tx_processing.rs]) and
    its address check ([node/native/src/cryptography.rs]).

    The cryptography is the class [Crypto] of [TxProcessing.v], and [Alloy] with what the
    code uses of [alloy] and [sp-core] beyond it; the nodes behind the two provider
    clients answer as functions of the calls made before ([Providers]). *)

From stdpp Require Import pretty.
From S2P Require Import Prelude DataStructure Codec Samples TxProcessing NativeTypes.
Open Scope N_scope.

(** The fields of alloy's [TransactionRequest] that are set. *)
Record TransactionRequest {Addr : Type} := {
  to : option Addr; value : option N; chain_id : option N; nonce : option N;
  gas_limit : option N; max_fee_per_gas : option N; max_priority_fee_per_gas : option N }.
Arguments TransactionRequest : clear implicits.

Class Alloy `{Crypto} := {
  TypedTransaction : Type;
  TxEip1559 : Type;
  TxEip7702 : Type;
  (** [Address::from_slice] of twenty bytes *)
  address_of_bytes : bytes → Address;
  recover_address_from_prehash : EcdsaSignature → bytes → outcome Address;
  ed25519_public_from_str : string → outcome Ed25519PublicKey;
  (** [CompressedEdwardsY::from_slice(..)] and [decompress], 32 bytes *)
  decompresses : bytes → bool;
  build_unsigned : TransactionRequest Address → outcome TypedTransaction;
  eip1559 : TypedTransaction → option TxEip1559;
  eip7702 : TypedTransaction → option TxEip7702;
  signature_hash_1559 : TxEip1559 → bytes;
  signature_hash_7702 : TxEip7702 → bytes;
  (** [From<TxEip1559> for TransactionRequest] *)
  request_of_1559 : TxEip1559 → TransactionRequest Address;
  decode_7702 : bytes → outcome TxEip7702;
  encode_with_signature : TxEip7702 → EcdsaSignature → bytes
}.

(** A request with all the fields of EIP-1559 is built as one, and read back. *)
Class AlloyLaws `{Alloy} : Prop := {
  build_1559 a v c n g m p :
    let r := {| to := Some a; value := Some v; chain_id := Some c; nonce := Some n;
                gas_limit := Some g; max_fee_per_gas := Some m;
                max_priority_fee_per_gas := Some p |} in
    ∃ t u, build_unsigned r = Ok t ∧ eip1559 t = Some u ∧ request_of_1559 u = r
}.

(** A call of a provider, with the address of its endpoint. *)
Inductive provider_call {Addr : Type} :=
  | GetTransactionCount (url : string) (a : Addr)
  | EstimateEip1559Fees (url : string)
  | SendTransaction (url : string) (r : TransactionRequest Addr)
  | SendRawTransaction (url : string) (raw : bytes).
Arguments provider_call : clear implicits.

Class Providers `{Crypto} := {
  transaction_count : list (provider_call Address) → outcome N;
  estimated_fees : list (provider_call Address) → outcome (N * N);
  sent_hash : list (provider_call Address) → outcome bytes
}.

(** The two clients, by their endpoints (the other fields of the worker are unused). *)
Record TxProcessingWorker := { eth_client : string; bnb_client : string }.

(** [TxProcessingWorker::new], [parses] being the URL parser. *)
Definition TxProcessingWorker_new `{Earlier} (parses : string → bool)
    (chain_networks : ChainSupported * ChainSupported * ChainSupported) :
    outcome TxProcessingWorker :=
  let '(_solana, eth, bnb) := chain_networks in
  let eth_url := chain_url eth in
  let bnb_url := chain_url bnb in
  if negb (parses eth_url) then Err "eth rpc parse error: "
  else if negb (parses bnb_url) then Err "bnb rpc url parse error: "
  else Ok {| eth_client := eth_url; bnb_client := bnb_url |}.

Section processing.
Context {CR : Crypto} {AL : Alloy} {PR : Providers}.

Definition calls := list (provider_call Address).

(** A call and its answer, a function of all calls so far. *)
Definition ask {A} (c : provider_call Address) (answer : calls → outcome A) : M calls A := λ l,
  (answer (l ++ [c]), l ++ [c]).

(** [r.map_err(|_| anyhow!(msg))] *)
Definition with_error {A} (msg : string) (o : outcome A) : outcome A :=
  match o with Err _ => Err msg | o => o end.

(** ** Validation *)

Definition verify_ethereum (address : string) (signature msg : bytes) (who : string) :
    outcome unit :=
  address ← expect_ok (parse_address address) "Invalid address";
  hashed_msg ← (if decide (who = "Receiver")
                then mret (keccak_256 (as_bytes ETH_SIG_MSG_PREFIX ++
                       as_bytes (nat_to_string (length msg)) ++ msg))
                else to_b256 msg);
  signature ← context "failed to convert ecdsa signature; " (ecdsa_signature_try_from signature);
  recovered_addr ← context "ec signature verification failed: "
    (recover_address_from_prehash signature hashed_msg);
  if decide (recovered_addr = address) then Ok ()
  else Err "addr recovery equality failed hence account invalid".

Definition verify_solana (tx : TxStateMachine) (signature msg : bytes) : outcome unit :=
  ed_receiver_public ← with_error "failed to convert ed25519 recv addr bytes"
    (ed25519_public_from_str (receiver_address tx));
  sig ← with_error "failed to convert ed25519_signature" (ed25519_signature signature);
  if ed25519_verify ed_receiver_public msg sig then Ok ()
  else Err "ed25519 signature verification failed hence recv failed".

Definition validate_receiver_sender_address (tx : TxStateMachine) (who : string) :
    outcome unit :=
  '(signature, msg, address) ←
    (if decide (who = "Receiver") then
       signature ← ok_or (recv_signature tx) "receiver didnt signed";
       mret (signature, as_bytes (receiver_address tx), receiver_address tx)
     else
       signature ← ok_or (signed_call_payload tx) "original sender didnt signed";
       msg ← expect (call_payload tx) "unexpected error, call payload should be available";
       mret (signature, msg, sender_address tx));
  match network tx with
  | Polkadot | Bnb => Panic (NotImplemented "not yet implemented")
  | Ethereum => verify_ethereum address signature msg who
  | Solana => verify_solana tx signature msg
  end.

Definition validate_multi_id (txn : TxStateMachine) : bool :=
  bool_decide (multi_id_of (sender_address txn) (receiver_address txn) = multi_id txn).

(** ** Creation and submission *)

(** The EIP-1559 transfer of the two functions, with the nonce and the fees of the
    moment; they differ in the chain identifier and in their messages. *)
Definition eth_transfer (w : TxProcessingWorker) (tx : TxStateMachine) (id : N)
    (no_nonce no_fees no_build : string) : M calls TypedTransaction :=
  sender_address ← lift (expect_ok (parse_address (sender_address tx)) "Invalid sender address");
  to_address ← lift (expect_ok (parse_address (receiver_address tx)) "Invalid recv address");
  nonce ← ask (GetTransactionCount (eth_client w) sender_address)
    (λ l, with_error no_nonce (transaction_count l));
  '(max_fee, priority_fee) ← ask (EstimateEip1559Fees (eth_client w))
    (λ l, with_error no_fees (estimated_fees l));
  lift (context no_build (build_unsigned {|
    to := Some to_address; value := Some (amount tx); chain_id := Some id;
    nonce := Some nonce; gas_limit := Some 21000; max_fee_per_gas := Some max_fee;
    max_priority_fee_per_gas := Some priority_fee |})).

(** [Address::from_slice] panics on anything but twenty bytes. *)
Definition address_from_slice (b : bytes) : outcome Address :=
  if decide (length b = 20%nat) then Ok (address_of_bytes b)
  else Panic (ExpectFailed "slice must be exactly 20 bytes").

(** The transaction with the hash to be signed. *)
Definition create_tx (w : TxProcessingWorker) (tx : TxStateMachine) : M calls TxStateMachine :=
  match network tx with
  | Polkadot | Solana => crash (NotImplemented "not yet implemented")
  | Ethereum =>
      tx_builder ← eth_transfer w tx 56
        "Ethereum RPC unavailable - cannot get nonce for transaction creation"
        "Ethereum RPC unavailable - cannot get fee estimates for transaction creation"
        "cannot build tx to be signed by EOA; caused by: ";
      unsigned ← lift (ok_or (eip1559 tx_builder) "failed to convert to EIP 1559");
      mret (set_call_payload (Some (signature_hash_1559 unsigned)) tx)
  | Bnb =>
      to_address ← lift (address_from_slice (as_bytes (receiver_address tx)));
      tx_builder ← lift (context "cannot build unsigned tx to be signed by EOA; caused by: "
        (build_unsigned {|
          to := Some to_address; value := Some (amount tx); chain_id := Some 31337;
          nonce := None; gas_limit := None; max_fee_per_gas := None;
          max_priority_fee_per_gas := None |}));
      unsigned ← lift (ok_or (eip7702 tx_builder) "failed to convert to EIP 7702");
      mret (set_call_payload (Some (signature_hash_7702 unsigned)) tx)
  end.

(** [receipt.to_vec().try_into()] *)
Definition to_hash (receipt : bytes) : outcome bytes :=
  if decide (length receipt = 32%nat) then Ok receipt
  else Err "failed to convert to 32 bytes array; caused by: ".

Definition submit_tx (w : TxProcessingWorker) (tx : TxStateMachine) : M calls bytes :=
  match network tx with
  | Polkadot | Solana => crash (NotImplemented "not yet implemented")
  | Ethereum =>
      signature ← lift (ok_or (signed_call_payload tx) "sender did not signed the tx payload");
      signature ← lift (context "failed to parse signature: " (ecdsa_signature_try_from signature));
      tx_builder ← eth_transfer w tx 31337
        "Ethereum RPC unavailable - cannot get nonce for transaction submission"
        "Ethereum RPC unavailable - cannot get fee estimates for transaction submission"
        "cannot build tx to be submitted; caused by: ";
      unsigned ← lift (expect (eip1559 tx_builder) "failed to convert to EIP1559");
      (* [signed_tx.tx().clone().into()]: the transaction inside the signed one *)
      let to_submit_tx := request_of_1559 unsigned in
      receipt ← ask (SendTransaction (eth_client w) to_submit_tx)
        (λ l, context "Failed to submit transaction to Ethereum RPC: " (sent_hash l));
      lift (to_hash receipt)
  | Bnb =>
      signature ← lift (ok_or (signed_call_payload tx) "sender did not signed the tx payload");
      tx_payload ← lift (ok_or (call_payload tx) "call payload not found");
      decoded_tx ← lift (context "failed to decode eth EIP7702 tx payload; caused by: "
        (decode_7702 tx_payload));
      signature ← lift (context "failed to decode tx siganture; caused by: "
        (ecdsa_signature_try_from signature));
      receipt ← ask (SendRawTransaction (bnb_client w) (encode_with_signature decoded_tx signature))
        (λ l, context "failed to submit eth raw tx; caused by: " (sent_hash l));
      lift (to_hash receipt)
  end.

(** ** [cryptography.rs] *)

Definition verify_public_bytes (account : string) (token : Token) (network : ChainSupported) :
    outcome ChainSupported :=
  match token with
  | Token_Dot | Token_UsdtDot => Panic (NotImplemented "not yet implemented")
  | Token_Bnb =>
      if decide (length (as_bytes account) = 20%nat) then Ok Ethereum
      else Err "Not ethereum address"
  | Token_Sol | Token_UsdcSol | Token_UsdtSol =>
      bytes ← ok_or (from_base58 account) "failed addr from base58";
      if decide (length bytes ≠ 32%nat) then Err "accounts bytes not 32"
      else if decompresses bytes then Ok Solana
      else Err "not a valid ed25519 curve point"
  | Token_Eth | Token_UsdtEth | Token_UsdcEth =>
      if decide (length (as_bytes account) = 42%nat) then Ok Ethereum
      else Err "Not ethereum address"
  end.
End processing.
