(* ===== verification/NativeNode.v ===== *)
(** The state of a native node, as [MainServiceWorker::new] ([node/native/src/lib.rs])
    lays it out, and the parts the handlers use.

    Shared values are behind tokio mutexes, which are held for single operations or
    along paths that do not take the same mutex again, so they do not appear; a
    transaction travels in an [Arc<Mutex<_>>] that every holder clones before changing
    it, so it is a value.  The channels are those of [Node.v].  [moka] is a class: an
    insertion may evict any entries.  Calls of the swarm are recorded, and its answers
    are functions of the calls so far ([SwarmLib]). *)

From S2P Require Import Prelude DataStructure Codec Samples DbInterface Lru TxProcessing Node.
From S2P Require Import NativeTypes NativeTx.
Open Scope N_scope.

(** [NodeError] of [data_structure.rs]. *)
Record NodeError := {
  timestamp : N; error_type : string; message : string; details : option string }.

(** The cache of [moka]: what is in it after an operation was in it before or was
    inserted. *)
Class MokaCache := {
  Moka : Type;
  moka_new : Moka;
  moka_entries : Moka → gmap N TxStateMachine;
  moka_insert : N → TxStateMachine → Moka → Moka;
  moka_remove : N → Moka → Moka
}.

Class MokaLaws `{MokaCache} : Prop := {
  moka_new_empty : moka_entries moka_new = ∅;
  moka_insert_sub k v c : moka_entries (moka_insert k v c) ⊆ <[k := v]> (moka_entries c);
  moka_remove_sub k c : moka_entries (moka_remove k c) ⊆ base.delete k (moka_entries c)
}.

(** A cache that evicts nothing. *)
Definition MapMoka : MokaCache := {|
  Moka := gmap N TxStateMachine; moka_new := ∅; moka_entries c := c;
  moka_insert k v c := <[k := v]> c; moka_remove k c := base.delete k c |}.
#[export] Instance MapMoka_laws : @MokaLaws MapMoka.
Proof. by split. Qed.

(** The remote database: hashes of strings by a name and a field. *)
Class Redis (R : Type) := {
  redis_connect : R → outcome unit;
  hset : string → string → string → M R unit;
  hget : string → string → M R string;
  profile_to_json : RedisAccountProfile → option string;
  profile_from_json : string → outcome RedisAccountProfile
}.

Section node.
Context {P2P : P2pTypes} {MK : MokaCache} {CR : Crypto} {D R : Type}.

Inductive swarm_call :=
  | SwarmListen (addr : Multiaddr)
  | SwarmSendResponse (channel : ResponseChannel) (response : bytes)
  | SwarmDial (addr : Multiaddr)
  | SwarmSendRequest (peer : PeerId) (request : bytes)
  | SwarmDisconnect (peer : PeerId).

Class SwarmLib := {
  is_connected : list swarm_call → PeerId → bool;
  listen_result : list swarm_call → outcome unit;
  dial_result : list swarm_call → outcome unit;
  send_response_result : list swarm_call → outcome unit
}.

Record NativeNode := {
  (* the local database *)
  db : D;
  (* the remote one *)
  redis : R;
  (* moka_cache: transactions shown to the user, by nonce *)
  moka : Moka;
  (* rpc_sender_channel and its receiver: updates for the user *)
  rpc_channel : Chan TxStateMachine;
  (* user_rpc_update_sender_channel and its receiver: the user's updates *)
  user_channel : Chan TxStateMachine;
  (* p2p_command_tx and its receiver *)
  p2p_commands : Chan NetworkCommand;
  (* channels of the requests not yet answered *)
  pending_request : gmap N ResponseChannel;
  (* the channel from the swarm task to the main service *)
  swarm_messages : Chan SwarmMessage;
  (* error_sender: its receiver is dropped in [new] *)
  error_channel : Chan NodeError;
  (* calls of the chains' nodes *)
  provider_calls : calls;
  (* calls of the libp2p swarm *)
  swarm_calls : list swarm_call
}.

Definition with_db f (s : NativeNode) : NativeNode := {|
  db := f (db s); redis := redis s; moka := moka s; rpc_channel := rpc_channel s;
  user_channel := user_channel s; p2p_commands := p2p_commands s;
  pending_request := pending_request s; swarm_messages := swarm_messages s;
  error_channel := error_channel s; provider_calls := provider_calls s;
  swarm_calls := swarm_calls s |}.
Definition with_redis f (s : NativeNode) : NativeNode := {|
  db := db s; redis := f (redis s); moka := moka s; rpc_channel := rpc_channel s;
  user_channel := user_channel s; p2p_commands := p2p_commands s;
  pending_request := pending_request s; swarm_messages := swarm_messages s;
  error_channel := error_channel s; provider_calls := provider_calls s;
  swarm_calls := swarm_calls s |}.
Definition with_moka f (s : NativeNode) : NativeNode := {|
  db := db s; redis := redis s; moka := f (moka s); rpc_channel := rpc_channel s;
  user_channel := user_channel s; p2p_commands := p2p_commands s;
  pending_request := pending_request s; swarm_messages := swarm_messages s;
  error_channel := error_channel s; provider_calls := provider_calls s;
  swarm_calls := swarm_calls s |}.
Definition with_rpc_channel f (s : NativeNode) : NativeNode := {|
  db := db s; redis := redis s; moka := moka s; rpc_channel := f (rpc_channel s);
  user_channel := user_channel s; p2p_commands := p2p_commands s;
  pending_request := pending_request s; swarm_messages := swarm_messages s;
  error_channel := error_channel s; provider_calls := provider_calls s;
  swarm_calls := swarm_calls s |}.
Definition with_user_channel f (s : NativeNode) : NativeNode := {|
  db := db s; redis := redis s; moka := moka s; rpc_channel := rpc_channel s;
  user_channel := f (user_channel s); p2p_commands := p2p_commands s;
  pending_request := pending_request s; swarm_messages := swarm_messages s;
  error_channel := error_channel s; provider_calls := provider_calls s;
  swarm_calls := swarm_calls s |}.
Definition with_p2p_commands f (s : NativeNode) : NativeNode := {|
  db := db s; redis := redis s; moka := moka s; rpc_channel := rpc_channel s;
  user_channel := user_channel s; p2p_commands := f (p2p_commands s);
  pending_request := pending_request s; swarm_messages := swarm_messages s;
  error_channel := error_channel s; provider_calls := provider_calls s;
  swarm_calls := swarm_calls s |}.
Definition with_pending_request f (s : NativeNode) : NativeNode := {|
  db := db s; redis := redis s; moka := moka s; rpc_channel := rpc_channel s;
  user_channel := user_channel s; p2p_commands := p2p_commands s;
  pending_request := f (pending_request s); swarm_messages := swarm_messages s;
  error_channel := error_channel s; provider_calls := provider_calls s;
  swarm_calls := swarm_calls s |}.
Definition with_swarm_messages f (s : NativeNode) : NativeNode := {|
  db := db s; redis := redis s; moka := moka s; rpc_channel := rpc_channel s;
  user_channel := user_channel s; p2p_commands := p2p_commands s;
  pending_request := pending_request s; swarm_messages := f (swarm_messages s);
  error_channel := error_channel s; provider_calls := provider_calls s;
  swarm_calls := swarm_calls s |}.
Definition with_error_channel f (s : NativeNode) : NativeNode := {|
  db := db s; redis := redis s; moka := moka s; rpc_channel := rpc_channel s;
  user_channel := user_channel s; p2p_commands := p2p_commands s;
  pending_request := pending_request s; swarm_messages := swarm_messages s;
  error_channel := f (error_channel s); provider_calls := provider_calls s;
  swarm_calls := swarm_calls s |}.
Definition with_provider_calls f (s : NativeNode) : NativeNode := {|
  db := db s; redis := redis s; moka := moka s; rpc_channel := rpc_channel s;
  user_channel := user_channel s; p2p_commands := p2p_commands s;
  pending_request := pending_request s; swarm_messages := swarm_messages s;
  error_channel := error_channel s; provider_calls := f (provider_calls s);
  swarm_calls := swarm_calls s |}.
Definition with_swarm_calls f (s : NativeNode) : NativeNode := {|
  db := db s; redis := redis s; moka := moka s; rpc_channel := rpc_channel s;
  user_channel := user_channel s; p2p_commands := p2p_commands s;
  pending_request := pending_request s; swarm_messages := swarm_messages s;
  error_channel := error_channel s; provider_calls := provider_calls s;
  swarm_calls := f (swarm_calls s) |}.

(** ** The parts *)

Definition on_db {A} (m : M D A) : M NativeNode A := λ s,
  let (o, d) := m (db s) in (o, with_db (λ _, d) s).
Definition on_redis {A} (m : M R A) : M NativeNode A := λ s,
  let (o, r) := m (redis s) in (o, with_redis (λ _, r) s).
Definition on_providers {A} (m : M calls A) : M NativeNode A := λ s,
  let (o, l) := m (provider_calls s) in (o, with_provider_calls (λ _, l) s).

Definition rpc_send (tx : TxStateMachine) : M NativeNode unit :=
  ch ← gets rpc_channel; ch ← lift (chan_send tx ch); modify (with_rpc_channel (λ _, ch)).
Definition user_send (tx : TxStateMachine) : M NativeNode unit :=
  ch ← gets user_channel; ch ← lift (chan_send tx ch); modify (with_user_channel (λ _, ch)).
Definition command_send (cmd : NetworkCommand) : M NativeNode unit :=
  ch ← gets p2p_commands; ch ← lift (chan_send cmd ch); modify (with_p2p_commands (λ _, ch)).
Definition swarm_message_send (msg : SwarmMessage) : M NativeNode unit :=
  ch ← gets swarm_messages; ch ← lift (chan_send msg ch); modify (with_swarm_messages (λ _, ch)).

(** [m] with its error as a value, [None] when there is none. *)
Definition error_of {S} (m : M S unit) : M S (option string) :=
  r ← attempt m; mret (match r with inl _ => None | inr e => Some e end).

Definition cache_insert (tx : TxStateMachine) : M NativeNode unit :=
  modify (with_moka (moka_insert (tx_nonce tx) tx)).

End node.
Arguments NativeNode {_ _ _} D R.
