(* ===== verification/NativeP2p.v ===== *)
(** The peer-to-peer worker of the native node and the service the main service sends
    its commands through ([P2pWorker], [P2pNetworkService] in [node/native/src/p2p.rs]).

    The swarm task is a loop of turns, each an event of the swarm or a command; the wait
    of ten milliseconds between two turns is left out. *)

From S2P Require Import Prelude DataStructure Codec DbInterface Lru TxProcessing Node.
From S2P Require Import NativeTypes NativeTx NativeNode.
Open Scope N_scope.

(** What [P2pWorker::new] takes from the system: the address of the machine, a new
    identity, and the parsers that may refuse the result. *)
Record Identity := {
  id_peer_id : string;
  id_protobuf : option bytes;       (* [to_protobuf_encoding] *)
  id_from_protobuf : bytes → bool   (* [from_protobuf_encoding] succeeds *)
}.

Section p2p.
Context {P2P : P2pTypes} {NP : NativeP2p} {MK : MokaCache} {CR : Crypto} {EA : Earlier}.
Context {D R : Type} {DB : NativeDb D} {RD : Redis R} {SW : SwarmLib}.
Abbreviation NativeM := (M (NativeNode D R)).

Definition p2p_url (ipv4 : bool) (ip port peer_id : string) : string :=
  (if ipv4 then "/ip4/" else "/ip6/") +:+ ip +:+ "/tcp/" +:+ port +:+ "/p2p/" +:+ peer_id.

(** [P2pWorker::new]: publish the account profile, record the own peer, and read the
    identity back: the node id and the address of the swarm. *)
Definition P2pWorker_new (local_ip : outcome (bool * string)) (self : Identity) (port : N)
    (account_profile_hash : string) (accounts : list (string * string)) :
    NativeM (PeerId * Multiaddr) :=
  '(ipv4, ip) ← lift (context "failed to get local ip address; caused by: " local_ip);
  let peer_id := id_peer_id self in
  let p2p_url := p2p_url ipv4 ip (nat_to_string (N.to_nat port)) peer_id in
  let accounts := (λ '(account, network),
    {| account := account; account_network := chain_from_str network |}) <$> accounts in
  let account_profile := {|
    profile_accounts := accounts; profile_multi_addr := p2p_url;
    profile_peer_id := peer_id; profile_rpc := "" |} in
  r ← gets redis; lift (redis_connect r);;
  json ← lift (expect (profile_to_json account_profile) "failed to serialize redis account profile");
  on_redis (hset "ACCOUNT_PROFILE" account_profile_hash json);;
  keypair ← lift (ok_or (id_protobuf self) "failed to encode keypair");
  on_db (record_user_peer_id {|
    peer_id := Some peer_id; peer_accounts := accounts; peer_multi_addr := Some p2p_url;
    peer_keypair := Some keypair |});;
  multi_addr ← lift (context "failed to parse multi addr, caused by: " (parse_multiaddr p2p_url));
  node_id ← lift (context "failed to convert PeerId, caused by: " (parse_peer_id peer_id));
  (if id_from_protobuf self keypair then skip else fail "failed to decode keypair ed25519");;
  mret (node_id, multi_addr).

(** ** Events *)

(** The events of the request-response behaviour that carry a message, and all others,
    which are only logged. *)
Inductive swarm_event :=
  | EventRequest (request_id : InboundRequestId) (request : bytes) (channel : ResponseChannel)
  | EventResponse (request_id : OutboundRequestId) (response : bytes + string)
  | EventLogged (what : string).

(** [if let Err(e) = sender.send(Ok(msg)).await { error!(..) }] *)
Definition propagate (msg : SwarmMessage) : NativeM unit :=
  error_of (swarm_message_send msg) ;; skip.

Definition handle_swarm_events (event : swarm_event) : NativeM unit :=
  match event with
  | EventRequest request_id request channel =>
      let req_id_hash := inbound_hash_id request_id in
      modify (with_pending_request (<[req_id_hash := channel]>));;
      propagate (Request request request_id)
  | EventResponse request_id (inl data) => propagate (Response data request_id)
  | EventResponse _ (inr _) => skip
  | EventLogged _ => skip
  end.

(** ** Commands *)

Definition swarm_do (c : swarm_call) : NativeM unit := modify (with_swarm_calls (λ l, l ++ [c])).
Definition swarm_try (c : swarm_call) (answer : list swarm_call → outcome unit) (msg : string) :
    NativeM unit :=
  swarm_do c;; l ← gets swarm_calls; lift (context msg (answer l)).
Definition connected (peer : PeerId) : NativeM bool := gets (λ s, is_connected (swarm_calls s) peer).

Definition handle_command (cmd : option NetworkCommand) : NativeM unit :=
  match cmd with
  | Some (SendResponse response channel) =>
      if channel_is_open channel
      then swarm_try (SwarmSendResponse channel response) send_response_result
             "failed to send response; "
      else skip
  | Some (SendRequest request peer_id target_multi_addr) =>
      c ← connected peer_id;
      (if c : bool then skip
       else swarm_try (SwarmDial target_multi_addr) dial_result "failed to re dial: ");;
      swarm_do (SwarmSendRequest peer_id request)
  | Some (Dial target_multi_addr target_peer_id) =>
      c ← connected target_peer_id;
      if c : bool then skip
      else swarm_try (SwarmDial target_multi_addr) dial_result "failed to dial: "
  | Some (Close peer_id) => swarm_do (SwarmDisconnect peer_id)
  | None => skip
  end.

(** One turn of the loop: the branch of [select!] that is taken. *)
Inductive swarm_input := OnEvent (event : option swarm_event) | OnCommand.

Definition recv_command : NativeM (option NetworkCommand) :=
  ch ← gets p2p_commands;
  match queue ch with
  | [] => if closed ch then mret None else lift Parked
  | cmd :: _ => modify (with_p2p_commands chan_pop);; mret (Some cmd)
  end.

Definition native_swarm_turn (input : swarm_input) : NativeM unit :=
  match input with
  | OnEvent (Some event) => handle_swarm_events event
  | OnEvent None => skip
  | OnCommand => cmd ← recv_command; handle_command cmd
  end.

(** [start_swarm]: listen, then the loop, which only an error ends. *)
Definition start_swarm (url : Multiaddr) (inputs : list swarm_input) : NativeM unit :=
  swarm_try (SwarmListen url) listen_result "";;
  for_each native_swarm_turn inputs.

(** ** [P2pNetworkService] *)

Definition dial_to_peer_id (target_url : Multiaddr) (peer_id : PeerId) : NativeM unit :=
  r ← error_of (command_send (Dial target_url peer_id));
  lift (match r with None => Ok () | Some err => Err ("failed to send dial command; " +:+ err) end).

(** The future of [send] is dropped without being awaited: nothing is sent. *)
Definition disconnect_from_peer_id (peer_id : PeerId) : NativeM unit :=
  let close_command := Close peer_id in
  skip.

Definition send_request (request : TxStateMachine) (target_peer_id : PeerId)
    (target_multi_addr : Multiaddr) : NativeM unit :=
  let encoded_req := encode_tx request in
  r ← error_of (command_send (SendRequest encoded_req target_peer_id target_multi_addr));
  lift (match r with None => Ok () | Some err => Err ("failed to send req command; " +:+ err) end).

Definition send_response (outbound_id : N) (response : TxStateMachine) : NativeM unit :=
  let encoded_resp := encode_tx response in
  pending ← gets pending_request;
  channel ← lift (ok_or (pending !! outbound_id) "failed to get response channel");
  modify (with_pending_request (base.delete outbound_id));;
  command_send (SendResponse encoded_resp channel).

End p2p.
