(* ===== verification/NativeRpc.v ===== *)
(** The JSON-RPC operations of the native node ([TransactionRpcWorker] in
    [node/native/src/rpc.rs]): what a user's request does, the subscriptions, and the
    report of errors. *)

From S2P Require Import Prelude DataStructure Codec DbInterface Lru TxProcessing Node.
From S2P Require Import NativeTypes NativeTx NativeNode.
Open Scope N_scope.

Section rpc.
Context {P2P : P2pTypes} {MK : MokaCache} {CR : Crypto} {AL : Alloy} {EA : Earlier}.
Context {D R : Type} {DB : NativeDb D} {BP : BuildProfile}.
Abbreviation NativeM := (M (NativeNode D R)).

(** [rpc_url] of [TransactionRpcWorker::new]: both branches of the test for IPv4 are the
    same. *)
Definition rpc_url (local_ip : outcome (bool * string)) (port : N) : outcome string :=
  '(ipv4, ip) ← context "failed to get local ip address; caused by: " local_ip;
  Ok (if (ipv4 : bool) then ip +:+ ":" +:+ nat_to_string (N.to_nat port)
      else ip +:+ ":" +:+ nat_to_string (N.to_nat port)).

Definition dry_run_tx (network : ChainSupported) (sender recv : string) (token : Token)
    (amount : N) : NativeM N := crash (NotImplemented "not yet implemented").

Definition add_account (name : string) (accounts : list (string * ChainSupported)) :
    NativeM unit := crash (NotImplemented "not yet implemented").

(** A verified address, or an error: a panic of the check is not caught. *)
Definition verified (account : string) (token : Token) (network : ChainSupported) :
    NativeM (option ChainSupported) :=
  r ← attempt (lift (verify_public_bytes account token network));
  mret (match r with inl n => Some n | inr _ => None end).

Definition initiate_transaction (sender receiver : string) (amount : N)
    (token network code_word : string) : NativeM unit :=
  let token := token_from_str token in
  let network := chain_from_str network in
  net_sender ← verified sender token network;
  net_recv ← verified receiver token network;
  match net_sender, net_recv with
  | Some net_sender, Some net_recv =>
      (if decide (net_sender = net_recv) then skip
       else fail "sender and receiver should be same network");;
      let multi_addr := multi_id_of sender receiver in
      nonce ← on_db get_nonce;
      nonce ← lift (add_u 32 nonce 1);
      on_db increment_nonce;;
      let tx_state_machine := {|
        sender_address := sender; receiver_address := receiver; multi_id := multi_addr;
        recv_signature := None; network := net_sender; token := token;
        status := TxStatus_default; code_word := code_word; amount := amount;
        signed_call_payload := None; call_payload := None; inbound_req_id := None;
        outbound_req_id := None; tx_nonce := nonce |} in
      cache_insert tx_state_machine;;
      r ← error_of (user_send tx_state_machine);
      lift (match r with
            | None => Ok ()
            | Some _ => Err "failed to send initial tx state to sender channel"
            end)
  | _, _ => fail "sender and receiver should be correct accounts for the specified token"
  end.

(** [moka_cache.remove(&k)] *)
Definition cache_remove (k : N) : NativeM (option TxStateMachine) :=
  o ← gets (λ s, moka_entries (moka s) !! k);
  modify (with_moka (moka_remove k));;
  mret o.

Definition send_update (tx : TxStateMachine) (msg : string) : NativeM unit :=
  r ← error_of (user_send tx);
  lift (match r with None => Ok () | Some _ => Err msg end).

Definition revert_transaction (tx_state : TxStateMachine) : NativeM unit :=
  found ← cache_remove (tx_nonce tx_state);
  match found with
  | None => fail "tx not found in cache"
  | Some _ =>
      let tx_hash := get_tx_hash tx_state in
      on_db (update_failed_tx {|
        db_tx_hash := tx_hash; db_amount := amount tx_state;
        db_network := network tx_state; db_success := false |});;
      send_update tx_state "failed to send sender confirmation tx state to sender-channel"
  end.

Definition sender_confirm (tx : TxStateMachine) : NativeM unit :=
  if bool_decide (signed_call_payload tx = None) &&
     negb (bool_decide (status tx = RecvAddrConfirmationPassed))
  then fail "Wait for Receiver to confirm or sender should confirm"
  else
    cache_remove (tx_nonce tx);;
    send_update (set_status SenderConfirmed tx)
      "failed to send sender confirmation tx state to sender-channel".

Definition receiver_confirm (tx : TxStateMachine) : NativeM unit :=
  match recv_signature tx with
  | None => fail "Receiver did not confirm"
  | Some _ =>
      cache_remove (tx_nonce tx);;
      send_update (set_status RecvAddrConfirmed tx)
        "failed to send recv confirmation tx state to sender channel"
  end.

(** One turn of [watch_tx_updates]: the next update, made a message by [to_json] and
    given to a sink that [accepts] it or is gone; [false] when there is no more. *)
Definition watch_turn (to_json accepts : TxStateMachine → bool) : NativeM bool :=
  ch ← gets rpc_channel;
  match queue ch with
  | [] => if closed ch then mret false else lift Parked
  | tx_update :: _ =>
      modify (with_rpc_channel chan_pop);;
      (if to_json tx_update then skip else fail "failed to convert tx update to json");;
      (if accepts tx_update then skip else fail "failed to send msg to rpc ws channel");;
      mret true
  end.

(** All transactions of the cache, in the order [iterate] visits them. *)
Definition fetch_pending_tx_updates (iterate : gmap N TxStateMachine → list (N * TxStateMachine)) :
    NativeM (list TxStateMachine) :=
  entries ← gets (λ s, iterate (moka_entries (moka s)));
  mret entries.*2.

(** [subscribe_node_execution_status]: the errors forwarded to the subscriber are those
    received on a channel made for it, whose only sender is dropped on return. *)
Definition subscription_channel : Chan NodeError := chan_close (chan_new 100).

Definition subscribe_node_execution_status (accepted : bool) : outcome (list NodeError) :=
  if accepted then Ok (queue subscription_channel)
  else Err "failed to accept error subscription channel".

(** [send_error] at a given second: a failure to send is only logged. *)
Definition send_error (now : N) (error_type message : string) (details : option string) :
    NativeM unit :=
  let error := {| timestamp := now; error_type := error_type; message := message;
                  details := details |} in
  error_of (
    ch ← gets error_channel;
    ch ← lift (chan_send error ch);
    modify (with_error_channel (λ _, ch)));;
  skip.

End rpc.
