(* ===== verification/NativeService.v ===== *)
(** The main service of the native node ([MainServiceWorker] in
    [node/native/src/lib.rs]): start-up, the messages from other nodes, the updates of
    the user, and their loops.

    The three-second waits for a dial are left out.  A node's activities are sequences of
    the steps below and of the swarm's turns ([NativeP2p.v]); the tasks that [run] starts
    are in [NativeStart.v]. *)

From S2P Require Import Prelude DataStructure Codec DbInterface Lru TxProcessing Node.
From S2P Require Import NativeTypes NativeTx NativeNode NativeP2p NativeRpc.
Open Scope N_scope.

Section service.
Context {P2P : P2pTypes} {NP : NativeP2p} {MK : MokaCache} {CR : Crypto} {AL : Alloy}.
Context {PR : Providers} {EA : Earlier} {D R : Type} {DB : NativeDb D} {RD : Redis R}.
Context {SW : SwarmLib} {BP : BuildProfile}.
Abbreviation NativeM := (M (NativeNode D R)).

(** The worker that processes transactions, and the second at which errors are
    stamped. *)
Context (processing : TxProcessingWorker) (now : N).

(** ** Start-up *)

(** [a - b] on [u16], under the profile. *)
Definition sub_u16 (a b : N) : outcome N :=
  if b <=? a then Ok (a - b)
  else if overflow_checks then Panic ArithmeticOverflow
  else Ok (a + 2 ^ 16 - b).

(** The ports of the database, or those derived from [port] ([random] when it is not
    given), which are stored. *)
Definition choose_ports (port : option N) (random : N) : NativeM (N * N) :=
  returned_ports ← on_db get_ports;
  match returned_ports with
  | Some ports => mret (rpc ports, p_2_p_port ports)
  | None =>
      let port := default random port in
      p2_port ← lift (sub_u16 port 541);
      on_db (set_ports port p2_port);;
      mret (port, p2_port)
  end.

(** The networks given to [TxProcessingWorker::new]. *)
Definition chain_networks : ChainSupported * ChainSupported * ChainSupported :=
  (Bnb, Ethereum, Solana).

(** The state [new] builds around an opened database and redis client; the receiver of
    [error_sender] is dropped when [TransactionRpcWorker::new] returns. *)
Definition native_node_new (d : D) (r : R) : NativeNode D R := {|
  db := d; redis := r; moka := moka_new; rpc_channel := chan_new 255;
  user_channel := chan_new 255; p2p_commands := chan_new 10; pending_request := ∅;
  swarm_messages := chan_new 256; error_channel := chan_close (chan_new 100);
  provider_calls := []; swarm_calls := [] |}.

(** ** Messages from other nodes *)

(** [if let Err(e) = rpc_sender_channel.send(tx) { error!(..); send_error(..) }] *)
Definition rpc_send_or_report (tx : TxStateMachine) : NativeM unit :=
  r ← error_of (rpc_send tx);
  match r with
  | None => skip
  | Some e => send_error now "channel" "Failed to send to RPC channel" (Some e)
  end.

(** The transaction as a response leaves it: confirmed, with the hash to be signed when
    that could be created, or refused, which the database records. *)
Definition check_response (decoded_resp : TxStateMachine) : NativeM TxStateMachine :=
  valid ← error_of (lift (validate_receiver_sender_address decoded_resp "Receiver"));
  match valid with
  | None =>
      let decoded_resp := set_status RecvAddrConfirmationPassed decoded_resp in
      created ← attempt (on_providers (create_tx processing decoded_resp));
      match created with
      | inl tx => mret tx
      | inr e =>
          send_error now "execution" "Failed to create transaction" (Some e);;
          mret decoded_resp
      end
  | Some err =>
      let decoded_resp := set_status RecvAddrFailed decoded_resp in
      send_error now "execution" "Receiver confirmation failed" (Some err);;
      on_db (update_failed_tx {|
        db_tx_hash := []; db_amount := amount decoded_resp;
        db_network := network decoded_resp; db_success := false |});;
      mret decoded_resp
  end.

Definition native_swarm_message (swarm_msg : SwarmMessage) : NativeM unit :=
  match swarm_msg with
  | Request data inbound_id =>
      decoded_req ← lift (expect (decode_tx data) "failed to decode request body");
      let decoded_req := set_inbound_req_id (Some (inbound_hash_id inbound_id)) decoded_req in
      rpc_send_or_report decoded_req;;
      cache_insert decoded_req
  | Response data outbound_id =>
      decoded_resp ← lift (expect (decode_tx data) "failed to decode request body");
      let decoded_resp := set_outbound_req_id (Some (outbound_hash_id outbound_id)) decoded_resp in
      decoded_resp ← check_response decoded_resp;
      rpc_send_or_report decoded_resp;;
      cache_insert decoded_resp
  end.

(** [handle_swarm_event_messages]: turns of the loop, which only an error ends; when the
    swarm task is gone a turn takes nothing and the next follows at once. *)
Fixpoint handle_swarm_event_messages (turns : nat) : NativeM unit :=
  match turns with
  | O => skip
  | S turns =>
      ch ← gets swarm_messages;
      match queue ch with
      | [] => if closed ch then handle_swarm_event_messages turns else lift Parked
      | msg :: _ =>
          modify (with_swarm_messages chan_pop);;
          native_swarm_message msg;;
          handle_swarm_event_messages turns
      end
  end.

(** ** Updates of the user *)

Definition report_network (message : string) (r : option string) : NativeM unit :=
  match r with
  | None => skip
  | Some e => send_error now "p2p network service" message (Some e)
  end.

(** Dial the target and send it the transaction; failures are reported. *)
Definition dial_and_request (txn : TxStateMachine) (multi_addr : Multiaddr) (peer : PeerId) :
    NativeM unit :=
  r ← error_of (dial_to_peer_id multi_addr peer);
  report_network "Failed to dial to peer id" r;;
  r ← error_of (send_request txn peer multi_addr);
  report_network "Failed to send request to peer id" r.

Definition report_database (message e : string) : NativeM unit :=
  send_error now "database" message (Some e).

(** The profile linked to an account in redis. *)
Definition fetch_profile (target_id_addr : string) : NativeM (option RedisAccountProfile) :=
  conn ← error_of (r ← gets redis; lift (redis_connect r));
  match conn with
  | Some err =>
      report_database "Failed to connect to Redis" err;;
      fail ("failed to connect to redis, caused by: " +:+ err)
  | None =>
      link ← attempt (on_redis (hget "ACCOUNT_LINK" target_id_addr));
      match link with
      | inr err => report_database "Failed to get user hash ID from Redis" err;; mret None
      | inl redis_target_user_hash_id =>
          stored ← attempt (on_redis (hget "ACCOUNT_PROFILE" redis_target_user_hash_id));
          match stored with
          | inr err => report_database "Failed to get user profile from Redis" err;; mret None
          | inl target_user_profile =>
              parsed ← attempt (lift (profile_from_json target_user_profile));
              match parsed with
              | inl profile => mret (Some profile)
              | inr err =>
                  report_database "Failed to parse Redis user profile" err;;
                  fail ("failed to parse target user profile, caused by: " +:+ err)
              end
          end
      end
  end.

Definition request_profile (txn : TxStateMachine)
    (target_user_profile : option RedisAccountProfile) : NativeM unit :=
  match target_user_profile with
  | Some result_peer =>
      multi_addr ← lift (context "failed to parse multi addr, caused by: "
        (parse_multiaddr (profile_multi_addr result_peer)));
      peer ← lift (parse_peer_id (profile_peer_id result_peer));
      on_db (record_saved_user_peers (receiver_address txn) (profile_multi_addr result_peer));;
      dial_and_request txn multi_addr peer
  | None =>
      send_error now "network" "Target peer not found in remote database"
        (Some "User is missing out on safety transaction");;
      let txn := set_status ReceiverNotRegistered txn in
      rpc_send_or_report txn;;
      cache_insert txn
  end.

Definition handle_genesis_tx_state (txn : TxStateMachine) : NativeM unit :=
  let target_id := receiver_address txn in
  target_peer_result ← attempt (on_db (get_saved_user_peers target_id));
  match target_peer_result with
  | inl acc =>
      addr ← lift (expect (peer_multi_addr acc) "multi addr not found");
      multi_addr ← lift (parse_multiaddr addr);
      id ← lift (expect (peer_id acc) "peerId not found");
      peer ← lift (parse_peer_id id);
      dial_and_request txn multi_addr peer
  | inr err =>
      report_database "Failed to find target peer in local database" err;;
      target_user_profile ← fetch_profile (receiver_address txn);
      request_profile txn target_user_profile
  end.

Definition handle_recv_addr_confirmed_tx_state (id : N) (txn : TxStateMachine) : NativeM unit :=
  r ← error_of (send_response id txn);
  report_network "Failed to send response to peer id" r.

(** A submitted transaction, or the reason why it was not. *)
Definition submit_and_report (txn_inner : TxStateMachine) : NativeM unit :=
  submitted ← attempt (on_providers (submit_tx processing txn_inner));
  match submitted with
  | inl tx_hash =>
      let txn_inner := set_status (TxSubmissionPassed tx_hash) txn_inner in
      rpc_send_or_report txn_inner;;
      on_db (update_success_tx {|
        db_tx_hash := tx_hash; db_amount := amount txn_inner;
        db_network := network txn_inner; db_success := true |})
  | inr err =>
      rpc_send_or_report (set_status (FailedToSubmitTxn
        (err +:+ ": the tx will be resubmitted rest assured")) txn_inner)
  end.

Definition handle_sender_confirmed_tx_state (txn_inner : TxStateMachine) : NativeM unit :=
  valid ← error_of (lift (validate_receiver_sender_address txn_inner "Sender"));
  match valid with
  | None => skip
  | Some e =>
      send_error now "tx processing worker" "Failed to validate receiver sender address" (Some e)
  end;;
  if validate_multi_id txn_inner
  then submit_and_report txn_inner
  else rpc_send_or_report (set_status SenderConfirmationfailed txn_inner).

(** The body of the loop of [handle_incoming_rpc_tx_updates]. *)
Definition native_tx_update (txn : TxStateMachine) : NativeM unit :=
  match status txn with
  | Genesis => handle_genesis_tx_state txn
  | RecvAddrConfirmed =>
      inbound_id ← lift (expect (inbound_req_id txn) "no inbound req id found");
      handle_recv_addr_confirmed_tx_state inbound_id txn
  | NetConfirmed => crash (NotImplemented "not yet implemented")
  | SenderConfirmed => handle_sender_confirmed_tx_state txn
  | Reverted _ =>
      saved ← on_db (get_saved_user_peers (receiver_address txn));
      match peer_id saved with
      | Some id =>
          peer ← lift (expect_ok (parse_peer_id id)
            "called `Result::unwrap()` on an `Err` value");
          disconnect_from_peer_id peer
      | None => fail "Reverting: peer id not found"
      end
  | _ => skip
  end.

Fixpoint handle_incoming_rpc_tx_updates (turns : nat) : NativeM unit :=
  match turns with
  | O => skip
  | S turns =>
      ch ← gets user_channel;
      match queue ch with
      | [] => if closed ch then skip else lift Parked
      | txn :: _ =>
          modify (with_user_channel chan_pop);;
          native_tx_update txn;;
          handle_incoming_rpc_tx_updates turns
      end
  end.

(** [new], from an opened database and redis client: ports, the p2p worker, the
    processing worker, the address of the RPC server. *)
Definition MainServiceWorker_new (port : option N) (random : N)
    (local_ip : outcome (bool * string)) (self : Identity) (parses_url : string → bool)
    (account_profile_hash : string) (accounts : list (string * string)) :
    NativeM (PeerId * Multiaddr * TxProcessingWorker * string) :=
  '(rpc_port, p2p_port) ← choose_ports port random;
  '(node_id, url) ← P2pWorker_new local_ip self p2p_port account_profile_hash accounts;
  worker ← lift (TxProcessingWorker_new parses_url chain_networks);
  rpc_url ← lift (rpc_url local_ip rpc_port);
  mret (node_id, url, worker, rpc_url).

End service.
