(* ===== verification/NativeRuns.v ===== *)
(** The runs of a native node: its steps in any order, and what all of them keep. *)

From S2P Require Import Prelude DataStructure Codec DbInterface Lru TxProcessing Node.
From S2P Require Import NativeTypes NativeTx NativeNode NativeP2p NativeRpc NativeService.
Open Scope N_scope.

Section runs.
Context {P2P : P2pTypes} {NP : NativeP2p} {MK : MokaCache} {CR : Crypto} {AL : Alloy}.
Context {PR : Providers} {EA : Earlier} {D R : Type} {DB : NativeDb D} {RD : Redis R}.
Context {SW : SwarmLib} {BP : BuildProfile}.
Context (processing : TxProcessingWorker).
Abbreviation NativeM := (M (NativeNode D R)).

(** What a node may do next: a turn of the swarm task, a message or an update taken by
    the main service, a request of the user. *)
Inductive native_step :=
  | StepSwarm (input : swarm_input)
  | StepMessages (turns : nat)
  | StepUpdates (turns : nat)
  | StepInitiate (sender receiver : string) (amount : N) (token network code_word : string)
  | StepRevert (tx : TxStateMachine)
  | StepSenderConfirm (tx : TxStateMachine)
  | StepReceiverConfirm (tx : TxStateMachine)
  | StepWatch (to_json accepts : TxStateMachine → bool)
  | StepFetch (iterate : gmap N TxStateMachine → list (N * TxStateMachine)).

Definition run_native_step (now : N) (step : native_step) : NativeM unit :=
  match step with
  | StepSwarm input => native_swarm_turn input
  | StepMessages turns => handle_swarm_event_messages processing now turns
  | StepUpdates turns => handle_incoming_rpc_tx_updates processing now turns
  | StepInitiate sender receiver amount token network code_word =>
      initiate_transaction sender receiver amount token network code_word
  | StepRevert tx => revert_transaction tx
  | StepSenderConfirm tx => sender_confirm tx
  | StepReceiverConfirm tx => receiver_confirm tx
  | StepWatch to_json accepts => watch_turn to_json accepts;; skip
  | StepFetch iterate => fetch_pending_tx_updates iterate;; skip
  end.

(** The steps one after the other, each at its second, whatever their outcomes. *)
Definition run_native (steps : list (N * native_step)) (s : NativeNode D R) : NativeNode D R :=
  foldl (λ s '(now, step), (run_native_step now step s).2) s steps.

(** ** What every step keeps *)

Definition keeps_open (cmd : NetworkCommand) : Prop :=
  match cmd with Close _ => False | _ => True end.
Definition no_disconnect (c : swarm_call) : Prop :=
  match c with SwarmDisconnect _ => False | _ => True end.

Record NativeInvariant (s : NativeNode D R) : Prop := {
  no_error_reported : error_channel s = chan_close (chan_new 100);
  no_close_queued : Forall keeps_open (queue (p2p_commands s));
  never_disconnected : Forall no_disconnect (swarm_calls s);
  moka_keyed : ∀ k tx, moka_entries (moka s) !! k = Some tx → tx_nonce tx = k
}.

Local Abbreviation kept := (preserves NativeInvariant).

Context {ML : MokaLaws}.

Lemma native_node_new_invariant (d : D) (r : R) : NativeInvariant (native_node_new d r).
Proof. split; simpl; try done. intros k tx. by rewrite moka_new_empty, lookup_empty. Qed.

Lemma kept_on_db {A} (m : M D A) : kept (on_db m).
Proof. intros s []. unfold on_db. by destruct (m (db s)). Qed.
Lemma kept_on_redis {A} (m : M R A) : kept (on_redis m).
Proof. intros s []. unfold on_redis. by destruct (m (redis s)). Qed.
Lemma kept_on_providers {A} (m : M calls A) : kept (on_providers m).
Proof. intros s []. unfold on_providers. by destruct (m (provider_calls s)). Qed.
Lemma kept_attempt {A} (m : NativeM A) : kept m → kept (attempt m).
Proof. intros Hm s Hs. specialize (Hm s Hs). unfold attempt. by destruct (m s) as [[] ?]. Qed.
Lemma kept_error_of (m : NativeM unit) : kept m → kept (error_of m).
Proof. intros Hm. apply preserves_bind; [by apply kept_attempt|]. intros []; apply preserves_ret. Qed.
(** Changes of the parts the invariant does not mention. *)
Lemma kept_modify_rpc f : kept (modify (with_rpc_channel f)).
Proof. by intros s []. Qed.
Lemma kept_modify_user f : kept (modify (with_user_channel f)).
Proof. by intros s []. Qed.
Lemma kept_modify_pending f : kept (modify (with_pending_request f)).
Proof. by intros s []. Qed.
Lemma kept_modify_messages f : kept (modify (with_swarm_messages f)).
Proof. by intros s []. Qed.
Lemma kept_cache_insert tx : kept (cache_insert tx).
Proof.
  intros s []. split; simpl; try done. intros k tx' Hk.
  pose proof (lookup_weaken _ _ _ _ Hk (moka_insert_sub _ _ _)) as Hin.
  apply lookup_insert_Some in Hin as [[<- <-]|[_ Hin]]; auto.
Qed.
Lemma kept_cache_remove k : kept (cache_remove k).
Proof.
  intros s []. split; simpl; try done. intros k' tx Hk.
  pose proof (lookup_weaken _ _ _ _ Hk (moka_remove_sub _ _)) as Hin.
  apply lookup_delete_Some in Hin as [_ Hin]. auto.
Qed.
Lemma kept_command_send cmd : keeps_open cmd → kept (command_send cmd).
Proof.
  intros Hc s []. unfold command_send, chan_send. rewrite run_bind_gets.
  destruct (closed _); [by split|]. destruct (chan_full _); [by split|].
  split; simpl; try done. apply Forall_app. split; [done|]. by repeat constructor.
Qed.
Lemma kept_swarm_do c : no_disconnect c → kept (swarm_do c).
Proof.
  intros Hc s []. split; simpl; try done. apply Forall_app. split; [done|].
  by repeat constructor.
Qed.
Lemma kept_send_error now t m d : kept (send_error now t m d).
Proof.
  intros s Hs. pose proof (no_error_reported s Hs) as E. unfold send_error, error_of, attempt.
  unfold mbind, M_bind, gets, lift. rewrite E. simpl. destruct Hs. by destruct s.
Qed.

(** A command taken from the queue keeps connections open. *)
Lemma recv_command_hoare :
  hoare NativeInvariant recv_command
    (λ cmd s, NativeInvariant s ∧ ∀ c, cmd = Some c → keeps_open c) NativeInvariant.
Proof.
  intros s Hs. unfold recv_command. rewrite run_bind_gets. destruct Hs as [H1 H2 H3 H4].
  destruct (queue (p2p_commands s)) as [|cmd l] eqn:E.
  - destruct (closed _); simpl; repeat split; try done; by rewrite ?E.
  - apply list.Forall_cons in H2 as [Hc Hl]. simpl. split; [|by intros c [= <-]].
    split; simpl; try done. by rewrite E.
Qed.

#[local] Hint Resolve kept_on_db kept_on_redis kept_on_providers kept_attempt kept_error_of
  kept_modify_rpc kept_modify_user kept_modify_pending kept_modify_messages kept_cache_insert
  kept_cache_remove kept_swarm_do kept_send_error : preserve.

(** Decompose along the code; the leaves are the lemmas above. *)
Ltac keep_native :=
  repeat first
    [ solve [eauto 2 with preserve]
    | match goal with
      | |- preserves _ (error_of _) => apply kept_error_of
      | |- preserves _ (attempt _) => apply kept_attempt
      | |- preserves _ (command_send _) => apply kept_command_send; exact I
      | |- preserves _ (swarm_do _) => apply kept_swarm_do; exact I
      | |- preserves _ (mbind _ _) => apply preserves_bind; [|intros ?]
      | |- preserves _ (match ?x with _ => _ end) => destruct x
      | |- preserves _ (if ?x then _ else _) => destruct x
      end ].

Lemma kept_rpc_send tx : kept (rpc_send tx).
Proof. unfold rpc_send. keep_native. Qed.
Lemma kept_user_send tx : kept (user_send tx).
Proof. unfold user_send. keep_native. Qed.
Lemma kept_swarm_message_send m : kept (swarm_message_send m).
Proof. unfold swarm_message_send. keep_native. Qed.
#[local] Hint Resolve kept_rpc_send kept_user_send kept_swarm_message_send : preserve.

Lemma kept_rpc_send_or_report now tx : kept (rpc_send_or_report now tx).
Proof. unfold rpc_send_or_report. keep_native. Qed.
Lemma kept_report_network now m r : kept (report_network now m r).
Proof. unfold report_network. keep_native. Qed.
Lemma kept_report_database now m e : kept (report_database now m e).
Proof. apply kept_send_error. Qed.
Lemma kept_send_update tx m : kept (send_update tx m).
Proof. unfold send_update. keep_native. Qed.
Lemma kept_swarm_try c a m : no_disconnect c → kept (swarm_try c a m).
Proof. intros Hc. unfold swarm_try. keep_native. Qed.
Lemma kept_propagate m : kept (propagate m).
Proof. unfold propagate. keep_native. Qed.
#[local] Hint Resolve kept_rpc_send_or_report kept_report_network kept_report_database
  kept_send_update kept_propagate : preserve.

Lemma kept_dial_and_request now tx a p : kept (dial_and_request now tx a p).
Proof. unfold dial_and_request, dial_to_peer_id, send_request. keep_native. Qed.
Lemma kept_fetch_profile now a : kept (fetch_profile now a).
Proof. unfold fetch_profile. keep_native. Qed.
#[local] Hint Resolve kept_dial_and_request kept_fetch_profile : preserve.

Lemma kept_request_profile now tx p : kept (request_profile now tx p).
Proof. unfold request_profile. keep_native. Qed.
#[local] Hint Resolve kept_request_profile : preserve.

Lemma kept_genesis now tx : kept (handle_genesis_tx_state now tx).
Proof. unfold handle_genesis_tx_state. keep_native. Qed.
Lemma kept_recv_addr_confirmed now i tx : kept (handle_recv_addr_confirmed_tx_state now i tx).
Proof. unfold handle_recv_addr_confirmed_tx_state, send_response. keep_native. Qed.
Lemma kept_submit now tx : kept (submit_and_report processing now tx).
Proof. unfold submit_and_report. keep_native. Qed.
#[local] Hint Resolve kept_genesis kept_recv_addr_confirmed kept_submit : preserve.

Lemma kept_native_tx_update now tx : kept (native_tx_update processing now tx).
Proof.
  unfold native_tx_update, handle_sender_confirmed_tx_state, disconnect_from_peer_id. keep_native.
Qed.
Lemma kept_native_swarm_message now m : kept (native_swarm_message processing now m).
Proof. unfold native_swarm_message, check_response. keep_native. Qed.
#[local] Hint Resolve kept_native_tx_update kept_native_swarm_message : preserve.

Lemma kept_handle_command cmd :
  (∀ c, cmd = Some c → keeps_open c) → kept (handle_command cmd).
Proof.
  intros Hc. unfold handle_command, connected. destruct cmd as [[| | |]|].
  4: by destruct (Hc _ eq_refl).
  all: keep_native; by apply kept_swarm_try.
Qed.

Lemma kept_native_swarm_turn input : kept (native_swarm_turn input).
Proof.
  destruct input as [[event|]|]; simpl; [|apply preserves_skip|].
  - unfold handle_swarm_events. keep_native.
  - apply hoare_preserves. eapply hoare_bind; [apply recv_command_hoare|].
    intros cmd s [Hs Hc]. apply (preserves_hoare _ _ (kept_handle_command cmd Hc) s Hs).
Qed.

Lemma kept_messages now turns : kept (handle_swarm_event_messages processing now turns).
Proof. induction turns; simpl; keep_native. Qed.
Lemma kept_updates now turns : kept (handle_incoming_rpc_tx_updates processing now turns).
Proof. induction turns; simpl; keep_native. Qed.

Lemma kept_step now step : kept (run_native_step now step).
Proof.
  destruct step; simpl.
  - apply kept_native_swarm_turn.
  - apply kept_messages.
  - apply kept_updates.
  - unfold initiate_transaction, verified. keep_native.
  - unfold revert_transaction. keep_native.
  - unfold sender_confirm. keep_native.
  - unfold receiver_confirm. keep_native.
  - unfold watch_turn. keep_native.
  - unfold fetch_pending_tx_updates. keep_native.
Qed.

(** C23: On every run of a native node, whatever its user and its peers do: no error is
    ever reported (the channel of errors is closed and empty from the start), no
    connection is ever closed (no Close command is queued and the swarm is never told to
    disconnect, although reverting a transaction is meant to), and a transaction is
    cached under its own nonce. *)
Theorem native_runs_invariant (steps : list (N * native_step)) (d : D) (r : R) :
  let s := run_native steps (native_node_new d r) in
  error_channel s = chan_close (chan_new 100) ∧
  Forall keeps_open (queue (p2p_commands s)) ∧ Forall no_disconnect (swarm_calls s) ∧
  ∀ k tx, moka_entries (moka s) !! k = Some tx → tx_nonce tx = k.
Proof.
  intros s. assert (NativeInvariant s) as [H1 H2 H3 H4]; [|done].
  unfold s. clear s. generalize (native_node_new_invariant d r).
  generalize (native_node_new d r) as s. induction steps as [|[now step] steps IH]; intros s Hs; [done|].
  simpl. apply IH. by apply kept_step.
Qed.
End runs.
