(* ===== verification/NativeProps.v ===== *)
(** What the native node does with a transfer: the request and its answer between two
    nodes, the submission and what is checked before it, reverting, the chains' endpoints
    and the ports. *)

From S2P Require Import Prelude DataStructure Codec DbInterface Lru TxProcessing Node.
From S2P Require Import NativeTypes NativeTx NativeNode NativeP2p NativeRpc NativeService.
Open Scope N_scope.

(** ** Submission *)

Definition set_signature (v : option bytes) (tx : TxStateMachine) : TxStateMachine := {|
  sender_address := sender_address tx; receiver_address := receiver_address tx;
  multi_id := multi_id tx; recv_signature := recv_signature tx; network := network tx;
  token := token tx; status := status tx; code_word := code_word tx; amount := amount tx;
  signed_call_payload := v; call_payload := call_payload tx;
  inbound_req_id := inbound_req_id tx; outbound_req_id := outbound_req_id tx;
  tx_nonce := tx_nonce tx |}.

Section submission.
Context {CR : Crypto} {AL : Alloy} {PR : Providers} {ALL : AlloyLaws}.
Implicit Types (w : TxProcessingWorker) (tx : TxStateMachine) (l : calls).

(** A transfer that was built: its request, with the chain identifier asked for. *)
Lemma eth_transfer_built w tx id e1 e2 e3 l t l' :
  eth_transfer w tx id e1 e2 e3 l = (Ok t, l') →
  ∃ u a, parse_address (receiver_address tx) = Ok a ∧ eip1559 t = Some u ∧
    to (request_of_1559 u) = Some a ∧ value (request_of_1559 u) = Some (amount tx) ∧
    chain_id (request_of_1559 u) = Some id.
Proof.
  unfold eth_transfer, expect_ok, with_error, context, ask.
  destruct (parse_address (sender_address tx)) as [sa| | |]; try done.
  rewrite run_bind_lift_ok.
  destruct (parse_address (receiver_address tx)) as [ra| | |]; try done.
  rewrite run_bind_lift_ok. unfold mbind at 1, M_bind at 1.
  destruct (transaction_count _) as [n| | |]; try done. simpl.
  unfold mbind, M_bind. destruct (estimated_fees _) as [[m p]| | |]; try done. simpl.
  destruct (build_1559 ra (amount tx) id n 21000 m p) as (t' & u & Hb & Hu & Hr).
  rewrite Hb. intros [= <- <-]. exists u, ra. by rewrite Hr.
Qed.

(** C35: The sender's signature plays no part in what the native node submits on
    Ethereum: any two signatures that parse submit the same request, which carries the
    recipient and the amount but no signature, on chain 31337, while the hash that the
    sender was given to sign is that of a transaction on chain 56. *)
Theorem submission_is_not_the_signed_transaction w tx l (s s' : bytes) sg sg' :
  network tx = Ethereum →
  ecdsa_signature_try_from s = Ok sg → ecdsa_signature_try_from s' = Ok sg' →
  submit_tx w (set_signature (Some s) tx) l = submit_tx w (set_signature (Some s') tx) l ∧
  (∀ hash l', submit_tx w (set_signature (Some s) tx) l = (Ok hash, l') →
     ∃ r before a, l' = before ++ [SendTransaction (eth_client w) r] ∧
       parse_address (receiver_address tx) = Ok a ∧ to r = Some a ∧
       value r = Some (amount tx) ∧ chain_id r = Some 31337) ∧
  (∀ tx' l', create_tx w tx l = (Ok tx', l') →
     ∃ u, call_payload tx' = Some (signature_hash_1559 u) ∧
       chain_id (request_of_1559 u) = Some 56).
Proof.
  intros Hnet Hs Hs'. split_and!.
  - unfold submit_tx. change (network (set_signature _ tx)) with (network tx). rewrite Hnet. simpl.
    by rewrite !run_bind_lift_ok, Hs, Hs'.
  - intros hash l'. unfold submit_tx. change (network (set_signature _ tx)) with (network tx).
    rewrite Hnet. simpl. rewrite run_bind_lift_ok, Hs. simpl. rewrite run_bind_lift_ok.
    unfold mbind at 1, M_bind at 1.
    destruct (eth_transfer _ _ _ _ _ _ _) as [[t| | |] l1] eqn:Ht; try done.
    destruct (eth_transfer_built _ _ _ _ _ _ _ _ _ Ht) as (u & a & Ha & Hu & Hto & Hv & Hid).
    rewrite Hu. simpl. rewrite run_bind_lift_ok. unfold mbind, M_bind, ask, context.
    destruct (sent_hash _) as [h| | |]; try done. unfold lift, to_hash. case_decide; [|done].
    intros [= <- <-]. by exists (request_of_1559 u), l1, a.
  - intros tx' l'. unfold create_tx. rewrite Hnet. unfold mbind at 1, M_bind at 1.
    destruct (eth_transfer _ _ _ _ _ _ _) as [[t| | |] l1] eqn:Ht; try done.
    destruct (eth_transfer_built _ _ _ _ _ _ _ _ _ Ht) as (u & a & _ & Hu & _ & _ & Hid).
    rewrite Hu. simpl. intros [= <- _]. by exists u.
Qed.

(** Transactions on Bnb are sent to the endpoint of Solana. *)
Theorem bnb_client_is_solanas `{Earlier} parses w :
  TxProcessingWorker_new parses chain_networks = Ok w →
  eth_client w = chain_url Ethereum ∧ bnb_client w = chain_url Solana.
Proof.
  unfold TxProcessingWorker_new, chain_networks. repeat case_match; try done.
  intros [= <-]. done.
Qed.

(** Nothing can be verified on Polkadot and Bnb. *)
Theorem native_unverifiable tx :
  network tx = Polkadot ∨ network tx = Bnb → is_Some (recv_signature tx) →
  panics (validate_receiver_sender_address tx "Receiver") = true.
Proof.
  intros Hnet [s Hs]. unfold validate_receiver_sender_address. simpl. rewrite Hs. simpl.
  by destruct Hnet as [-> | ->].
Qed.
End submission.

(** ** The main service *)

Lemma bind_run {S A B} (m : M S A) (f : A → M S B) s a s' r :
  m s = (Ok a, s') → f a s' = r → (m ≫= f) s = r.
Proof. intros Hm <-. by apply run_bind_ok. Qed.

Section service.
Context {P2P : P2pTypes} {NP : NativeP2p} {MK : MokaCache} {CR : Crypto} {AL : Alloy}.
Context {PR : Providers} {EA : Earlier} {D R : Type} {DB : NativeDb D} {RD : Redis R}.
Context {SW : SwarmLib} {BP : BuildProfile}.
Context (processing : TxProcessingWorker) (now : N).
Implicit Types (s : NativeNode D R) (tx : TxStateMachine).

Lemma native_command_send_run cmd s :
  has_room 1 (p2p_commands s) → command_send cmd s = (Ok (), with_p2p_commands (chan_push cmd) s).
Proof.
  intros Hroom. destruct (chan_send_room cmd _ _ Hroom) as [Hsend _].
  unfold command_send. rewrite run_bind_gets, Hsend, run_bind_lift_ok. by destruct s.
Qed.
Lemma native_rpc_send_run tx s :
  has_room 1 (rpc_channel s) → rpc_send tx s = (Ok (), with_rpc_channel (chan_push tx) s).
Proof.
  intros Hroom. destruct (chan_send_room tx _ _ Hroom) as [Hsend _].
  unfold rpc_send. rewrite run_bind_gets, Hsend, run_bind_lift_ok. by destruct s.
Qed.
Lemma error_of_ok (m : M (NativeNode D R) unit) s s' : m s = (Ok (), s') → error_of m s = (Ok None, s').
Proof. intros Hm. unfold error_of, attempt, mbind, M_bind. by rewrite Hm. Qed.
Lemma error_of_err (m : M (NativeNode D R) unit) s s' e :
  m s = (Err e, s') → error_of m s = (Ok (Some e), s').
Proof. intros Hm. unfold error_of, attempt, mbind, M_bind. by rewrite Hm. Qed.

Lemma send_error_run t m d s :
  error_channel s = chan_close (chan_new 100) → send_error now t m d s = (Ok (), s).
Proof.
  intros E. unfold send_error, error_of, attempt, mbind, M_bind, gets, lift. by rewrite E.
Qed.

Lemma rpc_report_run tx s :
  has_room 1 (rpc_channel s) →
  rpc_send_or_report now tx s = (Ok (), with_rpc_channel (chan_push tx) s).
Proof.
  intros Hroom. unfold rpc_send_or_report.
  by rewrite (run_bind_ok _ _ _ _ _ (error_of_ok _ _ _ (native_rpc_send_run tx s Hroom))).
Qed.

Lemma dial_and_request_run tx addr peer s :
  has_room 2 (p2p_commands s) →
  dial_and_request now tx addr peer s =
    (Ok (), with_p2p_commands
      (λ ch, chan_push (SendRequest (encode_tx tx) peer addr) (chan_push (Dial addr peer) ch)) s).
Proof.
  intros Hroom. destruct (chan_send_room (Dial addr peer) _ _ Hroom) as [_ Hroom1].
  assert (dial_to_peer_id addr peer s = (Ok (), with_p2p_commands (chan_push (Dial addr peer)) s))
    as Hd.
  { unfold dial_to_peer_id. rewrite (run_bind_ok _ _ _ _ _ (error_of_ok _ _ _
      (native_command_send_run _ s (has_room_le 2 1 _ ltac:(lia) Hroom)))). done. }
  unfold dial_and_request. rewrite (run_bind_ok _ _ _ _ _ (error_of_ok _ _ _ Hd)).
  unfold report_network. rewrite run_bind_skip. cbv beta.
  eapply bind_run; [apply error_of_ok|reflexivity].
  unfold send_request. rewrite (run_bind_ok _ _ _ _ _ (error_of_ok _ _ _
    (native_command_send_run _ (with_p2p_commands (chan_push (Dial addr peer)) s) Hroom1))).
  by destruct s.
Qed.

(** A transfer to a receiver the database knows: the native node queues a dial of
    the receiver's address and then the encoded transaction as a request to its peer id,
    and changes nothing else. *)
Theorem native_request_sent tx s d acc a addr i peer :
  status tx = Genesis → get_saved_user_peers (receiver_address tx) (db s) = (Ok acc, d) →
  peer_multi_addr acc = Some a → parse_multiaddr a = Ok addr →
  peer_id acc = Some i → parse_peer_id i = Ok peer → has_room 2 (p2p_commands s) →
  native_tx_update processing now tx s =
    (Ok (), with_p2p_commands
      (λ ch, chan_push (SendRequest (encode_tx tx) peer addr) (chan_push (Dial addr peer) ch))
      (with_db (λ _, d) s)).
Proof.
  intros Hst Hsaved Ha Haddr Hi Hpeer Hroom. unfold native_tx_update. rewrite Hst.
  unfold handle_genesis_tx_state.
  eapply bind_run.
  { unfold attempt, on_db. rewrite Hsaved. reflexivity. }
  cbv beta iota.
  rewrite Ha. simpl. rewrite run_bind_lift_ok, Haddr, run_bind_lift_ok, Hi. simpl.
  rewrite run_bind_lift_ok, Hpeer, run_bind_lift_ok. by apply dial_and_request_run.
Qed.

(** The receiver's side: the request as it arrives, is shown and is answered. *)
Definition arrive (id : InboundRequestId) (data : bytes) (ch : ResponseChannel)
    (s : NativeNode D R) : NativeNode D R :=
  (native_swarm_turn (OnEvent (Some (EventRequest id data ch))) s).2.
Definition take_message (s : NativeNode D R) : NativeNode D R :=
  (handle_swarm_event_messages processing now 1 s).2.

Lemma arrive_run id data ch s :
  has_room 1 (swarm_messages s) →
  arrive id data ch s =
    with_swarm_messages (chan_push (Request data id))
      (with_pending_request (<[inbound_hash_id id := ch]>) s).
Proof.
  intros Hroom. destruct (chan_send_room (Request data id) _ _ Hroom) as [Hsend _].
  unfold arrive, native_swarm_turn, handle_swarm_events, propagate, swarm_message_send.
  rewrite run_bind_modify. unfold error_of, attempt, mbind, M_bind, gets, lift, modify. simpl.
  rewrite Hsend. by destruct s.
Qed.

Context {EL : EarlierLaws}.

(** A request that arrives is shown to the user, with the identifier of its substream. *)
Lemma request_shown_run tx id ch s :
  queue (swarm_messages s) = [] → has_room 1 (swarm_messages s) → has_room 1 (rpc_channel s) →
  let shown := set_inbound_req_id (Some (inbound_hash_id id)) tx in
  take_message (arrive id (encode_tx tx) ch s) =
    with_moka (moka_insert (tx_nonce tx) shown) (with_rpc_channel (chan_push shown)
      (with_pending_request (<[inbound_hash_id id := ch]>) s)).
Proof.
  intros Hq Hm Hr shown. unfold take_message. rewrite arrive_run by done. simpl.
  rewrite run_bind_gets. simpl. rewrite Hq. simpl. rewrite run_bind_modify, decode_encode_tx.
  simpl. rewrite run_bind_bind, run_bind_lift_ok. fold shown. rewrite run_bind_bind.
  erewrite run_bind_ok; [|apply rpc_report_run; exact Hr]. unfold cache_insert.
  rewrite run_bind_modify. simpl. destruct s as [? ? ? ? ? ? ? [q c cl] ? ? ?]. simpl in *.
  by subst.
Qed.

(** A confirmation is sent on the channel its request came with, which is taken. *)
Lemma confirmed_answer_run tx i ch s :
  status tx = RecvAddrConfirmed → inbound_req_id tx = Some i →
  pending_request s !! i = Some ch → has_room 1 (p2p_commands s) →
  native_tx_update processing now tx s =
    (Ok (), with_p2p_commands (chan_push (SendResponse (encode_tx tx) ch))
      (with_pending_request (base.delete i) s)).
Proof.
  intros Hst Hid Hp Hroom. unfold native_tx_update. rewrite Hst, Hid. simpl.
  rewrite run_bind_lift_ok. unfold handle_recv_addr_confirmed_tx_state, send_response.
  eapply bind_run; [apply error_of_ok|reflexivity].
  rewrite run_bind_gets, Hp. simpl. rewrite run_bind_lift_ok, run_bind_modify.
  by apply native_command_send_run.
Qed.

(** C22: On the receiver's node a request is shown to the user with the identifier of
    its substream, and the confirmed transaction that carries this identifier is answered
    exactly once, on the substream the request came on: a second confirmation sends
    nothing. *)
Theorem native_request_answered tx tx' id ch s :
  queue (swarm_messages s) = [] → has_room 1 (swarm_messages s) →
  has_room 1 (rpc_channel s) → has_room 1 (p2p_commands s) →
  error_channel s = chan_close (chan_new 100) →
  status tx' = RecvAddrConfirmed → inbound_req_id tx' = Some (inbound_hash_id id) →
  let s1 := take_message (arrive id (encode_tx tx) ch s) in
  let s2 := native_tx_update processing now tx' s1 in
  queue (rpc_channel s1) =
    queue (rpc_channel s) ++ [set_inbound_req_id (Some (inbound_hash_id id)) tx] ∧
  s2.1 = Ok () ∧
  queue (p2p_commands s2.2) = queue (p2p_commands s) ++ [SendResponse (encode_tx tx') ch] ∧
  p2p_commands (native_tx_update processing now tx' s2.2).2 = p2p_commands s2.2.
Proof.
  intros Hq Hm Hr Hc He Hst Hid s1 s2.
  pose proof (request_shown_run tx id ch s Hq Hm Hr) as Hs1. fold s1 in Hs1. cbv zeta in Hs1.
  assert (s2 = (Ok (), with_p2p_commands (chan_push (SendResponse (encode_tx tx') ch))
    (with_pending_request (base.delete (inbound_hash_id id)) s1))) as Hs2.
  { apply confirmed_answer_run; try done; rewrite Hs1; [apply lookup_insert_eq|done]. }
  rewrite Hs2. simpl. split_and!; [by rewrite Hs1|done|by rewrite Hs1|].
  unfold native_tx_update. rewrite Hst, Hid. simpl. rewrite run_bind_lift_ok.
  unfold handle_recv_addr_confirmed_tx_state.
  erewrite run_bind_ok.
  2: { apply error_of_err. unfold send_response. rewrite run_bind_gets. simpl.
       rewrite lookup_delete_eq. reflexivity. }
  unfold report_network. rewrite send_error_run; [done|]. by rewrite Hs1.
Qed.

(** The native node does not enforce the check of the sender's signature: a
    transaction the sender confirmed is handled in the same way whether the check
    accepts it or refuses it; only the identifier decides if it is submitted. *)
Theorem sender_check_not_enforced tx s :
  status tx = SenderConfirmed → error_channel s = chan_close (chan_new 100) →
  (validate_receiver_sender_address tx "Sender" = Ok () ∨
   ∃ e, validate_receiver_sender_address tx "Sender" = Err e) →
  native_tx_update processing now tx s =
    (if validate_multi_id tx then submit_and_report processing now tx
     else rpc_send_or_report now (set_status SenderConfirmationfailed tx)) s.
Proof.
  intros Hst He Hv. unfold native_tx_update. rewrite Hst. unfold handle_sender_confirmed_tx_state.
  destruct Hv as [Hv|[e Hv]]; rewrite Hv.
  - by rewrite (run_bind_ok _ _ _ _ _ (error_of_ok (lift (Ok ())) s s eq_refl)), run_bind_skip.
  - rewrite (run_bind_ok _ _ _ _ _ (error_of_err (lift (Err e)) s s e eq_refl)).
    by rewrite (run_bind_ok _ _ _ _ _ (send_error_run _ _ _ s He)).
Qed.

(** Reverting a transaction hands it on with its status unchanged: one that is still in
    its first state is sent to the receiver again. *)
Theorem reverted_genesis_is_sent_again tx old s d :
  moka_entries (moka s) !! tx_nonce tx = Some old → status tx = Genesis →
  queue (user_channel s) = [] → has_room 1 (user_channel s) →
  update_failed_tx {| db_tx_hash := get_tx_hash tx; db_amount := amount tx;
    db_network := network tx; db_success := false |} (db s) = (Ok (), d) →
  (revert_transaction tx;; handle_incoming_rpc_tx_updates processing now 1) s =
  (handle_genesis_tx_state now tx;; skip)
    (with_user_channel chan_pop (with_user_channel (chan_push tx)
      (with_db (λ _, d) (with_moka (moka_remove (tx_nonce tx)) s)))).
Proof.
  intros Hc Hst Hq Hroom Hdb. destruct (chan_send_room tx _ _ Hroom) as [Hsend _].
  eapply bind_run.
  - unfold revert_transaction, cache_remove. rewrite run_bind_bind, run_bind_gets, run_bind_bind.
    rewrite run_bind_modify, run_bind_ret, Hc. eapply bind_run.
    + unfold on_db. simpl. rewrite Hdb. reflexivity.
    + unfold send_update. eapply bind_run; [apply error_of_ok|reflexivity].
      unfold user_send. rewrite run_bind_gets. simpl. rewrite Hsend, run_bind_lift_ok. reflexivity.
  - simpl. rewrite run_bind_gets. simpl. rewrite Hq. simpl. rewrite run_bind_modify.
    unfold native_tx_update. rewrite Hst. by destruct s.
Qed.

(** A message that is not an encoded transaction ends the task that handles messages. *)
Theorem malformed_request_panics data id s :
  decode_tx data = None →
  (native_swarm_message processing now (Request data id) s).1 =
    Panic (ExpectFailed "failed to decode request body").
Proof. intros Hd. unfold native_swarm_message. by rewrite Hd. Qed.

End service.

(** ** Ports *)

(** A port below 541, given or drawn at random, ends the start of a debug build; a
    release build stores a p2p port that wraps around. *)
Theorem low_port_wraps `{P2pTypes} `{MokaCache} `{Crypto} {D R} `{NativeDb D}
    (port random : N) (s : NativeNode D R) d :
  get_ports (db s) = (Ok None, d) → port < 541 →
  (choose_ports (BP := debug_profile) (Some port) random s).1 = Panic ArithmeticOverflow ∧
  ∀ d', set_ports port (port + 64995) d = (Ok (), d') →
    (choose_ports (BP := release_profile) (Some port) random s).1 = Ok (port, port + 64995).
Proof.
  intros Hg Hp. assert (541 <=? port = false) as Hle by by apply N.leb_gt.
  unfold choose_ports, sub_u16. split.
  - erewrite run_bind_ok; [|unfold on_db; rewrite Hg; reflexivity]. simpl. by rewrite Hle.
  - intros d' Hset. erewrite run_bind_ok; [|unfold on_db; rewrite Hg; reflexivity].
    simpl. rewrite Hle. simpl. rewrite run_bind_lift_ok.
    replace (port + _ - 541) with (port + 64995) by lia.
    erewrite run_bind_ok; [|unfold on_db; simpl; rewrite Hset; reflexivity]. done.
Qed.
