(* ===== verification/NativeSamples.v ===== *)
(** Concrete libraries and databases on which the theorems about the native node are
    evaluated. *)

From S2P Require Import Prelude DataStructure Codec Samples DbInterface Lru TxProcessing Node.
From S2P Require Import NativeTypes NativeTx NativeNode NativeP2p NativeRpc NativeService.
From S2P Require Import NativeRuns NativeProps.
Open Scope N_scope.

Section samples.
#[local] Existing Instances sample_crypto release_profile MapMoka MapMoka_laws.

#[local] Instance native_types : P2pTypes := {|
  PeerId := string; Multiaddr := string; InboundRequestId := N; OutboundRequestId := N;
  ResponseChannel := N; DialSender := N; DhtPeerSender := N |}.
#[local] Instance native_p2p : NativeP2p := {|
  parse_peer_id := Ok; parse_multiaddr := Ok; 
  inbound_hashed n := [default Byte.x00 (Byte.of_N n)];
  outbound_hashed n := [default Byte.x00 (Byte.of_N n)];
  xx_hash64 b := Byte.to_N (default Byte.x00 (head b));
  channel_is_open _ := true |}.

Definition native_chain_code (c : ChainSupported) : N :=
  match c with Polkadot => 0 | Ethereum => 1 | Bnb => 2 | Solana => 3 end.
Definition native_chain_of_code (n : N) : option ChainSupported :=
  match n with
  | 0 => Some Polkadot | 1 => Some Ethereum | 2 => Some Bnb | 3 => Some Solana | _ => None
  end.
#[local] Instance native_chain_stream : Stream ChainSupported.
Proof. apply (stream_inj native_chain_code native_chain_of_code). by intros []. Defined.

Definition native_token_code (t : Token) : N :=
  match t with
  | Token_Dot => 0 | Token_UsdtDot => 1 | Token_Bnb => 2 | Token_Sol => 3 | Token_UsdcSol => 4
  | Token_UsdtSol => 5 | Token_Eth => 6 | Token_UsdtEth => 7 | Token_UsdcEth => 8
  end.
Definition native_token_of_code (n : N) : option Token :=
  match n with
  | 0 => Some Token_Dot | 1 => Some Token_UsdtDot | 2 => Some Token_Bnb | 3 => Some Token_Sol
  | 4 => Some Token_UsdcSol | 5 => Some Token_UsdtSol | 6 => Some Token_Eth
  | 7 => Some Token_UsdtEth | 8 => Some Token_UsdcEth | _ => None
  end.
#[local] Instance native_token_stream : Stream Token.
Proof. apply (stream_inj native_token_code native_token_of_code). by intros []. Defined.

#[local] Instance native_tx_stream : Stream TxStateMachine.
Proof.
  apply (stream_inj'
    (λ t, (sender_address t, receiver_address t, multi_id t, recv_signature t, network t, token t,
           status t, code_word t, amount t, signed_call_payload t, call_payload t,
           inbound_req_id t, outbound_req_id t, tx_nonce t))
    (λ '(a, b, c, d, e, f, g, h, i, j, k, l, m, n),
       Build_TxStateMachine a b c d e f g h i j k l m n)).
  by intros [].
Defined.

#[local] Instance native_earlier : Earlier := {|
  chain_from_str s := if decide (s = "Bnb") then Bnb else Ethereum;
  token_from_str s := if decide (s = "Bnb") then Token_Bnb else Token_Eth;
  chain_url c := match c with
                 | Polkadot => "polkadot" | Ethereum => "eth" | Bnb => "bnb" | Solana => "sol" end;
  encode_tx := scale_encode; decode_tx := scale_decode;
  get_tx_hash tx := multi_id tx |}.
#[local] Instance native_earlier_laws : EarlierLaws.
Proof. split. intros tx. apply scale_decode_encode. Qed.

(** A transaction is its request; its hash is that of the recipient and the chain. *)
Definition sample_hash (r : TransactionRequest string) : bytes :=
  blake2_256 (as_bytes (default "" (to r) +:+ nat_to_string (N.to_nat (default 0 (chain_id r))))).
#[local] Instance native_alloy : Alloy := {|
  TypedTransaction := TransactionRequest string; TxEip1559 := TransactionRequest string;
  TxEip7702 := TransactionRequest string;
  address_of_bytes := String.string_of_list_byte;
  recover_address_from_prehash sig digest :=
    match sample_recover sig digest with
    | Ok (_ :: k) => Ok (String.string_of_list_byte k) | _ => Err "bad signature" end;
  ed25519_public_from_str s := Ok (as_bytes s);
  decompresses _ := true;
  build_unsigned r := Ok r;
  eip1559 r := Some r; eip7702 r := Some r;
  signature_hash_1559 := sample_hash; signature_hash_7702 := sample_hash;
  request_of_1559 r := r;
  decode_7702 _ := Err "not a transaction"; encode_with_signature _ s := s |}.
#[local] Instance native_alloy_laws : AlloyLaws.
Proof. split. intros a v c n g m p r. by exists r, r. Qed.

#[local] Instance native_providers : Providers := {|
  transaction_count _ := Ok 0; estimated_fees _ := Ok (1, 1);
  sent_hash _ := Ok (repeat Byte.xaa 32) |}.

(** The saved peers and the nonce. *)
Definition SampleDb : Type := gmap string PeerRecord * N.
#[local] Instance native_db : NativeDb SampleDb := {|
  get_ports := mret None; set_ports _ _ := skip; record_user_peer_id _ := skip;
  get_nonce := gets snd; increment_nonce := modify (λ '(m, n), (m, n + 1));
  update_success_tx _ := skip; update_failed_tx _ := skip;
  get_saved_user_peers a := λ d, (ok_or (d.1 !! a) "Peer not found in DB", d);
  record_saved_user_peers _ _ := skip |}.
#[local] Instance native_redis : Redis unit := {|
  redis_connect _ := Ok (); hset _ _ _ := skip; hget _ _ := fail "nil";
  profile_to_json _ := Some ""; profile_from_json _ := Err "expected value" |}.
#[local] Instance native_swarm : SwarmLib := {|
  is_connected _ _ := false; listen_result _ := Ok (); dial_result _ := Ok ();
  send_response_result _ := Ok () |}.

Definition bob_peer : PeerRecord := {|
  peer_id := Some "bob's peer"; peer_accounts := []; peer_multi_addr := Some "/bob";
  peer_keypair := None |}.
Definition native_sample : NativeNode SampleDb unit :=
  native_node_new ({["bob" := bob_peer]}, 0) ().
Definition native_processing : TxProcessingWorker := {| eth_client := "eth"; bnb_client := "sol" |}.

(** Alice's transfer to Bob on Ethereum. *)
Definition native_tx (st : TxStatus) (inbound : option N) : TxStateMachine := {|
  sender_address := "alice"; receiver_address := "bob"; multi_id := multi_id_of "alice" "bob";
  recv_signature := Some bob_signature; network := Ethereum; token := Token_Eth; status := st;
  code_word := ""; amount := 1000; signed_call_payload := Some (as_bytes "mallory");
  call_payload := Some (repeat Byte.x2a 32); inbound_req_id := inbound;
  outbound_req_id := None; tx_nonce := 1 |}.

Definition req_7 : InboundRequestId := 7.
Definition chan_3 : ResponseChannel := 3.

(** A revert, on a node that cached the transaction. *)
Definition native_sample_steps : list (N * native_step) := [
  (5, StepSwarm (OnEvent (Some (EventRequest req_7 (encode_tx (native_tx Genesis None)) chan_3))));
  (6, StepMessages 1); (7, StepRevert (native_tx (Reverted "no") None)); (8, StepUpdates 1)].

Lemma native_runs_invariant_witness :
  Forall no_disconnect (swarm_calls (run_native native_processing native_sample_steps native_sample)).
Proof.
  exact (proj1 (proj2 (proj2 (native_runs_invariant native_processing native_sample_steps
    (({["bob" := bob_peer]}, 0) : SampleDb) ())))).
Defined.

Lemma submission_is_not_the_signed_transaction_witness :
  submit_tx native_processing (set_signature (Some [Byte.x01]) (native_tx SenderConfirmed None)) [] =
  submit_tx native_processing (set_signature (Some [Byte.x02]) (native_tx SenderConfirmed None)) [].
Proof.
  exact (proj1 (submission_is_not_the_signed_transaction native_processing
    (native_tx SenderConfirmed None) [] [Byte.x01] [Byte.x02] [Byte.x01] [Byte.x02]
    eq_refl eq_refl eq_refl)).
Defined.

Lemma native_request_sent_witness :
  (native_tx_update native_processing 0 (native_tx Genesis None) native_sample).1 = Ok ().
Proof.
  rewrite (native_request_sent native_processing 0 (native_tx Genesis None) native_sample
    ({["bob" := bob_peer]}, 0) bob_peer "/bob" "/bob" "bob's peer" "bob's peer");
    try reflexivity.
  split; [reflexivity|simpl; lia].
Defined.

Lemma native_request_answered_witness :
  let s1 := take_message native_processing 0 (arrive req_7 (encode_tx (native_tx Genesis None)) chan_3
    native_sample) in
  queue (rpc_channel s1) = [set_inbound_req_id (Some 7) (native_tx Genesis None)] ∧
  (native_tx_update native_processing 0 (native_tx RecvAddrConfirmed (Some 7)) s1).1 = Ok ().
Proof.
  destruct (native_request_answered native_processing 0 (native_tx Genesis None)
    (native_tx RecvAddrConfirmed (Some 7)) req_7 chan_3 native_sample) as (Hshown & Hok & _);
    try reflexivity; try (split; [reflexivity|simpl; lia]).
  split; [exact Hshown|exact Hok].
Defined.

(** A signature that does not recover, by somebody else, is submitted all the same. *)
Lemma sender_check_not_enforced_witness :
  is_ok (validate_receiver_sender_address (native_tx SenderConfirmed None) "Sender") = false ∧
  native_tx_update native_processing 0 (native_tx SenderConfirmed None) native_sample =
  submit_and_report native_processing 0 (native_tx SenderConfirmed None) native_sample.
Proof.
  split; [vm_compute; reflexivity|].
  rewrite (sender_check_not_enforced native_processing 0 (native_tx SenderConfirmed None)
    native_sample); [|reflexivity|reflexivity|right; eexists; vm_compute; reflexivity].
  assert (validate_multi_id (native_tx SenderConfirmed None) = true) as E
    by (vm_compute; reflexivity).
  rewrite E. reflexivity.
Defined.

Example forged_signature_submitted :
  length (provider_calls (native_tx_update native_processing 0 (native_tx SenderConfirmed None)
    native_sample).2) = 3%nat.
Proof. vm_compute. reflexivity. Qed.

Example low_port_wraps_sample :
  (choose_ports (BP := debug_profile) (Some 80) 0 native_sample).1 = Panic ArithmeticOverflow.
Proof. apply (low_port_wraps 80 0 native_sample native_sample.(db)); [reflexivity|lia]. Qed.
End samples.
