(* ===== verification/NativeWorld.v ===== *)
(** Two native nodes and the network between them: what one node's swarm is told to send
    is written by the codec, read by the codec of the other side, and becomes an event of
    the other node's swarm.

    The requests of libp2p are carried as the codec of the code frames them
    ([NativeCodec.v]).  The network delivers a request only to the peer it is for, and only
    over a connection: the sender's swarm is connected to that peer or has dialled the
    address it listens on.  It delivers a response only on the channel of the substream
    that the request opened.  Which identifiers and which channel the substream gets is an
    argument. *)

From S2P Require Import Prelude DataStructure Codec DbInterface Lru TxProcessing Node.
From S2P Require Import NativeCodec NativeTypes NativeTx NativeNode NativeP2p NativeRpc.
From S2P Require Import NativeService NativeRuns NativeProps NativeSamples.
Open Scope N_scope.

Section world.
Context {P2P : P2pTypes} {NP : NativeP2p} {MK : MokaCache} {CR : Crypto} {AL : Alloy}.
Context {PR : Providers} {EA : Earlier} {D R : Type} {DB : NativeDb D} {RD : Redis R}.
Context {SW : SwarmLib} {BP : BuildProfile} {UV : UnsignedVarint}.
Context {PE : EqDecision PeerId} {ME : EqDecision Multiaddr} {CE : EqDecision ResponseChannel}.
Context (processing : TxProcessingWorker).

(** ** The network *)

(** Where the receiver is on the network, and the substream that is open to it: the channel
    its swarm answers on, and the identifier the request has at the sender. *)
Record Link := {
  peer_at : PeerId;
  addr_at : Multiaddr;
  substream : option (ResponseChannel * OutboundRequestId)
}.
Definition with_substream v (k : Link) : Link := {|
  peer_at := peer_at k; addr_at := addr_at k; substream := v |}.

(** The node that sends the transfer, and the one that receives it. *)
Record NativePair := {
  sending : NativeNode D R; receiving : NativeNode D R; link : Link }.

Definition on_sending (f : NativeNode D R → NativeNode D R) (p : NativePair) : NativePair :=
  {| sending := f (sending p); receiving := receiving p; link := link p |}.
Definition on_receiving (f : NativeNode D R → NativeNode D R) (p : NativePair) : NativePair :=
  {| sending := sending p; receiving := f (receiving p); link := link p |}.
Definition on_link (f : Link → Link) (p : NativePair) : NativePair :=
  {| sending := sending p; receiving := receiving p; link := f (link p) |}.

(** After the calls [l] the sender's swarm can reach the receiver. *)
Definition dials (addr : Multiaddr) (c : swarm_call) : bool :=
  match c with SwarmDial a => bool_decide (a = addr) | _ => false end.
Definition reaches (l : list swarm_call) (k : Link) : bool :=
  is_connected l (peer_at k) || existsb (dials (addr_at k)) l.

(** The bytes of a request, from the codec of one side to that of the other. *)
Definition carried_request (req : bytes) : outcome bytes :=
  (read_request GenericCodec_default (written (write_request req Sink_new).2)).1.
Definition carried_response (res : bytes) : outcome (bytes + string) :=
  (read_response GenericCodec_default (written (write_response (inl res) Sink_new).2)).1.

Definition swarm_turn_of (e : swarm_event) (s : NativeNode D R) : NativeNode D R :=
  (native_swarm_turn (OnEvent (Some e)) s).2.

Inductive native_action :=
  | OnSender (now : N) (step : native_step)
  | OnReceiver (now : N) (step : native_step)
  (** the sender's last call is carried to the receiver, on a new substream *)
  | CarryRequest (id : InboundRequestId) (ch : ResponseChannel) (oid : OutboundRequestId)
  (** the receiver's last call is carried back *)
  | CarryResponse.

Definition native_act (x : native_action) (p : NativePair) : NativePair :=
  match x with
  | OnSender now step => on_sending (λ s, (run_native_step processing now step s).2) p
  | OnReceiver now step => on_receiving (λ s, (run_native_step processing now step s).2) p
  | CarryRequest id ch oid =>
      match list.last (swarm_calls (sending p)) with
      | Some (SwarmSendRequest peer req) =>
          if bool_decide (peer = peer_at (link p)) &&
             reaches (removelast (swarm_calls (sending p))) (link p)
          then match carried_request req with
               | Ok req =>
                   on_link (with_substream (Some (ch, oid)))
                     (on_receiving (swarm_turn_of (EventRequest id req ch)) p)
               | _ => p
               end
          else p
      | _ => p
      end
  | CarryResponse =>
      match list.last (swarm_calls (receiving p)), substream (link p) with
      | Some (SwarmSendResponse channel res), Some (ch, oid) =>
          if decide (channel = ch)
          then match carried_response res with
               | Ok res => on_sending (swarm_turn_of (EventResponse oid res)) p
               | _ => p
               end
          else p
      | _, _ => p
      end
  end.

Definition native_acts (l : list native_action) (p : NativePair) : NativePair :=
  foldl (λ p x, native_act x p) p l.

(** A transfer from the sender's update to the answer shown to the sender; [reply] is the
    transaction as the receiver's user confirms it. *)
Definition send_and_carry (now : N) (id : InboundRequestId) (ch : ResponseChannel)
    (oid : OutboundRequestId) : list native_action :=
  [OnSender now (StepUpdates 1); OnSender now (StepSwarm OnCommand);
   OnSender now (StepSwarm OnCommand); CarryRequest id ch oid; OnReceiver now (StepMessages 1)].
Definition answer_and_carry (now : N) (reply : TxStateMachine) : list native_action :=
  [OnReceiver now (StepReceiverConfirm reply); OnReceiver now (StepUpdates 1);
   OnReceiver now (StepSwarm OnCommand); CarryResponse; OnSender now (StepMessages 1)].

(** ** Carrying *)

Context {VL : VarintLaws} {EL : EarlierLaws}.

Lemma default_admits (b : bytes) :
  N.of_nat (length b) < 2 ^ 63 → admits (umax 64) (length b).
Proof. intros Hb. split; [|done]. unfold usize_limit, umax. lia. Qed.

Lemma carried_request_ok req :
  N.of_nat (length req) < 2 ^ 63 → carried_request req = Ok req.
Proof.
  intros Hl. pose proof (default_admits req Hl) as Ha. unfold carried_request, read_request. simpl.
  rewrite (run_bind_ok _ _ _ _ _ (read_length_encoded _ req (admits_fits _ _ Ha))).
  rewrite <-(app_nil_r req) at 2. by rewrite (read_payload_ok _ _ req []) by apply Ha.
Qed.

Lemma carried_response_ok res :
  N.of_nat (length res) < 2 ^ 63 → carried_response res = Ok (inl res).
Proof.
  intros Hl. pose proof (default_admits res Hl) as Ha. unfold carried_response, read_response. simpl.
  rewrite (run_bind_ok _ _ _ _ _ (read_length_encoded _ res (admits_fits _ _ Ha))).
  rewrite <-(app_nil_r res) at 2.
  by rewrite (run_bind_ok _ _ _ _ _ (read_payload_ok _ _ res [] (proj1 Ha) (proj2 Ha))).
Qed.

(** ** The stages of a transfer *)

Implicit Types (s : NativeNode D R) (tx reply : TxStateMachine).

Lemma one_update_run now tx s s' :
  queue (user_channel s) = [tx] →
  native_tx_update processing now tx (with_user_channel chan_pop s) = (Ok (), s') →
  (run_native_step processing now (StepUpdates 1) s).2 = s'.
Proof.
  intros Hq Hrun. simpl. rewrite run_bind_gets, Hq, run_bind_modify.
  by rewrite (run_bind_ok _ _ _ _ _ Hrun).
Qed.

(** Dialling and sending succeed when the library's calls do. *)
Definition swarm_works : Prop :=
  (∀ l, dial_result l = Ok ()) ∧ (∀ l, send_response_result l = Ok ()).

(** The calls of the swarm after the peer was dialled, unless it is connected. *)
Definition dialled (addr : Multiaddr) (peer : PeerId) (l : list swarm_call) : list swarm_call :=
  if is_connected l peer then l else l ++ [SwarmDial addr].

Lemma reaches_dialled l k : reaches (dialled (addr_at k) (peer_at k) l) k = true.
Proof.
  unfold reaches, dialled. destruct (is_connected l _) eqn:Hc; [by rewrite Hc|].
  apply orb_true_iff. right. rewrite existsb_app. simpl.
  by rewrite bool_decide_eq_true_2, orb_true_r.
Qed.

Lemma recv_command_run cmd q s :
  queue (p2p_commands s) = cmd :: q →
  recv_command s = (Ok (Some cmd), with_p2p_commands chan_pop s).
Proof. intros Hq. unfold recv_command. by rewrite run_bind_gets, Hq. Qed.

Lemma swarm_try_run c answer msg s :
  (∀ l, answer l = Ok ()) →
  swarm_try c answer msg s = (Ok (), with_swarm_calls (λ l, l ++ [c]) s).
Proof.
  intros Ha. unfold swarm_try, swarm_do. rewrite run_bind_modify, run_bind_gets. by rewrite Ha.
Qed.

(** Two turns of the swarm task: the receiver is dialled and the request sent. *)
Lemma dial_and_request_turns now addr peer req s :
  swarm_works → queue (p2p_commands s) = [Dial addr peer; SendRequest req peer addr] →
  let s1 := (run_native_step processing now (StepSwarm OnCommand) s).2 in
  (run_native_step processing now (StepSwarm OnCommand) s1).2 =
    with_swarm_calls (λ l, dialled addr peer (dialled addr peer l) ++ [SwarmSendRequest peer req])
      (with_p2p_commands chan_pop (with_p2p_commands chan_pop s)).
Proof.
  intros [Hdial _] Hq. cbv zeta. simpl. rewrite (run_bind_ok _ _ _ _ _ (recv_command_run _ _ _ Hq)).
  set (s1 := with_p2p_commands chan_pop s).
  assert (handle_command (Some (Dial addr peer)) s1 =
    (Ok (), with_swarm_calls (dialled addr peer) s1)) as ->.
  { simpl. unfold connected. rewrite run_bind_gets. unfold dialled.
    destruct (is_connected _ _) eqn:Ec; [|rewrite swarm_try_run by done];
      unfold with_swarm_calls; rewrite Ec; by destruct s. }
  simpl. erewrite run_bind_ok; [|eapply recv_command_run; simpl; by rewrite Hq].
  simpl. unfold connected, swarm_do. rewrite run_bind_gets. simpl.
  set (l := dialled addr peer (swarm_calls s)).
  assert (dialled addr peer l = if is_connected l peer then l else l ++ [SwarmDial addr]) as Hl
    by done.
  unfold with_swarm_calls at 3. simpl. fold l. rewrite Hl.
  destruct (is_connected l _); [by rewrite run_bind_skip|].
  by rewrite (run_bind_ok _ _ _ _ _ (swarm_try_run _ _ _ _ Hdial)).
Qed.

Lemma response_turn now res ch s :
  swarm_works → channel_is_open ch = true → queue (p2p_commands s) = [SendResponse res ch] →
  (run_native_step processing now (StepSwarm OnCommand) s).2 =
    with_swarm_calls (λ l, l ++ [SwarmSendResponse ch res]) (with_p2p_commands chan_pop s).
Proof.
  intros [_ Hsend] Hopen Hq. simpl. rewrite (run_bind_ok _ _ _ _ _ (recv_command_run _ _ _ Hq)).
  simpl. rewrite Hopen. by rewrite swarm_try_run.
Qed.

Lemma receiver_confirm_run reply sig s :
  recv_signature reply = Some sig → has_room 1 (user_channel s) →
  receiver_confirm reply s =
    (Ok (), with_user_channel (chan_push (set_status RecvAddrConfirmed reply))
      (with_moka (moka_remove (tx_nonce reply)) s)).
Proof.
  intros Hsig Hroom. destruct (chan_send_room (set_status RecvAddrConfirmed reply) _ _ Hroom) as [Hs _].
  unfold receiver_confirm, cache_remove. rewrite Hsig, run_bind_bind, run_bind_gets, run_bind_bind.
  rewrite run_bind_modify, run_bind_ret. unfold send_update.
  eapply bind_run; [apply error_of_ok|reflexivity].
  unfold user_send. rewrite run_bind_gets. simpl. rewrite Hs, run_bind_lift_ok. by destruct s.
Qed.

Lemma response_arrives id data s :
  has_room 1 (swarm_messages s) →
  swarm_turn_of (EventResponse id (inl data)) s =
    with_swarm_messages (chan_push (Response data id)) s.
Proof.
  intros Hroom. destruct (chan_send_room (Response data id) _ _ Hroom) as [Hsend _].
  unfold swarm_turn_of, native_swarm_turn, handle_swarm_events, propagate, swarm_message_send.
  unfold error_of, attempt, mbind, M_bind, gets, lift, modify. simpl. rewrite Hsend. by destruct s.
Qed.

(** A response that is checked is shown to the sender's user as the check leaves it. *)
Lemma response_shown now id reply shown s s' :
  queue (swarm_messages s) = [Response (encode_tx reply) id] →
  check_response processing now (set_outbound_req_id (Some (outbound_hash_id id)) reply)
    (with_swarm_messages chan_pop s) = (Ok shown, s') →
  has_room 1 (rpc_channel s') →
  (run_native_step processing now (StepMessages 1) s).2 =
    with_moka (moka_insert (tx_nonce shown) shown) (with_rpc_channel (chan_push shown) s').
Proof.
  intros Hq Hcheck Hroom. simpl. rewrite run_bind_gets, Hq, run_bind_modify. simpl.
  rewrite decode_encode_tx. simpl. rewrite run_bind_bind, run_bind_lift_ok, run_bind_bind.
  rewrite (run_bind_ok _ _ _ _ _ Hcheck), run_bind_bind.
  by rewrite (run_bind_ok _ _ _ _ _ (rpc_report_run now shown s' Hroom)).
Qed.

(** The two outcomes of the sender's check of an answer. *)
Lemma check_accepts now resp shown l s :
  validate_receiver_sender_address resp "Receiver" = Ok () →
  create_tx processing (set_status RecvAddrConfirmationPassed resp) (provider_calls s) =
    (Ok shown, l) →
  check_response processing now resp s = (Ok shown, with_provider_calls (λ _, l) s).
Proof.
  intros Hv Hc. unfold check_response. rewrite Hv.
  rewrite (run_bind_ok _ _ _ _ _ (error_of_ok (lift (Ok ())) s s eq_refl)).
  apply (bind_run _ _ _ (inl shown) (with_provider_calls (λ _, l) s)); [|done].
  unfold attempt, on_providers. by rewrite Hc.
Qed.

Definition failed_response (resp : TxStateMachine) : DbTxStateMachine := {|
  db_tx_hash := []; db_amount := amount resp; db_network := network resp; db_success := false |}.

Lemma check_refuses now resp e d s :
  error_channel s = chan_close (chan_new 100) →
  validate_receiver_sender_address resp "Receiver" = Err e →
  update_failed_tx (failed_response resp) (db s) = (Ok (), d) →
  check_response processing now resp s =
    (Ok (set_status RecvAddrFailed resp), with_db (λ _, d) s).
Proof.
  intros He Hv Hd. unfold check_response. rewrite Hv.
  rewrite (run_bind_ok _ _ _ _ _ (error_of_err (lift (Err e)) s s e eq_refl)).
  rewrite (run_bind_ok _ _ _ _ _ (send_error_run now _ _ _ s He)).
  apply (bind_run _ _ _ () (with_db (λ _, d) s)); [|done].
  unfold on_db, failed_response in *. simpl. by rewrite Hd.
Qed.

(** A node with nothing to do, and room for a transfer. *)
Record idle (s : NativeNode D R) : Prop := {
  no_command : queue (p2p_commands s) = [];
  command_room : has_room 2 (p2p_commands s);
  no_message : queue (swarm_messages s) = [];
  message_room : has_room 1 (swarm_messages s);
  shown_room : has_room 1 (rpc_channel s);
  errors_closed : error_channel s = chan_close (chan_new 100)
}.

(** The database of [s] knows where the receiver of [tx] is. *)
Definition knows (s : NativeNode D R) tx (d : D) (addr : Multiaddr) (peer : PeerId) : Prop :=
  ∃ acc a i, get_saved_user_peers (receiver_address tx) (db s) = (Ok acc, d) ∧
    peer_multi_addr acc = Some a ∧ parse_multiaddr a = Ok addr ∧
    peer_id acc = Some i ∧ parse_peer_id i = Ok peer.

(** One action after the other. *)
Lemma acts_cons x l p : native_acts (x :: l) p = native_acts l (native_act x p).
Proof. done. Qed.
Lemma act_sender now step s r k :
  native_act (OnSender now step) {| sending := s; receiving := r; link := k |} =
    {| sending := (run_native_step processing now step s).2; receiving := r; link := k |}.
Proof. done. Qed.
Lemma act_receiver now step s r k :
  native_act (OnReceiver now step) {| sending := s; receiving := r; link := k |} =
    {| sending := s; receiving := (run_native_step processing now step r).2; link := k |}.
Proof. done. Qed.
Lemma act_carry_request id ch oid req l s r k :
  swarm_calls s = l ++ [SwarmSendRequest (peer_at k) req] → reaches l k = true →
  N.of_nat (length req) < 2 ^ 63 →
  native_act (CarryRequest id ch oid) {| sending := s; receiving := r; link := k |} =
    {| sending := s; receiving := arrive id req ch r;
       link := with_substream (Some (ch, oid)) k |}.
Proof.
  intros Hs Hk Hl. simpl. rewrite Hs, last_snoc, removelast_last, Hk.
  by rewrite bool_decide_eq_true_2, carried_request_ok.
Qed.
Lemma act_carry_response ch oid res l s r k :
  swarm_calls r = l ++ [SwarmSendResponse ch res] → substream k = Some (ch, oid) →
  N.of_nat (length res) < 2 ^ 63 →
  native_act CarryResponse {| sending := s; receiving := r; link := k |} =
    {| sending := swarm_turn_of (EventResponse oid (inl res)) s; receiving := r; link := k |}.
Proof.
  intros Hs Hk Hl. simpl. by rewrite Hs, last_snoc, Hk, decide_True, carried_response_ok.
Qed.

(** The calls of the sender's swarm for a request: dial unless connected, then send. *)
Definition request_calls (k : Link) (req : bytes) (l : list swarm_call) : list swarm_call :=
  dialled (addr_at k) (peer_at k) (dialled (addr_at k) (peer_at k) l) ++
    [SwarmSendRequest (peer_at k) req].

Lemma send_and_carry_run now p tx d id ch oid :
  swarm_works → idle (sending p) → idle (receiving p) →
  queue (user_channel (sending p)) = [tx] → status tx = Genesis →
  knows (sending p) tx d (addr_at (link p)) (peer_at (link p)) →
  N.of_nat (length (encode_tx tx)) < 2 ^ 63 →
  let shown := set_inbound_req_id (Some (inbound_hash_id id)) tx in
  native_acts (send_and_carry now id ch oid) p = {|
    sending := with_swarm_calls (request_calls (link p) (encode_tx tx))
      (with_db (λ _, d) (with_user_channel chan_pop (sending p)));
    receiving := with_moka (moka_insert (tx_nonce tx) shown)
      (with_rpc_channel (chan_push shown)
        (with_pending_request (<[inbound_hash_id id := ch]>) (receiving p)));
    link := with_substream (Some (ch, oid)) (link p) |}.
Proof.
  intros Hworks [Hc1 Hroom1 _ _ _ _] [_ _ Hm2 Hmr2 Hr2 _] Hq Hst
    (acc & a & i & Hd & Ha & Haddr & Hi & Hpeer) Hlen shown.
  destruct p as [s r k]. cbn [sending receiving link] in *.
  pose proof (native_request_sent processing now tx (with_user_channel chan_pop s) d acc a
    (addr_at k) i (peer_at k) Hst Hd Ha Haddr Hi Hpeer Hroom1) as Hsent.
  unfold send_and_carry. rewrite !acts_cons, !act_sender.
  rewrite (one_update_run now tx s _ Hq Hsent).
  rewrite (dial_and_request_turns now (addr_at k) (peer_at k) (encode_tx tx));
    [|done|simpl; by rewrite Hc1].
  erewrite act_carry_request; [|reflexivity|apply reaches_dialled|done]. rewrite act_receiver.
  unfold native_acts. simpl foldl.
  f_equal; [|exact (request_shown_run processing now tx id ch r Hm2 Hmr2 Hr2)].
  destruct s as [? ? ? ? ? [q c cl] ? ? ? ? ?]. simpl in *. by subst.
Qed.

Lemma answer_and_carry_run now p reply sig i ch oid :
  let answered := set_status RecvAddrConfirmed reply in
  swarm_works → channel_is_open ch = true →
  queue (p2p_commands (receiving p)) = [] → has_room 1 (p2p_commands (receiving p)) →
  queue (user_channel (receiving p)) = [] → has_room 1 (user_channel (receiving p)) →
  has_room 1 (swarm_messages (sending p)) → substream (link p) = Some (ch, oid) →
  recv_signature reply = Some sig → inbound_req_id reply = Some i →
  pending_request (receiving p) !! i = Some ch →
  N.of_nat (length (encode_tx answered)) < 2 ^ 63 →
  native_acts (answer_and_carry now reply) p = {|
    sending := (run_native_step processing now (StepMessages 1)
      (with_swarm_messages (chan_push (Response (encode_tx answered) oid)) (sending p))).2;
    receiving := with_swarm_calls (λ l, l ++ [SwarmSendResponse ch (encode_tx answered)])
      (with_pending_request (base.delete i)
        (with_moka (moka_remove (tx_nonce reply)) (receiving p)));
    link := link p |}.
Proof.
  intros answered Hworks Hopen Hc Hcr Hu Hur Hmr Hsub Hsig Hi Hp Hlen.
  destruct p as [s r k]. cbn [sending receiving link] in *.
  unfold answer_and_carry. rewrite !acts_cons, act_receiver.
  cbn [run_native_step]. rewrite (receiver_confirm_run reply sig r Hsig Hur). cbn [snd].
  fold answered. rewrite act_receiver.
  erewrite one_update_run; [|simpl; rewrite Hu; reflexivity|by apply confirmed_answer_run].
  rewrite act_receiver, (response_turn now (encode_tx answered) ch);
    [|done|done|simpl; by rewrite Hc].
  erewrite act_carry_response; [|reflexivity|exact Hsub|done].
  rewrite response_arrives, act_sender by done. unfold native_acts. cbn [foldl]. f_equal.
  destruct r as [? ? ? ? [q1 c1 cl1] [q2 c2 cl2] ? ? ? ? ?]. simpl in *. by subst.
Qed.

(** C21: Two native nodes carry out a transfer's first half over a network that delivers a
    request only to the peer it names and only to a node that is connected or was dialled
    at its address, and a response only on the channel of the request's substream.  The
    sender's update is sent to the peer its database has for the receiver, whose address
    is dialled first unless that peer is connected; framed, carried and read, it is shown
    to the receiver's user, with the identifier of its substream, whose channel is kept.
    When that user confirms, the confirmation goes back on that channel, which is taken;
    the sender's node checks the receiver's signature, and shows its user the transaction
    with the hash to sign, or that the receiver was refused.  (Both nodes are idle, the
    library's calls succeed, and the receiver's channel is still open.) *)
Theorem native_transfer now (p : NativePair) tx reply sig d id ch oid :
  let shown := set_inbound_req_id (Some (inbound_hash_id id)) tx in
  let answered := set_status RecvAddrConfirmed reply in
  let resp := set_outbound_req_id (Some (outbound_hash_id oid)) answered in
  swarm_works → channel_is_open ch = true → idle (sending p) → idle (receiving p) →
  queue (user_channel (sending p)) = [tx] → status tx = Genesis →
  knows (sending p) tx d (addr_at (link p)) (peer_at (link p)) →
  queue (user_channel (receiving p)) = [] → has_room 1 (user_channel (receiving p)) →
  recv_signature reply = Some sig → inbound_req_id reply = Some (inbound_hash_id id) →
  N.of_nat (length (encode_tx tx)) < 2 ^ 63 →
  N.of_nat (length (encode_tx answered)) < 2 ^ 63 →
  let p1 := native_acts (send_and_carry now id ch oid) p in
  let p2 := native_acts (answer_and_carry now reply) p1 in
  swarm_calls (sending p1) =
    request_calls (link p) (encode_tx tx) (swarm_calls (sending p)) ∧
  queue (rpc_channel (receiving p1)) = queue (rpc_channel (receiving p)) ++ [shown] ∧
  pending_request (receiving p1) !! inbound_hash_id id = Some ch ∧
  swarm_calls (receiving p2) =
    swarm_calls (receiving p) ++ [SwarmSendResponse ch (encode_tx answered)] ∧
  pending_request (receiving p2) !! inbound_hash_id id = None ∧
  (∀ ready l,
     validate_receiver_sender_address resp "Receiver" = Ok () →
     create_tx processing (set_status RecvAddrConfirmationPassed resp)
       (provider_calls (sending p)) = (Ok ready, l) →
     queue (rpc_channel (sending p2)) = queue (rpc_channel (sending p)) ++ [ready]) ∧
  (∀ e d',
     validate_receiver_sender_address resp "Receiver" = Err e →
     update_failed_tx (failed_response resp) d = (Ok (), d') →
     queue (rpc_channel (sending p2)) =
       queue (rpc_channel (sending p)) ++ [set_status RecvAddrFailed resp]).
Proof.
  intros shown answered resp Hworks Hopen Hs Hr Hq Hst Hknows Hu Hur Hsig Hi Hl1 Hl2 p1.
  pose proof (send_and_carry_run now p tx d id ch oid Hworks Hs Hr Hq Hst Hknows Hl1) as Hp1.
  cbv zeta in Hp1. fold p1 shown in Hp1.
  destruct Hr as [Hrc Hrr _ _ _ _], Hs as [_ _ Hm Hmr Hsr He].
  pose proof (answer_and_carry_run now p1 reply sig (inbound_hash_id id) ch oid) as Hp2.
  cbv zeta in Hp2. fold answered in Hp2. rewrite Hp1 in Hp2. cbn [sending receiving link] in Hp2.
  specialize (Hp2 Hworks Hopen Hrc (has_room_le 2 1 _ ltac:(lia) Hrr) Hu Hur Hmr eq_refl Hsig Hi
    (lookup_insert_eq _ _ _) Hl2).
  clearbody p1. subst p1. intros p2. unfold p2. rewrite Hp2. clear p2 Hp2.
  split_and!; [done|done|apply lookup_insert_eq|done|apply lookup_delete_eq| |].
  - intros ready l Hv Hc. cbn [sending].
    erewrite response_shown; [|simpl; rewrite Hm; reflexivity|by apply check_accepts|done]. done.
  - intros e d' Hv Hd. cbn [sending].
    erewrite response_shown; [|simpl; rewrite Hm; reflexivity|by eapply check_refuses|done]. done.
Qed.
End world.

(** ** Witness *)

Section witness.
#[local] Existing Instances sample_crypto release_profile MapMoka MapMoka_laws Leb128.
#[local] Existing Instances native_types native_p2p native_earlier native_earlier_laws.
#[local] Existing Instances native_alloy native_providers native_db native_redis native_swarm.

(** Alice's node with the transfer her user has initiated; Bob's. *)
Definition alice_initiated : NativeNode SampleDb unit :=
  with_user_channel (chan_push (native_tx Genesis None)) native_sample.
Definition alice_and_bob : NativePair := {|
  sending := alice_initiated; receiving := native_sample;
  link := {| peer_at := "bob's peer"; addr_at := "/bob"; substream := None |} |}.

(** Bob's confirmation of what he is shown. *)
Definition bob_reply : TxStateMachine := native_tx Genesis (Some 7).

Definition req_9 : OutboundRequestId := 9.

#[local] Instance sample_ids : EqDecision PeerId := String.string_dec.
#[local] Instance sample_addrs : EqDecision Multiaddr := String.string_dec.
#[local] Instance sample_channels : EqDecision ResponseChannel := N.eq_dec.

Lemma native_transfer_witness :
  let p1 := native_acts native_processing (send_and_carry 5 req_7 chan_3 req_9) alice_and_bob in
  let p2 := native_acts native_processing (answer_and_carry 5 bob_reply) p1 in
  swarm_calls (sending p1) = [SwarmDial "/bob"; SwarmDial "/bob";
    SwarmSendRequest "bob's peer" (encode_tx (native_tx Genesis None))] ∧
  queue (rpc_channel (receiving p1)) = [bob_reply] ∧
  status <$> queue (rpc_channel (sending p2)) = [RecvAddrConfirmationPassed].
Proof.
  assert (idle alice_initiated ∧ idle native_sample) as [Ha Hb].
  { split; split; try reflexivity; split; simpl; (reflexivity || lia). }
  destruct (native_transfer native_processing 5 alice_and_bob (native_tx Genesis None) bob_reply
    bob_signature ({["bob" := bob_peer]}, 0) req_7 chan_3 req_9)
    as (Hcalls & Hshown & _ & _ & _ & Hok & _);
    [first [done|by exists bob_peer, "/bob", "bob's peer"|split; [done|simpl; lia]
      |vm_compute; reflexivity]..|].
  split; [exact Hcalls|]. split; [exact Hshown|]. cbv zeta.
  erewrite Hok; [|vm_compute; reflexivity|vm_compute; reflexivity]. reflexivity.
Defined.
End witness.
