(* ===== verification/NativeStart.v ===== *)
(** The start of the native node ([MainServiceWorker::start_rpc_server], [run], and the
    variants [e2e_new] and [e2e_run] in [node/native/src/lib.rs]), and how long it runs.

    The JSON-RPC server is [jsonrpsee]'s ([RpcServer.v]) and the task manager
    [sc_service]'s: a node runs as long as all of its essential tasks do. *)

From S2P Require Import Prelude RpcServer DataStructure Codec DbInterface Lru TxProcessing Node.
From S2P Require Import NativeTypes NativeTx NativeNode NativeP2p NativeRpc.
From S2P Require Import NativeService NativeRuns NativeProps NativeSamples.
Open Scope N_scope.

(** ** The task manager *)

(** [TaskManager::new], and [TaskManager::future] by the outcomes of the essential tasks;
    a task that is still running is [Parked]. *)
Class TaskManager := {
  manager_new : outcome unit;
  manager_future : list (outcome unit) → outcome unit
}.
Class TaskManagerLaws `{TaskManager} : Prop := {
  future_waits l : Forall (λ o, o = Parked) l → manager_future l = Parked;
  future_fails l o : o ∈ l → o ≠ Parked → ∃ e, manager_future l = Err e
}.

Section start.
Context {P2P : P2pTypes} {NP : NativeP2p} {MK : MokaCache} {CR : Crypto} {AL : Alloy}.
Context {PR : Providers} {EA : Earlier} {D R : Type} {DB : NativeDb D} {RD : Redis R}.
Context {SW : SwarmLib} {BP : BuildProfile} {RS : RpcServerLib} {TM : TaskManager}.
Abbreviation NativeM := (M (NativeNode D R)).

(** [start_rpc_server]: the address it listens on. *)
Definition start_rpc_server (url : string) : outcome string :=
  server ← rpc_build url;
  address ← context "failed to get address: " (rpc_local_addr server);
  context "rpc handler error: " (rpc_start server);;
  Ok address.

(** A task of [run]: an error is logged, and the task ends. *)
Definition essential_task (res : outcome unit) : outcome unit :=
  match res with Err _ => Ok () | o => o end.

(** [e2e_run]: the server, then the two essential tasks, by their outcomes. *)
Definition e2e_run (rpc_url : string) (updates messages : outcome unit) : outcome unit :=
  context "failed to start rpc server, caused by: " (start_rpc_server rpc_url);;
  manager_new;;
  manager_future [essential_task updates; essential_task messages].

(** [run]: the same after [new]. *)
Definition native_run (main_worker : outcome (PeerId * Multiaddr * TxProcessingWorker * string))
    (updates messages : outcome unit) : outcome unit :=
  '(_, _, _, rpc_url) ← main_worker;
  e2e_run rpc_url updates messages.

(** The ports of [e2e_new]. *)
Definition e2e_ports (port : N) : outcome (N * N) :=
  rpc_port ← sub_u16 port 100;
  p2p_port ← sub_u16 port 589;
  Ok (rpc_port, p2p_port).

(** Its state: all channels have room for ten. *)
Definition e2e_node_new (d : D) (r : R) : NativeNode D R := {|
  db := d; redis := r; moka := moka_new; rpc_channel := chan_new 10;
  user_channel := chan_new 10; p2p_commands := chan_new 10; pending_request := ∅;
  swarm_messages := chan_new 256; error_channel := chan_close (chan_new 100);
  provider_calls := []; swarm_calls := [] |}.

(** [e2e_new], from an opened database and redis client. *)
Definition e2e_new (port : N) (local_ip : outcome (bool * string)) (self : Identity)
    (parses_url : string → bool) (account_profile_hash : string)
    (accounts : list (string * string)) :
    NativeM (PeerId * Multiaddr * TxProcessingWorker * string) :=
  '(rpc_port, p2p_port) ← lift (e2e_ports port);
  '(node_id, url) ← P2pWorker_new local_ip self p2p_port account_profile_hash accounts;
  worker ← lift (TxProcessingWorker_new parses_url chain_networks);
  rpc_url ← lift (rpc_url local_ip rpc_port);
  mret (node_id, url, worker, rpc_url).

(** ** How long a node runs *)

Context {TML : TaskManagerLaws} (processing : TxProcessingWorker) (now : N).
Implicit Types (s : NativeNode D R) (tx : TxStateMachine).

Lemma two_tasks o o' :
  (manager_future [o; o'] = Parked ↔ o = Parked ∧ o' = Parked) ∧
  (manager_future [o; o'] ≠ Parked → ∃ e, manager_future [o; o'] = Err e).
Proof.
  destruct (decide (o = Parked)) as [->|Ho]; [destruct (decide (o' = Parked)) as [->|Ho]|].
  - rewrite future_waits by (repeat constructor). by split.
  - destruct (future_fails [Parked; o'] o') as [e ->]; [right; left|done|].
    split; [by split; [|intros [_ ?]]|by exists e].
  - destruct (future_fails [o; o'] o) as [e ->]; [left|done|].
    split; [by split; [|intros [? _]]|by exists e].
Qed.

Lemma essential_parked o : essential_task o = Parked ↔ o = Parked.
Proof. by destruct o. Qed.

(** A started node runs as long as both of its tasks do; it ends with an error when one
    of them has ended, whether with success, an error or a panic. *)
Theorem node_runs_with_both_tasks id addr worker url address updates messages :
  start_rpc_server url = Ok address → manager_new = Ok () →
  let r := native_run (Ok (id, addr, worker, url)) updates messages in
  (r = Parked ↔ updates = Parked ∧ messages = Parked) ∧
  (r ≠ Parked → ∃ e, r = Err e).
Proof.
  intros Hs Hm. unfold native_run, e2e_run. simpl. rewrite Hs. simpl. rewrite Hm. simpl.
  destruct (two_tasks (essential_task updates) (essential_task messages)) as [H1 H2].
  split; [|exact H2]. by rewrite H1, !essential_parked.
Qed.

(** The outcomes of the tasks, after enough turns. *)
Definition updates_of (turns : nat) s : outcome unit :=
  (handle_incoming_rpc_tx_updates processing now turns s).1.
Definition messages_of (turns : nat) s : outcome unit :=
  (handle_swarm_event_messages processing now turns s).1.

(** A request that does not decode, from any peer, panics the task that reads it, at its
    next turn; and so it ends the node. *)
Theorem malformed_request_ends_the_node id addr worker url address data req ch s turns updates :
  start_rpc_server url = Ok address → manager_new = Ok () →
  queue (swarm_messages s) = [] → has_room 1 (swarm_messages s) → decode_tx data = None →
  panics (messages_of (S turns) (arrive req data ch s)) = true ∧
  ∃ e, native_run (Ok (id, addr, worker, url)) updates
    (messages_of (S turns) (arrive req data ch s)) = Err e.
Proof.
  intros Hs Hm Hq Hroom Hd.
  assert (messages_of (S turns) (arrive req data ch s) =
    Panic (ExpectFailed "failed to decode request body")) as Hp.
  { unfold messages_of. rewrite arrive_run by done. simpl. rewrite run_bind_gets. simpl.
    rewrite Hq. simpl. rewrite run_bind_modify. unfold mbind, M_bind, lift. by rewrite Hd. }
  rewrite Hp. split; [done|].
  unfold native_run, e2e_run. simpl. rewrite Hs. simpl. rewrite Hm. simpl.
  by eapply future_fails; [right; left|].
Qed.

Lemma unreachable_redis_fails tx e e' d s :
  status tx = Genesis → error_channel s = chan_close (chan_new 100) →
  get_saved_user_peers (receiver_address tx) (db s) = (Err e, d) →
  redis_connect (redis s) = Err e' →
  native_tx_update processing now tx s =
    (Err ("failed to connect to redis, caused by: " +:+ e'), with_db (λ _, d) s).
Proof.
  intros Hst He Hd Hr. unfold native_tx_update. rewrite Hst. unfold handle_genesis_tx_state.
  erewrite run_bind_ok; [|unfold attempt, on_db; simpl; rewrite Hd; reflexivity].
  cbv beta iota. unfold report_database.
  erewrite run_bind_ok; [|by apply send_error_run]. unfold fetch_profile.
  rewrite run_bind_bind. erewrite run_bind_ok.
  2: { apply error_of_err. rewrite run_bind_gets. simpl. rewrite Hr. reflexivity. }
  cbv beta iota. rewrite run_bind_bind. unfold report_database.
  by erewrite run_bind_ok; [|by apply send_error_run].
Qed.

(** A transfer to a receiver that is not in the local database, while redis cannot be
    reached, ends the task of the updates, and so the node. *)
Theorem unreachable_redis_ends_the_node id addr worker url address tx rest e e' d s turns messages :
  start_rpc_server url = Ok address → manager_new = Ok () →
  queue (user_channel s) = tx :: rest → status tx = Genesis →
  error_channel s = chan_close (chan_new 100) →
  get_saved_user_peers (receiver_address tx) (db s) = (Err e, d) →
  redis_connect (redis s) = Err e' →
  updates_of (S turns) s = Err ("failed to connect to redis, caused by: " +:+ e') ∧
  ∃ e, native_run (Ok (id, addr, worker, url)) (updates_of (S turns) s) messages = Err e.
Proof.
  intros Hs Hm Hq Hst He Hd Hr.
  assert (updates_of (S turns) s = Err ("failed to connect to redis, caused by: " +:+ e')) as Hu.
  { unfold updates_of. simpl. rewrite run_bind_gets, Hq, run_bind_modify. unfold mbind, M_bind.
    by rewrite (unreachable_redis_fails tx e e' d) by done. }
  rewrite Hu. split; [done|].
  unfold native_run, e2e_run. simpl. rewrite Hs. simpl. rewrite Hm. simpl.
  by eapply future_fails; [left|].
Qed.
End start.

(** ** The methods a user may call *)

Section methods.
Context {P2P : P2pTypes} {MK : MokaCache} {CR : Crypto} {AL : Alloy} {EA : Earlier}.
Context {NP : NativeP2p} {PR : Providers} {D R : Type} {DB : NativeDb D} {RD : Redis R}.
Context {SW : SwarmLib} {BP : BuildProfile}.

(** The trait [TransactionRpc]; a subscription by the turns of its task. *)
Inductive TransactionRpc :=
  | AddAccount (name : string) (accounts : list (string * ChainSupported))
  | InitiateTransaction (sender receiver : string) (amount : N) (token network code_word : string)
  | RevertTransaction (tx_state : TxStateMachine)
  | SenderConfirm (tx : TxStateMachine)
  | WatchTxUpdates (to_json accepts : TxStateMachine → bool)
  | FetchPendingTxUpdates (iterate : gmap N TxStateMachine → list (N * TxStateMachine))
  | ReceiverConfirm (tx : TxStateMachine)
  | SubscribeNodeExecutionStatus (accepted : bool).

Definition method_name (call : TransactionRpc) : string :=
  match call with
  | AddAccount _ _ => "addAccount"
  | InitiateTransaction _ _ _ _ _ _ => "initiateTransaction"
  | RevertTransaction _ => "revertTransaction"
  | SenderConfirm _ => "senderConfirm"
  | WatchTxUpdates _ _ => "subscribeTxUpdates"
  | FetchPendingTxUpdates _ => "fetchPendingTxUpdates"
  | ReceiverConfirm _ => "receiverConfirm"
  | SubscribeNodeExecutionStatus _ => "subscribeNodeExecutionStatus"
  end.

Definition handle_call (call : TransactionRpc) : M (NativeNode D R) unit :=
  match call with
  | AddAccount name accounts => add_account name accounts
  | InitiateTransaction sender receiver amount token network code_word =>
      initiate_transaction sender receiver amount token network code_word
  | RevertTransaction tx_state => revert_transaction tx_state
  | SenderConfirm tx => sender_confirm tx
  | WatchTxUpdates to_json accepts => watch_turn to_json accepts;; skip
  | FetchPendingTxUpdates iterate => fetch_pending_tx_updates iterate;; skip
  | ReceiverConfirm tx => receiver_confirm tx
  | SubscribeNodeExecutionStatus accepted => lift (subscribe_node_execution_status accepted);; skip
  end.

(** Whatever a user calls, the node keeps what its runs keep: errors are never reported,
    no connection is closed, transactions are cached under their nonces.  [addAccount]
    changes nothing and panics; the subscription to errors never delivers one. *)
Theorem calls_keep_the_node {ML : MokaLaws} (call : TransactionRpc) (s : NativeNode D R)
    (processing : TxProcessingWorker) (now : N) :
  (NativeInvariant s → NativeInvariant (handle_call call s).2) ∧
  (method_name call = "addAccount" → panics (handle_call call s).1 = true ∧ (handle_call call s).2 = s) ∧
  (∀ errors, subscribe_node_execution_status true = Ok errors → errors = []).
Proof.
  split_and!; [|by destruct call|by intros errors [= <-]].
  destruct call; try (by intros Hs).
  - intros Hs. exact (kept_step processing now (StepInitiate _ _ _ _ _ _) s Hs).
  - intros Hs. exact (kept_step processing now (StepRevert _) s Hs).
  - intros Hs. exact (kept_step processing now (StepSenderConfirm _) s Hs).
  - intros Hs. exact (kept_step processing now (StepWatch _ _) s Hs).
  - intros Hs. exact (kept_step processing now (StepReceiverConfirm _) s Hs).
  - intros Hs. by destruct accepted.
Qed.
End methods.

(** A port below 589 ends a debug build of the end-to-end node. *)
Theorem low_e2e_port_panics port :
  port < 589 → e2e_ports (BP := debug_profile) port = Panic ArithmeticOverflow.
Proof.
  intros Hp. unfold e2e_ports, sub_u16. destruct (100 <=? port); simpl; [|done].
  by rewrite (proj2 (N.leb_gt _ _) Hp).
Qed.

(** ** Witnesses *)

Section witness.
#[local] Existing Instances sample_crypto release_profile MapMoka MapMoka_laws.
#[local] Existing Instances native_types native_p2p native_earlier.
#[local] Existing Instances native_alloy native_providers native_db native_redis native_swarm.

#[local] Instance sample_server_lib : RpcServerLib := sample_rpc_server (λ _, true).
#[local] Instance sample_manager : TaskManager := {|
  manager_new := Ok ();
  manager_future l := if forallb (λ o, bool_decide (o = Parked)) l then Parked
                      else Err "Essential task failed." |}.
#[local] Instance sample_manager_laws : TaskManagerLaws.
Proof.
  split; simpl.
  - intros l Hl. rewrite (proj2 (forallb_forall _ _)); [done|].
    intros o Ho. apply bool_decide_eq_true_2. rewrite list.Forall_forall in Hl.
    apply Hl. by apply list_elem_of_In.
  - intros l o Ho Hne. destruct (forallb _ _) eqn:E; [|by eexists]. exfalso. apply Hne.
    rewrite forallb_forall in E. apply list_elem_of_In in Ho. specialize (E o Ho).
    by apply bool_decide_eq_true_1 in E.
Qed.

Definition bob_id : PeerId := "bob's peer".
Definition bob_addr : Multiaddr := "/bob".

(** Mallory's message is a single byte; the node of the sample goes down. *)
Lemma malformed_request_ends_the_node_witness :
  let messages := messages_of native_processing 5 3 (arrive req_7 [Byte.x2a] chan_3 native_sample) in
  panics messages = true ∧
  native_run (Ok (bob_id, bob_addr, native_processing, "127.0.0.1:1")) Parked messages = Err "Essential task failed.".
Proof.
  destruct (malformed_request_ends_the_node native_processing 5 bob_id bob_addr
    native_processing "127.0.0.1:1" "127.0.0.1:1" [Byte.x2a] req_7 chan_3 native_sample 2 Parked)
    as [Hp _]; [reflexivity|reflexivity|reflexivity|split; [reflexivity|simpl; lia]
               |vm_compute; reflexivity|].
  split; [exact Hp|vm_compute; reflexivity].
Defined.

End witness.
